(** * EduRTOS: task model, scheduler and kernel registry

    A shallow embedding of [src/kernel/task.cpp], [src/kernel/scheduler.cpp]
    and [src/kernel/kernel.cpp] (with their headers), followed by the
    properties of the specification checked against it.

    Conventions of the embedding.
    - [std::uint8_t] and [std::size_t] values are integers in [Z]; every
      arithmetic result is reduced with [wrap8] / [wrap64], as the unsigned
      types do.
    - [std::chrono] durations and time points are tick counts in [Z]
      (milliseconds, microseconds, and nanoseconds for [steady_clock]).  Their
      signed 64-bit overflow needs centuries of uptime and is not modelled.
    - [float] is IEEE-754 binary32, computed with the Standard Library's
      [SpecFloat] at precision 24 and [emax] 128.  A [float] to [int]
      conversion whose truncated value does not fit [int] is undefined
      behaviour in C++: it is [None] here, and so is every operation that
      runs into it.
    - A [TaskPtr] ([std::shared_ptr<Task>]) is an index into a store of task
      objects that the scheduler, the ready queue and the registry share.
    - Threads are not modelled as such: a call of the public interface is
      one atomic step, and the dispatcher and the deadline monitor advance in
      steps that end where the thread releases its mutex or where a variable
      that is written without the mutex is read again.  Every step can be
      interleaved with every other, also where the mutex would make the other
      thread wait: the model has every behaviour of the program, and some
      more.
    - A mutex appears at one point only: where a thread locks a
      [std::mutex] that it already owns (see [lock_guard]).
    - Console output ([std::cout], [std::cerr]) is left out. *)

From Stdlib Require Import ZArith Bool List Lia String Ascii DecimalString.
From Stdlib Require Import SpecFloat.
From stdpp Require Import base option list gmap strings.

Local Open Scope Z_scope.

(* ===================================================================== *)
(** * Part I: the program *)
(* ===================================================================== *)

(** ** Machine arithmetic *)

Definition wrap8 (z : Z) : Z := z mod 2 ^ 8.
Definition wrap64 (z : Z) : Z := z mod 2 ^ 64.

(** Conversion of an unsigned 64-bit value to [long long]. *)
Definition to_i64 (z : Z) : Z :=
  let w := wrap64 z in if w <? 2 ^ 63 then w else w - 2 ^ 64.

Definition INT_MIN : Z := - 2 ^ 31.
Definition INT_MAX : Z := 2 ^ 31 - 1.

(** [std::min<std::uint8_t>(a, b)] *)
Definition min_u8 (a b : Z) : Z := Z.min (wrap8 a) (wrap8 b).

(** [std::chrono::duration_cast] from nanoseconds to a coarser unit:
    integer division truncating toward zero. *)
Definition ns_to_ms (d : Z) : Z := Z.quot d 1000000.
Definition ns_to_us (d : Z) : Z := Z.quot d 1000.
Definition ms_to_ns (d : Z) : Z := d * 1000000.

(** ** Single-precision floating point *)

Definition f32_prec : Z := 24.
Definition f32_emax : Z := 128.

Definition f32_mul : spec_float -> spec_float -> spec_float := SFmul f32_prec f32_emax.
Definition f32_add : spec_float -> spec_float -> spec_float := SFadd f32_prec f32_emax.
Definition f32_div : spec_float -> spec_float -> spec_float := SFdiv f32_prec f32_emax.

(** Conversion of an integer to [float], rounding to nearest even. *)
Definition f32_of_Z (z : Z) : spec_float :=
  binary_normalize f32_prec f32_emax z 0 false.

(** The literal [0.05f]: the binary32 value nearest to 1/20, which is
    13421773 * 2^-28. *)
Definition f32_0_05 : spec_float := S754_finite false 13421773 (-28).

(** Truncation toward zero of a finite value [(-1)^s * m * 2^e]. *)
Definition f32_trunc (s : bool) (m : positive) (e : Z) : Z :=
  let q := if 0 <=? e then Zpos m * 2 ^ e else Zpos m / 2 ^ (- e) in
  if s then - q else q.

(** [static_cast<int>(f)]: defined only when the truncated value is
    representable in [int]. *)
Definition f32_to_int (f : spec_float) : option Z :=
  match f with
  | S754_zero _ => Some 0
  | S754_finite s m e =>
      let v := f32_trunc s m e in
      if (INT_MIN <=? v) && (v <=? INT_MAX) then Some v else None
  | S754_infinity _ | S754_nan => None
  end.

(** ** Tasks ([task.hpp], [task.cpp]) *)

Inductive TaskState := READY | RUNNING | BLOCKED | SUSPENDED | TERMINATED.

Inductive SchedulePolicy := PREEMPTIVE | COOPERATIVE.

#[global] Instance TaskState_eq_dec : EqDecision TaskState.
Proof. solve_decision. Defined.

#[global] Instance SchedulePolicy_eq_dec : EqDecision SchedulePolicy.
Proof. solve_decision. Defined.

Record TaskStatistics := mkStats {
  execution_count : Z;          (* std::size_t *)
  deadline_misses : Z;          (* std::size_t *)
  last_execution : Z;           (* steady_clock::time_point, ns since epoch *)
  total_execution_time : Z;     (* microseconds *)
  average_execution_time : Z;   (* microseconds *)
  deadline_counter : Z          (* milliseconds *)
}.

(** [handler_] is an opaque [std::function<void()>]; it is not stored in the
    record: what one invocation does is supplied where [execute] runs. *)
Record Task := mkTask {
  name_ : string;
  state_ : TaskState;
  policy_ : SchedulePolicy;
  base_priority_ : Z;           (* std::uint8_t *)
  dynamic_priority_ : Z;        (* std::atomic<std::uint8_t> *)
  period_ : Z;                  (* milliseconds *)
  deadline_ : Z;                (* milliseconds *)
  statistics_ : TaskStatistics;
  stack_size_ : Z;
  recoverable_ : bool
}.

Definition initial_statistics : TaskStatistics := mkStats 0 0 0 0 0 0.

Definition with_state (s : TaskState) (t : Task) : Task :=
  mkTask (name_ t) s (policy_ t) (base_priority_ t) (dynamic_priority_ t)
         (period_ t) (deadline_ t) (statistics_ t) (stack_size_ t) (recoverable_ t).

Definition with_dynamic_priority (p : Z) (t : Task) : Task :=
  mkTask (name_ t) (state_ t) (policy_ t) (base_priority_ t) p
         (period_ t) (deadline_ t) (statistics_ t) (stack_size_ t) (recoverable_ t).

Definition with_statistics (st : TaskStatistics) (t : Task) : Task :=
  mkTask (name_ t) (state_ t) (policy_ t) (base_priority_ t) (dynamic_priority_ t)
         (period_ t) (deadline_ t) st (stack_size_ t) (recoverable_ t).

(** The constructor.  [priority] is converted to [std::uint8_t] at the call. *)
Definition TaskBase (name : string) (priority : Z) (policy : SchedulePolicy)
    (period deadline : Z) (stack_size : Z) (recoverable : bool) : Task :=
  mkTask name READY policy
         (min_u8 priority 99)
         (min_u8 priority 99)
         period
         (if 0 <? deadline then deadline else period)
         initial_statistics
         stack_size
         recoverable.

Inductive HandlerOutcome := Returns | Throws.

(** What one invocation of the handler does, seen from the task object it
    runs for: how it ends, and the contents of the object at that point (a
    handler can reach its own task through the kernel). *)
Definition Handler : Type := Task -> HandlerOutcome * Task.

(** [execute()], up to the call of the handler. *)
Definition execute_begin (now : Z) (t : Task) : Task :=
  let t1 := with_state RUNNING t in
  let s := statistics_ t1 in
  with_statistics
    (mkStats (wrap64 (execution_count s + 1)) (deadline_misses s) now
             (total_execution_time s) (average_execution_time s) 0)
    t1.

(** [execute()], from the point where the handler has returned or thrown. *)
Definition execute_end (o : HandlerOutcome) (t : Task) : Task :=
  match o with
  | Throws =>
      if negb (recoverable_ t) then with_state TERMINATED t
      else with_state READY t
  | Returns => with_state READY t
  end.

Definition execute (now : Z) (handler : Handler) (t : Task) : Task :=
  let '(o, t') := handler (execute_begin now t) in
  execute_end o t'.

Definition suspend (t : Task) : Task :=
  if decide (state_ t <> TERMINATED) then with_state SUSPENDED t else t.

Definition resume (t : Task) : Task :=
  if decide (state_ t = SUSPENDED) then with_state READY t else t.

Definition terminate (t : Task) : Task := with_state TERMINATED t.

Definition setState (s : TaskState) (t : Task) : Task := with_state s t.

(** [base_priority_ * 0.05f * deadline_misses], then
    [base_priority_ + priority_boost], all in [float]. *)
Definition boosted_priority (base misses : Z) : spec_float :=
  let priority_boost :=
    f32_mul (f32_mul (f32_of_Z base) f32_0_05) (f32_of_Z misses) in
  f32_add (f32_of_Z base) priority_boost.

Definition updatePriority (t : Task) : option Task :=
  if 0 <? deadline_misses (statistics_ t) then
    k ← f32_to_int (boosted_priority (base_priority_ t)
                                     (deadline_misses (statistics_ t)));
    Some (with_dynamic_priority (wrap8 (Z.min 99 k)) t)
  else
    Some (with_dynamic_priority (base_priority_ t) t).

Definition recordDeadlineMiss (t : Task) : option Task :=
  let s := statistics_ t in
  updatePriority
    (with_statistics
       (mkStats (execution_count s) (wrap64 (deadline_misses s + 1))
                (last_execution s) (total_execution_time s)
                (average_execution_time s) (deadline_counter s))
       t).

Definition updateStatistics (execution_time : Z) (t : Task) : Task :=
  let s := statistics_ t in
  let total := total_execution_time s + execution_time in
  let average :=
    if 0 <? execution_count s
    then to_i64 (wrap64 total / execution_count s)
    else average_execution_time s in
  with_statistics
    (mkStats (execution_count s) (deadline_misses s) (last_execution s)
             total average (deadline_counter s))
    t.

Definition set_deadline_counter (c : Z) (t : Task) : Task :=
  let s := statistics_ t in
  with_statistics
    (mkStats (execution_count s) (deadline_misses s) (last_execution s)
             (total_execution_time s) (average_execution_time s) c)
    t.

Definition updateDeadlineCounter (elapsed : Z) (t : Task) : option Task :=
  if 0 <? deadline_ t then
    let t1 := set_deadline_counter (deadline_counter (statistics_ t) + elapsed) t in
    if deadline_ t1 <? deadline_counter (statistics_ t1) then
      t2 ← recordDeadlineMiss t1;
      Some (set_deadline_counter 0 t2)
    else Some t1
  else Some t.

Definition isDeadlineApproaching (t : Task) : bool :=
  if deadline_ t =? 0 then false
  else Z.quot (deadline_ t * 4) 5 <? deadline_counter (statistics_ t).

Definition resetStatistics (t : Task) : Task :=
  let s := statistics_ t in
  with_dynamic_priority (base_priority_ t)
    (with_statistics (mkStats 0 0 (last_execution s) 0 0 0) t).

(** ** The store of task objects *)

Abbreviation TaskPtr := nat (only parsing).

Abbreviation Store := (list Task) (only parsing).

(** The contents read through a pointer that owns no object; a
    [std::shared_ptr] handed out by the program always owns one. *)
Definition no_task : Task :=
  mkTask EmptyString TERMINATED PREEMPTIVE 0 0 0 0 initial_statistics 0 false.

Definition deref (h : Store) (p : TaskPtr) : Task := default no_task (h !! p).

(** [p->f()] for a method that cannot fail, and for one that can. *)
Definition call (f : Task -> Task) (p : TaskPtr) (h : Store) : Store :=
  <[p := f (deref h p)]> h.

Definition call_opt (f : Task -> option Task) (p : TaskPtr) (h : Store)
  : option Store :=
  t ← f (deref h p); Some (<[p := t]> h).

(** [for (auto &task : ps) task->f();] *)
Fixpoint for_each (f : Task -> option Task) (ps : list TaskPtr) (h : Store)
  : option Store :=
  match ps with
  | [] => Some h
  | p :: ps' => h' ← call_opt f p h; for_each f ps' h'
  end.

(** [std::make_shared<Task>(...)] *)
Definition make_shared (t : Task) (h : Store) : TaskPtr * Store :=
  (length h, h ++ [t]).

(** ** The ready queue

    [std::priority_queue<TaskPtr, std::vector<TaskPtr>, TaskPriorityCompare>].
    The container is the C++ library's; the standard fixes its contract
    ([top] is a greatest element for the comparison), not the layout.  It is
    modelled by one conforming implementation: the entries kept in
    non-increasing order of the comparison, [top] and [pop] at the front.  The
    comparison reads the priority the task has when it is evaluated.
    Which of several entries of the same priority is on top the standard
    leaves open: here it is the one pushed first, a binary heap such as
    libstdc++'s makes other choices, and so it does for entries whose
    priority changed while they were in the queue.  The properties stated of
    the queue are therefore about which tasks it holds and about the priority
    of what it returns, never about the place of one entry among its
    equals. *)

Definition TaskPriorityCompare (h : Store) (a b : TaskPtr) : bool :=
  dynamic_priority_ (deref h a) <? dynamic_priority_ (deref h b).

Fixpoint pq_push (h : Store) (x : TaskPtr) (q : list TaskPtr) : list TaskPtr :=
  match q with
  | [] => [x]
  | y :: q' =>
      if TaskPriorityCompare h y x then x :: q else y :: pq_push h x q'
  end.

Definition pq_top (q : list TaskPtr) : option TaskPtr := head q.
Definition pq_pop (q : list TaskPtr) : list TaskPtr := tail q.

(** ** The scheduler ([scheduler.hpp], [scheduler.cpp]) *)

Inductive PreemptionMode := NONE | TIME_SLICE | PRIORITY | HYBRID.

#[global] Instance PreemptionMode_eq_dec : EqDecision PreemptionMode.
Proof. solve_decision. Defined.

Record Scheduler := mkScheduler {
  all_tasks_ : list TaskPtr;
  ready_queue_ : list TaskPtr;
  current_task_ : option TaskPtr;
  is_running_ : bool;
  time_slice_ : Z;                       (* milliseconds *)
  last_schedule_time_ : Z;               (* time point *)
  preemption_mode_ : PreemptionMode;
  force_reschedule_ : bool;
  task_symbols_ : gmap nat ascii;
  cpu_utilization_ : spec_float;
  idle_start_time_ : Z;                  (* time point *)
  total_run_time_ : Z;                   (* microseconds *)
  total_idle_time_ : Z;                  (* microseconds *)
  recovery_attempts_ : Z;                (* std::atomic<size_t> *)
  (* the function-local statics of schedulerLoop and deadlineMonitorLoop *)
  last_priority_adjustment : option Z;
  last_check_time : option Z
}.

Definition MAX_RECOVERY_ATTEMPTS : Z := 3.

(** Where the dispatcher thread stands in [schedulerLoop]:
    - at the head of the loop;
    - inside the handler it called;
    - back from [execute()] and about to take the scheduler mutex again
      (line 194);
    - in the timed wait of the idle branch (line 225);
    - past [lock.unlock()] (line 186) with a task chosen, and about to set it
      RUNNING and to call [execute()];
    - past line 217 (or the wait, line 228), before the reschedule test of
      line 243: the mutex is held, but [force_reschedule_] is an atomic that
      [yield()] writes without it;
    - inside [adjustPriorities()] (line 260), waiting for the scheduler mutex
      that the dispatcher itself holds: for ever.
    At the points [InHandler], [AfterExecute], [InWait] and [Selected] the
    mutex is released.  At [Blocked] it is held for good, so the calls of
    other threads that take it would wait as well; the steps below do not
    take these calls out, which gives the model the runs of the program and
    more: what holds of every run of the model holds of every run of the
    program. *)
Inductive DispatcherPc :=
| AtLoopHead
| InHandler (start_time : Z)
| AfterExecute (start_time : Z)
| InWait
| Selected (start_time : Z)
| BeforeReschedule
| Blocked.

(** The kernel singleton ([kernel.hpp]) with its scheduler, the store, and
    the dispatcher's control point. *)
Record World := mkWorld {
  store : Store;
  scheduler_ : Scheduler;
  tasks_ : gmap string TaskPtr;
  dispatcher : DispatcherPc
}.

Definition with_store (h : Store) (w : World) : World :=
  mkWorld h (scheduler_ w) (tasks_ w) (dispatcher w).
Definition with_scheduler (s : Scheduler) (w : World) : World :=
  mkWorld (store w) s (tasks_ w) (dispatcher w).
Definition with_tasks (m : gmap string TaskPtr) (w : World) : World :=
  mkWorld (store w) (scheduler_ w) m (dispatcher w).
Definition with_dispatcher (pc : DispatcherPc) (w : World) : World :=
  mkWorld (store w) (scheduler_ w) (tasks_ w) pc.

Definition set_all_tasks (x : list TaskPtr) (s : Scheduler) : Scheduler :=
  mkScheduler x (ready_queue_ s) (current_task_ s) (is_running_ s)
    (time_slice_ s) (last_schedule_time_ s) (preemption_mode_ s)
    (force_reschedule_ s) (task_symbols_ s) (cpu_utilization_ s)
    (idle_start_time_ s) (total_run_time_ s) (total_idle_time_ s)
    (recovery_attempts_ s) (last_priority_adjustment s) (last_check_time s).
Definition set_ready_queue (x : list TaskPtr) (s : Scheduler) : Scheduler :=
  mkScheduler (all_tasks_ s) x (current_task_ s) (is_running_ s)
    (time_slice_ s) (last_schedule_time_ s) (preemption_mode_ s)
    (force_reschedule_ s) (task_symbols_ s) (cpu_utilization_ s)
    (idle_start_time_ s) (total_run_time_ s) (total_idle_time_ s)
    (recovery_attempts_ s) (last_priority_adjustment s) (last_check_time s).
Definition set_current_task (x : option TaskPtr) (s : Scheduler) : Scheduler :=
  mkScheduler (all_tasks_ s) (ready_queue_ s) x (is_running_ s)
    (time_slice_ s) (last_schedule_time_ s) (preemption_mode_ s)
    (force_reschedule_ s) (task_symbols_ s) (cpu_utilization_ s)
    (idle_start_time_ s) (total_run_time_ s) (total_idle_time_ s)
    (recovery_attempts_ s) (last_priority_adjustment s) (last_check_time s).
Definition set_is_running (x : bool) (s : Scheduler) : Scheduler :=
  mkScheduler (all_tasks_ s) (ready_queue_ s) (current_task_ s) x
    (time_slice_ s) (last_schedule_time_ s) (preemption_mode_ s)
    (force_reschedule_ s) (task_symbols_ s) (cpu_utilization_ s)
    (idle_start_time_ s) (total_run_time_ s) (total_idle_time_ s)
    (recovery_attempts_ s) (last_priority_adjustment s) (last_check_time s).
Definition set_time_slice (x : Z) (s : Scheduler) : Scheduler :=
  mkScheduler (all_tasks_ s) (ready_queue_ s) (current_task_ s) (is_running_ s)
    x (last_schedule_time_ s) (preemption_mode_ s)
    (force_reschedule_ s) (task_symbols_ s) (cpu_utilization_ s)
    (idle_start_time_ s) (total_run_time_ s) (total_idle_time_ s)
    (recovery_attempts_ s) (last_priority_adjustment s) (last_check_time s).
Definition set_last_schedule_time (x : Z) (s : Scheduler) : Scheduler :=
  mkScheduler (all_tasks_ s) (ready_queue_ s) (current_task_ s) (is_running_ s)
    (time_slice_ s) x (preemption_mode_ s)
    (force_reschedule_ s) (task_symbols_ s) (cpu_utilization_ s)
    (idle_start_time_ s) (total_run_time_ s) (total_idle_time_ s)
    (recovery_attempts_ s) (last_priority_adjustment s) (last_check_time s).
Definition set_preemption_mode (x : PreemptionMode) (s : Scheduler) : Scheduler :=
  mkScheduler (all_tasks_ s) (ready_queue_ s) (current_task_ s) (is_running_ s)
    (time_slice_ s) (last_schedule_time_ s) x
    (force_reschedule_ s) (task_symbols_ s) (cpu_utilization_ s)
    (idle_start_time_ s) (total_run_time_ s) (total_idle_time_ s)
    (recovery_attempts_ s) (last_priority_adjustment s) (last_check_time s).
Definition set_force_reschedule (x : bool) (s : Scheduler) : Scheduler :=
  mkScheduler (all_tasks_ s) (ready_queue_ s) (current_task_ s) (is_running_ s)
    (time_slice_ s) (last_schedule_time_ s) (preemption_mode_ s)
    x (task_symbols_ s) (cpu_utilization_ s)
    (idle_start_time_ s) (total_run_time_ s) (total_idle_time_ s)
    (recovery_attempts_ s) (last_priority_adjustment s) (last_check_time s).
Definition set_task_symbols (x : gmap nat ascii) (s : Scheduler) : Scheduler :=
  mkScheduler (all_tasks_ s) (ready_queue_ s) (current_task_ s) (is_running_ s)
    (time_slice_ s) (last_schedule_time_ s) (preemption_mode_ s)
    (force_reschedule_ s) x (cpu_utilization_ s)
    (idle_start_time_ s) (total_run_time_ s) (total_idle_time_ s)
    (recovery_attempts_ s) (last_priority_adjustment s) (last_check_time s).
Definition set_cpu_utilization (x : spec_float) (s : Scheduler) : Scheduler :=
  mkScheduler (all_tasks_ s) (ready_queue_ s) (current_task_ s) (is_running_ s)
    (time_slice_ s) (last_schedule_time_ s) (preemption_mode_ s)
    (force_reschedule_ s) (task_symbols_ s) x
    (idle_start_time_ s) (total_run_time_ s) (total_idle_time_ s)
    (recovery_attempts_ s) (last_priority_adjustment s) (last_check_time s).
Definition set_idle_start_time (x : Z) (s : Scheduler) : Scheduler :=
  mkScheduler (all_tasks_ s) (ready_queue_ s) (current_task_ s) (is_running_ s)
    (time_slice_ s) (last_schedule_time_ s) (preemption_mode_ s)
    (force_reschedule_ s) (task_symbols_ s) (cpu_utilization_ s)
    x (total_run_time_ s) (total_idle_time_ s)
    (recovery_attempts_ s) (last_priority_adjustment s) (last_check_time s).
Definition set_total_run_time (x : Z) (s : Scheduler) : Scheduler :=
  mkScheduler (all_tasks_ s) (ready_queue_ s) (current_task_ s) (is_running_ s)
    (time_slice_ s) (last_schedule_time_ s) (preemption_mode_ s)
    (force_reschedule_ s) (task_symbols_ s) (cpu_utilization_ s)
    (idle_start_time_ s) x (total_idle_time_ s)
    (recovery_attempts_ s) (last_priority_adjustment s) (last_check_time s).
Definition set_total_idle_time (x : Z) (s : Scheduler) : Scheduler :=
  mkScheduler (all_tasks_ s) (ready_queue_ s) (current_task_ s) (is_running_ s)
    (time_slice_ s) (last_schedule_time_ s) (preemption_mode_ s)
    (force_reschedule_ s) (task_symbols_ s) (cpu_utilization_ s)
    (idle_start_time_ s) (total_run_time_ s) x
    (recovery_attempts_ s) (last_priority_adjustment s) (last_check_time s).
Definition set_recovery_attempts (x : Z) (s : Scheduler) : Scheduler :=
  mkScheduler (all_tasks_ s) (ready_queue_ s) (current_task_ s) (is_running_ s)
    (time_slice_ s) (last_schedule_time_ s) (preemption_mode_ s)
    (force_reschedule_ s) (task_symbols_ s) (cpu_utilization_ s)
    (idle_start_time_ s) (total_run_time_ s) (total_idle_time_ s)
    x (last_priority_adjustment s) (last_check_time s).
Definition set_last_priority_adjustment (x : option Z) (s : Scheduler) : Scheduler :=
  mkScheduler (all_tasks_ s) (ready_queue_ s) (current_task_ s) (is_running_ s)
    (time_slice_ s) (last_schedule_time_ s) (preemption_mode_ s)
    (force_reschedule_ s) (task_symbols_ s) (cpu_utilization_ s)
    (idle_start_time_ s) (total_run_time_ s) (total_idle_time_ s)
    (recovery_attempts_ s) x (last_check_time s).
Definition set_last_check_time (x : option Z) (s : Scheduler) : Scheduler :=
  mkScheduler (all_tasks_ s) (ready_queue_ s) (current_task_ s) (is_running_ s)
    (time_slice_ s) (last_schedule_time_ s) (preemption_mode_ s)
    (force_reschedule_ s) (task_symbols_ s) (cpu_utilization_ s)
    (idle_start_time_ s) (total_run_time_ s) (total_idle_time_ s)
    (recovery_attempts_ s) (last_priority_adjustment s) x.

(** A statement on the scheduler, and on the store, inside a [World]. *)
Definition on_sched (f : Scheduler -> Scheduler) (w : World) : World :=
  with_scheduler (f (scheduler_ w)) w.
Definition on_store (f : Store -> Store) (w : World) : World :=
  with_store (f (store w)) w.
Definition on_store_opt (f : Store -> option Store) (w : World) : option World :=
  h ← f (store w); Some (with_store h w).

(** [std::lock_guard<std::mutex>] on a mutex that is free or held by another
    thread ends with the mutex owned ([Some]).  On a mutex that the calling
    thread owns already the behaviour is undefined ([std::mutex] is not
    recursive); with the usual implementations the thread waits for itself
    and the call never returns.  Either way there is no result: [None]. *)
Definition lock_guard (owned : bool) : option unit :=
  if owned then None else Some tt.

Definition is_ready (h : Store) (p : TaskPtr) : bool :=
  bool_decide (state_ (deref h p) = READY).

(** [Scheduler::Scheduler(time_slice)], the clock read once. *)
Definition Scheduler_new (time_slice now : Z) : Scheduler :=
  mkScheduler [] [] None false time_slice 0 HYBRID false ∅ (S754_zero false)
              now 0 0 0 None None.

Definition symbols : string := "ABCDEFGHIJKLMNOPQRSTUVWXYZ".

Definition addTask (task : TaskPtr) (w : World) : World :=
  let s := scheduler_ w in
  let all := all_tasks_ s ++ [task] in
  let q := if is_ready (store w) task
           then pq_push (store w) task (ready_queue_ s)
           else ready_queue_ s in
  let symbol :=
    if (length all <=? String.length symbols)%nat
    then default "#"%char (String.get (length all - 1) symbols)
    else "#"%char in
  with_scheduler
    (set_task_symbols (<[task := symbol]> (task_symbols_ s))
       (set_ready_queue q (set_all_tasks all s)))
    w.

(** [std::find_if] over [all_tasks_] by name: position and pointer. *)
Fixpoint find_by_name (h : Store) (name : string) (i : nat) (ps : list TaskPtr)
  : option (nat * TaskPtr) :=
  match ps with
  | [] => None
  | p :: ps' =>
      if String.eqb (name_ (deref h p)) name then Some (i, p)
      else find_by_name h name (S i) ps'
  end.

Definition Scheduler_removeTask (name : string) (w : World) : World :=
  let s := scheduler_ w in
  match find_by_name (store w) name 0 (all_tasks_ s) with
  | Some (i, task) =>
      let h := call terminate task (store w) in
      with_store h
        (with_scheduler
           (set_task_symbols (delete task (task_symbols_ s))
              (set_all_tasks (delete i (all_tasks_ s)) s))
           w)
  | None => w
  end.

Definition findTask (name : string) (w : World) : option TaskPtr :=
  snd <$> find_by_name (store w) name 0 (all_tasks_ (scheduler_ w)).

Definition Scheduler_start (now : Z) (w : World) : World :=
  if is_running_ (scheduler_ w) then w
  else on_sched (fun s => set_last_schedule_time now (set_is_running true s)) w.

Definition Scheduler_stop (w : World) : World :=
  on_sched (set_is_running false) w.

Definition yield (w : World) : World := on_sched (set_force_reschedule true) w.

Definition setPreemptionMode (mode : PreemptionMode) (w : World) : World :=
  on_sched (set_preemption_mode mode) w.

Definition setTimeSlice (time_slice : Z) (w : World) : World :=
  on_sched (set_time_slice time_slice) w.

(** Push the READY tasks of [ps], in order, onto [q]. *)
Definition push_ready (h : Store) (ps q : list TaskPtr) : list TaskPtr :=
  fold_left (fun q p => if is_ready h p then pq_push h p q else q) ps q.

Definition adjustPriorities (w : World) : option World :=
  h ← for_each updatePriority (all_tasks_ (scheduler_ w)) (store w);
  (* the old queue is emptied from the top, its READY entries pushed on a
     new one *)
  let new_queue := push_ready h (ready_queue_ (scheduler_ w)) [] in
  Some (with_store h (on_sched (set_ready_queue new_queue) w)).

Definition updateCpuUtilization (w : World) : World :=
  let s := scheduler_ w in
  let total_time := total_run_time_ s + total_idle_time_ s in
  let u :=
    if 0 <? total_time
    then f32_mul (f32_div (f32_of_Z (total_run_time_ s)) (f32_of_Z total_time))
                 (f32_of_Z 100)
    else S754_zero false in
  on_sched (set_cpu_utilization u) w.

(** [selectNextTask()] calls itself after discarding a stale entry; [fuel]
    bounds the depth of the recursion ([None] when it runs out). *)
Fixpoint selectNextTask (fuel : nat) (w : World) : option (option TaskPtr * World) :=
  match fuel with
  | O => None
  | S fuel' =>
      let s := scheduler_ w in
      let q1 := match ready_queue_ s with
                | [] => push_ready (store w) (all_tasks_ s) []
                | _ => ready_queue_ s
                end in
      match pq_top q1 with
      | None => Some (None, on_sched (set_ready_queue q1) w)
      | Some next_task =>
          let w1 := on_sched (set_ready_queue (pq_pop q1)) w in
          if negb (is_ready (store w) next_task)
          then selectNextTask fuel' w1
          else Some (Some next_task, w1)
      end
  end.

(** Enough fuel for every queue: one call per entry, and one more after the
    queue has been rebuilt. *)
Definition select_fuel (w : World) : nat :=
  S (S (length (ready_queue_ (scheduler_ w)))).

Definition checkDeadlines_task (now : Z) (t : Task) : option Task :=
  if (0 <? deadline_ t) && (0 <? period_ t) then
    let last_exec := last_execution (statistics_ t) in
    if 0 <? last_exec then
      let time_since_last_exec := ns_to_ms (now - last_exec) in
      if period_ t + deadline_ t <? time_since_last_exec
      then recordDeadlineMiss t
      else Some t
    else Some t
  else Some t.

Definition checkDeadlines (now : Z) (w : World) : option World :=
  on_store_opt (for_each (checkDeadlines_task now) (all_tasks_ (scheduler_ w))) w.

(** Dead code in the source: declared, defined, never called. *)
Definition shouldPreempt (new_task : TaskPtr) (w : World) : bool :=
  match current_task_ (scheduler_ w) with
  | None => false
  | Some cur =>
      if decide (policy_ (deref (store w) cur) = COOPERATIVE) then false
      else match preemption_mode_ (scheduler_ w) with
           | NONE => false
           | PRIORITY | HYBRID =>
               dynamic_priority_ (deref (store w) cur)
               <? dynamic_priority_ (deref (store w) new_task)
           | TIME_SLICE => false
           end
  end.

Definition attemptTaskRecovery (task : TaskPtr) (w : World) : bool * World :=
  if negb (recoverable_ (deref (store w) task)) then (false, w)
  else if MAX_RECOVERY_ATTEMPTS <=? recovery_attempts_ (scheduler_ w) then (false, w)
  else
    let w1 := on_sched (fun s => set_recovery_attempts
                                   (wrap64 (recovery_attempts_ s + 1)) s) w in
    let w2 := on_store (call (setState READY) task) w1 in
    (true, on_sched (fun s => set_ready_queue
                                (pq_push (store w2) task (ready_queue_ s)) s) w2).

(** [attemptTaskRecovery] takes no mutex and is public: two calls can
    overlap.  This is the part of a call after its two tests (lines 408 to
    415), for a call whose test of the counter (line 402) came before the
    increment of another call.  The counter starts at 0 and never goes down,
    so such a test can have passed at any earlier time; the test of
    [isRecoverable()] reads a constant. *)
Definition attemptTaskRecovery_overlapped (task : TaskPtr) (w : World) : World :=
  if negb (recoverable_ (deref (store w) task)) then w
  else
    let w1 := on_sched (fun s => set_recovery_attempts
                                   (wrap64 (recovery_attempts_ s + 1)) s) w in
    let w2 := on_store (call (setState READY) task) w1 in
    on_sched (fun s => set_ready_queue
                         (pq_push (store w2) task (ready_queue_ s)) s) w2.

Definition enterIdleState (now : Z) (w : World) : World :=
  on_sched (set_idle_start_time now) w.

Definition exitIdleState (now : Z) (w : World) : World :=
  on_sched (fun s => set_total_idle_time
                       (total_idle_time_ s + ns_to_us (now - idle_start_time_ s)) s) w.

(** The end of an iteration of [schedulerLoop] (lines 231 to 262): time-slice
    and reschedule bookkeeping, then the periodic priority adjustment.  [now]
    is the clock read in the loop, [t_static] the reading that initialises
    the static [last_priority_adjustment] the first time round.  The
    dispatcher holds [scheduler_mutex_] here (since line 168, 194 or the end
    of the wait), and [adjustPriorities()] starts by locking it: the call
    does not return, and the dispatcher stays [Blocked]. *)
Definition schedulerLoop_tail (now t_static : Z) (w : World) : option World :=
  let s := scheduler_ w in
  let time_slice_expired :=
    match current_task_ s with
    | Some cur =>
        if bool_decide (policy_ (deref (store w) cur) = PREEMPTIVE)
           && (bool_decide (preemption_mode_ s = TIME_SLICE)
               || bool_decide (preemption_mode_ s = HYBRID))
        then ms_to_ns (time_slice_ s) <=? now - last_schedule_time_ s
        else false
    | None => false
    end in
  let w1 :=
    if time_slice_expired || force_reschedule_ s then
      let q :=
        match current_task_ s with
        | Some cur =>
            if is_ready (store w) cur
            then pq_push (store w) cur (ready_queue_ s)
            else ready_queue_ s
        | None => ready_queue_ s
        end in
      on_sched (fun s => set_current_task None
                           (set_ready_queue q
                              (set_force_reschedule false
                                 (set_last_schedule_time now s)))) w
    else w in
  let last := default t_static (last_priority_adjustment (scheduler_ w1)) in
  let w2 := on_sched (set_last_priority_adjustment (Some last)) w1 in
  if 1000000000 <? now - last
  then match lock_guard true with
       | Some _ =>
           w' ← adjustPriorities w2;
           Some (with_dispatcher AtLoopHead
                   (on_sched (set_last_priority_adjustment (Some now)) w'))
       | None => Some (with_dispatcher Blocked w2)
       end
  else Some (with_dispatcher AtLoopHead w2).

(** One iteration of [schedulerLoop], from the head of the loop to
    [lock.unlock()] (lines 166 to 186), or to the timed wait when nothing is
    ready (line 225).  The arguments are the readings of the clock, in
    program order. *)
Definition schedulerLoop_select (t_check t_idle t_start : Z) (w : World)
  : option World :=
  match dispatcher w with
  | AtLoopHead =>
      if negb (is_running_ (scheduler_ w)) then Some w else
      w1 ← checkDeadlines t_check w;
      '(next, w2) ← selectNextTask (select_fuel w1) w1;
      let w3 := on_sched (set_current_task next) w2 in
      match next with
      | Some task =>
          Some (with_dispatcher (Selected t_start) (exitIdleState t_idle w3))
      | None =>
          Some (with_dispatcher InWait (enterIdleState t_idle w3))
      end
  | _ => Some w
  end.

(** Lines 189 to 192, without the mutex: [setState(RUNNING)] and the part
    of [execute()] before the handler, on the task that [current_task_]
    names, in whatever state the task is by now. *)
Definition schedulerLoop_execute (t_exec : Z) (w : World) : World :=
  match dispatcher w, current_task_ (scheduler_ w) with
  | Selected start_time, Some task =>
      let w5 := on_store (call (setState RUNNING) task) w in
      let w6 := on_store (call (execute_begin t_exec) task) w5 in
      with_dispatcher (InHandler start_time) w6
  | _, _ => w
  end.

(** The two in a row: the first part of an iteration when no other thread
    runs between line 186 and the handler. *)
Definition schedulerLoop_begin (t_check t_idle t_start t_exec : Z) (w : World)
  : option World :=
  w1 ← schedulerLoop_select t_check t_idle t_start w;
  Some (schedulerLoop_execute t_exec w1).

(** The handler returns or throws: the rest of [execute()], still without
    the mutex. *)
Definition schedulerLoop_return (o : HandlerOutcome) (w : World) : World :=
  match dispatcher w, current_task_ (scheduler_ w) with
  | InHandler start_time, Some task =>
      with_dispatcher (AfterExecute start_time)
        (on_store (call (execute_end o) task) w)
  | _, _ => w
  end.

(** From taking the mutex again after [execute()] to line 217, or the end
    of the wait and line 228. *)
Definition schedulerLoop_account (t_end : Z) (w : World) : World :=
  match dispatcher w, current_task_ (scheduler_ w) with
  | AfterExecute start_time, Some task =>
      let execution_time := ns_to_us (t_end - start_time) in
      let w2 := on_store (call (updateStatistics execution_time) task) w in
      let w3 := on_sched (fun s => set_total_run_time
                                     (total_run_time_ s + execution_time) s) w2 in
      let w4 :=
        if bool_decide (state_ (deref (store w3) task) = TERMINATED)
           && recoverable_ (deref (store w3) task)
        then snd (attemptTaskRecovery task w3)
        else w3 in
      let w5 := updateCpuUtilization w4 in
      let w6 := on_sched (set_force_reschedule false) w5 in
      with_dispatcher BeforeReschedule w6
  | InWait, _ => with_dispatcher BeforeReschedule (exitIdleState t_end w)
  | _, _ => w
  end.

(** Lines 231 to 262. *)
Definition schedulerLoop_reschedule (now t_static : Z) (w : World) : option World :=
  match dispatcher w with
  | BeforeReschedule => schedulerLoop_tail now t_static w
  | _ => Some w
  end.

(** The two in a row: the second half of an iteration when no [yield()]
    arrives between line 217 and line 243. *)
Definition schedulerLoop_end (t_end now t_static : Z) (w : World) : option World :=
  schedulerLoop_reschedule now t_static (schedulerLoop_account t_end w).

(** The body of the [for] loop of [deadlineMonitorLoop]. *)
Definition monitor_task (elapsed : Z) (task : TaskPtr) (w : World) : option World :=
  let cur := current_task_ (scheduler_ w) in
  w1 ← (if negb (bool_decide (cur = Some task))
           || negb (bool_decide (state_ (deref (store w) task) = RUNNING))
        then on_store_opt (call_opt (updateDeadlineCounter elapsed) task) w
        else Some w);
  let t := deref (store w1) task in
  let mode := preemption_mode_ (scheduler_ w1) in
  let hint :=
    isDeadlineApproaching t
    && bool_decide (state_ t = READY)
    && match cur with
       | Some c => dynamic_priority_ (deref (store w1) c) <? dynamic_priority_ t
       | None => false
       end
    && (bool_decide (mode = PRIORITY) || bool_decide (mode = HYBRID)) in
  Some (if hint then on_sched (set_force_reschedule true) w1 else w1).

Fixpoint monitor_scan (elapsed : Z) (ps : list TaskPtr) (w : World) : option World :=
  match ps with
  | [] => Some w
  | task :: ps' => w' ← monitor_task elapsed task w; monitor_scan elapsed ps' w'
  end.

(** One iteration of [deadlineMonitorLoop]. *)
Definition deadlineMonitor_tick (t_static now : Z) (w : World) : option World :=
  if negb (is_running_ (scheduler_ w)) then Some w else
  let last := default t_static (last_check_time (scheduler_ w)) in
  let elapsed := ns_to_ms (now - last) in
  let w1 := on_sched (set_last_check_time (Some now)) w in
  monitor_scan elapsed (all_tasks_ (scheduler_ w1)) w1.

(** ** The kernel ([kernel.hpp], [kernel.cpp]) *)

Definition Kernel_new (now : Z) : World :=
  mkWorld [] (Scheduler_new 50 now) ∅ AtLoopHead.

Definition createTask (name : string) (priority : Z) (policy : SchedulePolicy)
    (period deadline : Z) (recoverable : bool) (w : World)
  : option TaskPtr * World :=
  match tasks_ w !! name with
  | Some _ => (None, w)
  | None =>
      let '(task, h) :=
        make_shared (TaskBase name priority policy period deadline 4096 recoverable)
                    (store w) in
      let w1 := with_tasks (<[name := task]> (tasks_ w)) (with_store h w) in
      (Some task, addTask task w1)
  end.

Definition removeTask (name : string) (w : World) : World :=
  match tasks_ w !! name with
  | None => w
  | Some _ =>
      let w1 := Scheduler_removeTask name w in
      with_tasks (delete name (tasks_ w1)) w1
  end.

Definition getTask (name : string) (w : World) : option TaskPtr := tasks_ w !! name.

(** [getTask] as a call: it starts with a [lock_guard] on [kernel_mutex_];
    [owned] tells whether the calling thread holds that mutex already. *)
Definition Kernel_getTask (owned : bool) (name : string) (w : World)
  : option (option TaskPtr) :=
  _ ← lock_guard owned; Some (getTask name w).

(** [suspendTask] and [resumeTask] lock [kernel_mutex_] (lines 114, 130) and
    then call [getTask(name)] (lines 116, 132), which locks it again. *)
Definition suspendTask (name : string) (w : World) : option World :=
  _ ← lock_guard false;
  task ← Kernel_getTask true name w;
  match task with
  | Some task => Some (on_store (call suspend task) w)
  | None => Some w
  end.

Definition resumeTask (name : string) (w : World) : option World :=
  _ ← lock_guard false;
  task ← Kernel_getTask true name w;
  match task with
  | Some task => Some (on_store (call resume task) w)
  | None => Some w
  end.

(** ** Traces

    The public methods of a task, of the scheduler and of the kernel, and the
    steps of the two threads, as events; a behaviour of the system is a
    sequence of them, each call in it having returned.  A step that has no
    result ([None]: undefined behaviour, or a call that never returns) ends
    the sequence. *)

Inductive TaskCall :=
| CExecuteBegin (now : Z)
| CExecuteEnd (o : HandlerOutcome)
| CSuspend
| CResume
| CTerminate
| CRecordDeadlineMiss
| CUpdatePriority
| CResetStatistics
| CUpdateDeadlineCounter (elapsed : Z)
| CSetState (s : TaskState)
| CUpdateStatistics (execution_time : Z).

Definition task_call (c : TaskCall) (t : Task) : option Task :=
  match c with
  | CExecuteBegin now => Some (execute_begin now t)
  | CExecuteEnd o => Some (execute_end o t)
  | CSuspend => Some (suspend t)
  | CResume => Some (resume t)
  | CTerminate => Some (terminate t)
  | CRecordDeadlineMiss => recordDeadlineMiss t
  | CUpdatePriority => updatePriority t
  | CResetStatistics => Some (resetStatistics t)
  | CUpdateDeadlineCounter elapsed => updateDeadlineCounter elapsed t
  | CSetState s => Some (setState s t)
  | CUpdateStatistics d => Some (updateStatistics d t)
  end.

Fixpoint task_calls (cs : list TaskCall) (t : Task) : option Task :=
  match cs with
  | [] => Some t
  | c :: cs' => t' ← task_call c t; task_calls cs' t'
  end.

Inductive Event :=
(* the kernel *)
| KCreateTask (name : string) (priority : Z) (policy : SchedulePolicy)
              (period deadline : Z) (recoverable : bool)
| KRemoveTask (name : string)
| KSuspendTask (name : string)
| KResumeTask (name : string)
| KStart (now : Z)
| KStop
(* the scheduler, reached through [getScheduler()] *)
| SAddTask (task : TaskPtr)
| SRemoveTask (name : string)
| SYield
| SSetPreemptionMode (mode : PreemptionMode)
| SSetTimeSlice (time_slice : Z)
| SAdjustPriorities
| SUpdateCpuUtilization
| SAttemptTaskRecovery (task : TaskPtr)
(* the two threads *)
| DispatcherBegin (t_check t_idle t_start t_exec : Z)
| DispatcherReturn (o : HandlerOutcome)
| DispatcherEnd (t_end now t_static : Z)
| MonitorTick (t_static now : Z)
(* a task object used directly *)
| NewTask (name : string) (priority : Z) (policy : SchedulePolicy)
          (period deadline stack_size : Z) (recoverable : bool)
| TaskMethod (task : TaskPtr) (c : TaskCall)
(* the dispatcher in finer steps: [DispatcherBegin] is [DispatcherSelect]
   followed at once by [DispatcherExecute], [DispatcherEnd] is
   [DispatcherAccount] followed at once by [DispatcherReschedule] *)
| DispatcherSelect (t_check t_idle t_start : Z)
| DispatcherExecute (t_exec : Z)
| DispatcherAccount (t_end : Z)
| DispatcherReschedule (now t_static : Z)
(* the end of a call of [attemptTaskRecovery] that overlaps another *)
| SRecoveryOverlap (task : TaskPtr).

Definition step (e : Event) (w : World) : option World :=
  match e with
  | KCreateTask name priority policy period deadline recoverable =>
      Some (snd (createTask name priority policy period deadline recoverable w))
  | KRemoveTask name => Some (removeTask name w)
  | KSuspendTask name => suspendTask name w
  | KResumeTask name => resumeTask name w
  | KStart now => Some (Scheduler_start now w)
  | KStop => Some (Scheduler_stop w)
  | SAddTask task => Some (addTask task w)
  | SRemoveTask name => Some (Scheduler_removeTask name w)
  | SYield => Some (yield w)
  | SSetPreemptionMode mode => Some (setPreemptionMode mode w)
  | SSetTimeSlice ts => Some (setTimeSlice ts w)
  | SAdjustPriorities => adjustPriorities w
  | SUpdateCpuUtilization => Some (updateCpuUtilization w)
  | SAttemptTaskRecovery task => Some (snd (attemptTaskRecovery task w))
  | DispatcherBegin t_check t_idle t_start t_exec =>
      schedulerLoop_begin t_check t_idle t_start t_exec w
  | DispatcherReturn o => Some (schedulerLoop_return o w)
  | DispatcherEnd t_end now t_static => schedulerLoop_end t_end now t_static w
  | MonitorTick t_static now => deadlineMonitor_tick t_static now w
  | NewTask name priority policy period deadline stack_size recoverable =>
      Some (with_store
              (snd (make_shared
                      (TaskBase name priority policy period deadline stack_size
                                recoverable) (store w))) w)
  | TaskMethod task c => on_store_opt (call_opt (task_call c) task) w
  | DispatcherSelect t_check t_idle t_start =>
      schedulerLoop_select t_check t_idle t_start w
  | DispatcherExecute t_exec => Some (schedulerLoop_execute t_exec w)
  | DispatcherAccount t_end => Some (schedulerLoop_account t_end w)
  | DispatcherReschedule now t_static => schedulerLoop_reschedule now t_static w
  | SRecoveryOverlap task => Some (attemptTaskRecovery_overlapped task w)
  end.

Fixpoint run (es : list Event) (w : World) : option World :=
  match es with
  | [] => Some w
  | e :: es' => w' ← step e w; run es' w'
  end.

(** ** The text display ([scheduler.cpp]) *)

Definition getSymbolForTaskState (state : TaskState) : ascii :=
  match state with
  | READY => "."
  | RUNNING => "R"
  | BLOCKED => "B"
  | SUSPENDED => "S"
  | TERMINATED => "T"
  end%char.

(** [ss << static_cast<int>(x)]: the decimal digits of an integer. *)
Definition decimal (z : Z) : string := NilZero.string_of_int (Z.to_int z).

Definition newline : string := String "010"%char EmptyString.

(** [char symbol = 'A'; for (task : ps) task_symbols_[task] = symbol++;]
    with [c] the code of the next symbol; a [char] wraps at 256. *)
Fixpoint assign_symbols (c : nat) (ps : list TaskPtr) (m : gmap nat ascii)
  : gmap nat ascii :=
  match ps with
  | [] => m
  | p :: ps' => assign_symbols (S c) ps' (<[p := ascii_of_nat c]> m)
  end.

(** [it != task_symbols_.end() ? it->second : '?'] *)
Definition symbol_of (m : gmap nat ascii) (p : TaskPtr) : ascii :=
  default "?"%char (m !! p).

(** [getTaskStateVisualization()]: the text, and the scheduler with the
    symbols the call may have assigned. *)
Definition getTaskStateVisualization (w : World) : string * World :=
  let s := scheduler_ w in
  let all := all_tasks_ s in
  match all with
  | [] => ("No tasks registered in the scheduler."%string, w)
  | _ :: _ =>
      let m := if decide (task_symbols_ s = ∅)
               then assign_symbols 65 all (task_symbols_ s)
               else task_symbols_ s in
      let header :=
        ("Time | "
         ++ String.concat "" (map (fun p => String (symbol_of m p) " ") all)
         ++ "| Tasks" ++ newline)%string in
      let separator :=
        ("-----|-"
         ++ String.concat "" (map (fun _ => "--"%string) all)
         ++ "|---------" ++ newline)%string in
      let states :=
        ("now  | "
         ++ String.concat ""
              (map (fun p => String (getSymbolForTaskState
                                       (state_ (deref (store w) p))) " ") all)
         ++ "| ")%string in
      let names :=
        String.concat ", "
          (map (fun p =>
                  let t := deref (store w) p in
                  (String (symbol_of m p) ":" ++ name_ t
                   ++ "(" ++ decimal (dynamic_priority_ t) ++ ")")%string)
               all) in
      ((header ++ separator ++ states ++ names)%string,
       on_sched (set_task_symbols m) w)
  end.

(* ===================================================================== *)
(** * Part II: vocabulary of the statements *)
(* ===================================================================== *)

(** ** Checkers evaluated by computation *)

(** [P z] for every [0 <= z < n]. *)
Fixpoint all_below (P : Z -> bool) (n : nat) : bool :=
  match n with
  | O => true
  | S n' => P (Z.of_nat n') && all_below P n'
  end.

Definition base_table_ok (b : Z) : bool :=
  match f32_of_Z b, f32_mul (f32_of_Z b) f32_0_05 with
  | S754_finite false mb eb, S754_finite false mx ex =>
      (-23 <=? eb) && (Zpos mb * 2 ^ (eb + 149) =? b * 2 ^ 149)
      && (-28 <=? ex)
      && (b * 2 ^ 149 * 2 ^ 23 <=? 20 * (Zpos mx * 2 ^ (ex + 149)) * (2 ^ 23 + 1))
      && (20 * (Zpos mx * 2 ^ (ex + 149)) * 2 ^ 23 <=? b * 2 ^ 149 * (2 ^ 23 + 1))
  | _, _ => false
  end.

Definition boost_ok (b N : Z) : bool :=
  match f32_to_int (boosted_priority b N) with
  | Some k => (Z.min 99 k =? Z.min 99 (b + b * N / 20)) && (b <=? k)
  | None => false
  end.

Definition boost_cell_ok (b N : Z) : bool := (N =? 0) || boost_ok b N.

Definition boost_row_ok (b : Z) : bool :=
  all_below (boost_cell_ok b) (Z.to_nat (2000 / b + 1)).

(** ** Well-formed tasks

    The ranges of the unsigned fields, and the bounds on the two priorities
    that hold for every task the constructor can build (see
    [TaskBase_wf], [task_call_wf]). *)
Definition task_wf (t : Task) : Prop :=
  0 <= base_priority_ t <= 99 /\
  base_priority_ t <= dynamic_priority_ t <= 99 /\
  0 <= execution_count (statistics_ t) < 2 ^ 64 /\
  0 <= deadline_misses (statistics_ t) < 2 ^ 64.

(** The integer formula of the specification for the adaptive priority. *)
Definition spec_priority (b N : Z) : Z :=
  if 0 <? N then Z.min 99 (b + b * N / 20) else b.

(** [n] successive calls of one method on a task. *)
Definition repeat_call (c : TaskCall) (n : N) (t : Task) : option Task :=
  N.iter n (fun o => t' ← o; task_call c t') (Some t).

(** The fields of a task that no method assigns. *)
Definition same_constants (t t' : Task) : Prop :=
  name_ t' = name_ t /\ policy_ t' = policy_ t /\
  base_priority_ t' = base_priority_ t /\ period_ t' = period_ t /\
  deadline_ t' = deadline_ t /\ stack_size_ t' = stack_size_ t /\
  recoverable_ t' = recoverable_ t.

(** Is [static_cast<int>] of the boosted priority defined? *)
Definition conversion_defined (b N : Z) : bool :=
  match f32_to_int (boosted_priority b N) with
  | Some _ => true
  | None => false
  end.

Definition last_defined_ok (i : Z) : bool :=
  conversion_defined 99 (433834849 + i).

(** ** The ready queue and the selection *)

Definition priority_of (h : Store) (p : TaskPtr) : Z :=
  dynamic_priority_ (deref h p).

(** The queue is ordered for the priorities the tasks have now: no entry is
    followed by one of higher priority.  (For the library's container: it is
    a valid heap for the comparison as it evaluates now.) *)
Fixpoint pq_ordered (h : Store) (q : list TaskPtr) : bool :=
  match q with
  | [] => true
  | x :: q' =>
      forallb (fun y => priority_of h y <=? priority_of h x) q'
      && pq_ordered h q'
  end.


(** The same with the READY tasks that are in the ready queue only. *)
Definition selection_respects_queue_priority : Prop :=
  forall (now : Z) (es : list Event) (w w' : World) (p q : TaskPtr),
    run es (Kernel_new now) = Some w ->
    preemption_mode_ (scheduler_ w) = PRIORITY
    \/ preemption_mode_ (scheduler_ w) = HYBRID ->
    selectNextTask (select_fuel w) w = Some (Some p, w') ->
    q ∈ ready_queue_ (scheduler_ w) ->
    state_ (deref (store w) q) = READY ->
    priority_of (store w) q <= priority_of (store w) p.


(** A (priority 50, deadline 10 ms) and B (priority 51, deadline 1 s) are
    queued, B on top.  At its second pass the deadline monitor finds 20 ms
    elapsed: A has missed its deadline and its priority goes up to 52, in the
    queue. *)
Definition A_boosted_in_queue : list Event :=
  [ KCreateTask "A" 50 PREEMPTIVE 0 10 false;
    KCreateTask "B" 51 PREEMPTIVE 0 1000 false;
    KStart 1000000;
    MonitorTick 11000000 11000000;
    MonitorTick 11000000 31000000 ].

(** ** Relating the store before and after a step *)

(** Every task object of [h] is still there in [h'], its contents related
    by [R] (which may depend on the pointer). *)
Definition store_rel (R : TaskPtr -> Task -> Task -> Prop) (h h' : Store) : Prop :=
  forall p t, h !! p = Some t -> exists t', h' !! p = Some t' /\ R p t t'.

(** The events that are a direct use of a task object. *)
Definition direct_call (e : Event) : option (TaskPtr * TaskCall) :=
  match e with
  | TaskMethod p c => Some (p, c)
  | _ => None
  end.

(** The events in which no part of [execute()] runs and no task method is
    called from outside: the operations of the kernel and the scheduler, the
    deadline monitor, and the steps of the dispatcher under its mutex. *)
Definition is_background (e : Event) : bool :=
  match e with
  | DispatcherBegin _ _ _ _ | DispatcherExecute _ | DispatcherReturn _
  | TaskMethod _ _ => false
  | _ => true
  end.

(** ** Recovery *)

(** The recovery counter is within its cap. *)
Definition attempts_bounded (w : World) : Prop :=
  0 <= recovery_attempts_ (scheduler_ w) <= MAX_RECOVERY_ATTEMPTS.

(** The event in which a call of [attemptTaskRecovery] ends after another
    call has moved the counter since its test. *)
Definition overlaps_recovery (e : Event) : bool :=
  match e with
  | SRecoveryOverlap _ => true
  | _ => false
  end.

(** A recoverable task F whose handler throws each time it is dispatched.
    [failures n] is the run of the system up to the end of the iteration of
    the dispatcher in which F fails for the [n]th time; the iterations are
    10 ms apart. *)
Definition failing_iteration (k : Z) : list Event :=
  let t := k * 10000000 in
  [ DispatcherBegin (t + 2000000) (t + 2000000) (t + 2000000) (t + 2000000);
    DispatcherReturn Throws;
    DispatcherEnd (t + 3000000) (t + 3000000) (t + 3000000) ].

Fixpoint failures (n : nat) : list Event :=
  match n with
  | O => [ KCreateTask "F" 50 PREEMPTIVE 0 0 true; KStart 1000000 ]
  | S n' => failures n' ++ failing_iteration (Z.of_nat n)
  end.

(** A relation on task contents that is a preorder and contains the task
    methods that the kernel and the scheduler apply without a condition on
    the task. *)
Record method_closed (R : TaskPtr -> Task -> Task -> Prop) : Prop := {
  mc_refl : forall p t, R p t t;
  mc_trans : forall p a b c, R p a b -> R p b c -> R p a c;
  mc_terminate : forall p t, R p t (terminate t);
  mc_suspend : forall p t, R p t (suspend t);
  mc_resume : forall p t, R p t (resume t);
  mc_recover : forall p t, recoverable_ t = true -> R p t (setState READY t);
  mc_updatePriority : forall p t t', updatePriority t = Some t' -> R p t t';
  mc_checkDeadlines :
    forall p now t t', checkDeadlines_task now t = Some t' -> R p t t';
  mc_updateDeadlineCounter :
    forall p d t t', updateDeadlineCounter d t = Some t' -> R p t t';
  mc_updateStatistics : forall p d t, R p t (updateStatistics d t)
}.

(** ** Deadline misses *)

(** The two task methods that assign [deadline_misses] when called on the
    task object directly; the kernel and the scheduler call neither other
    than through [updateDeadlineCounter] and [checkDeadlines]. *)
Definition touches_miss_count (e : Event) : bool :=
  match e with
  | TaskMethod _ CRecordDeadlineMiss | TaskMethod _ CResetStatistics => true
  | _ => false
  end.

Definition misses_kept (p : TaskPtr) (t t' : Task) : Prop :=
  same_constants t t' /\
  (deadline_ t = 0 ->
   deadline_misses (statistics_ t') = deadline_misses (statistics_ t)).

(** ** The execution count *)

Definition count_kept (p : TaskPtr) (t t' : Task) : Prop :=
  execution_count (statistics_ t') = execution_count (statistics_ t).

(** One event adds at most one execution to a task. *)
Definition count_step (p : TaskPtr) (t t' : Task) : Prop :=
  execution_count (statistics_ t') = execution_count (statistics_ t) \/
  execution_count (statistics_ t') = wrap64 (execution_count (statistics_ t) + 1).

Definition is_reset (e : Event) : bool :=
  match e with
  | TaskMethod _ CResetStatistics => true
  | _ => false
  end.

(** The direct calls on the task object [p] that can take it out of
    TERMINATED or assign its execution count. *)
Definition revives_directly (p : TaskPtr) (e : Event) : bool :=
  match e with
  | TaskMethod q (CExecuteBegin _) | TaskMethod q (CExecuteEnd _)
  | TaskMethod q (CSetState _) | TaskMethod q CResetStatistics => Nat.eqb q p
  | _ => false
  end.

(** The dispatcher is not between the selection of task [p] (line 175) and
    the end of its handler. *)
Definition not_executing (p : TaskPtr) (w : World) : Prop :=
  match dispatcher w with
  | Selected _ | InHandler _ => current_task_ (scheduler_ w) <> Some p
  | _ => True
  end.

Definition stays_terminated (p0 q : TaskPtr) (t t' : Task) : Prop :=
  q = p0 -> state_ t = TERMINATED -> recoverable_ t = false ->
  state_ t' = TERMINATED /\ recoverable_ t' = false /\
  execution_count (statistics_ t') = execution_count (statistics_ t).

(** The property of the specification, on the states the system reaches: the
    execution count of a task never decreases, and no longer changes once a
    non-recoverable task is TERMINATED. *)
Definition count_monotone_and_stable : Prop :=
  forall (now : Z) (es1 es2 : list Event) (w1 w2 : World) (p : TaskPtr)
         (t1 t2 : Task),
    run es1 (Kernel_new now) = Some w1 ->
    run es2 w1 = Some w2 ->
    store w1 !! p = Some t1 ->
    store w2 !! p = Some t2 ->
    execution_count (statistics_ t1) <= execution_count (statistics_ t2) /\
    (state_ t1 = TERMINATED -> recoverable_ t1 = false ->
     execution_count (statistics_ t2) = execution_count (statistics_ t1)).

(** The dispatcher's control point and its current task. *)
Definition control (w : World) : DispatcherPc * option TaskPtr :=
  (dispatcher w, current_task_ (scheduler_ w)).

Definition is_dispatcher_step (e : Event) : bool :=
  match e with
  | DispatcherBegin _ _ _ _ | DispatcherReturn _ | DispatcherEnd _ _ _
  | DispatcherSelect _ _ _ | DispatcherExecute _ | DispatcherAccount _
  | DispatcherReschedule _ _ => true
  | _ => false
  end.

(** ** The adaptive priority as a function of the misses *)

(** The dynamic priority is the value of the integer formula at the task's
    base priority and its count of deadline misses. *)
Definition tracks_misses (t : Task) : Prop :=
  dynamic_priority_ t
  = spec_priority (base_priority_ t) (deadline_misses (statistics_ t)).

Definition is_reset_call (c : TaskCall) : bool :=
  match c with
  | CResetStatistics => true
  | _ => false
  end.

(** ** Names in the scheduler's task list *)

Definition name_of (h : Store) (p : TaskPtr) : string := name_ (deref h p).

(** No task of the list [ps] has the name [name]. *)
Definition name_absent (h : Store) (name : string) (ps : list TaskPtr) : Prop :=
  forall q, q ∈ ps -> name_of h q <> name.

(** ** At most one task is RUNNING *)

(** The events that set a task RUNNING from outside the dispatcher: a direct
    call of [execute()] or of [setState(RUNNING)] on a task object. *)
Definition sets_running (e : Event) : bool :=
  match e with
  | TaskMethod _ (CExecuteBegin _) | TaskMethod _ (CSetState RUNNING) => true
  | _ => false
  end.

(** A task that is RUNNING is the dispatcher's current task, and the
    dispatcher is inside its handler. *)
Definition running_is_current (w : World) : Prop :=
  forall p t, store w !! p = Some t -> state_ t = RUNNING ->
    current_task_ (scheduler_ w) = Some p /\
    exists start_time, dispatcher w = InHandler start_time.

Definition not_made_running (p : TaskPtr) (t t' : Task) : Prop :=
  state_ t' = RUNNING -> state_ t = RUNNING.

(** What a step does to the extent of the store: nothing, or one new task
    object, as the constructor builds it, at its end. *)
Definition store_extent (h h' : Store) : Prop :=
  length h' = length h \/
  exists name priority policy period deadline stack_size recoverable,
    h' = h ++ [TaskBase name priority policy period deadline stack_size recoverable].

(** ** Deadlines *)

(** The condition under which [checkDeadlines] records a miss for a task:
    it is periodic with a deadline, has been executed, and more than its
    period plus its deadline has passed since. *)
Definition overdue (now : Z) (t : Task) : bool :=
  (0 <? deadline_ t) && (0 <? period_ t)
  && (0 <? last_execution (statistics_ t))
  && (period_ t + deadline_ t <? ns_to_ms (now - last_execution (statistics_ t))).

(** ** The two threads *)

(** The steps of the dispatcher thread and of the deadline monitor thread. *)
Definition is_thread_step (e : Event) : bool :=
  match e with
  | DispatcherBegin _ _ _ _ | DispatcherReturn _ | DispatcherEnd _ _ _
  | DispatcherSelect _ _ _ | DispatcherExecute _ | DispatcherAccount _
  | DispatcherReschedule _ _
  | MonitorTick _ _ => true
  | _ => false
  end.

(** ** The registry of the kernel and the scheduler's list *)

(** The events that change the scheduler's task list without going through
    the kernel ([getScheduler()->addTask(...)], [->removeTask(...)]). *)
Definition bypasses_kernel (e : Event) : bool :=
  match e with
  | SAddTask _ | SRemoveTask _ => true
  | _ => false
  end.

(** The registry and the scheduler's list hold the same tasks: the list has
    no pointer twice and only pointers to task objects, and a name is
    registered for a task exactly when that task is in the list under that
    name. *)
Definition registry_sync (w : World) : Prop :=
  NoDup (all_tasks_ (scheduler_ w)) /\
  (forall p, p ∈ all_tasks_ (scheduler_ w) -> (p < length (store w))%nat) /\
  (forall name p,
     tasks_ w !! name = Some p <->
     p ∈ all_tasks_ (scheduler_ w) /\ name_of (store w) p = name).

Definition constants_kept (p : TaskPtr) (t t' : Task) : Prop := same_constants t t'.

(** The registry, the task list and the symbols of a world. *)
Definition lists (w : World) : gmap string TaskPtr * list TaskPtr * gmap nat ascii :=
  (tasks_ w, all_tasks_ (scheduler_ w), task_symbols_ (scheduler_ w)).

Definition changes_lists (e : Event) : bool :=
  match e with
  | KCreateTask _ _ _ _ _ _ | KRemoveTask _ | SAddTask _ | SRemoveTask _ => true
  | _ => false
  end.

(** ** States in which the next operation is defined *)


(** ** Suspending and resuming by name *)

(** The calls of [Kernel::suspendTask] and [Kernel::resumeTask]. *)
Definition by_name (e : Event) : bool :=
  match e with
  | KSuspendTask _ | KResumeTask _ => true
  | _ => false
  end.

(** ** The time slice *)

(** The test of [schedulerLoop] for the end of the time slice of the task
    it has just executed. *)
Definition time_slice_expired (now : Z) (w : World) (task : TaskPtr) : bool :=
  bool_decide (policy_ (deref (store w) task) = PREEMPTIVE)
  && (bool_decide (preemption_mode_ (scheduler_ w) = TIME_SLICE)
      || bool_decide (preemption_mode_ (scheduler_ w) = HYBRID))
  && (ms_to_ns (time_slice_ (scheduler_ w))
      <=? now - last_schedule_time_ (scheduler_ w)).

(** The test of [schedulerLoop] for the periodic adjustment of the
    priorities: more than a second since the last one, or since the first
    time the dispatcher came to this test. *)
Definition adjustment_due (now t_static : Z) (w : World) : bool :=
  1000000000 <? now - default t_static (last_priority_adjustment (scheduler_ w)).

(** The end of an iteration of the dispatcher, with or without a [yield()]
    that arrives between line 217 and line 243. *)
Definition end_of_iteration (t_end now t_static : Z) (yielded : bool) : list Event :=
  DispatcherAccount t_end
  :: (if yielded then [SYield] else []) ++ [DispatcherReschedule now t_static].

(** ** Properties of every task object of the system *)

(** A step of a task from [t] to [t'] keeps the property [P]. *)
Definition keeps_invariant (P : Task -> Prop) (p : TaskPtr) (t t' : Task) : Prop :=
  P t -> P t'.

Definition all_tasks_satisfy (P : Task -> Prop) (w : World) : Prop :=
  forall p t, store w !! p = Some t -> P t.


(** The deadline counter is within the deadline. *)
Definition counter_ok (t : Task) : Prop :=
  deadline_counter (statistics_ t) <= Z.max 0 (deadline_ t).

(** ** The text display *)

(** Every task of the scheduler's list has a symbol. *)
Definition symbols_cover (w : World) : Prop :=
  forall p, p ∈ all_tasks_ (scheduler_ w) ->
            is_Some (task_symbols_ (scheduler_ w) !! p).

(** ** Recovery in any state *)

(** The number of entries of the ready queue for one task. *)
Definition queue_entries (p : TaskPtr) (w : World) : nat :=
  length (filter (fun q => q = p) (ready_queue_ (scheduler_ w))).

(* ===================================================================== *)
(** * Part III: properties *)
(* ===================================================================== *)

(** ** Rounding in binary32

    [SpecFloat] defines the operations; the facts needed about them are
    proved here: a shift divides the mantissa, and rounding a positive
    value to 24 bits moves it by a factor of at most [1 + 2^-23]. *)

Lemma digits2_pos_log2 (p : positive) :
  Zpos (digits2_pos p) = Z.log2 (Zpos p) + 1.
Proof.
  assert (Hs : forall q, digits2_pos q = Pos.size q).
  { induction q; simpl; congruence. }
  rewrite Hs. destruct p; simpl; lia.
Qed.

Lemma shr_1_m (r : shr_record) :
  0 <= shr_m r -> shr_m (shr_1 r) = shr_m r / 2.
Proof.
  destruct r as [m r s]. simpl. intros Hm.
  destruct m as [|p|p]; [reflexivity| |lia].
  destruct p; simpl.
  - rewrite Pos2Z.inj_xI. apply Z.div_unique with 1; lia.
  - rewrite Pos2Z.inj_xO. apply Z.div_unique with 0; lia.
  - reflexivity.
Qed.

Lemma pow2_xO (p : positive) : 2 ^ Zpos p~0 = 2 ^ Zpos p * 2 ^ Zpos p.
Proof. rewrite <- Z.pow_add_r by lia. f_equal. lia. Qed.

Lemma pow2_xI (p : positive) : 2 ^ Zpos p~1 = 2 * (2 ^ Zpos p * 2 ^ Zpos p).
Proof.
  rewrite <- Z.pow_add_r by lia.
  replace (Zpos p~1) with (1 + (Zpos p + Zpos p)) by lia.
  rewrite Z.pow_add_r by lia. reflexivity.
Qed.

Lemma pow2_pos (n : Z) : 0 <= n -> 0 < 2 ^ n.
Proof. intros. apply Z.pow_pos_nonneg; lia. Qed.

Lemma iter_pos_shr_m (p : positive) : forall r,
  0 <= shr_m r -> shr_m (SpecFloat.iter_pos shr_1 p r) = shr_m r / 2 ^ Zpos p.
Proof.
  induction p as [p IH|p IH|]; intros r Hr; simpl SpecFloat.iter_pos.
  - assert (H1 : 0 <= shr_m (shr_1 r)) by (rewrite shr_1_m by done; apply Z.div_pos; lia).
    assert (H2 : 0 <= shr_m (SpecFloat.iter_pos shr_1 p (shr_1 r))).
    { rewrite IH by done. apply Z.div_pos; [done|]. apply pow2_pos; lia. }
    rewrite IH, IH, shr_1_m by done.
    pose proof (pow2_pos (Zpos p) ltac:(lia)).
    rewrite !Z.div_div by lia.
    rewrite pow2_xI. reflexivity.
  - assert (H2 : 0 <= shr_m (SpecFloat.iter_pos shr_1 p r)).
    { rewrite IH by done. apply Z.div_pos; [done|]. apply pow2_pos; lia. }
    rewrite IH, IH by done.
    pose proof (pow2_pos (Zpos p) ltac:(lia)).
    rewrite !Z.div_div by lia.
    rewrite pow2_xO. reflexivity.
  - rewrite shr_1_m by done. reflexivity.
Qed.

(** [shr] divides the mantissa by a power of two and moves the exponent. *)
Lemma shr_spec (r : shr_record) (e n : Z) :
  0 <= shr_m r ->
  shr_m (fst (shr r e n)) = shr_m r / 2 ^ Z.max 0 n /\
  snd (shr r e n) = e + Z.max 0 n.
Proof.
  intros Hr. destruct n as [|p|p]; simpl.
  - rewrite Z.div_1_r. lia.
  - rewrite iter_pos_shr_m by done. rewrite Z.max_r by lia. lia.
  - rewrite Z.div_1_r. lia.
Qed.

Lemma shr_zero (r : shr_record) (e n : Z) : n <= 0 -> shr r e n = (r, e).
Proof. destruct n; simpl; intros; try reflexivity; lia. Qed.

Lemma round_nearest_even_bounds (m : Z) (l : location) :
  m <= round_nearest_even m l <= m + 1.
Proof.
  destruct l as [|[]]; simpl; try lia. destruct (Z.even m); lia.
Qed.

Lemma Zdigits2_log2 (m : Z) : 0 < m -> Zdigits2 m = Z.log2 m + 1.
Proof. destruct m; try lia. intros _. apply digits2_pos_log2. Qed.

Lemma fexp32 (e : Z) : fexp 24 128 e = Z.max (e - 24) (-149).
Proof. reflexivity. Qed.

Lemma binary_round_aux_bounds (mx : positive) (ex : Z) :
  -149 <= ex ->
  exists (m' : positive) (e' : Z),
    ex <= e' <= ex + Z.max 0 (Z.log2 (Zpos mx) - 23) + 1 /\
    Zpos mx * 2 ^ 23 <= Zpos m' * 2 ^ (e' - ex) * (2 ^ 23 + 1) /\
    Zpos m' * 2 ^ (e' - ex) * 2 ^ 23 <= Zpos mx * (2 ^ 23 + 1) /\
    Zpos m' < 2 ^ 24 /\
    binary_round_aux 24 128 false (Zpos mx) ex loc_Exact =
      if e' <=? 104 then S754_finite false m' e' else S754_infinity false.
Proof.
  intros Hex.
  pose proof (Z.log2_nonneg (Zpos mx)) as Hl0.
  pose proof (Z.log2_spec (Zpos mx) ltac:(lia)) as [Hlo Hhi].
  set (l := Z.log2 (Zpos mx)) in *.
  unfold binary_round_aux, shr_fexp.
  rewrite Zdigits2_log2 by lia. fold l. rewrite fexp32.
  destruct (Z_le_gt_dec l 23) as [Hd|Hd].
  - (* at most 24 digits: the value is representable *)
    rewrite shr_zero by lia. cbn [shr_record_of_loc shr_m loc_of_shr_record round_nearest_even].
    rewrite Zdigits2_log2 by lia. fold l. rewrite fexp32.
    rewrite shr_zero by lia. cbn [shr_record_of_loc shr_m].
    exists mx, ex. rewrite Z.sub_diag, Z.mul_1_r.
    assert (2 ^ (l + 1) <= 2 ^ 24) by (apply Z.pow_le_mono_r; lia).
    repeat split; try lia.
  - (* more than 24 digits: the low [l - 23] bits are rounded away *)
    set (n := l - 23).
    assert (Hn : 0 < n) by (unfold n; lia).
    replace (Z.max (l + 1 + ex - 24) (-149) - ex) with n by (unfold n; lia).
    pose proof (shr_spec (shr_record_of_loc (Zpos mx) loc_Exact) ex n ltac:(simpl; lia))
      as [Hm1 He1].
    destruct (shr (shr_record_of_loc (Zpos mx) loc_Exact) ex n) as [r1 e1].
    cbn [fst snd shr_record_of_loc shr_m] in Hm1, He1.
    rewrite Z.max_r in Hm1, He1 by lia.
    pose proof (pow2_pos n ltac:(lia)) as Hpn.
    assert (Hsplit : 2 ^ (l + 1) = 2 ^ 24 * 2 ^ n /\ 2 ^ l = 2 ^ 23 * 2 ^ n).
    { split; rewrite <- Z.pow_add_r by lia; f_equal; unfold n; lia. }
    destruct Hsplit as [Hs1 Hs0].
    set (q := shr_m r1) in *.
    assert (Hq : 2 ^ 23 <= q < 2 ^ 24).
    { rewrite Hm1. split.
      - apply Z.div_le_lower_bound; lia.
      - apply Z.div_lt_upper_bound; lia. }
    assert (Hqm : q * 2 ^ n <= Zpos mx < (q + 1) * 2 ^ n).
    { rewrite Hm1.
      pose proof (Z.mul_div_le (Zpos mx) (2 ^ n) Hpn).
      pose proof (Z.mul_succ_div_gt (Zpos mx) (2 ^ n) Hpn). lia. }
    pose proof (round_nearest_even_bounds q (loc_of_shr_record r1)) as Hr.
    set (m1 := round_nearest_even q (loc_of_shr_record r1)) in *.
    rewrite Zdigits2_log2 by lia. rewrite fexp32.
    destruct (Z_lt_ge_dec m1 (2 ^ 24)) as [Hm|Hm].
    + assert (Hl1 : Z.log2 m1 = 23) by (apply Z.log2_unique; lia).
      rewrite Hl1. rewrite shr_zero by lia. cbn [shr_record_of_loc shr_m].
      destruct m1 as [|pm|pm] eqn:Em1; try lia.
      exists pm, e1. replace (e1 - ex) with n by lia.
      repeat split; try lia; try nia.
    + assert (Em : m1 = 2 ^ 24) by lia.
      assert (Hl1 : Z.log2 m1 = 24) by (rewrite Em; reflexivity).
      rewrite Hl1.
      replace (Z.max (24 + 1 + e1 - 24) (-149) - e1) with 1 by lia.
      rewrite Em. cbn [shr_record_of_loc shr shr_m SpecFloat.iter_pos shr_1 Z.pow Z.pow_pos Pos.iter Z.mul Pos.mul].
      exists (8388608%positive), (e1 + 1).
      replace (e1 + 1 - ex) with (1 + n) by lia.
      rewrite Z.pow_add_r by lia. change (2 ^ 1) with 2.
      repeat split; try lia; try nia.
Qed.

Lemma units_split (m e e0 : Z) :
  -149 <= e0 <= e -> m * 2 ^ (e + 149) = m * 2 ^ (e - e0) * 2 ^ (e0 + 149).
Proof.
  intros H. rewrite <- Z.mul_assoc, <- Z.pow_add_r by lia. do 2 f_equal. lia.
Qed.

(** Rounding a positive value [mx * 2^ex] to binary32, in units of 2^-149:
    the result is within a factor [1 + 2^-23] of the value, on both sides. *)
Lemma round_aux_units (mx : positive) (ex : Z) :
  -149 <= ex ->
  exists (m' : positive) (e' : Z),
    ex <= e' /\
    (Zpos mx * 2 ^ (ex + 149)) * 2 ^ 23 <= (Zpos m' * 2 ^ (e' + 149)) * (2 ^ 23 + 1) /\
    (Zpos m' * 2 ^ (e' + 149)) * 2 ^ 23 <= (Zpos mx * 2 ^ (ex + 149)) * (2 ^ 23 + 1) /\
    Zpos m' < 2 ^ 24 /\
    binary_round_aux 24 128 false (Zpos mx) ex loc_Exact =
      if e' <=? 104 then S754_finite false m' e' else S754_infinity false.
Proof.
  intros Hex.
  destruct (binary_round_aux_bounds mx ex Hex) as (m' & e' & He & Hlo & Hhi & Hm & Hr).
  exists m', e'. split; [lia|].
  rewrite (units_split (Zpos m') e' ex) by lia.
  pose proof (pow2_pos (ex + 149) ltac:(lia)) as HK.
  set (K := 2 ^ (ex + 149)) in *.
  repeat split; try done; nia.
Qed.

Lemma pos_iter_xO (d : positive) (m : positive) :
  Zpos (Pos.iter xO m d) = Zpos m * 2 ^ Zpos d.
Proof.
  induction d as [|d IH] using Pos.peano_ind.
  - simpl. lia.
  - rewrite Pos.iter_succ, Pos2Z.inj_xO, IH, Pos2Z.inj_succ, Z.pow_succ_r by lia. lia.
Qed.

Lemma shl_align_spec (mx : positive) (ex ex' : Z) :
  snd (shl_align mx ex ex') = Z.min ex ex' /\
  Zpos (fst (shl_align mx ex ex')) = Zpos mx * 2 ^ (ex - Z.min ex ex').
Proof.
  unfold shl_align. destruct (ex' - ex) as [|d|d] eqn:Ed; cbn [fst snd].
  - rewrite Z.min_l by lia. rewrite Z.sub_diag. lia.
  - rewrite Z.min_l by lia. rewrite Z.sub_diag. lia.
  - rewrite Z.min_r by lia. rewrite pos_iter_xO. split; [done|]. do 2 f_equal. lia.
Qed.

Lemma round_units (mx : positive) (ex : Z) :
  -149 <= ex ->
  exists (m' : positive) (e' : Z),
    -149 <= e' /\ Z.min ex (Z.log2 (Zpos mx) + ex - 23) <= e' /\
    (Zpos mx * 2 ^ (ex + 149)) * 2 ^ 23 <= (Zpos m' * 2 ^ (e' + 149)) * (2 ^ 23 + 1) /\
    (Zpos m' * 2 ^ (e' + 149)) * 2 ^ 23 <= (Zpos mx * 2 ^ (ex + 149)) * (2 ^ 23 + 1) /\
    Zpos m' < 2 ^ 24 /\
    binary_round 24 128 false mx ex =
      if e' <=? 104 then S754_finite false m' e' else S754_infinity false.
Proof.
  intros Hex. unfold binary_round.
  rewrite digits2_pos_log2, fexp32.
  pose proof (shl_align_spec mx ex (Z.max (Z.log2 (Zpos mx) + 1 + ex - 24) (-149)))
    as [He Hm].
  destruct (shl_align mx ex _) as [mz ez]. cbn [fst snd] in He, Hm.
  assert (Hez : -149 <= ez <= ex) by lia.
  destruct (round_aux_units mz ez ltac:(lia)) as (m' & e' & H1 & H2 & H3 & H4 & H5).
  exists m', e'. rewrite H5.
  assert (Hv : Zpos mz * 2 ^ (ez + 149) = Zpos mx * 2 ^ (ex + 149)).
  { rewrite Hm, <- He. symmetry. apply units_split. lia. }
  rewrite Hv in H2, H3.
  repeat split; try done; lia.
Qed.

Lemma finite_or_inf_finite (m : positive) (e X : Z) :
  -149 <= e ->
  Zpos m * 2 ^ (e + 149) <= X -> X < 2 ^ 253 ->
  (if e <=? 104 then S754_finite false m e else S754_infinity false)
  = S754_finite false m e.
Proof.
  intros He HU HX. destruct (Z.leb_spec e 104) as [|Hgt]; [done|]. exfalso.
  assert (2 ^ 254 <= 2 ^ (e + 149)) by (apply Z.pow_le_mono_r; lia).
  assert (2 ^ 253 < 2 ^ 254) by (apply Z.pow_lt_mono_r; lia).
  nia.
Qed.

Lemma f32_of_Z_units (N : Z) :
  0 < N < 2 ^ 64 ->
  exists (m : positive) (e : Z),
    f32_of_Z N = S754_finite false m e /\ -23 <= e /\ Zpos m < 2 ^ 24 /\
    (N * 2 ^ 149) * 2 ^ 23 <= (Zpos m * 2 ^ (e + 149)) * (2 ^ 23 + 1) /\
    (Zpos m * 2 ^ (e + 149)) * 2 ^ 23 <= (N * 2 ^ 149) * (2 ^ 23 + 1).
Proof.
  intros HN. destruct N as [|p|p]; try lia.
  unfold f32_of_Z, binary_normalize, f32_prec, f32_emax.
  destruct (round_units p 0 ltac:(lia)) as (m & e & H1 & H2 & H3 & H4 & H5 & H6).
  pose proof (Z.log2_nonneg (Zpos p)).
  exists m, e. rewrite H6. change (0 + 149) with 149 in *.
  split.
  - apply finite_or_inf_finite with (X := 2 ^ 214); [lia| |apply Z.pow_lt_mono_r; lia].
    assert (Zpos p * 2 ^ 149 < 2 ^ 64 * 2 ^ 149) by (apply Z.mul_lt_mono_pos_r; lia).
    change (2 ^ 214) with (2 ^ 64 * 2 ^ 149 * 2). lia.
  - repeat split; try done; lia.
Qed.

Lemma f32_mul_units (m1 m2 : positive) (e1 e2 : Z) :
  -149 <= e1 -> -149 <= e2 -> -149 <= e1 + e2 ->
  exists (m : positive) (e : Z),
    e1 + e2 <= e /\ Zpos m < 2 ^ 24 /\
    (Zpos m1 * 2 ^ (e1 + 149)) * (Zpos m2 * 2 ^ (e2 + 149)) * 2 ^ 23
      <= (Zpos m * 2 ^ (e + 149)) * (2 ^ 23 + 1) * 2 ^ 149 /\
    (Zpos m * 2 ^ (e + 149)) * 2 ^ 23 * 2 ^ 149
      <= (Zpos m1 * 2 ^ (e1 + 149)) * (Zpos m2 * 2 ^ (e2 + 149)) * (2 ^ 23 + 1) /\
    f32_mul (S754_finite false m1 e1) (S754_finite false m2 e2) =
      if e <=? 104 then S754_finite false m e else S754_infinity false.
Proof.
  intros He1 He2 He.
  unfold f32_mul, SFmul, f32_prec, f32_emax. cbn [xorb].
  destruct (round_aux_units (m1 * m2) (e1 + e2) He) as (m & e & H1 & H2 & H3 & H4 & H5).
  exists m, e. rewrite H5.
  assert (Hv : (Zpos m1 * 2 ^ (e1 + 149)) * (Zpos m2 * 2 ^ (e2 + 149))
               = Zpos (m1 * m2) * 2 ^ (e1 + e2 + 149) * 2 ^ 149).
  { assert (Hp : 2 ^ (e1 + e2 + 149) * 2 ^ 149 = 2 ^ (e1 + 149) * 2 ^ (e2 + 149)).
    { rewrite <- !Z.pow_add_r by lia. f_equal. lia. }
    rewrite Pos2Z.inj_mul, <- (Z.mul_assoc _ (2 ^ (e1 + e2 + 149))), Hp. ring. }
  rewrite Hv.
  repeat split; try done; nia.
Qed.

Lemma f32_add_units (m1 m2 : positive) (e1 e2 : Z) :
  -149 <= e1 -> -149 <= e2 ->
  exists (m : positive) (e : Z),
    -149 <= e /\ Zpos m < 2 ^ 24 /\
    (Zpos m1 * 2 ^ (e1 + 149) + Zpos m2 * 2 ^ (e2 + 149)) * 2 ^ 23
      <= (Zpos m * 2 ^ (e + 149)) * (2 ^ 23 + 1) /\
    (Zpos m * 2 ^ (e + 149)) * 2 ^ 23
      <= (Zpos m1 * 2 ^ (e1 + 149) + Zpos m2 * 2 ^ (e2 + 149)) * (2 ^ 23 + 1) /\
    f32_add (S754_finite false m1 e1) (S754_finite false m2 e2) =
      if e <=? 104 then S754_finite false m e else S754_infinity false.
Proof.
  intros He1 He2.
  unfold f32_add, SFadd, f32_prec, f32_emax. cbn [cond_Zopp].
  set (ez := Z.min e1 e2).
  pose proof (shl_align_spec m1 e1 ez) as [_ Ha].
  pose proof (shl_align_spec m2 e2 ez) as [_ Hb].
  set (a := fst (shl_align m1 e1 ez)) in *.
  set (b := fst (shl_align m2 e2 ez)) in *.
  rewrite Z.min_r in Ha, Hb by (unfold ez; lia).
  change (Zpos a + Zpos b) with (Zpos (a + b)).
  unfold binary_normalize.
  destruct (round_units (a + b) ez ltac:(unfold ez; lia))
    as (m & e & H1 & H2 & H3 & H4 & H5 & H6).
  exists m, e. rewrite H6.
  assert (Hv : Zpos (a + b) * 2 ^ (ez + 149)
               = Zpos m1 * 2 ^ (e1 + 149) + Zpos m2 * 2 ^ (e2 + 149)).
  { rewrite Pos2Z.inj_add, Z.mul_add_distr_r, Ha, Hb.
    rewrite <- !units_split by (unfold ez; lia). reflexivity. }
  rewrite Hv in H3, H4.
  repeat split; try done.
Qed.

Lemma f32_to_int_units (m : positive) (e k : Z) :
  -149 <= e ->
  f32_to_int (S754_finite false m e) = Some k ->
  k * 2 ^ 149 <= Zpos m * 2 ^ (e + 149) < (k + 1) * 2 ^ 149.
Proof.
  intros He. unfold f32_to_int, f32_trunc.
  destruct (_ && _); [|done]. intros [= <-].
  destruct (Z.leb_spec 0 e) as [Hge|Hlt].
  - rewrite Z.pow_add_r by lia. pose proof (pow2_pos 149 ltac:(lia)).
    pose proof (pow2_pos e ltac:(lia)). nia.
  - assert (HK : 2 ^ 149 = 2 ^ (- e) * 2 ^ (e + 149)).
    { rewrite <- Z.pow_add_r by lia. f_equal. lia. }
    rewrite HK.
    pose proof (pow2_pos (- e) ltac:(lia)) as Hp.
    pose proof (pow2_pos (e + 149) ltac:(lia)) as Hq.
    pose proof (Z.mul_div_le (Zpos m) (2 ^ (- e)) Hp).
    pose proof (Z.mul_succ_div_gt (Zpos m) (2 ^ (- e)) Hp).
    set (q := Zpos m / 2 ^ (- e)) in *.
    set (P := 2 ^ (- e)) in *. set (Q := 2 ^ (e + 149)) in *.
    clearbody q P Q. nia.
Qed.

Lemma all_below_spec (P : Z -> bool) (n : nat) :
  all_below P n = true -> forall z, 0 <= z < Z.of_nat n -> P z = true.
Proof.
  induction n as [|n IH]; simpl; intros H z Hz; [lia|].
  apply andb_true_iff in H as [H1 H2].
  destruct (Z.eq_dec z (Z.of_nat n)) as [->|Hne]; [done|].
  apply IH; [done|lia].
Qed.

Lemma base_table (b : Z) : 1 <= b <= 99 -> base_table_ok b = true.
Proof.
  intros Hb.
  assert (H : all_below (fun b => (b =? 0) || base_table_ok b) 100 = true)
    by (vm_compute; reflexivity).
  pose proof (all_below_spec (fun b => (b =? 0) || base_table_ok b) 100 H b
                ltac:(lia)) as Hb'.
  apply orb_true_iff in Hb' as [Hb'|Hb']; [lia|done].
Qed.

Lemma boost_table_computed : all_below boost_row_ok 100 = true.
Proof. vm_compute. reflexivity. Qed.

Lemma boost_table (b N : Z) :
  1 <= b <= 99 -> 1 <= N -> b * N < 2000 -> boost_ok b N = true.
Proof.
  intros Hb HN HbN.
  assert (HNb : N < 2000 / b + 1).
  { assert (N <= 2000 / b); [|lia]. apply Z.div_le_lower_bound; lia. }
  assert (H1 : boost_row_ok b = true).
  { apply (all_below_spec boost_row_ok 100 boost_table_computed b). lia. }
  assert (H2 : boost_cell_ok b N = true).
  { apply (all_below_spec (boost_cell_ok b) _ H1 N). lia. }
  apply orb_true_iff in H2 as [H2|H2]; [lia|done].
Qed.

(** The arithmetic behind the cap: four roundings, each losing at most a
    factor [E / (E + 1)], cannot bring a boost of at least 100 below 99. *)
Lemma boost_chain (K b N Ux UN U3 U4 : Z) :
  0 < K -> 1 <= b -> 0 < N -> 2000 <= b * N ->
  0 <= Ux -> 0 <= UN -> 0 <= U3 ->
  b * K * 2 ^ 23 <= 20 * Ux * (2 ^ 23 + 1) ->
  N * K * 2 ^ 23 <= UN * (2 ^ 23 + 1) ->
  Ux * UN * 2 ^ 23 <= U3 * (2 ^ 23 + 1) * K ->
  (b * K + U3) * 2 ^ 23 <= U4 * (2 ^ 23 + 1) ->
  99 * K <= U4.
Proof.
  change (2 ^ 23) with 8388608. change (8388608 + 1) with 8388609.
  intros HK Hb HN HbN HUx HUN HU3 H1 H2 H3 H4.
  assert (A1 : (b * K * 8388608) * (N * K * 8388608)
               <= (20 * Ux * 8388609) * (UN * 8388609)).
  { apply Z.mul_le_mono_nonneg; nia. }
  assert (A2 : 2000 * (K * K) * (8388608 * 8388608)
               <= 20 * (Ux * UN) * (8388609 * 8388609)) by nia.
  assert (A3 : 20 * (Ux * UN * 8388608) * (8388609 * 8388609)
               <= 20 * (U3 * 8388609 * K) * (8388609 * 8388609)) by nia.
  assert (A4 : 100 * K * (8388608 * 8388608 * 8388608)
               <= U3 * (8388609 * 8388609 * 8388609)).
  { assert (100 * (K * K) * (8388608 * 8388608 * 8388608)
            <= U3 * K * (8388609 * 8388609 * 8388609)) by nia.
    nia. }
  assert (A5 : 199 * K <= 2 * U3) by nia.
  nia.
Qed.

Lemma base_table_facts (b : Z) :
  1 <= b <= 99 ->
  exists (mb mx : positive) (eb ex : Z),
    f32_of_Z b = S754_finite false mb eb /\
    f32_mul (f32_of_Z b) f32_0_05 = S754_finite false mx ex /\
    -23 <= eb /\ Zpos mb * 2 ^ (eb + 149) = b * 2 ^ 149 /\ -28 <= ex /\
    b * 2 ^ 149 * 2 ^ 23 <= 20 * (Zpos mx * 2 ^ (ex + 149)) * (2 ^ 23 + 1) /\
    20 * (Zpos mx * 2 ^ (ex + 149)) * 2 ^ 23 <= b * 2 ^ 149 * (2 ^ 23 + 1).
Proof.
  intros Hb. pose proof (base_table b Hb) as Ht. unfold base_table_ok in Ht.
  destruct (f32_of_Z b) as [| | |[] mb eb]; try done.
  destruct (f32_mul _ f32_0_05) as [| | |[] mx ex]; try done.
  repeat (apply andb_true_iff in Ht as [Ht ?]).
  exists mb, mx, eb, ex. repeat split; try done; lia.
Qed.

(** From a boost of 100 on, the conversion yields at least 99 whenever it is
    defined. *)
Lemma boosted_priority_large (b N k : Z) :
  1 <= b <= 99 -> 0 < N < 2 ^ 64 -> 2000 <= b * N ->
  f32_to_int (boosted_priority b N) = Some k -> 99 <= k.
Proof.
  intros Hb HN HbN.
  destruct (base_table_facts b Hb)
    as (mb & mx & eb & ex & Efb & Exb & Heb & HUb & Hex & Hxlo & Hxhi).
  destruct (f32_of_Z_units N HN) as (mN & eN & EfN & HeN & HmN & HNlo & HNhi).
  unfold boosted_priority. rewrite Exb, Efb, EfN.
  destruct (f32_mul_units mx mN ex eN ltac:(lia) ltac:(lia) ltac:(lia))
    as (m3 & e3 & He3 & Hm3 & H3lo & H3hi & E3).
  rewrite E3. destruct (e3 <=? 104); [|done].
  destruct (f32_add_units mb m3 eb e3 ltac:(lia) ltac:(lia))
    as (m4 & e4 & He4 & Hm4 & H4lo & H4hi & E4).
  rewrite E4. destruct (e4 <=? 104); [|done].
  intros Hk. apply f32_to_int_units in Hk; [|done].
  pose proof (pow2_pos 149 ltac:(lia)) as HK.
  pose proof (pow2_pos (ex + 149) ltac:(lia)).
  pose proof (pow2_pos (eN + 149) ltac:(lia)).
  pose proof (pow2_pos (e3 + 149) ltac:(lia)).
  rewrite HUb in H4lo.
  assert (99 * 2 ^ 149 <= Zpos m4 * 2 ^ (e4 + 149)).
  { apply (boost_chain (2 ^ 149) b N (Zpos mx * 2 ^ (ex + 149))
             (Zpos mN * 2 ^ (eN + 149)) (Zpos m3 * 2 ^ (e3 + 149))); try lia. }
  nia.
Qed.

(** With a zero base priority the boost is zero. *)
Lemma boosted_priority_zero (N : Z) :
  0 < N < 2 ^ 64 -> boosted_priority 0 N = S754_zero false.
Proof.
  intros HN. destruct (f32_of_Z_units N HN) as (mN & eN & EfN & _).
  unfold boosted_priority. rewrite EfN. reflexivity.
Qed.

(** The priority computed in [float] agrees with the integer formula, and
    is never below the base priority, whenever the conversion to [int] is
    defined. *)
Theorem boosted_priority_formula (b N k : Z) :
  0 <= b <= 99 -> 0 < N < 2 ^ 64 ->
  f32_to_int (boosted_priority b N) = Some k ->
  Z.min 99 k = Z.min 99 (b + b * N / 20) /\ b <= k.
Proof.
  intros Hb HN Hk.
  destruct (Z.eq_dec b 0) as [->|Hb0].
  { rewrite boosted_priority_zero in Hk by done. injection Hk as <-.
    rewrite Z.mul_0_l, Z.div_0_l by lia. lia. }
  destruct (Z_lt_ge_dec (b * N) 2000) as [Hsmall|Hlarge].
  - pose proof (boost_table b N ltac:(lia) ltac:(lia) Hsmall) as Ht.
    unfold boost_ok in Ht. rewrite Hk in Ht.
    apply andb_true_iff in Ht as [H1 H2]. lia.
  - pose proof (boosted_priority_large b N k ltac:(lia) HN ltac:(lia) Hk).
    assert (100 <= b * N / 20) by (apply Z.div_le_lower_bound; lia).
    lia.
Qed.

Lemma f32_trunc_units (m : positive) (e : Z) :
  -149 <= e ->
  f32_trunc false m e * 2 ^ 149 <= Zpos m * 2 ^ (e + 149)
    < (f32_trunc false m e + 1) * 2 ^ 149.
Proof.
  intros He. unfold f32_trunc.
  destruct (Z.leb_spec 0 e) as [Hge|Hlt].
  - rewrite Z.pow_add_r by lia. pose proof (pow2_pos 149 ltac:(lia)).
    pose proof (pow2_pos e ltac:(lia)). nia.
  - assert (HK : 2 ^ 149 = 2 ^ (- e) * 2 ^ (e + 149)).
    { rewrite <- Z.pow_add_r by lia. f_equal. lia. }
    rewrite HK.
    pose proof (pow2_pos (- e) ltac:(lia)) as Hp.
    pose proof (pow2_pos (e + 149) ltac:(lia)) as Hq.
    pose proof (Z.mul_div_le (Zpos m) (2 ^ (- e)) Hp).
    pose proof (Z.mul_succ_div_gt (Zpos m) (2 ^ (- e)) Hp).
    set (q := Zpos m / 2 ^ (- e)) in *.
    set (P := 2 ^ (- e)) in *. set (Q := 2 ^ (e + 149)) in *.
    clearbody q P Q. nia.
Qed.

Lemma f32_to_int_defined (m : positive) (e : Z) :
  -149 <= e -> Zpos m * 2 ^ (e + 149) < 2 ^ 31 * 2 ^ 149 ->
  f32_to_int (S754_finite false m e) = Some (f32_trunc false m e).
Proof.
  intros He HU. pose proof (f32_trunc_units m e He) as [Hlo Hhi].
  pose proof (pow2_pos 149 ltac:(lia)) as HK.
  pose proof (pow2_pos (e + 149) ltac:(lia)) as HQ.
  assert (0 <= f32_trunc false m e < 2 ^ 31) by nia.
  unfold f32_to_int, INT_MIN, INT_MAX.
  destruct (Z.leb_spec (- 2 ^ 31) (f32_trunc false m e)); [|lia].
  destruct (Z.leb_spec (f32_trunc false m e) (2 ^ 31 - 1)); [done|lia].
Qed.

Lemma boost_chain_upper (K b N Ux UN U3 U4 : Z) :
  0 < K -> 1 <= b <= 99 -> 0 < N -> b * N <= 42949650000 ->
  0 <= Ux -> 0 <= UN -> 0 <= U3 -> 0 <= U4 ->
  20 * Ux * 2 ^ 23 <= b * K * (2 ^ 23 + 1) ->
  UN * 2 ^ 23 <= N * K * (2 ^ 23 + 1) ->
  U3 * 2 ^ 23 * K <= Ux * UN * (2 ^ 23 + 1) ->
  U4 * 2 ^ 23 <= (b * K + U3) * (2 ^ 23 + 1) ->
  U3 < 2 ^ 31 * K /\ U4 < 2 ^ 31 * K.
Proof.
  change (2 ^ 23) with 8388608. change (8388608 + 1) with 8388609.
  change (2 ^ 31) with 2147483648.
  intros HK Hb HN HbN HUx HUN HU3 HU4 H1 H2 H3 H4.
  assert (A1 : (20 * Ux * 8388608) * (UN * 8388608)
               <= (b * K * 8388609) * (N * K * 8388609)).
  { apply Z.mul_le_mono_nonneg; nia. }
  assert (A2 : 20 * (Ux * UN) * (8388608 * 8388608)
               <= 42949650000 * (K * K) * (8388609 * 8388609)) by nia.
  assert (A3 : 20 * (U3 * 8388608 * K) * (8388608 * 8388608)
               <= 20 * (Ux * UN * 8388609) * (8388608 * 8388608)) by nia.
  assert (A4 : U3 * (8388608 * 8388608 * 8388608)
               <= 2147482500 * K * (8388609 * 8388609 * 8388609)).
  { assert (U3 * K * (8388608 * 8388608 * 8388608)
            <= 2147482500 * (K * K) * (8388609 * 8388609 * 8388609)) by nia.
    nia. }
  assert (A5 : U3 <= 2147483270 * K) by nia.
  split; nia.
Qed.

(** As long as [b * N / 20] stays below 2147482500 the conversion is defined. *)
Lemma boosted_priority_defined (b N : Z) :
  0 <= b <= 99 -> 0 < N < 2 ^ 64 -> b * N <= 42949650000 ->
  exists k, f32_to_int (boosted_priority b N) = Some k.
Proof.
  intros Hb HN HbN.
  destruct (Z.eq_dec b 0) as [->|Hb0].
  { rewrite boosted_priority_zero by done. by exists 0. }
  destruct (base_table_facts b ltac:(lia))
    as (mb & mx & eb & ex & Efb & Exb & Heb & HUb & Hex & Hxlo & Hxhi).
  destruct (f32_of_Z_units N HN) as (mN & eN & EfN & HeN & HmN & HNlo & HNhi).
  unfold boosted_priority. rewrite Exb, Efb, EfN.
  destruct (f32_mul_units mx mN ex eN ltac:(lia) ltac:(lia) ltac:(lia))
    as (m3 & e3 & He3 & Hm3 & H3lo & H3hi & E3).
  destruct (f32_add_units mb m3 eb e3 ltac:(lia) ltac:(lia))
    as (m4 & e4 & He4 & Hm4 & H4lo & H4hi & E4).
  pose proof (pow2_pos 149 ltac:(lia)) as HK.
  pose proof (pow2_pos (ex + 149) ltac:(lia)).
  pose proof (pow2_pos (eN + 149) ltac:(lia)).
  pose proof (pow2_pos (e3 + 149) ltac:(lia)).
  pose proof (pow2_pos (e4 + 149) ltac:(lia)).
  rewrite HUb in H4hi.
  destruct (boost_chain_upper (2 ^ 149) b N (Zpos mx * 2 ^ (ex + 149))
              (Zpos mN * 2 ^ (eN + 149)) (Zpos m3 * 2 ^ (e3 + 149))
              (Zpos m4 * 2 ^ (e4 + 149))) as [B3 B4]; try lia.
  assert (Hbig : 2 ^ 31 * 2 ^ 149 < 2 ^ 253).
  { rewrite <- Z.pow_add_r by lia. apply Z.pow_lt_mono_r; lia. }
  rewrite E3.
  rewrite (finite_or_inf_finite m3 e3 (2 ^ 31 * 2 ^ 149)) by lia.
  rewrite E4.
  rewrite (finite_or_inf_finite m4 e4 (2 ^ 31 * 2 ^ 149)) by lia.
  eexists. apply f32_to_int_defined; [done|lia].
Qed.

(** ** Tasks *)

Lemma wrap64_range (z : Z) : 0 <= wrap64 z < 2 ^ 64.
Proof. unfold wrap64. apply Z.mod_pos_bound. lia. Qed.

Lemma wrap64_small (z : Z) : 0 <= z < 2 ^ 64 -> wrap64 z = z.
Proof. intros. unfold wrap64. apply Z.mod_small. lia. Qed.

Lemma wrap8_small (z : Z) : 0 <= z < 2 ^ 8 -> wrap8 z = z.
Proof. intros. unfold wrap8. apply Z.mod_small. lia. Qed.

Lemma min_u8_99 (p : Z) : 0 <= min_u8 p 99 <= 99.
Proof.
  unfold min_u8, wrap8. pose proof (Z.mod_pos_bound p (2 ^ 8) ltac:(lia)).
  change (99 mod 2 ^ 8) with 99. lia.
Qed.

Lemma min_u8_99_pos (p : Z) : 1 <= p <= 255 -> 1 <= min_u8 p 99.
Proof.
  intros Hp. unfold min_u8. rewrite (wrap8_small p) by (change (2 ^ 8) with 256; lia).
  change (wrap8 99) with 99. lia.
Qed.

(** Every task the constructor builds is well formed, whatever the
    arguments. *)
Lemma TaskBase_wf name priority policy period deadline stack_size recoverable :
  task_wf (TaskBase name priority policy period deadline stack_size recoverable).
Proof.
  pose proof (min_u8_99 priority). unfold task_wf, TaskBase. simpl. lia.
Qed.

(** [update_priority] on a well-formed task: when the conversion to [int]
    is defined, the new dynamic priority is the integer formula. *)
Lemma updatePriority_formula (t t' : Task) :
  task_wf t -> updatePriority t = Some t' ->
  t' = with_dynamic_priority
         (spec_priority (base_priority_ t) (deadline_misses (statistics_ t))) t.
Proof.
  intros (Hb & _ & _ & Hm). unfold updatePriority, spec_priority.
  destruct (Z.ltb_spec 0 (deadline_misses (statistics_ t))) as [Hpos|Hzero].
  - destruct (f32_to_int _) as [k|] eqn:Hk; [|done]. simpl. intros [= <-].
    pose proof (boosted_priority_formula (base_priority_ t)
                  (deadline_misses (statistics_ t)) k Hb ltac:(lia) Hk) as [Hf Hge].
    rewrite <- Hf. rewrite wrap8_small by (change (2 ^ 8) with 256; lia). done.
  - by intros [= <-].
Qed.

Lemma updatePriority_defined (t : Task) :
  task_wf t ->
  base_priority_ t * deadline_misses (statistics_ t) <= 42949650000 ->
  is_Some (updatePriority t).
Proof.
  intros (Hb & _ & _ & Hm) Hsmall. unfold updatePriority.
  destruct (Z.ltb_spec 0 (deadline_misses (statistics_ t))) as [Hpos|Hzero]; [|done].
  destruct (boosted_priority_defined (base_priority_ t)
              (deadline_misses (statistics_ t)) Hb ltac:(lia) Hsmall) as [k ->]. done.
Qed.

Lemma spec_priority_range (b N : Z) :
  0 <= b <= 99 -> 0 <= N -> b <= spec_priority b N <= 99.
Proof.
  intros Hb HN. unfold spec_priority. destruct (Z.ltb_spec 0 N); [|lia].
  assert (0 <= b * N / 20) by (apply Z.div_pos; nia). lia.
Qed.

Lemma updatePriority_wf (t t' : Task) :
  task_wf t -> updatePriority t = Some t' -> task_wf t'.
Proof.
  intros Hwf Hu. rewrite (updatePriority_formula t t' Hwf Hu).
  destruct Hwf as (Hb & Hd & He & Hm).
  pose proof (spec_priority_range (base_priority_ t)
                (deadline_misses (statistics_ t)) Hb ltac:(lia)).
  unfold task_wf. simpl. lia.
Qed.

Lemma recordDeadlineMiss_wf (t t' : Task) :
  task_wf t -> recordDeadlineMiss t = Some t' -> task_wf t'.
Proof.
  intros (Hb & Hd & He & Hm). unfold recordDeadlineMiss. apply updatePriority_wf.
  pose proof (wrap64_range (deadline_misses (statistics_ t) + 1)).
  unfold task_wf. simpl. lia.
Qed.

Lemma updateDeadlineCounter_wf (elapsed : Z) (t t' : Task) :
  task_wf t -> updateDeadlineCounter elapsed t = Some t' -> task_wf t'.
Proof.
  intros Hwf. unfold updateDeadlineCounter.
  destruct (0 <? deadline_ t); [|by intros [= <-]].
  set (t1 := set_deadline_counter _ t).
  assert (Hwf1 : task_wf t1) by exact Hwf.
  destruct (deadline_ t1 <? _); [|by intros [= <-]].
  destruct (recordDeadlineMiss t1) as [t2|] eqn:Hr; [|done]. simpl. intros [= <-].
  exact (recordDeadlineMiss_wf _ _ Hwf1 Hr).
Qed.

(** Well-formedness is kept by every public method. *)
Lemma task_call_wf (c : TaskCall) (t t' : Task) :
  task_wf t -> task_call c t = Some t' -> task_wf t'.
Proof.
  intros Hwf. destruct c; simpl; try (intros [= <-]).
  - destruct Hwf as (Hb & Hd & He & Hm).
    pose proof (wrap64_range (execution_count (statistics_ t) + 1)).
    unfold task_wf. simpl. lia.
  - destruct o; simpl; [done|]. by destruct (negb (recoverable_ t)).
  - unfold suspend. by destruct (decide _).
  - unfold resume. by destruct (decide _).
  - done.
  - by apply recordDeadlineMiss_wf.
  - by apply updatePriority_wf.
  - destruct Hwf as (Hb & Hd & He & Hm). unfold task_wf. simpl. lia.
  - by apply updateDeadlineCounter_wf.
  - done.
  - done.
Qed.

Lemma task_calls_wf (cs : list TaskCall) : forall t t',
  task_wf t -> task_calls cs t = Some t' -> task_wf t'.
Proof.
  induction cs as [|c cs IH]; simpl; intros t t' Hwf.
  - by intros [= <-].
  - destruct (task_call c t) as [t1|] eqn:Hc; [|done]. simpl.
    apply IH. by eapply task_call_wf.
Qed.

Lemma same_constants_refl (t : Task) : same_constants t t.
Proof. by repeat split. Qed.

Lemma same_constants_trans (t1 t2 t3 : Task) :
  same_constants t1 t2 -> same_constants t2 t3 -> same_constants t1 t3.
Proof. unfold same_constants. intuition congruence. Qed.

Lemma updatePriority_constants (t t' : Task) :
  updatePriority t = Some t' -> same_constants t t'.
Proof.
  unfold updatePriority. destruct (0 <? _).
  - destruct (f32_to_int _); [|done]. simpl. intros [= <-]. by repeat split.
  - intros [= <-]. by repeat split.
Qed.

Lemma recordDeadlineMiss_constants (t t' : Task) :
  recordDeadlineMiss t = Some t' -> same_constants t t'.
Proof.
  unfold recordDeadlineMiss. intros H. apply updatePriority_constants in H.
  exact H.
Qed.

Lemma updateDeadlineCounter_constants (elapsed : Z) (t t' : Task) :
  updateDeadlineCounter elapsed t = Some t' -> same_constants t t'.
Proof.
  unfold updateDeadlineCounter. destruct (0 <? deadline_ t).
  - destruct (_ <? _).
    + destruct (recordDeadlineMiss _) as [t2|] eqn:Hr; [|done]. simpl.
      intros [= <-]. apply recordDeadlineMiss_constants in Hr. exact Hr.
    + intros [= <-]. by repeat split.
  - intros [= <-]. by repeat split.
Qed.

Lemma task_call_constants (c : TaskCall) (t t' : Task) :
  task_call c t = Some t' -> same_constants t t'.
Proof.
  destruct c; simpl; try (by intros [= <-]; repeat split).
  - intros [= <-]. destruct o; simpl; [by repeat split|].
    destruct (negb _); by repeat split.
  - intros [= <-]. unfold suspend. destruct (decide _); by repeat split.
  - intros [= <-]. unfold resume. destruct (decide _); by repeat split.
  - apply recordDeadlineMiss_constants.
  - apply updatePriority_constants.
  - apply updateDeadlineCounter_constants.
Qed.

Lemma task_calls_constants (cs : list TaskCall) : forall t t',
  task_calls cs t = Some t' -> same_constants t t'.
Proof.
  induction cs as [|c cs IH]; simpl; intros t t'.
  - intros [= <-]. apply same_constants_refl.
  - destruct (task_call c t) as [t1|] eqn:Hc; [|done]. simpl. intros H.
    eapply same_constants_trans; [by eapply task_call_constants|by apply IH].
Qed.

(** *** C1: [execute] *)

(** C1.  For every task, [execute()] sets the state to RUNNING, stores the
    clock in [last_execution], adds exactly one to [execution_count] and
    clears [deadline_counter]; it then calls the handler, on the task in that
    state.  When the handler returns the final state is READY; when it
    throws, the final state is READY for a recoverable task and TERMINATED
    for one that is not.  Nothing else of the task is touched by [execute]
    itself.  (The counter is a [std::size_t]: the hypothesis keeps it below
    its maximum, where the increment wraps to 0.) *)
Theorem execute_spec (now : Z) (handler : Handler) (t : Task) :
  0 <= execution_count (statistics_ t) < 2 ^ 64 - 1 ->
  let t1 := execute_begin now t in
  let o := fst (handler t1) in
  let t2 := snd (handler t1) in
  let t3 := execute now handler t in
  (* up to the call of the handler *)
  state_ t1 = RUNNING /\
  last_execution (statistics_ t1) = now /\
  execution_count (statistics_ t1) = execution_count (statistics_ t) + 1 /\
  deadline_counter (statistics_ t1) = 0 /\
  deadline_misses (statistics_ t1) = deadline_misses (statistics_ t) /\
  total_execution_time (statistics_ t1) = total_execution_time (statistics_ t) /\
  average_execution_time (statistics_ t1) = average_execution_time (statistics_ t) /\
  dynamic_priority_ t1 = dynamic_priority_ t /\
  same_constants t t1 /\
  (* after it *)
  t3 = execute_end o t2 /\
  state_ t3 = match o with
              | Returns => READY
              | Throws => if recoverable_ t3 then READY else TERMINATED
              end /\
  recoverable_ t3 = recoverable_ t2 /\
  statistics_ t3 = statistics_ t2 /\
  dynamic_priority_ t3 = dynamic_priority_ t2.
Proof.
  intros Hc. cbv zeta. unfold execute.
  destruct (handler (execute_begin now t)) as [o t2] eqn:Hh. cbn [fst snd].
  repeat split; try reflexivity.
  - simpl. apply wrap64_small. lia.
  - destruct o; [done|]. simpl.
    destruct (recoverable_ t2) eqn:E; simpl; by rewrite E.
  - destruct o; [done|]. simpl. by destruct (negb (recoverable_ t2)).
  - destruct o; [done|]. simpl. by destruct (negb (recoverable_ t2)).
  - destruct o; [done|]. simpl. by destruct (negb (recoverable_ t2)).
Qed.

(** A handler that leaves its own task alone and throws, run for a
    non-recoverable task that has executed twice. *)
Lemma execute_spec_witness :
  let t := with_statistics (mkStats 2 0 10 7 3 4)
             (TaskBase "F" 20 PREEMPTIVE 0 0 4096 false) in
  let t3 := execute 50 (fun t1 => (Throws, t1)) t in
  0 <= execution_count (statistics_ t) < 2 ^ 64 - 1 /\
  state_ t3 = TERMINATED /\
  execution_count (statistics_ t3) = 3 /\
  last_execution (statistics_ t3) = 50 /\
  deadline_counter (statistics_ t3) = 0.
Proof.
  cbv zeta.
  set (t := with_statistics _ _).
  assert (Hc : 0 <= execution_count (statistics_ t) < 2 ^ 64 - 1)
    by (vm_compute; split; [discriminate|reflexivity]).
  pose proof (execute_spec 50 (fun t1 => (Throws, t1)) t Hc) as H.
  cbv zeta in H. cbn [fst snd] in H.
  destruct H as (_ & Hl & He & Hd & _ & _ & _ & _ & _ & _ & Hs & Hr & Hst & _).
  split; [exact Hc|].
  rewrite Hs, Hr, Hst, He, Hl, Hd. repeat split; reflexivity.
Defined.

(** At the maximum of [std::size_t] the increment wraps around. *)
Lemma execute_begin_count_wraps (now : Z) (t : Task) :
  execution_count (statistics_ (execute_begin now t))
  = wrap64 (execution_count (statistics_ t) + 1).
Proof. reflexivity. Qed.

(** *** C8: [suspend] then [resume] *)

(** C8.  For every task, [suspend()] followed at once by [resume()] leaves
    the task READY if and only if it was not TERMINATED before; on a
    TERMINATED task both calls change nothing. *)
Theorem suspend_resume (t : Task) :
  (state_ (resume (suspend t)) = READY <-> state_ t <> TERMINATED) /\
  resume (suspend t)
  = (if decide (state_ t = TERMINATED) then t else with_state READY t) /\
  suspend t
  = (if decide (state_ t = TERMINATED) then t else with_state SUSPENDED t).
Proof.
  unfold resume, suspend.
  destruct (state_ t) eqn:Hs; simpl; rewrite ?Hs; simpl;
    (split; [|split; reflexivity]); split; intros H;
    first [ reflexivity | discriminate | congruence ].
Qed.

(** *** C10: [update_deadline_counter] without a deadline *)

Lemma updateDeadlineCounter_no_deadline (elapsed : Z) (t : Task) :
  deadline_ t <= 0 -> updateDeadlineCounter elapsed t = Some t.
Proof.
  intros H. unfold updateDeadlineCounter.
  destruct (Z.ltb_spec 0 (deadline_ t)); [lia|done].
Qed.

(** C10.  A task constructed with period 0 and deadline 0 stores deadline 0,
    and keeps it whatever is called on it afterwards; on such a task
    [update_deadline_counter(delta)] does nothing at all, for every [delta]:
    the counter does not advance and no other field changes. *)
Theorem updateDeadlineCounter_noop
    name priority policy stack_size recoverable (cs : list TaskCall) (t : Task)
    (delta : Z) :
  task_calls cs (TaskBase name priority policy 0 0 stack_size recoverable) = Some t ->
  deadline_ t = 0 /\ updateDeadlineCounter delta t = Some t.
Proof.
  intros Hcs. apply task_calls_constants in Hcs.
  destruct Hcs as (_ & _ & _ & _ & Hd & _). simpl in Hd.
  split; [done|]. apply updateDeadlineCounter_no_deadline. lia.
Qed.

Lemma updateDeadlineCounter_noop_witness :
  let t0 := TaskBase "idle" 30 COOPERATIVE 0 0 4096 false in
  let cs := [CExecuteBegin 5; CExecuteEnd Returns; CUpdateStatistics 12] in
  exists t, task_calls cs t0 = Some t /\
            deadline_counter (statistics_ t) = 0 /\
            updateDeadlineCounter 250 t = Some t.
Proof.
  cbv zeta. eexists. split; [reflexivity|]. split; [reflexivity|].
  exact (proj2 (updateDeadlineCounter_noop "idle" 30 COOPERATIVE 4096 false
                  [CExecuteBegin 5; CExecuteEnd Returns; CUpdateStatistics 12]
                  _ 250 eq_refl)).
Defined.

(** *** C2: the range of the priorities *)

(** What holds of the two priorities: after the constructor and any sequence
    of methods, [0 <= base_priority <= 99] and
    [base_priority <= dynamic_priority <= 99]; the base priority is the
    argument capped at 99, so it is at least 1 exactly when the argument
    is. *)
Lemma priority_invariant
    name priority policy period deadline stack_size recoverable
    (cs : list TaskCall) (t : Task) :
  task_calls cs (TaskBase name priority policy period deadline stack_size recoverable)
  = Some t ->
  base_priority_ t = min_u8 priority 99 /\
  0 <= base_priority_ t <= 99 /\
  base_priority_ t <= dynamic_priority_ t <= 99.
Proof.
  intros Hcs.
  pose proof (task_calls_wf cs _ _ (TaskBase_wf _ _ _ _ _ _ _) Hcs) as (Hb & Hd & _).
  apply task_calls_constants in Hcs. destruct Hcs as (_ & _ & Hbase & _).
  repeat split; try lia. exact Hbase.
Qed.

(** C2 (failing input).  The constructor only caps the priority at 99: built
    with priority 0, a task has base priority 0 and dynamic priority 0,
    outside the range [1, 99]. *)
Theorem TaskBase_priority_zero name policy period deadline stack_size recoverable :
  let t := TaskBase name 0 policy period deadline stack_size recoverable in
  base_priority_ t = 0 /\ dynamic_priority_ t = 0 /\
  ~ (1 <= base_priority_ t <= 99).
Proof. cbv zeta. simpl. repeat split; try reflexivity. vm_compute. intros [H _]. by apply H. Qed.

(** *** C3: the adaptive priority *)

(** The scenario of the specification: base priority 50, two misses give 55,
    twenty give 99. *)
Example priority_after_2_misses :
  dynamic_priority_
    <$> repeat_call CRecordDeadlineMiss 2 (TaskBase "E" 50 PREEMPTIVE 0 100 4096 false)
  = Some 55.
Proof. vm_compute. reflexivity. Qed.

Example priority_after_20_misses :
  dynamic_priority_
    <$> repeat_call CRecordDeadlineMiss 20 (TaskBase "E" 50 PREEMPTIVE 0 100 4096 false)
  = Some 99.
Proof. vm_compute. reflexivity. Qed.

(** With base priority 99 the conversion is defined up to 433835024 misses:
    by the bound on the boost up to 433834848, and by evaluation for the 176
    values that remain. *)
Lemma last_defined_table : all_below last_defined_ok 176 = true.
Proof. vm_compute. reflexivity. Qed.

Lemma conversion_defined_99 (N : Z) :
  0 < N <= 433835024 -> exists k, f32_to_int (boosted_priority 99 N) = Some k.
Proof.
  intros HN. destruct (Z_le_gt_dec N 433834848) as [Hlow|Hhigh].
  - apply boosted_priority_defined; lia.
  - pose proof (all_below_spec last_defined_ok 176 last_defined_table
                  (N - 433834849) ltac:(lia)) as H.
    unfold last_defined_ok, conversion_defined in H.
    replace (433834849 + (N - 433834849)) with N in H by lia.
    destruct (f32_to_int _) as [k|]; [by exists k|done].
Qed.

Lemma repeat_call_succ (c : TaskCall) (n : N) (t : Task) :
  repeat_call c (N.succ n) t = (t' ← repeat_call c n t; task_call c t').
Proof. unfold repeat_call. by rewrite N.iter_succ. Qed.

Lemma recordDeadlineMiss_99 (t : Task) (n : Z) :
  task_wf t -> base_priority_ t = 99 ->
  deadline_misses (statistics_ t) = n -> 0 <= n < 433835024 ->
  exists t',
    recordDeadlineMiss t = Some t' /\ task_wf t' /\ base_priority_ t' = 99 /\
    deadline_misses (statistics_ t') = n + 1 /\ dynamic_priority_ t' = 99.
Proof.
  intros Hwf Hb Hm Hn. unfold recordDeadlineMiss.
  set (t1 := with_statistics _ t).
  assert (Hm1 : deadline_misses (statistics_ t1) = n + 1).
  { simpl. rewrite Hm, wrap64_small; lia. }
  assert (Hwf1 : task_wf t1).
  { destruct Hwf as (? & ? & ? & ?). unfold task_wf. rewrite Hm1.
    simpl. repeat split; lia. }
  assert (Hb1 : base_priority_ t1 = 99) by exact Hb.
  destruct (conversion_defined_99 (n + 1) ltac:(lia)) as [k Hk].
  assert (Hu : is_Some (updatePriority t1)).
  { unfold updatePriority. rewrite Hm1, Hb1, Hk. destruct (0 <? _); done. }
  destruct Hu as [t2 Hu]. exists t2. split; [exact Hu|].
  pose proof (updatePriority_wf _ _ Hwf1 Hu) as Hwf2.
  rewrite (updatePriority_formula _ _ Hwf1 Hu) in Hwf2 |- *.
  split; [exact Hwf2|]. split; [exact Hb1|]. split; [exact Hm1|].
  change (spec_priority (base_priority_ t1) (deadline_misses (statistics_ t1)) = 99).
  rewrite Hb1, Hm1. unfold spec_priority. destruct (Z.ltb_spec 0 (n + 1)); [|lia].
  assert (0 <= 99 * (n + 1) / 20) by (apply Z.div_pos; lia). lia.
Qed.

(** A task of base priority 99 survives 433835024 recorded misses, at
    dynamic priority 99. *)
Lemma record_misses_99 name policy period deadline stack_size recoverable (n : N) :
  (n <= 433835024)%N ->
  exists t,
    repeat_call CRecordDeadlineMiss n
      (TaskBase name 99 policy period deadline stack_size recoverable) = Some t /\
    task_wf t /\ base_priority_ t = 99 /\
    deadline_misses (statistics_ t) = Z.of_N n /\
    dynamic_priority_ t = 99.
Proof.
  induction n as [|n IH] using N.peano_ind; intros Hn.
  - eexists. split; [reflexivity|]. split; [apply TaskBase_wf|]. by repeat split.
  - destruct IH as (t & Hrun & Hwf & Hb & Hm & Hd); [lia|].
    destruct (recordDeadlineMiss_99 t (Z.of_N n) Hwf Hb Hm ltac:(lia))
      as (t' & Hr & Hwf' & Hb' & Hm' & Hd').
    exists t'. rewrite repeat_call_succ, Hrun. simpl.
    split; [exact Hr|]. split; [exact Hwf'|]. split; [exact Hb'|].
    split; [rewrite Hm'; lia|exact Hd'].
Qed.

(** C3 (failing input).  A task created with priority 99 reaches 433835024
    recorded deadline misses at dynamic priority 99.  At the next miss
    [update_priority] computes [99 + 99 * 0.05f * 433835025] in [float], which
    is 2^31, and converts it to [int] before the cap at 99 is applied: the
    conversion is undefined, where the formula of the specification gives
    99. *)
Theorem updatePriority_overflow :
  exists t,
    repeat_call CRecordDeadlineMiss 433835024
      (TaskBase "E" 99 PREEMPTIVE 100 100 4096 false) = Some t /\
    deadline_misses (statistics_ t) = 433835024 /\
    dynamic_priority_ t = 99 /\
    boosted_priority 99 433835025 = S754_finite false 8388608 8 /\
    recordDeadlineMiss t = None /\
    spec_priority 99 433835025 = 99.
Proof.
  destruct (record_misses_99 "E" PREEMPTIVE 100 100 4096 false 433835024 ltac:(lia))
    as (t & Hrun & Hwf & Hb & Hm & Hd).
  exists t. split; [exact Hrun|]. split; [exact Hm|]. split; [exact Hd|].
  assert (Hf : boosted_priority 99 433835025 = S754_finite false 8388608 8)
    by (vm_compute; reflexivity).
  split; [exact Hf|]. split; [|vm_compute; reflexivity].
  unfold recordDeadlineMiss, updatePriority. simpl.
  rewrite Hm, Hb. change (Z.of_N 433835024 + 1) with 433835025.
  rewrite wrap64_small by lia.
  change (0 <? 433835025) with true. cbv iota. rewrite Hf. reflexivity.
Qed.

(** ** The ready queue *)

Lemma elem_of_pq_push (h : Store) (x y : TaskPtr) (q : list TaskPtr) :
  y ∈ pq_push h x q <-> y = x \/ y ∈ q.
Proof.
  induction q as [|z q IH]; simpl.
  - rewrite list_elem_of_singleton, elem_of_nil. tauto.
  - destruct (TaskPriorityCompare h z x).
    + rewrite !elem_of_cons. tauto.
    + rewrite !elem_of_cons, IH. tauto.
Qed.

Lemma forallb_le_spec (h : Store) (x : TaskPtr) (q : list TaskPtr) :
  forallb (fun y => priority_of h y <=? priority_of h x) q = true
  <-> forall y, y ∈ q -> priority_of h y <= priority_of h x.
Proof.
  rewrite forallb_forall. split; intros H y Hy.
  - apply Z.leb_le, H. by apply list_elem_of_In.
  - apply Z.leb_le, H. by apply list_elem_of_In.
Qed.

Lemma pq_ordered_cons (h : Store) (x : TaskPtr) (q : list TaskPtr) :
  pq_ordered h (x :: q) = true <->
  (forall y, y ∈ q -> priority_of h y <= priority_of h x) /\ pq_ordered h q = true.
Proof. simpl. by rewrite andb_true_iff, forallb_le_spec. Qed.

(** Pushing keeps the queue ordered. *)
Lemma pq_push_ordered (h : Store) (x : TaskPtr) (q : list TaskPtr) :
  pq_ordered h q = true -> pq_ordered h (pq_push h x q) = true.
Proof.
  induction q as [|z q IH]; intros Hq.
  - reflexivity.
  - apply pq_ordered_cons in Hq as [Hz Hq]. cbn [pq_push].
    unfold TaskPriorityCompare. fold (priority_of h z). fold (priority_of h x).
    destruct (Z.ltb_spec (priority_of h z) (priority_of h x)) as [Hlt|Hge].
    + apply pq_ordered_cons. split.
      * intros y Hy. apply elem_of_cons in Hy as [->|Hy]; [lia|].
        specialize (Hz y Hy). lia.
      * apply pq_ordered_cons. done.
    + apply pq_ordered_cons. split.
      * intros y Hy. apply elem_of_pq_push in Hy as [->|Hy]; [lia|by apply Hz].
      * by apply IH.
Qed.

Lemma elem_of_push_ready (h : Store) (ps : list TaskPtr) : forall q y,
  y ∈ push_ready h ps q <-> (y ∈ ps /\ is_ready h y = true) \/ y ∈ q.
Proof.
  unfold push_ready.
  induction ps as [|p ps IH]; intros q y; simpl.
  - rewrite elem_of_nil. tauto.
  - rewrite IH, elem_of_cons. destruct (is_ready h p) eqn:Hp.
    + rewrite elem_of_pq_push. split.
      * intros [[Hy Hr]|[->|Hy]];
          [left; split; [by right|done] | left; split; [by left|done] | by right].
      * intros [[[->|Hy] Hr]|Hy];
          [right; by left | left; by split | right; by right].
    + split.
      * intros [[Hy Hr]|Hy]; [left; split; [by right|done] | by right].
      * intros [[[->|Hy] Hr]|Hy]; [congruence | left; by split | by right].
Qed.

Lemma push_ready_ordered (h : Store) (ps : list TaskPtr) : forall q,
  pq_ordered h q = true -> pq_ordered h (push_ready h ps q) = true.
Proof.
  unfold push_ready.
  induction ps as [|p ps IH]; intros q Hq; simpl; [done|].
  apply IH. destruct (is_ready h p); [by apply pq_push_ordered|done].
Qed.

Lemma is_ready_spec (h : Store) (p : TaskPtr) :
  is_ready h p = true <-> state_ (deref h p) = READY.
Proof. unfold is_ready. apply bool_decide_eq_true. Qed.

Lemma set_ready_queue_twice (q q' : list TaskPtr) (w : World) :
  on_sched (set_ready_queue q') (on_sched (set_ready_queue q) w)
  = on_sched (set_ready_queue q') w.
Proof. reflexivity. Qed.

Lemma selectNextTask_unfold (fuel : nat) (w : World) :
  selectNextTask (S fuel) w =
  let s := scheduler_ w in
  let q1 := match ready_queue_ s with
            | [] => push_ready (store w) (all_tasks_ s) []
            | _ => ready_queue_ s
            end in
  match pq_top q1 with
  | None => Some (None, on_sched (set_ready_queue q1) w)
  | Some next_task =>
      let w1 := on_sched (set_ready_queue (pq_pop q1)) w in
      if negb (is_ready (store w) next_task)
      then selectNextTask fuel w1
      else Some (Some next_task, w1)
  end.
Proof. reflexivity. Qed.

(** [selectNextTask] returns, with the fuel of [select_fuel]; what it returns
    from a queue that is ordered for the current priorities. *)
Lemma selectNextTask_run (q : list TaskPtr) : forall w,
  ready_queue_ (scheduler_ w) = q ->
  pq_ordered (store w) q = true ->
  exists (r : option TaskPtr) (q' : list TaskPtr),
    selectNextTask (S (S (length q))) w
    = Some (r, on_sched (set_ready_queue q') w) /\
    pq_ordered (store w) q' = true /\
    match r with
    | Some p =>
        state_ (deref (store w) p) = READY /\
        (forall y, y ∈ q -> state_ (deref (store w) y) = READY ->
                   priority_of (store w) y <= priority_of (store w) p) /\
        (p ∈ q \/
         ((forall y, y ∈ q -> state_ (deref (store w) y) <> READY) /\
          p ∈ all_tasks_ (scheduler_ w) /\
          forall y, y ∈ all_tasks_ (scheduler_ w) ->
                    state_ (deref (store w) y) = READY ->
                    priority_of (store w) y <= priority_of (store w) p))
    | None =>
        (forall y, y ∈ q -> state_ (deref (store w) y) <> READY) /\
        (forall y, y ∈ all_tasks_ (scheduler_ w) ->
                   state_ (deref (store w) y) <> READY)
    end.
Proof.
  induction q as [|x rest IH]; intros w Hq Hord.
  - (* the queue is empty: it is rebuilt from all tasks *)
    cbn [length]. rewrite selectNextTask_unfold. cbv zeta. rewrite Hq.
    set (q1 := push_ready (store w) (all_tasks_ (scheduler_ w)) []).
    assert (Hmem : forall y, y ∈ q1 <->
              y ∈ all_tasks_ (scheduler_ w) /\ is_ready (store w) y = true).
    { intros y. unfold q1. rewrite elem_of_push_ready, elem_of_nil. tauto. }
    assert (Hord1 : pq_ordered (store w) q1 = true)
      by (by apply push_ready_ordered).
    destruct q1 as [|x q1'] eqn:Eq1; cbn [pq_top head pq_pop tail].
    + exists None, []. split; [done|]. split; [done|]. split.
      * intros y Hy. by apply elem_of_nil in Hy.
      * intros y Hy Hr. apply is_ready_spec in Hr.
        pose proof (proj2 (Hmem y) (conj Hy Hr)) as H. by apply elem_of_nil in H.
    + pose proof (proj1 (Hmem x) ltac:(by left)) as [Hx Hrx].
      rewrite Hrx. cbn [negb].
      apply pq_ordered_cons in Hord1 as [Hmax Hord1].
      exists (Some x), q1'. split; [done|]. split; [done|].
      split; [by apply is_ready_spec|]. split.
      * intros y Hy. by apply elem_of_nil in Hy.
      * right. split; [intros y Hy; by apply elem_of_nil in Hy|].
        split; [done|]. intros y Hy Hr. apply is_ready_spec in Hr.
        pose proof (proj2 (Hmem y) (conj Hy Hr)) as H.
        apply elem_of_cons in H as [->|H]; [lia|by apply Hmax].
  - (* the entry at the top is taken; a stale one is dropped *)
    cbn [length]. rewrite selectNextTask_unfold. cbv zeta. rewrite Hq.
    cbn [pq_top head pq_pop tail].
    apply pq_ordered_cons in Hord as [Hmax Hord].
    destruct (is_ready (store w) x) eqn:Hrx; cbn [negb].
    + exists (Some x), rest. split; [done|]. split; [done|].
      split; [by apply is_ready_spec|]. split; [|left; by left].
      intros y Hy _. apply elem_of_cons in Hy as [->|Hy]; [lia|by apply Hmax].
    + destruct (IH (on_sched (set_ready_queue rest) w) eq_refl Hord)
        as (r & q' & Hsel & Hord' & Hr).
      exists r, q'. rewrite Hsel, set_ready_queue_twice.
      split; [done|]. split; [done|].
      assert (Hx : state_ (deref (store w) x) <> READY).
      { intros H. apply is_ready_spec in H. congruence. }
      cbn [store scheduler_ on_sched with_scheduler all_tasks_ set_ready_queue] in Hr.
      destruct r as [p|].
      * destruct Hr as (Hp & Hle & Hwhere). split; [done|]. split.
        -- intros y Hy Hry. apply elem_of_cons in Hy as [->|Hy]; [done|by apply Hle].
        -- destruct Hwhere as [Hin|(Hnone & Hall)]; [left; by right|].
           right. split; [|done].
           intros y Hy. apply elem_of_cons in Hy as [->|Hy]; [done|by apply Hnone].
      * destruct Hr as (Hnone & Hall). split; [|done].
        intros y Hy. apply elem_of_cons in Hy as [->|Hy]; [done|by apply Hnone].
Qed.

(** The same without a condition on the order of the queue: what is
    returned is READY and comes from the queue, or from the refill when the
    queue has no READY entry, and the refill is ordered by construction. *)
Lemma selectNextTask_any (q : list TaskPtr) : forall w,
  ready_queue_ (scheduler_ w) = q ->
  exists (r : option TaskPtr) (q' : list TaskPtr),
    selectNextTask (S (S (length q))) w
    = Some (r, on_sched (set_ready_queue q') w) /\
    (forall y, y ∈ q' ->
       y ∈ q \/ ((forall z, z ∈ q -> state_ (deref (store w) z) <> READY) /\
                 y ∈ all_tasks_ (scheduler_ w) /\
                 state_ (deref (store w) y) = READY)) /\
    (forall y, y ∈ q -> state_ (deref (store w) y) = READY ->
               r = Some y \/ y ∈ q') /\
    match r with
    | Some p =>
        state_ (deref (store w) p) = READY /\
        (p ∈ q \/
         ((forall y, y ∈ q -> state_ (deref (store w) y) <> READY) /\
          p ∈ all_tasks_ (scheduler_ w) /\
          forall y, y ∈ all_tasks_ (scheduler_ w) ->
                    state_ (deref (store w) y) = READY ->
                    priority_of (store w) y <= priority_of (store w) p))
    | None =>
        q' = [] /\
        (forall y, y ∈ q -> state_ (deref (store w) y) <> READY) /\
        (forall y, y ∈ all_tasks_ (scheduler_ w) ->
                   state_ (deref (store w) y) <> READY)
    end.
Proof.
  induction q as [|x rest IH]; intros w Hq.
  - (* the queue is empty: it is rebuilt from the READY tasks of the list *)
    cbn [length]. rewrite selectNextTask_unfold. cbv zeta. rewrite Hq.
    set (q1 := push_ready (store w) (all_tasks_ (scheduler_ w)) []).
    assert (Hmem : forall y, y ∈ q1 <->
              y ∈ all_tasks_ (scheduler_ w) /\ is_ready (store w) y = true).
    { intros y. unfold q1. rewrite elem_of_push_ready, elem_of_nil. tauto. }
    assert (Hord1 : pq_ordered (store w) q1 = true)
      by (by apply push_ready_ordered).
    destruct q1 as [|x q1'] eqn:Eq1; cbn [pq_top head pq_pop tail].
    + exists None, []. split; [done|]. split.
      { intros y Hy. by apply elem_of_nil in Hy. }
      split; [intros y Hy; by apply elem_of_nil in Hy|].
      split; [done|]. split.
      * intros y Hy. by apply elem_of_nil in Hy.
      * intros y Hy Hr. apply is_ready_spec in Hr.
        pose proof (proj2 (Hmem y) (conj Hy Hr)) as H. by apply elem_of_nil in H.
    + pose proof (proj1 (Hmem x) ltac:(by left)) as [Hx Hrx].
      rewrite Hrx. cbn [negb].
      apply pq_ordered_cons in Hord1 as [Hmax Hord1].
      exists (Some x), q1'. split; [done|]. split.
      { intros y Hy. right.
        destruct (proj1 (Hmem y) ltac:(by right)) as [Hy1 Hy2].
        split; [intros z Hz; by apply elem_of_nil in Hz|].
        split; [done|by apply is_ready_spec]. }
      split; [intros y Hy; by apply elem_of_nil in Hy|].
      split; [by apply is_ready_spec|].
      right. split; [intros y Hy; by apply elem_of_nil in Hy|].
      split; [done|]. intros y Hy Hr. apply is_ready_spec in Hr.
      pose proof (proj2 (Hmem y) (conj Hy Hr)) as H.
      apply elem_of_cons in H as [->|H]; [lia|by apply Hmax].
  - (* the entry at the top is taken; a stale one is dropped *)
    cbn [length]. rewrite selectNextTask_unfold. cbv zeta. rewrite Hq.
    cbn [pq_top head pq_pop tail].
    destruct (is_ready (store w) x) eqn:Hrx; cbn [negb].
    + exists (Some x), rest. split; [done|]. split.
      { intros y Hy. left. by right. }
      split.
      { intros y Hy _. apply elem_of_cons in Hy as [->|Hy]; [by left|by right]. }
      split; [by apply is_ready_spec|]. left. by left.
    + destruct (IH (on_sched (set_ready_queue rest) w) eq_refl)
        as (r & q' & Hsel & Hq' & Hkeep & Hr).
      exists r, q'. rewrite Hsel, set_ready_queue_twice.
      split; [done|].
      assert (Hx : state_ (deref (store w) x) <> READY).
      { intros H. apply is_ready_spec in H. congruence. }
      cbn [store scheduler_ on_sched with_scheduler all_tasks_ set_ready_queue]
        in Hr, Hq', Hkeep.
      split.
      { intros y Hy. destruct (Hq' y Hy) as [H|(Hno & H)]; [left; by right|].
        right. split; [|done].
        intros z Hz. apply elem_of_cons in Hz as [->|Hz]; [done|by apply Hno]. }
      split.
      { intros y Hy Hry. apply elem_of_cons in Hy as [->|Hy]; [done|].
        by apply Hkeep. }
      destruct r as [p|].
      * destruct Hr as (Hp & Hwhere). split; [done|].
        destruct Hwhere as [Hin|(Hnone & Hall)]; [left; by right|].
        right. split; [|done].
        intros y Hy. apply elem_of_cons in Hy as [->|Hy]; [done|by apply Hnone].
      * destruct Hr as (Hnil & Hnone & Hall). split; [done|]. split; [|done].
        intros y Hy. apply elem_of_cons in Hy as [->|Hy]; [done|by apply Hnone].
Qed.

(** When the queue is ordered for the priorities the tasks have now, the
    task returned has the highest priority among the READY tasks that the
    queue holds.  The order is not kept by the system: see
    [selection_passes_over_queued_task]. *)
Lemma selectNextTask_highest_when_ordered (w : World) :
  pq_ordered (store w) (ready_queue_ (scheduler_ w)) = true ->
  exists (r : option TaskPtr) (q' : list TaskPtr),
    selectNextTask (select_fuel w) w = Some (r, on_sched (set_ready_queue q') w) /\
    pq_ordered (store w) q' = true /\
    match r with
    | Some p =>
        forall y, y ∈ ready_queue_ (scheduler_ w) ->
                  state_ (deref (store w) y) = READY ->
                  priority_of (store w) y <= priority_of (store w) p
    | None => True
    end.
Proof.
  intros Hord.
  destruct (selectNextTask_run _ w eq_refl Hord) as (r & q' & Hsel & Hord' & Hr).
  exists r, q'. split; [exact Hsel|]. split; [exact Hord'|].
  destruct r as [p|]; [|done]. by destruct Hr as (_ & Hle & _).
Qed.

(** *** C4: which task is selected *)





(** Nor is the task returned the highest of the READY tasks in the queue:
    the queue keeps the order in which the entries were pushed, and the
    priority of a queued task moves with its deadline misses.  B (51) is
    returned while A, READY and in the queue, is at 52. *)
Lemma selection_passes_over_queued_task : ~ selection_respects_queue_priority.
Proof.
  intros H.
  destruct (run A_boosted_in_queue (Kernel_new 0)) as [w|] eqn:Hrun;
    [|by vm_compute in Hrun].
  destruct (selectNextTask (select_fuel w) w) as [[r w']|] eqn:Hsel;
    [|by vm_compute in Hrun; injection Hrun as <-; vm_compute in Hsel].
  assert (Hfacts : r = Some 1%nat /\
                   preemption_mode_ (scheduler_ w) = HYBRID /\
                   ready_queue_ (scheduler_ w) = [1%nat; 0%nat] /\
                   state_ (deref (store w) 0%nat) = READY /\
                   priority_of (store w) 0%nat = 52 /\
                   priority_of (store w) 1%nat = 51).
  { clear H. vm_compute in Hrun. injection Hrun as <-. vm_compute in Hsel.
    injection Hsel as <- <-. by repeat split. }
  destruct Hfacts as (-> & Hmode & Hq & HA & HpA & HpB).
  specialize (H 0 A_boosted_in_queue w w' 1%nat 0%nat Hrun (or_intror Hmode) Hsel).
  rewrite Hq, HpA, HpB in H.
  assert (52 <= 51); [|lia].
  apply H; [|exact HA]. apply elem_of_cons. right. apply elem_of_cons. by left.
Qed.

(** ** What a step does to the task objects

    Each event applies some of the task methods to some of the task objects.
    For a relation [R] on task contents that is reflexive, transitive and
    contains the methods an event can apply, the store before and after the
    event are related by [R], object by object. *)

Lemma deref_lookup (h : Store) (p : TaskPtr) (t : Task) :
  h !! p = Some t -> deref h p = t.
Proof. unfold deref. by intros ->. Qed.

(** [selectNextTask] only changes the ready queue, and what it returns is
    READY. *)
Lemma selectNextTask_frame (fuel : nat) : forall w r w',
  selectNextTask fuel w = Some (r, w') ->
  (exists q', w' = on_sched (set_ready_queue q') w) /\
  (forall p, r = Some p -> is_ready (store w) p = true).
Proof.
  induction fuel as [|fuel IH]; intros w r w'; [done|].
  rewrite selectNextTask_unfold. cbv zeta.
  set (q1 := match ready_queue_ (scheduler_ w) with [] => _ | _ => _ end).
  destruct (pq_top q1) as [next|].
  - destruct (is_ready (store w) next) eqn:Hn; cbn [negb].
    + intros [= <- <-]. split; [by eexists|]. by intros p [= <-].
    + intros Hsel. apply IH in Hsel as [[q' ->] Hr]. split; [by eexists|exact Hr].
  - intros [= <- <-]. split; [by eexists|]. done.
Qed.

Lemma is_ready_lookup (h : list Task) (p : nat) :
  is_ready h p = true -> exists t, h !! p = Some t /\ state_ t = READY.
Proof.
  intros H. apply is_ready_spec in H. unfold deref in H.
  destruct (h !! p) as [t|]; [by exists t|done].
Qed.

Lemma call_call (f g : Task -> Task) (h : list Task) (p : nat) (t : Task) :
  h !! p = Some t -> call f p (call g p h) = <[p := f (g t)]> h.
Proof.
  intros Ht. unfold call. rewrite (deref_lookup _ _ _ Ht).
  assert (Hlt : (p < length h)%nat) by (by eapply lookup_lt_Some).
  unfold deref at 1. rewrite list_lookup_insert_eq by done. simpl.
  by rewrite list_insert_insert_eq.
Qed.

Lemma store_rel_mono (R R' : nat -> Task -> Task -> Prop) (h h' : list Task) :
  (forall p t t', R p t t' -> R' p t t') -> store_rel R h h' -> store_rel R' h h'.
Proof.
  intros HRR H p t Hp. destruct (H p t Hp) as (t' & Hp' & Hr). eauto.
Qed.

Lemma store_rel_insert_at (R : nat -> Task -> Task -> Prop)
    (h : list Task) (p : nat) (t' : Task) :
  (forall q t, h !! q = Some t -> R q t t) ->
  (forall t, h !! p = Some t -> R p t t') ->
  store_rel R h (<[p := t']> h).
Proof.
  intros Hrefl Hf q t Hq. destruct (decide (p = q)) as [<-|Hne].
  - exists t'. split; [|by apply Hf].
    apply list_lookup_insert_eq. by eapply lookup_lt_Some.
  - exists t. rewrite list_lookup_insert_ne by done. split; [done|by eapply Hrefl].
Qed.

Section Frames.

Variable R : TaskPtr -> Task -> Task -> Prop.
Hypothesis HR : method_closed R.

Lemma store_rel_refl (h : Store) : store_rel R h h.
Proof. intros p t Hp. exists t. split; [done|apply (mc_refl R HR)]. Qed.

Lemma store_rel_trans (h1 h2 h3 : Store) :
  store_rel R h1 h2 -> store_rel R h2 h3 -> store_rel R h1 h3.
Proof.
  intros H12 H23 p t Hp.
  destruct (H12 p t Hp) as (t2 & Hp2 & Hr2).
  destruct (H23 p t2 Hp2) as (t3 & Hp3 & Hr3).
  exists t3. split; [done|by eapply (mc_trans R HR)].
Qed.

Lemma store_rel_insert (h : Store) (p : TaskPtr) (t' : Task) :
  (forall t, h !! p = Some t -> R p t t') -> store_rel R h (<[p := t']> h).
Proof.
  intros Hf q t Hq. destruct (decide (p = q)) as [<-|Hne].
  - exists t'. split; [|by apply Hf].
    apply list_lookup_insert_eq. by eapply lookup_lt_Some.
  - exists t. rewrite list_lookup_insert_ne by done.
    split; [done|apply (mc_refl R HR)].
Qed.

Lemma store_rel_call (f : Task -> Task) (h : Store) (p : TaskPtr) :
  (forall t, h !! p = Some t -> R p t (f t)) -> store_rel R h (call f p h).
Proof.
  intros Hf. apply store_rel_insert. intros t Ht.
  rewrite (deref_lookup _ _ _ Ht). by apply Hf.
Qed.

Lemma store_rel_call_opt (f : Task -> option Task) (h h' : Store) (p : TaskPtr) :
  (forall t t', h !! p = Some t -> f t = Some t' -> R p t t') ->
  call_opt f p h = Some h' -> store_rel R h h'.
Proof.
  intros Hf. unfold call_opt.
  destruct (f (deref h p)) as [t'|] eqn:Hft; [|done]. simpl. intros [= <-].
  apply store_rel_insert. intros t Ht.
  rewrite (deref_lookup _ _ _ Ht) in Hft. by eapply Hf.
Qed.

Lemma store_rel_for_each (f : Task -> option Task) (ps : list TaskPtr) :
  (forall p t t', f t = Some t' -> R p t t') ->
  forall h h', for_each f ps h = Some h' -> store_rel R h h'.
Proof.
  intros Hf. induction ps as [|p ps IH]; simpl; intros h h'.
  - intros [= <-]. apply store_rel_refl.
  - destruct (call_opt f p h) as [h1|] eqn:Hc; [|done]. simpl. intros Hrest.
    eapply store_rel_trans; [|by apply IH].
    eapply store_rel_call_opt; [|done]. intros t t' _. apply Hf.
Qed.

Lemma store_rel_alloc (h : Store) (t : Task) : store_rel R h (h ++ [t]).
Proof.
  intros p t0 Hp. exists t0. split; [by apply lookup_app_l_Some|].
  apply (mc_refl R HR).
Qed.

(** *** The operations of the scheduler and the kernel *)

Lemma Scheduler_removeTask_rel (name : string) (w : World) :
  store_rel R (store w) (store (Scheduler_removeTask name w)).
Proof.
  unfold Scheduler_removeTask. destruct (find_by_name _ _ _ _) as [[i task]|].
  - simpl. apply store_rel_call. intros t _. apply (mc_terminate R HR).
  - apply store_rel_refl.
Qed.

Lemma adjustPriorities_rel (w w' : World) :
  adjustPriorities w = Some w' -> store_rel R (store w) (store w').
Proof.
  unfold adjustPriorities.
  destruct (for_each _ _ _) as [h|] eqn:Hf; [|done]. simpl. intros [= <-]. simpl.
  eapply store_rel_for_each; [|done]. apply (mc_updatePriority R HR).
Qed.

Lemma checkDeadlines_rel (now : Z) (w w' : World) :
  checkDeadlines now w = Some w' -> store_rel R (store w) (store w').
Proof.
  unfold checkDeadlines, on_store_opt.
  destruct (for_each _ _ _) as [h|] eqn:Hf; [|done]. simpl. intros [= <-]. simpl.
  eapply store_rel_for_each; [|done].
  intros p t t'. apply (mc_checkDeadlines R HR).
Qed.

Lemma attemptTaskRecovery_rel (task : TaskPtr) (w : World) :
  store_rel R (store w) (store (snd (attemptTaskRecovery task w))).
Proof.
  unfold attemptTaskRecovery.
  destruct (recoverable_ (deref (store w) task)) eqn:Hrec; simpl;
    [|apply store_rel_refl].
  destruct (_ <=? _); simpl; [apply store_rel_refl|].
  apply store_rel_call. intros t Ht. apply (mc_recover R HR).
  by rewrite (deref_lookup _ _ _ Ht) in Hrec.
Qed.

Lemma monitor_task_rel (elapsed : Z) (task : TaskPtr) (w w' : World) :
  monitor_task elapsed task w = Some w' -> store_rel R (store w) (store w').
Proof.
  unfold monitor_task.
  destruct (_ || _).
  - unfold on_store_opt. destruct (call_opt _ _ _) as [h|] eqn:Hc; [|done]. simpl.
    intros [= <-].
    assert (Hrel : store_rel R (store w) h).
    { eapply store_rel_call_opt; [|done].
      intros t t' _. apply (mc_updateDeadlineCounter R HR). }
    by destruct (_ && _).
  - simpl. intros [= <-]. destruct (_ && _); apply store_rel_refl.
Qed.

Lemma monitor_scan_rel (elapsed : Z) (ps : list TaskPtr) : forall w w',
  monitor_scan elapsed ps w = Some w' -> store_rel R (store w) (store w').
Proof.
  induction ps as [|p ps IH]; simpl; intros w w'.
  - intros [= <-]. apply store_rel_refl.
  - destruct (monitor_task elapsed p w) as [w1|] eqn:Hm; [|done]. simpl. intros Hs.
    eapply store_rel_trans; [by eapply monitor_task_rel|by apply IH].
Qed.

Lemma deadlineMonitor_tick_rel (t_static now : Z) (w w' : World) :
  deadlineMonitor_tick t_static now w = Some w' ->
  store_rel R (store w) (store w').
Proof.
  unfold deadlineMonitor_tick. destruct (negb _).
  - intros [= <-]. apply store_rel_refl.
  - intros H. by apply monitor_scan_rel in H.
Qed.

Lemma attemptTaskRecovery_overlapped_rel (task : TaskPtr) (w : World) :
  store_rel R (store w) (store (attemptTaskRecovery_overlapped task w)).
Proof.
  unfold attemptTaskRecovery_overlapped.
  destruct (recoverable_ (deref (store w) task)) eqn:Hrec; simpl;
    [|apply store_rel_refl].
  apply store_rel_call. intros t Ht. apply (mc_recover R HR).
  by rewrite (deref_lookup _ _ _ Ht) in Hrec.
Qed.

(** The end of an iteration touches no task object: its call of
    [adjustPriorities()] does not get past the mutex. *)
Lemma schedulerLoop_tail_store (now t_static : Z) (w w' : World) :
  schedulerLoop_tail now t_static w = Some w' -> store w' = store w.
Proof.
  unfold schedulerLoop_tail.
  set (w1 := if _ : bool then _ else w).
  assert (H1 : store w1 = store w) by (unfold w1; by destruct (_ || _)).
  destruct (_ <? _); simpl; by intros [= <-].
Qed.

Lemma schedulerLoop_tail_rel (now t_static : Z) (w w' : World) :
  schedulerLoop_tail now t_static w = Some w' -> store_rel R (store w) (store w').
Proof.
  intros H. rewrite (schedulerLoop_tail_store _ _ _ _ H). apply store_rel_refl.
Qed.

(** *** The steps of the dispatcher under its mutex *)

(** The first step records deadline misses, and then either chooses no
    task, or one that it found READY. *)
Lemma schedulerLoop_select_shape (t_check t_idle t_start : Z) (w w' : World) :
  schedulerLoop_select t_check t_idle t_start w = Some w' ->
  store_rel R (store w) (store w') /\
  (w' = w \/
   (dispatcher w = AtLoopHead /\ dispatcher w' = InWait /\
    current_task_ (scheduler_ w') = None) \/
   (exists task t,
      dispatcher w = AtLoopHead /\
      dispatcher w' = Selected t_start /\
      current_task_ (scheduler_ w') = Some task /\
      store w' !! task = Some t /\ state_ t = READY)).
Proof.
  unfold schedulerLoop_select.
  destruct (dispatcher w) eqn:Hpc;
    try (intros [= <-]; split; [apply store_rel_refl|by left]).
  destruct (negb _); [intros [= <-]; split; [apply store_rel_refl|by left]|].
  destruct (checkDeadlines t_check w) as [w1|] eqn:Hc; [|done].
  cbn -[selectNextTask select_fuel].
  apply checkDeadlines_rel in Hc.
  destruct (selectNextTask (select_fuel w1) w1) as [[next w2]|] eqn:Hsel; [|done].
  cbn -[selectNextTask select_fuel].
  apply selectNextTask_frame in Hsel as [[q' ->] Hr].
  destruct next as [task|]; intros [= <-]; (split; [exact Hc|]).
  - right. right.
    destruct (is_ready_lookup _ _ (Hr task eq_refl)) as (t & Ht & Hst).
    by exists task, t.
  - right. by left.
Qed.

Lemma schedulerLoop_select_rel (t_check t_idle t_start : Z) (w w' : World) :
  schedulerLoop_select t_check t_idle t_start w = Some w' ->
  store_rel R (store w) (store w').
Proof. intros H. by apply schedulerLoop_select_shape in H as [H _]. Qed.

(** After [execute()]: the time is accounted for, and a recoverable task
    found TERMINATED is revived. *)
Lemma schedulerLoop_account_rel (t_end : Z) (w : World) :
  store_rel R (store w) (store (schedulerLoop_account t_end w)).
Proof.
  unfold schedulerLoop_account.
  destruct (dispatcher w) eqn:Hpc; try apply store_rel_refl.
  destruct (current_task_ (scheduler_ w)) as [task|] eqn:Hcur;
    [|apply store_rel_refl].
  set (w3 := on_sched _ (on_store _ w)).
  assert (H3 : store_rel R (store w) (store w3)).
  { simpl. apply store_rel_call. intros t _. apply (mc_updateStatistics R HR). }
  set (w4 := if _ : bool then _ else w3).
  assert (H4 : store_rel R (store w) (store w4)).
  { unfold w4. destruct (_ && _); [|done].
    eapply store_rel_trans; [exact H3|apply attemptTaskRecovery_rel]. }
  exact H4.
Qed.

Lemma schedulerLoop_reschedule_rel (now t_static : Z) (w w' : World) :
  schedulerLoop_reschedule now t_static w = Some w' ->
  store_rel R (store w) (store w').
Proof.
  unfold schedulerLoop_reschedule.
  destruct (dispatcher w); try (intros [= <-]; apply store_rel_refl).
  apply schedulerLoop_tail_rel.
Qed.

Lemma schedulerLoop_end_rel (t_end now t_static : Z) (w w' : World) :
  schedulerLoop_end t_end now t_static w = Some w' ->
  store_rel R (store w) (store w').
Proof.
  unfold schedulerLoop_end. intros H. apply schedulerLoop_reschedule_rel in H.
  eapply store_rel_trans; [apply schedulerLoop_account_rel|exact H].
Qed.

(** The events in which [execute()] does not run and no task method is
    called from outside. *)
Lemma step_background_rel (e : Event) (w w' : World) :
  is_background e = true -> step e w = Some w' ->
  store_rel R (store w) (store w').
Proof.
  destruct e; try done; intros _; simpl.
  - (* createTask *)
    intros [= <-]. unfold createTask. destruct (tasks_ w !! name); simpl.
    + apply store_rel_refl.
    + apply store_rel_alloc.
  - intros [= <-]. unfold removeTask. destruct (tasks_ w !! name); simpl.
    + apply Scheduler_removeTask_rel.
    + apply store_rel_refl.
  - intros [= <-]. unfold Scheduler_start. destruct (is_running_ _); apply store_rel_refl.
  - intros [= <-]. apply store_rel_refl.
  - intros [= <-]. apply store_rel_refl.
  - intros [= <-]. apply Scheduler_removeTask_rel.
  - intros [= <-]. apply store_rel_refl.
  - intros [= <-]. apply store_rel_refl.
  - intros [= <-]. apply store_rel_refl.
  - apply adjustPriorities_rel.
  - intros [= <-]. apply store_rel_refl.
  - intros [= <-]. apply attemptTaskRecovery_rel.
  - apply schedulerLoop_end_rel.
  - apply deadlineMonitor_tick_rel.
  - intros [= <-]. simpl. apply store_rel_alloc.
  - apply schedulerLoop_select_rel.
  - intros [= <-]. apply schedulerLoop_account_rel.
  - apply schedulerLoop_reschedule_rel.
  - intros [= <-]. apply attemptTaskRecovery_overlapped_rel.
Qed.

(** *** The steps in which [execute()] runs *)

(** Before the handler: the task that [current_task_] names is set RUNNING
    and counted, in whatever state it is. *)
Lemma schedulerLoop_execute_rel (t_exec : Z) (w : World) :
  (forall st c t,
     dispatcher w = Selected st -> current_task_ (scheduler_ w) = Some c ->
     store w !! c = Some t -> R c t (execute_begin t_exec (setState RUNNING t))) ->
  store_rel R (store w) (store (schedulerLoop_execute t_exec w)).
Proof.
  intros Hex. unfold schedulerLoop_execute.
  destruct (dispatcher w) as [|st|st| |st| |] eqn:Hpc; try apply store_rel_refl.
  destruct (current_task_ (scheduler_ w)) as [task|] eqn:Hcur;
    [|apply store_rel_refl].
  simpl. intros p t Hp. destruct (decide (task = p)) as [->|Hne].
  - exists (execute_begin t_exec (setState RUNNING t)). split.
    + rewrite (call_call _ _ _ _ _ Hp).
      apply list_lookup_insert_eq. by eapply lookup_lt_Some.
    + by eapply Hex.
  - exists t. split; [|apply (mc_refl R HR)]. unfold call.
    by rewrite !list_lookup_insert_ne.
Qed.

(** The two first steps in a row: the task started was READY when it was
    chosen, unless it had been chosen before. *)
Lemma schedulerLoop_begin_rel (t_check t_idle t_start t_exec : Z) (w w' : World) :
  (forall c t,
     state_ t = READY \/
     (exists st, dispatcher w = Selected st /\
                 current_task_ (scheduler_ w) = Some c /\ store w !! c = Some t) ->
     R c t (execute_begin t_exec (setState RUNNING t))) ->
  schedulerLoop_begin t_check t_idle t_start t_exec w = Some w' ->
  store_rel R (store w) (store w').
Proof.
  intros Hex. unfold schedulerLoop_begin.
  destruct (schedulerLoop_select t_check t_idle t_start w) as [w1|] eqn:Hsel; [|done].
  simpl. intros [= <-].
  apply schedulerLoop_select_shape in Hsel as [Hrel Hshape].
  eapply store_rel_trans; [exact Hrel|].
  apply schedulerLoop_execute_rel. intros st c t Hpc Hcur Hc. apply Hex.
  destruct Hshape as [->|[(_ & Hw & _)|(task & t1 & _ & _ & Hcur1 & Ht1 & Hready)]].
  - right. by exists st.
  - congruence.
  - left. congruence.
Qed.

(** The return of the handler finishes [execute()] on the current task. *)
Lemma schedulerLoop_return_rel (o : HandlerOutcome) (w : World) :
  (forall st c t,
     dispatcher w = InHandler st -> current_task_ (scheduler_ w) = Some c ->
     store w !! c = Some t -> R c t (execute_end o t)) ->
  store_rel R (store w) (store (schedulerLoop_return o w)).
Proof.
  intros Hfin. unfold schedulerLoop_return.
  destruct (dispatcher w) as [|st|st| |st| |] eqn:Hpc; try apply store_rel_refl.
  destruct (current_task_ (scheduler_ w)) as [task|] eqn:Hcur;
    [|apply store_rel_refl].
  simpl. apply store_rel_call. intros t Ht. by eapply Hfin.
Qed.

Lemma step_direct_rel (p : TaskPtr) (c : TaskCall) (w w' : World) :
  (forall t t', store w !! p = Some t -> task_call c t = Some t' -> R p t t') ->
  step (TaskMethod p c) w = Some w' -> store_rel R (store w) (store w').
Proof.
  intros Hc. simpl. unfold on_store_opt.
  destruct (call_opt _ _ _) as [h|] eqn:Hcall; [|done]. simpl. intros [= <-].
  by eapply store_rel_call_opt.
Qed.

End Frames.

(** ** Recovery *)

Lemma attemptTaskRecovery_bounded (task : TaskPtr) (w : World) :
  attempts_bounded w -> attempts_bounded (snd (attemptTaskRecovery task w)).
Proof.
  unfold attempts_bounded, attemptTaskRecovery, MAX_RECOVERY_ATTEMPTS.
  intros Hb. destruct (negb _); [done|].
  destruct (Z.leb_spec 3 (recovery_attempts_ (scheduler_ w))); [done|].
  simpl. rewrite wrap64_small; lia.
Qed.

Lemma adjustPriorities_attempts (w w' : World) :
  adjustPriorities w = Some w' ->
  recovery_attempts_ (scheduler_ w') = recovery_attempts_ (scheduler_ w).
Proof.
  unfold adjustPriorities. destruct (for_each _ _ _); [|done]. simpl.
  by intros [= <-].
Qed.

Lemma schedulerLoop_tail_attempts (now t_static : Z) (w w' : World) :
  schedulerLoop_tail now t_static w = Some w' ->
  recovery_attempts_ (scheduler_ w') = recovery_attempts_ (scheduler_ w).
Proof.
  unfold schedulerLoop_tail.
  set (w1 := if _ : bool then _ else w).
  assert (H1 : recovery_attempts_ (scheduler_ w1) = recovery_attempts_ (scheduler_ w))
    by (unfold w1; by destruct (_ || _)).
  destruct (_ <? _); simpl; by intros [= <-].
Qed.

Lemma monitor_scan_attempts (elapsed : Z) (ps : list TaskPtr) : forall w w',
  monitor_scan elapsed ps w = Some w' ->
  recovery_attempts_ (scheduler_ w') = recovery_attempts_ (scheduler_ w).
Proof.
  induction ps as [|p ps IH]; simpl; intros w w'; [by intros [= <-]|].
  destruct (monitor_task elapsed p w) as [w1|] eqn:Hm; [|done]. simpl. intros Hs.
  rewrite (IH _ _ Hs). clear Hs IH. unfold monitor_task in Hm.
  destruct (_ || _).
  - unfold on_store_opt in Hm. destruct (call_opt _ _ _); [|done]. simpl in Hm.
    injection Hm as <-. by destruct (_ && _).
  - simpl in Hm. injection Hm as <-. by destruct (_ && _).
Qed.

Lemma schedulerLoop_select_attempts (t_check t_idle t_start : Z) (w w' : World) :
  schedulerLoop_select t_check t_idle t_start w = Some w' ->
  recovery_attempts_ (scheduler_ w') = recovery_attempts_ (scheduler_ w).
Proof.
  unfold schedulerLoop_select.
  destruct (dispatcher w); try (by intros [= <-]).
  destruct (negb _); [by intros [= <-]|].
  unfold checkDeadlines, on_store_opt.
  destruct (for_each _ _ _) as [h|]; [|done]. cbn -[selectNextTask select_fuel].
  destruct (selectNextTask _ _) as [[next w2]|] eqn:Hsel; [|done].
  cbn -[selectNextTask select_fuel].
  apply selectNextTask_frame in Hsel as [[q' ->] _].
  destruct next; by intros [= <-].
Qed.

Lemma schedulerLoop_execute_attempts (t_exec : Z) (w : World) :
  recovery_attempts_ (scheduler_ (schedulerLoop_execute t_exec w))
  = recovery_attempts_ (scheduler_ w).
Proof.
  unfold schedulerLoop_execute.
  destruct (dispatcher w); try done. by destruct (current_task_ _).
Qed.

Lemma schedulerLoop_begin_attempts (t_check t_idle t_start t_exec : Z) (w w' : World) :
  schedulerLoop_begin t_check t_idle t_start t_exec w = Some w' ->
  recovery_attempts_ (scheduler_ w') = recovery_attempts_ (scheduler_ w).
Proof.
  unfold schedulerLoop_begin.
  destruct (schedulerLoop_select _ _ _ w) as [w1|] eqn:Hsel; [|done]. simpl.
  intros [= <-]. rewrite schedulerLoop_execute_attempts.
  by apply schedulerLoop_select_attempts in Hsel.
Qed.

Lemma schedulerLoop_account_bounded (t_end : Z) (w : World) :
  attempts_bounded w -> attempts_bounded (schedulerLoop_account t_end w).
Proof.
  intros Hb. unfold schedulerLoop_account.
  destruct (dispatcher w); try done.
  destruct (current_task_ _) as [task|]; [|done].
  set (w3 := on_sched _ (on_store _ w)).
  assert (H3 : attempts_bounded w3) by exact Hb.
  set (w4 := if _ : bool then _ else w3).
  assert (H4 : attempts_bounded w4).
  { unfold w4. destruct (_ && _); [by apply attemptTaskRecovery_bounded|done]. }
  exact H4.
Qed.

Lemma schedulerLoop_reschedule_attempts (now t_static : Z) (w w' : World) :
  schedulerLoop_reschedule now t_static w = Some w' ->
  recovery_attempts_ (scheduler_ w') = recovery_attempts_ (scheduler_ w).
Proof.
  unfold schedulerLoop_reschedule.
  destruct (dispatcher w); try (by intros [= <-]).
  apply schedulerLoop_tail_attempts.
Qed.

Lemma schedulerLoop_end_bounded (t_end now t_static : Z) (w w' : World) :
  attempts_bounded w -> schedulerLoop_end t_end now t_static w = Some w' ->
  attempts_bounded w'.
Proof.
  intros Hb. unfold schedulerLoop_end. intros H.
  apply schedulerLoop_reschedule_attempts in H.
  pose proof (schedulerLoop_account_bounded t_end w Hb) as Hb1.
  unfold attempts_bounded in *. by rewrite H.
Qed.

(** The cap on the recovery counter is kept by every event in which no call
    of [attemptTaskRecovery] overlaps another. *)
Lemma step_attempts_bounded (e : Event) (w w' : World) :
  overlaps_recovery e = false ->
  attempts_bounded w -> step e w = Some w' -> attempts_bounded w'.
Proof.
  intros He Hb. destruct e; try done; simpl; try (by intros [= <-]).
  - intros [= <-]. unfold createTask. by destruct (tasks_ w !! name).
  - intros [= <-]. unfold removeTask, Scheduler_removeTask.
    destruct (tasks_ w !! name); [|done]. by destruct (find_by_name _ _ _ _) as [[??]|].
  - intros [= <-]. unfold Scheduler_start. by destruct (is_running_ _).
  - intros [= <-]. unfold Scheduler_removeTask.
    by destruct (find_by_name _ _ _ _) as [[??]|].
  - intros H. apply adjustPriorities_attempts in H.
    unfold attempts_bounded in *. by rewrite H.
  - intros [= <-]. by apply attemptTaskRecovery_bounded.
  - intros H. apply schedulerLoop_begin_attempts in H.
    unfold attempts_bounded in *. by rewrite H.
  - intros [= <-]. unfold schedulerLoop_return.
    destruct (dispatcher w); try done. by destruct (current_task_ _).
  - by apply schedulerLoop_end_bounded.
  - unfold deadlineMonitor_tick. destruct (negb _); [by intros [= <-]|].
    intros H. apply monitor_scan_attempts in H.
    unfold attempts_bounded in *. by rewrite H.
  - unfold on_store_opt. destruct (call_opt _ _ _); [|done]. simpl. by intros [= <-].
  - intros H. apply schedulerLoop_select_attempts in H.
    unfold attempts_bounded in *. by rewrite H.
  - intros [= <-]. unfold attempts_bounded.
    by rewrite schedulerLoop_execute_attempts.
  - intros [= <-]. by apply schedulerLoop_account_bounded.
  - intros H. apply schedulerLoop_reschedule_attempts in H.
    unfold attempts_bounded in *. by rewrite H.
Qed.

Lemma run_attempts_bounded (es : list Event) : forall w w',
  forallb (fun e => negb (overlaps_recovery e)) es = true ->
  attempts_bounded w -> run es w = Some w' -> attempts_bounded w'.
Proof.
  induction es as [|e es IH]; simpl; intros w w' Hes Hb; [by intros [= <-]|].
  apply andb_true_iff in Hes as [He Hes]. apply negb_true_iff in He.
  destruct (step e w) as [w1|] eqn:Hs; [|done]. simpl.
  apply IH; [done|]. by eapply step_attempts_bounded.
Qed.

Lemma recoverable_lookup (h : list Task) (p : nat) :
  recoverable_ (deref h p) = true -> exists t, h !! p = Some t /\ deref h p = t.
Proof.
  unfold deref. destruct (h !! p) as [t|]; [by exists t|done].
Qed.

Lemma deref_call_same (f : Task -> Task) (h : list Task) (p : nat) (t : Task) :
  h !! p = Some t -> deref (call f p h) p = f t.
Proof.
  intros Ht. unfold call, deref at 1. rewrite (deref_lookup _ _ _ Ht).
  rewrite list_lookup_insert_eq; [done|by eapply lookup_lt_Some].
Qed.

Lemma attemptTaskRecovery_denied (task : TaskPtr) (w : World) :
  3 <= recovery_attempts_ (scheduler_ w) ->
  attemptTaskRecovery task w = (false, w).
Proof.
  intros Ha. unfold attemptTaskRecovery, MAX_RECOVERY_ATTEMPTS.
  destruct (negb _); [done|].
  destruct (Z.leb_spec 3 (recovery_attempts_ (scheduler_ w))); [done|lia].
Qed.

Lemma attemptTaskRecovery_granted (task : TaskPtr) (w : World) :
  recoverable_ (deref (store w) task) = true ->
  0 <= recovery_attempts_ (scheduler_ w) < 3 ->
  exists w',
    attemptTaskRecovery task w = (true, w') /\
    recovery_attempts_ (scheduler_ w') = recovery_attempts_ (scheduler_ w) + 1 /\
    store w' = call (setState READY) task (store w) /\
    ready_queue_ (scheduler_ w')
    = pq_push (store w') task (ready_queue_ (scheduler_ w)) /\
    deref (store w') task = setState READY (deref (store w) task) /\
    state_ (deref (store w') task) = READY /\
    task ∈ ready_queue_ (scheduler_ w').
Proof.
  intros Hrec Ha. unfold attemptTaskRecovery, MAX_RECOVERY_ATTEMPTS.
  rewrite Hrec. cbn [negb].
  destruct (Z.leb_spec 3 (recovery_attempts_ (scheduler_ w))); [lia|].
  eexists. split; [reflexivity|]. simpl.
  destruct (recoverable_lookup _ _ Hrec) as (t & Ht & Hd).
  rewrite (deref_call_same _ _ _ _ Ht), Hd.
  rewrite wrap64_small by lia. repeat split; try done.
  apply elem_of_pq_push. by left.
Qed.

(** The dispatcher, back from [execute()], with its current task TERMINATED
    and recoverable. *)
Lemma schedulerLoop_account_recovery (t_end : Z) (w : World) (start_time : Z)
    (task : TaskPtr) (t : Task) :
  dispatcher w = AfterExecute start_time ->
  current_task_ (scheduler_ w) = Some task ->
  store w !! task = Some t ->
  state_ t = TERMINATED -> recoverable_ t = true ->
  0 <= recovery_attempts_ (scheduler_ w) ->
  let w' := schedulerLoop_account t_end w in
  if recovery_attempts_ (scheduler_ w) <? 3
  then state_ (deref (store w') task) = READY /\
       recovery_attempts_ (scheduler_ w') = recovery_attempts_ (scheduler_ w) + 1 /\
       task ∈ ready_queue_ (scheduler_ w')
  else state_ (deref (store w') task) = TERMINATED /\
       recovery_attempts_ (scheduler_ w') = recovery_attempts_ (scheduler_ w) /\
       ready_queue_ (scheduler_ w') = ready_queue_ (scheduler_ w).
Proof.
  intros Hpc Hcur Hp Hst Hrec H0. cbv zeta. unfold schedulerLoop_account.
  rewrite Hpc, Hcur.
  set (w3 := on_sched _ (on_store _ w)).
  assert (Hd3 : deref (store w3) task
                = updateStatistics (ns_to_us (t_end - start_time)) t).
  { unfold w3. simpl. by apply deref_call_same. }
  assert (Hs3 : state_ (deref (store w3) task) = TERMINATED) by (by rewrite Hd3).
  assert (Hr3 : recoverable_ (deref (store w3) task) = true) by (by rewrite Hd3).
  rewrite Hs3, Hr3. rewrite bool_decide_eq_true_2 by done. cbn [andb].
  assert (Ha3 : recovery_attempts_ (scheduler_ w3) = recovery_attempts_ (scheduler_ w))
    by reflexivity.
  assert (Hq3 : ready_queue_ (scheduler_ w3) = ready_queue_ (scheduler_ w))
    by reflexivity.
  destruct (Z.ltb_spec (recovery_attempts_ (scheduler_ w)) 3) as [Hlt|Hge].
  - destruct (attemptTaskRecovery_granted task w3 Hr3 ltac:(lia))
      as (w4 & -> & Hn & _ & _ & _ & Hs & Hin).
    cbn [snd]. simpl. rewrite Hn, Ha3. done.
  - rewrite (attemptTaskRecovery_denied task w3) by lia. cbn [snd].
    split; [exact Hs3|]. by split.
Qed.

(** *** C5: the recovery cap *)

(** The handler ends, then the iteration: the recovery is not reached. *)
Lemma return_end_recovery (w w' : World) (start_time : Z)
    (task : TaskPtr) (t : Task) (o : HandlerOutcome) (t_end now t_static : Z) :
  dispatcher w = InHandler start_time ->
  current_task_ (scheduler_ w) = Some task ->
  store w !! task = Some t ->
  run [DispatcherReturn o; DispatcherEnd t_end now t_static] w = Some w' ->
  recovery_attempts_ (scheduler_ w') = recovery_attempts_ (scheduler_ w) /\
  state_ (deref (store w') task)
  = match o with
    | Returns => READY
    | Throws => if recoverable_ t then READY else TERMINATED
    end.
Proof.
  intros Hpc Hcur Hp Hrun.
  set (w1 := with_dispatcher (AfterExecute start_time)
               (on_store (call (execute_end o) task) w)).
  assert (Hend : schedulerLoop_end t_end now t_static w1 = Some w').
  { simpl in Hrun. unfold schedulerLoop_return in Hrun. rewrite Hpc, Hcur in Hrun.
    fold w1 in Hrun. simpl in Hrun.
    by destruct (schedulerLoop_end t_end now t_static w1). }
  clear Hrun. unfold schedulerLoop_end, schedulerLoop_account in Hend.
  change (dispatcher w1) with (AfterExecute start_time) in Hend.
  change (current_task_ (scheduler_ w1)) with (current_task_ (scheduler_ w)) in Hend.
  rewrite Hcur in Hend. cbv zeta in Hend.
  set (et := ns_to_us (t_end - start_time)) in *.
  set (w3 := on_sched _ (on_store (call (updateStatistics et) task) w1)) in *.
  assert (Hd : deref (store w3) task = updateStatistics et (execute_end o t)).
  { unfold w3, w1. simpl. rewrite (call_call _ _ _ _ t Hp). unfold deref.
    rewrite list_lookup_insert_eq by (by eapply lookup_lt_Some). done. }
  assert (Hst : state_ (updateStatistics et (execute_end o t))
                = match o with
                  | Returns => READY
                  | Throws => if recoverable_ t then READY else TERMINATED
                  end).
  { destruct o; simpl; [done|]. by destruct (recoverable_ t). }
  assert (Hrec : recoverable_ (updateStatistics et (execute_end o t)) = recoverable_ t).
  { destruct o; simpl; [done|]. by destruct (negb (recoverable_ t)). }
  assert (Hcond : bool_decide (state_ (deref (store w3) task) = TERMINATED)
                  && recoverable_ (deref (store w3) task) = false).
  { rewrite Hd, Hrec, Hst. destruct o; [done|]. by destruct (recoverable_ t). }
  rewrite Hcond in Hend.
  set (w6 := with_dispatcher BeforeReschedule _) in Hend.
  unfold schedulerLoop_reschedule in Hend.
  change (dispatcher w6) with BeforeReschedule in Hend. cbv iota in Hend.
  pose proof (schedulerLoop_tail_attempts _ _ _ _ Hend) as Ha.
  pose proof (schedulerLoop_tail_store _ _ _ _ Hend) as Hstore.
  split; [by rewrite Ha|]. rewrite Hstore.
  change (state_ (deref (store w3) task)
          = match o with
            | Returns => READY
            | Throws => if recoverable_ t then READY else TERMINATED
            end).
  by rewrite Hd.
Qed.

(** C5 (as amended).  On a recoverable task that is TERMINATED,
    [attempt_task_recovery] fails and changes nothing (the task stays
    TERMINATED, the counter keeps its value) when the scheduler-wide counter
    has reached 3; below 3 it adds one to the counter, sets the task READY,
    puts it in the ready queue and succeeds.  In every state the system
    reaches from its initial state through operations among which no call of
    [attempt_task_recovery] overlaps another, the counter is at most 3.  The
    dispatcher calls it for a recoverable task that it finds TERMINATED when
    it is back from the execution: such a task is revived while the counter
    is below 3, and stays TERMINATED once the counter is 3.  A failure of
    the handler is not counted: [execute()] leaves a recoverable task READY
    when its handler throws, so the task is revived at every failure and the
    counter does not move. *)
Theorem recovery_cap :
  (forall w task,
     recoverable_ (deref (store w) task) = true ->
     state_ (deref (store w) task) = TERMINATED ->
     3 <= recovery_attempts_ (scheduler_ w) ->
     attemptTaskRecovery task w = (false, w)) /\
  (forall w task,
     recoverable_ (deref (store w) task) = true ->
     state_ (deref (store w) task) = TERMINATED ->
     0 <= recovery_attempts_ (scheduler_ w) < 3 ->
     exists w',
       attemptTaskRecovery task w = (true, w') /\
       recovery_attempts_ (scheduler_ w') = recovery_attempts_ (scheduler_ w) + 1 /\
       state_ (deref (store w') task) = READY /\
       task ∈ ready_queue_ (scheduler_ w') /\
       store w' = call (setState READY) task (store w) /\
       (forall y, y ∈ ready_queue_ (scheduler_ w') <->
                  y = task \/ y ∈ ready_queue_ (scheduler_ w))) /\
  (forall now es w,
     forallb (fun e => negb (overlaps_recovery e)) es = true ->
     run es (Kernel_new now) = Some w ->
     0 <= recovery_attempts_ (scheduler_ w) <= 3) /\
  (forall now es w start_time task t t_end,
     forallb (fun e => negb (overlaps_recovery e)) es = true ->
     run es (Kernel_new now) = Some w ->
     dispatcher w = AfterExecute start_time ->
     current_task_ (scheduler_ w) = Some task ->
     store w !! task = Some t ->
     state_ t = TERMINATED -> recoverable_ t = true ->
     let w' := schedulerLoop_account t_end w in
     if recovery_attempts_ (scheduler_ w) <? 3
     then state_ (deref (store w') task) = READY /\
          recovery_attempts_ (scheduler_ w')
          = recovery_attempts_ (scheduler_ w) + 1 /\
          task ∈ ready_queue_ (scheduler_ w')
     else state_ (deref (store w') task) = TERMINATED /\
          recovery_attempts_ (scheduler_ w') = 3 /\
          ready_queue_ (scheduler_ w') = ready_queue_ (scheduler_ w)) /\
  (forall w w' start_time task t o t_end now t_static,
     dispatcher w = InHandler start_time ->
     current_task_ (scheduler_ w) = Some task ->
     store w !! task = Some t ->
     run [DispatcherReturn o; DispatcherEnd t_end now t_static] w = Some w' ->
     recovery_attempts_ (scheduler_ w') = recovery_attempts_ (scheduler_ w) /\
     state_ (deref (store w') task)
     = match o with
       | Returns => READY
       | Throws => if recoverable_ t then READY else TERMINATED
       end).
Proof.
  assert (Hbound : forall now es w,
            forallb (fun e => negb (overlaps_recovery e)) es = true ->
            run es (Kernel_new now) = Some w ->
            0 <= recovery_attempts_ (scheduler_ w) <= 3).
  { intros now es w Hes Hrun.
    apply (run_attempts_bounded es (Kernel_new now) w); [done| |done].
    unfold attempts_bounded, MAX_RECOVERY_ATTEMPTS. simpl. lia. }
  split; [|split; [|split; [|split]]].
  - intros w task _ _ Ha. by apply attemptTaskRecovery_denied.
  - intros w task Hrec _ Ha.
    destruct (attemptTaskRecovery_granted task w Hrec Ha)
      as (w' & H1 & H2 & H3 & H4 & H5 & H6 & H7).
    exists w'. split; [done|]. split; [done|]. split; [done|].
    split; [done|]. split; [done|].
    intros y. rewrite H4. apply elem_of_pq_push.
  - exact Hbound.
  - intros now es w st task t t_end Hes Hrun Hpc Hcur Hp Hst Hrec.
    pose proof (Hbound now es w Hes Hrun) as Hb.
    pose proof (schedulerLoop_account_recovery t_end w st task t
                  Hpc Hcur Hp Hst Hrec ltac:(lia)) as H.
    cbv zeta in *.
    destruct (Z.ltb_spec (recovery_attempts_ (scheduler_ w)) 3) as [Hlt|Hge];
      [exact H|].
    destruct H as (H1 & H2 & H3). split; [done|]. split; [lia|done].
  - intros w w' st task t o t_end now t_static Hpc Hcur Hp Hrun.
    exact (return_end_recovery w w' st task t o t_end now t_static
             Hpc Hcur Hp Hrun).
Qed.

(** A recoverable task F is dispatched and returns; [terminate()] is called
    on it before the dispatcher has the mutex again.  The first time the
    dispatcher revives it (the counter goes to 1); with the counter at 3 it
    leaves it TERMINATED. *)
Lemma recovery_cap_witness :
  let es := [ KCreateTask "F" 50 PREEMPTIVE 0 0 true; KStart 1000000;
              DispatcherBegin 2000000 2000000 2000000 2000000;
              DispatcherReturn Returns;
              TaskMethod 0%nat CTerminate ] in
  let es3 := [ KCreateTask "F" 50 PREEMPTIVE 0 0 true; KStart 1000000;
               TaskMethod 0%nat CTerminate; SAttemptTaskRecovery 0%nat;
               TaskMethod 0%nat CTerminate; SAttemptTaskRecovery 0%nat;
               TaskMethod 0%nat CTerminate; SAttemptTaskRecovery 0%nat;
               DispatcherBegin 2000000 2000000 2000000 2000000;
               DispatcherReturn Returns;
               TaskMethod 0%nat CTerminate ] in
  (exists w,
     run es (Kernel_new 0) = Some w /\
     recovery_attempts_ (scheduler_ w) = 0 /\
     state_ (deref (store (schedulerLoop_account 2500000 w)) 0%nat) = READY /\
     recovery_attempts_ (scheduler_ (schedulerLoop_account 2500000 w)) = 1) /\
  (exists w,
     run es3 (Kernel_new 0) = Some w /\
     recovery_attempts_ (scheduler_ w) = 3 /\
     attemptTaskRecovery 0%nat w = (false, w) /\
     state_ (deref (store (schedulerLoop_account 2500000 w)) 0%nat) = TERMINATED /\
     recovery_attempts_ (scheduler_ (schedulerLoop_account 2500000 w)) = 3).
Proof.
  cbv zeta. destruct recovery_cap as (Hdenied & _ & Hbound & Hdisp & _). split.
  - set (es := _ :: _).
    destruct (run es (Kernel_new 0)) as [w|] eqn:Hrun; [|by vm_compute in Hrun].
    destruct (store w !! 0%nat) as [t|] eqn:Ht;
      [|by vm_compute in Hrun; injection Hrun as <-; vm_compute in Ht].
    assert (Hw : dispatcher w = AfterExecute 2000000 /\
                 current_task_ (scheduler_ w) = Some 0%nat /\
                 state_ t = TERMINATED /\ recoverable_ t = true /\
                 recovery_attempts_ (scheduler_ w) = 0).
    { vm_compute in Hrun. injection Hrun as <-. vm_compute in Ht.
      injection Ht as <-. by repeat split. }
    destruct Hw as (Hpc & Hcur & Hst & Hrec & Ha).
    pose proof (Hdisp 0 es w 2000000 0%nat t 2500000 eq_refl Hrun Hpc Hcur Ht
                  Hst Hrec) as H.
    cbv zeta in H. rewrite Ha in H. cbn [Z.ltb Z.compare] in H.
    destruct H as (H1 & H2 & _).
    exists w. split; [reflexivity|]. split; [exact Ha|]. split; [exact H1|].
    exact H2.
  - set (es3 := _ :: _).
    destruct (run es3 (Kernel_new 0)) as [w|] eqn:Hrun; [|by vm_compute in Hrun].
    destruct (store w !! 0%nat) as [t|] eqn:Ht;
      [|by vm_compute in Hrun; injection Hrun as <-; vm_compute in Ht].
    assert (Hw : dispatcher w = AfterExecute 2000000 /\
                 current_task_ (scheduler_ w) = Some 0%nat /\
                 state_ t = TERMINATED /\ recoverable_ t = true /\
                 recovery_attempts_ (scheduler_ w) = 3).
    { vm_compute in Hrun. injection Hrun as <-. vm_compute in Ht.
      injection Ht as <-. by repeat split. }
    destruct Hw as (Hpc & Hcur & Hst & Hrec & Ha).
    pose proof (Hdisp 0 es3 w 2000000 0%nat t 2500000 eq_refl Hrun Hpc Hcur Ht
                  Hst Hrec) as H.
    cbv zeta in H. rewrite Ha in H. cbn [Z.ltb Z.compare] in H.
    destruct H as (H1 & H2 & _).
    assert (Hd : deref (store w) 0%nat = t) by (by apply deref_lookup).
    exists w. split; [reflexivity|]. split; [exact Ha|]. split.
    + apply Hdenied; [by rewrite Hd|by rewrite Hd|]. rewrite Ha. lia.
    + split; [exact H1|exact H2].
Defined.

(** C5, counterexample.  A failure of the handler does not come to
    [attempt_task_recovery]: [execute()] itself leaves a recoverable task
    READY when its handler throws.  F fails four times in a row; it is READY
    after the fourth failure as after the first three, and the recovery
    counter is still 0. *)
Lemma fourth_failure_is_revived :
  exists w1 w2 w3 w4,
    run (failures 1) (Kernel_new 0) = Some w1 /\
    run (failures 2) (Kernel_new 0) = Some w2 /\
    run (failures 3) (Kernel_new 0) = Some w3 /\
    run (failures 4) (Kernel_new 0) = Some w4 /\
    recoverable_ (deref (store w4) 0%nat) = true /\
    execution_count (statistics_ (deref (store w1) 0%nat)) = 1 /\
    execution_count (statistics_ (deref (store w2) 0%nat)) = 2 /\
    execution_count (statistics_ (deref (store w3) 0%nat)) = 3 /\
    execution_count (statistics_ (deref (store w4) 0%nat)) = 4 /\
    state_ (deref (store w1) 0%nat) = READY /\
    state_ (deref (store w2) 0%nat) = READY /\
    state_ (deref (store w3) 0%nat) = READY /\
    state_ (deref (store w4) 0%nat) = READY /\
    recovery_attempts_ (scheduler_ w4) = 0.
Proof.
  do 4 eexists.
  repeat (split; [vm_compute; reflexivity|]). vm_compute. reflexivity.
Qed.

(** Two calls of [attemptTaskRecovery] that both test the counter at 2: the
    one that ends second takes it to 4. *)
Example overlapping_recoveries_pass_the_cap :
  exists w,
    run [ KCreateTask "F" 50 PREEMPTIVE 0 0 true;
          TaskMethod 0%nat CTerminate; SAttemptTaskRecovery 0%nat;
          TaskMethod 0%nat CTerminate; SAttemptTaskRecovery 0%nat;
          TaskMethod 0%nat CTerminate;
          SAttemptTaskRecovery 0%nat; SRecoveryOverlap 0%nat ]
        (Kernel_new 0) = Some w /\
    recovery_attempts_ (scheduler_ w) = 4.
Proof.
  eexists. split; vm_compute; reflexivity.
Qed.

(** ** Deadline misses of a task without a deadline *)

Lemma updatePriority_statistics (t t' : Task) :
  updatePriority t = Some t' ->
  statistics_ t' = statistics_ t /\ state_ t' = state_ t.
Proof.
  unfold updatePriority. destruct (0 <? _).
  - destruct (f32_to_int _); [|done]. simpl. by intros [= <-].
  - by intros [= <-].
Qed.

Lemma checkDeadlines_task_no_deadline (now : Z) (t : Task) :
  deadline_ t = 0 -> checkDeadlines_task now t = Some t.
Proof. intros H. unfold checkDeadlines_task. by rewrite H. Qed.

Lemma misses_kept_refl (p : nat) (t : Task) : misses_kept p t t.
Proof. split; [apply same_constants_refl|done]. Qed.

Lemma misses_kept_same (p : nat) (t t' : Task) :
  same_constants t t' ->
  deadline_misses (statistics_ t') = deadline_misses (statistics_ t) ->
  misses_kept p t t'.
Proof. by split. Qed.

Lemma misses_kept_closed : method_closed misses_kept.
Proof.
  split.
  - apply misses_kept_refl.
  - intros p a b c [Hab Hm1] [Hbc Hm2]. split.
    + by eapply same_constants_trans.
    + intros Hd. rewrite Hm2, Hm1; try done.
      destruct Hab as (_ & _ & _ & _ & -> & _). done.
  - intros p t. by apply misses_kept_same.
  - intros p t. unfold suspend. destruct (decide _); by apply misses_kept_same.
  - intros p t. unfold resume. destruct (decide _); by apply misses_kept_same.
  - intros p t _. by apply misses_kept_same.
  - intros p t t' Hu. apply misses_kept_same.
    + by apply updatePriority_constants.
    + apply updatePriority_statistics in Hu as [-> _]. done.
  - intros p now t t' Hc. split.
    + unfold checkDeadlines_task in Hc.
      destruct (_ && _); [|injection Hc as <-; apply same_constants_refl].
      destruct (0 <? _); [|injection Hc as <-; apply same_constants_refl].
      destruct (_ <? _); [|injection Hc as <-; apply same_constants_refl].
      by apply recordDeadlineMiss_constants.
    + intros Hd. rewrite (checkDeadlines_task_no_deadline now t Hd) in Hc.
      by injection Hc as <-.
  - intros p d t t' Hc. split.
    + by eapply updateDeadlineCounter_constants.
    + intros Hd. rewrite updateDeadlineCounter_no_deadline in Hc by lia.
      by injection Hc as <-.
  - intros p d t. by apply misses_kept_same.
Qed.

Lemma task_call_misses_kept (p : nat) (c : TaskCall) (t t' : Task) :
  touches_miss_count (TaskMethod p c) = false ->
  task_call c t = Some t' -> misses_kept p t t'.
Proof.
  intros Hc Ht. destruct c; try done; simpl in Ht.
  - injection Ht as <-. by apply misses_kept_same.
  - injection Ht as <-. destruct o; simpl; [by apply misses_kept_same|].
    destruct (negb _); by apply misses_kept_same.
  - injection Ht as <-. apply (mc_suspend _ misses_kept_closed).
  - injection Ht as <-. apply (mc_resume _ misses_kept_closed).
  - injection Ht as <-. apply (mc_terminate _ misses_kept_closed).
  - by apply (mc_updatePriority _ misses_kept_closed).
  - by eapply (mc_updateDeadlineCounter _ misses_kept_closed).
  - injection Ht as <-. by apply misses_kept_same.
  - injection Ht as <-. apply (mc_updateStatistics _ misses_kept_closed).
Qed.

Lemma step_misses_kept (e : Event) (w w' : World) :
  touches_miss_count e = false -> step e w = Some w' ->
  store_rel misses_kept (store w) (store w').
Proof.
  intros He Hs. destruct (is_background e) eqn:Hbg.
  - exact (step_background_rel _ misses_kept_closed e w w' Hbg Hs).
  - destruct e; try done.
    + refine (schedulerLoop_begin_rel _ misses_kept_closed _ _ _ _ _ _ _ Hs).
      intros p t _. by apply misses_kept_same.
    + injection Hs as <-.
      apply (schedulerLoop_return_rel _ misses_kept_closed).
      intros _ c t _ _ _. destruct o; simpl; [by apply misses_kept_same|].
      destruct (negb _); by apply misses_kept_same.
    + refine (step_direct_rel _ misses_kept_closed _ _ _ _ _ Hs).
      intros t t' _. by apply task_call_misses_kept.
    + injection Hs as <-.
      apply (schedulerLoop_execute_rel _ misses_kept_closed).
      intros _ c t _ _ _. by apply misses_kept_same.
Qed.

Lemma run_misses_kept (es : list Event) : forall w w',
  forallb (fun e => negb (touches_miss_count e)) es = true ->
  run es w = Some w' -> store_rel misses_kept (store w) (store w').
Proof.
  induction es as [|e es IH]; simpl; intros w w' Hes.
  - intros [= <-]. apply store_rel_refl, misses_kept_closed.
  - apply andb_true_iff in Hes as [He Hes]. apply negb_true_iff in He.
    destruct (step e w) as [w1|] eqn:Hs; [|done]. simpl. intros Hr.
    eapply store_rel_trans; [apply misses_kept_closed| |by apply IH].
    exact (step_misses_kept e w w1 He Hs).
Qed.

(** *** C6: no miss is recorded for a task without a deadline *)

(** C6.  For a task whose deadline is 0, neither [update_deadline_counter]
    (the deadline monitor) nor the check of [check_deadlines] (the
    dispatcher) records a miss: both leave the task as it is.  Over any
    sequence of operations of the kernel and the scheduler, steps of their
    two threads, and task methods other than a direct
    [record_deadline_miss] or [reset_statistics], the task keeps its deadline
    of 0 and its [deadline_misses]. *)
Theorem no_miss_without_deadline
    (es : list Event) (w w' : World) (p : TaskPtr) (t : Task) :
  run es w = Some w' ->
  forallb (fun e => negb (touches_miss_count e)) es = true ->
  store w !! p = Some t ->
  deadline_ t = 0 ->
  (forall delta, updateDeadlineCounter delta t = Some t) /\
  (forall now, checkDeadlines_task now t = Some t) /\
  exists t',
    store w' !! p = Some t' /\ deadline_ t' = 0 /\
    deadline_misses (statistics_ t') = deadline_misses (statistics_ t).
Proof.
  intros Hrun Hes Hp Hd. split; [|split].
  - intros delta. apply updateDeadlineCounter_no_deadline. lia.
  - intros now. by apply checkDeadlines_task_no_deadline.
  - destruct (run_misses_kept es w w' Hes Hrun p t Hp) as (t' & Hp' & Hc & Hm).
    exists t'. split; [done|]. split; [|by apply Hm].
    destruct Hc as (_ & _ & _ & _ & -> & _). done.
Qed.

(** An aperiodic task Z without deadline, next to a periodic task P that
    does miss deadlines: the monitor ticks and the dispatcher runs, P collects
    misses, Z none. *)
Lemma no_miss_without_deadline_witness :
  let w := snd (createTask "P" 60 PREEMPTIVE 10 10 false
             (snd (createTask "Z" 20 PREEMPTIVE 0 0 false (Kernel_new 0)))) in
  let es := [ KStart 1000000;
              MonitorTick 1000000 500000000;
              DispatcherBegin 600000000 600000000 600000000 600000000;
              DispatcherReturn Returns;
              DispatcherEnd 700000000 700000000 700000000;
              MonitorTick 0 900000000;
              DispatcherBegin 950000000 950000000 950000000 950000000;
              DispatcherReturn Throws;
              DispatcherEnd 990000000 990000000 990000000;
              MonitorTick 0 2000000000;
              DispatcherBegin 2100000000 2100000000 2100000000 2100000000 ] in
  exists w' tz tp,
    run es w = Some w' /\
    store w' !! 0%nat = Some tz /\ deadline_misses (statistics_ tz) = 0 /\
    store w' !! 1%nat = Some tp /\ 0 < deadline_misses (statistics_ tp).
Proof.
  cbv zeta. set (w := snd _). set (es := _ :: _).
  destruct (run es w) as [w'|] eqn:Hrun; [|by vm_compute in Hrun].
  assert (Hes : forallb (fun e => negb (touches_miss_count e)) es = true)
    by reflexivity.
  destruct (no_miss_without_deadline es w w' 0%nat _ Hrun Hes eq_refl eq_refl)
    as (_ & _ & tz & Hz & _ & Hm).
  assert (Hp : exists tp, store w' !! 1%nat = Some tp
                          /\ 0 < deadline_misses (statistics_ tp)).
  { vm_compute in Hrun. injection Hrun as <-. eexists. split; reflexivity. }
  destruct Hp as (tp & Hp & Hpm).
  exists w', tz, tp. repeat split; try done.
Defined.

(** ** The execution count *)

Lemma recordDeadlineMiss_keeps (t t' : Task) :
  recordDeadlineMiss t = Some t' ->
  state_ t' = state_ t /\
  execution_count (statistics_ t') = execution_count (statistics_ t).
Proof.
  unfold recordDeadlineMiss. intros H.
  apply updatePriority_statistics in H as [Hs Hc]. simpl in *. by rewrite Hs, Hc.
Qed.

Lemma updateDeadlineCounter_keeps (d : Z) (t t' : Task) :
  updateDeadlineCounter d t = Some t' ->
  state_ t' = state_ t /\
  execution_count (statistics_ t') = execution_count (statistics_ t).
Proof.
  unfold updateDeadlineCounter. destruct (0 <? _); [|by intros [= <-]].
  destruct (_ <? _); [|by intros [= <-]].
  destruct (recordDeadlineMiss _) as [t2|] eqn:Hr; [|done]. simpl. intros [= <-].
  apply recordDeadlineMiss_keeps in Hr as [Hs Hc]. simpl in *. by rewrite Hs, Hc.
Qed.

Lemma checkDeadlines_task_keeps (now : Z) (t t' : Task) :
  checkDeadlines_task now t = Some t' ->
  state_ t' = state_ t /\
  execution_count (statistics_ t') = execution_count (statistics_ t).
Proof.
  unfold checkDeadlines_task. destruct (_ && _); [|by intros [= <-]].
  destruct (0 <? _); [|by intros [= <-]].
  destruct (_ <? _); [|by intros [= <-]].
  apply recordDeadlineMiss_keeps.
Qed.

Lemma count_kept_closed : method_closed count_kept.
Proof.
  unfold count_kept. split; try done.
  - intros p a b c Hab Hbc. congruence.
  - intros p t. unfold suspend. by destruct (decide _).
  - intros p t. unfold resume. by destruct (decide _).
  - intros p t t' Hu. by apply updatePriority_statistics in Hu as [-> _].
  - intros p now t t' Hc. by apply checkDeadlines_task_keeps in Hc as [_ ->].
  - intros p d t t' Hc. by apply updateDeadlineCounter_keeps in Hc as [_ ->].
Qed.

Lemma count_kept_step (p : nat) (t t' : Task) : count_kept p t t' -> count_step p t t'.
Proof. by left. Qed.

Lemma task_call_count_step (p : nat) (c : TaskCall) (t t' : Task) :
  is_reset (TaskMethod p c) = false ->
  task_call c t = Some t' -> count_step p t t'.
Proof.
  intros Hc Ht. destruct c; try done; simpl in Ht.
  - injection Ht as <-. by right.
  - injection Ht as <-. left. destruct o; simpl; [done|]. by destruct (negb _).
  - injection Ht as <-. left. apply (mc_suspend _ count_kept_closed p).
  - injection Ht as <-. left. apply (mc_resume _ count_kept_closed p).
  - injection Ht as <-. by left.
  - left. by apply recordDeadlineMiss_keeps in Ht as [_ ->].
  - left. by apply (mc_updatePriority _ count_kept_closed p).
  - left. by apply (mc_updateDeadlineCounter _ count_kept_closed p elapsed).
  - injection Ht as <-. by left.
  - injection Ht as <-. by left.
Qed.

Lemma schedulerLoop_execute_count (t_exec : Z) (w : World) :
  store_rel count_step (store w) (store (schedulerLoop_execute t_exec w)).
Proof.
  unfold schedulerLoop_execute.
  destruct (dispatcher w) as [|st|st| |st| |];
    try (intros p t Hp; exists t; split; [done|by left]).
  destruct (current_task_ (scheduler_ w)) as [task|];
    [|intros p t Hp; exists t; split; [done|by left]].
  simpl. intros p t Hp. destruct (decide (task = p)) as [->|Hne].
  - exists (execute_begin t_exec (setState RUNNING t)). split.
    + rewrite (call_call _ _ _ _ _ Hp).
      apply list_lookup_insert_eq. by eapply lookup_lt_Some.
    + by right.
  - exists t. split; [|by left]. unfold call. by rewrite !list_lookup_insert_ne.
Qed.

(** An event other than a direct [resetStatistics] leaves the execution
    count of a task as it is, or adds one. *)
Lemma step_count_step (e : Event) (w w' : World) :
  is_reset e = false -> step e w = Some w' ->
  store_rel count_step (store w) (store w').
Proof.
  intros He Hs. destruct (is_background e) eqn:Hbg.
  - eapply store_rel_mono; [apply count_kept_step|].
    exact (step_background_rel _ count_kept_closed e w w' Hbg Hs).
  - destruct e; try done.
    + simpl in Hs. unfold schedulerLoop_begin in Hs.
      destruct (schedulerLoop_select _ _ _ w) as [w1|] eqn:Hsel; [|done].
      simpl in Hs. injection Hs as <-.
      apply (schedulerLoop_select_rel _ count_kept_closed) in Hsel.
      intros p t Hp. destruct (Hsel p t Hp) as (t1 & Hp1 & Hk).
      destruct (schedulerLoop_execute_count t_exec w1 p t1 Hp1) as (t2 & Hp2 & Hc).
      exists t2. split; [done|]. unfold count_kept in Hk. unfold count_step in *.
      by rewrite <- Hk.
    + injection Hs as <-. eapply store_rel_mono; [apply count_kept_step|].
      apply (schedulerLoop_return_rel _ count_kept_closed).
      intros _ c t _ _ _. unfold count_kept. destruct o; simpl; [done|].
      by destruct (negb _).
    + simpl in Hs. unfold on_store_opt, call_opt in Hs.
      destruct (task_call c (deref (store w) task)) as [t'|] eqn:Hc; [|done].
      simpl in Hs. injection Hs as <-. simpl.
      apply store_rel_insert_at; [intros; by left|].
      intros t Ht. rewrite (deref_lookup _ _ _ Ht) in Hc.
      by eapply task_call_count_step.
    + injection Hs as <-. apply schedulerLoop_execute_count.
Qed.

Lemma run_count_bounds (es : list Event) : forall w w' p t,
  forallb (fun e => negb (is_reset e)) es = true ->
  run es w = Some w' ->
  store w !! p = Some t ->
  0 <= execution_count (statistics_ t) ->
  execution_count (statistics_ t) + Z.of_nat (length es) < 2 ^ 64 ->
  exists t',
    store w' !! p = Some t' /\
    execution_count (statistics_ t) <= execution_count (statistics_ t')
    <= execution_count (statistics_ t) + Z.of_nat (length es).
Proof.
  induction es as [|e es IH]; intros w w' p t Hes Hrun Hp H0 Hb.
  - injection Hrun as <-. exists t. split; [done|]. simpl. lia.
  - simpl in Hes, Hrun. apply andb_true_iff in Hes as [He Hes].
    apply negb_true_iff in He.
    destruct (step e w) as [w1|] eqn:Hs; [|done]. simpl in Hrun.
    destruct (step_count_step e w w1 He Hs p t Hp) as (t1 & Hp1 & Hc).
    rewrite length_cons, Nat2Z.inj_succ in Hb |- *.
    assert (Hc1 : execution_count (statistics_ t)
                  <= execution_count (statistics_ t1)
                  <= execution_count (statistics_ t) + 1).
    { destruct Hc as [->| ->]; [lia|]. rewrite wrap64_small; lia. }
    destruct (IH w1 w' p t1 Hes Hrun Hp1 ltac:(lia) ltac:(lia)) as (t' & Hp' & Hc').
    exists t'. split; [done|lia].
Qed.

(** *** A TERMINATED task that cannot be recovered *)

Lemma adjustPriorities_control (w w' : World) :
  adjustPriorities w = Some w' -> control w' = control w.
Proof.
  unfold adjustPriorities. destruct (for_each _ _ _); [|done]. simpl.
  by intros [= <-].
Qed.

Lemma monitor_scan_control (elapsed : Z) (ps : list TaskPtr) : forall w w',
  monitor_scan elapsed ps w = Some w' -> control w' = control w.
Proof.
  induction ps as [|p ps IH]; simpl; intros w w'; [by intros [= <-]|].
  destruct (monitor_task elapsed p w) as [w1|] eqn:Hm; [|done]. simpl. intros Hs.
  rewrite (IH _ _ Hs). clear Hs IH. unfold monitor_task in Hm.
  destruct (_ || _).
  - unfold on_store_opt in Hm. destruct (call_opt _ _ _); [|done]. simpl in Hm.
    injection Hm as <-. by destruct (_ && _).
  - simpl in Hm. injection Hm as <-. by destruct (_ && _).
Qed.

(** Only the dispatcher moves its control point and its current task. *)
Lemma step_control (e : Event) (w w' : World) :
  is_dispatcher_step e = false -> step e w = Some w' -> control w' = control w.
Proof.
  intros He. destruct e; try done; simpl; try (by intros [= <-]).
  - intros [= <-]. unfold createTask. by destruct (tasks_ w !! name).
  - intros [= <-]. unfold removeTask, Scheduler_removeTask.
    destruct (tasks_ w !! name); [|done]. by destruct (find_by_name _ _ _ _) as [[??]|].
  - intros [= <-]. unfold Scheduler_start. by destruct (is_running_ _).
  - intros [= <-]. unfold Scheduler_removeTask.
    by destruct (find_by_name _ _ _ _) as [[??]|].
  - apply adjustPriorities_control.
  - intros [= <-]. unfold attemptTaskRecovery. destruct (negb _); [done|].
    by destruct (_ <=? _).
  - unfold deadlineMonitor_tick. destruct (negb _); [by intros [= <-]|].
    intros H. by apply monitor_scan_control in H.
  - unfold on_store_opt. destruct (call_opt _ _ _); [|done]. simpl. by intros [= <-].
  - intros [= <-]. unfold attemptTaskRecovery_overlapped. by destruct (negb _).
Qed.

(** Where the steps of the dispatcher leave its control point. *)
Lemma schedulerLoop_tail_pc (now t_static : Z) (w w' : World) :
  schedulerLoop_tail now t_static w = Some w' ->
  dispatcher w' = AtLoopHead \/ dispatcher w' = Blocked.
Proof.
  unfold schedulerLoop_tail. destruct (_ <? _); simpl; intros [= <-]; tauto.
Qed.

Lemma schedulerLoop_account_pc (t_end : Z) (w : World) :
  schedulerLoop_account t_end w = w \/
  dispatcher (schedulerLoop_account t_end w) = BeforeReschedule.
Proof.
  unfold schedulerLoop_account.
  destruct (dispatcher w); try (by left); [|by right].
  destruct (current_task_ _); [by right|by left].
Qed.

Lemma schedulerLoop_reschedule_pc (now t_static : Z) (w w' : World) :
  schedulerLoop_reschedule now t_static w = Some w' ->
  w' = w \/ dispatcher w' = AtLoopHead \/ dispatcher w' = Blocked.
Proof.
  unfold schedulerLoop_reschedule.
  destruct (dispatcher w); try (intros [= <-]; by left).
  intros H. right. by eapply schedulerLoop_tail_pc.
Qed.

Lemma schedulerLoop_end_pc (t_end now t_static : Z) (w w' : World) :
  schedulerLoop_end t_end now t_static w = Some w' ->
  w' = w \/ dispatcher w' = AtLoopHead \/ dispatcher w' = Blocked.
Proof.
  unfold schedulerLoop_end. intros H.
  destruct (schedulerLoop_account_pc t_end w) as [Heq|Hpc].
  - rewrite Heq in H. by apply schedulerLoop_reschedule_pc in H.
  - unfold schedulerLoop_reschedule in H. rewrite Hpc in H.
    right. by eapply schedulerLoop_tail_pc.
Qed.

Lemma schedulerLoop_execute_control (t_exec : Z) (w : World) :
  schedulerLoop_execute t_exec w = w \/
  exists st, dispatcher w = Selected st /\
             dispatcher (schedulerLoop_execute t_exec w) = InHandler st /\
             current_task_ (scheduler_ (schedulerLoop_execute t_exec w))
             = current_task_ (scheduler_ w).
Proof.
  unfold schedulerLoop_execute.
  destruct (dispatcher w) as [|st|st| |st| |]; try (by left).
  destruct (current_task_ _) eqn:Hcur; [|by left]. right. by exists st.
Qed.

Lemma stays_terminated_closed (p0 : nat) : method_closed (stays_terminated p0).
Proof.
  unfold stays_terminated. split.
  - done.
  - intros p a b c Hab Hbc Hp Hs Hr.
    destruct (Hab Hp Hs Hr) as (Hs' & Hr' & Hc').
    destruct (Hbc Hp Hs' Hr') as (Hs'' & Hr'' & Hc''). repeat split; congruence.
  - intros p t _ Hs Hr. by repeat split.
  - intros p t _ Hs Hr. unfold suspend. rewrite decide_False; [by repeat split|]. by intros [].
  - intros p t _ Hs Hr. unfold resume. rewrite decide_False; [by repeat split|]. by rewrite Hs.
  - intros p t Hrec _ _ Hr. congruence.
  - intros p t t' Hu _ Hs Hr.
    pose proof (updatePriority_constants _ _ Hu) as (_ & _ & _ & _ & _ & _ & Hrec).
    apply updatePriority_statistics in Hu as [Hst Hstate].
    repeat split; congruence.
  - intros p now t t' Hc _ Hs Hr.
    pose proof (mc_checkDeadlines _ misses_kept_closed p now t t' Hc)
      as [(_ & _ & _ & _ & _ & _ & Hrec) _].
    apply checkDeadlines_task_keeps in Hc as [Hstate Hcount].
    repeat split; congruence.
  - intros p d t t' Hc _ Hs Hr.
    pose proof (updateDeadlineCounter_constants _ _ _ Hc) as (_ & _ & _ & _ & _ & _ & Hrec).
    apply updateDeadlineCounter_keeps in Hc as [Hstate Hcount].
    repeat split; congruence.
  - intros p d t _ Hs Hr. by repeat split.
Qed.

Lemma task_call_stays_terminated (p0 p : nat) (c : TaskCall) (t t' : Task) :
  revives_directly p0 (TaskMethod p c) = false ->
  task_call c t = Some t' -> stays_terminated p0 p t t'.
Proof.
  intros Hc Ht.
  pose proof (stays_terminated_closed p0) as HR.
  destruct c; simpl in Ht.
  - intros ->. simpl in Hc. by rewrite Nat.eqb_refl in Hc.
  - intros ->. simpl in Hc. by rewrite Nat.eqb_refl in Hc.
  - injection Ht as <-. apply (mc_suspend _ HR).
  - injection Ht as <-. apply (mc_resume _ HR).
  - injection Ht as <-. apply (mc_terminate _ HR).
  - intros _ Hs Hr.
    pose proof (recordDeadlineMiss_constants _ _ Ht) as (_ & _ & _ & _ & _ & _ & Hrec).
    apply recordDeadlineMiss_keeps in Ht as [Hstate Hcount]. repeat split; congruence.
  - by apply (mc_updatePriority _ HR).
  - intros ->. simpl in Hc. by rewrite Nat.eqb_refl in Hc.
  - by apply (mc_updateDeadlineCounter _ HR p elapsed).
  - intros ->. simpl in Hc. by rewrite Nat.eqb_refl in Hc.
  - injection Ht as <-. apply (mc_updateStatistics _ HR).
Qed.

(** While the dispatcher is not between the selection of the task and the
    end of its handler, a TERMINATED task that cannot be recovered stays as
    it is under every event but the direct calls of [revives_directly]. *)
Lemma step_stays_terminated (p0 : nat) (e : Event) (w w' : World) :
  not_executing p0 w -> revives_directly p0 e = false -> step e w = Some w' ->
  store_rel (stays_terminated p0) (store w) (store w').
Proof.
  intros Hne He Hs. destruct (is_background e) eqn:Hbg.
  - exact (step_background_rel _ (stays_terminated_closed p0) e w w' Hbg Hs).
  - destruct e; try done.
    + refine (schedulerLoop_begin_rel _ (stays_terminated_closed p0) _ _ _ _ _ _ _ Hs).
      intros c t [Hready|(st & Hpc & Hcur & _)] Hc Hterm; [congruence|].
      subst c. unfold not_executing in Hne. by rewrite Hpc in Hne.
    + injection Hs as <-.
      apply (schedulerLoop_return_rel _ (stays_terminated_closed p0)).
      intros st c t Hpc Hcur _ Hc. subst c. unfold not_executing in Hne.
      rewrite Hpc in Hne. done.
    + refine (step_direct_rel _ (stays_terminated_closed p0) _ _ _ _ _ Hs).
      intros t t' _. by apply task_call_stays_terminated.
    + injection Hs as <-.
      apply (schedulerLoop_execute_rel _ (stays_terminated_closed p0)).
      intros st c t Hpc Hcur _ Hc. subst c. unfold not_executing in Hne.
      rewrite Hpc in Hne. done.
Qed.

Lemma schedulerLoop_select_not_executing (p0 : nat) (t_check t_idle t_start : Z)
    (w w' : World) (t : Task) :
  not_executing p0 w ->
  store w !! p0 = Some t -> state_ t = TERMINATED -> recoverable_ t = false ->
  schedulerLoop_select t_check t_idle t_start w = Some w' ->
  not_executing p0 w'.
Proof.
  intros Hne Hp Hst Hrec Hs.
  apply (schedulerLoop_select_shape _ (stays_terminated_closed p0)) in Hs
    as [H1 [->|[(_ & Hpc & _)|(task & t1 & _ & Hpc & Hcur & Ht1 & Hst1)]]].
  - done.
  - unfold not_executing. by rewrite Hpc.
  - unfold not_executing. rewrite Hpc, Hcur. intros [= ->].
    destruct (H1 p0 t Hp) as (t2 & Hp2 & Hk).
    destruct (Hk eq_refl Hst Hrec) as (Hst2 & _). congruence.
Qed.

Lemma schedulerLoop_execute_not_executing (p0 : nat) (t_exec : Z) (w : World) :
  not_executing p0 w -> not_executing p0 (schedulerLoop_execute t_exec w).
Proof.
  intros Hne.
  destruct (schedulerLoop_execute_control t_exec w) as [->|(st & Hpc & Hpc' & Hcur)];
    [done|].
  unfold not_executing in *. rewrite Hpc', Hcur. by rewrite Hpc in Hne.
Qed.

Lemma step_not_executing (p0 : nat) (e : Event) (w w' : World) (t : Task) :
  not_executing p0 w -> revives_directly p0 e = false ->
  store w !! p0 = Some t -> state_ t = TERMINATED -> recoverable_ t = false ->
  step e w = Some w' -> not_executing p0 w'.
Proof.
  intros Hne He Hp Hst Hrec Hs.
  destruct (is_dispatcher_step e) eqn:Hd.
  - destruct e; try done; simpl in Hs.
    + unfold schedulerLoop_begin in Hs.
      destruct (schedulerLoop_select _ _ _ w) as [w1|] eqn:Hsel; [|done].
      simpl in Hs. injection Hs as <-.
      apply schedulerLoop_execute_not_executing.
      by eapply schedulerLoop_select_not_executing.
    + injection Hs as <-. unfold not_executing in *. unfold schedulerLoop_return.
      destruct (dispatcher w) eqn:Hpc; try (by rewrite Hpc).
      destruct (current_task_ (scheduler_ w)) eqn:Hcur; [done|].
      simpl. rewrite ?Hpc, ?Hcur. done.
    + apply schedulerLoop_end_pc in Hs as [->|[Hpc|Hpc]]; [done| |];
        unfold not_executing; by rewrite Hpc.
    + by eapply schedulerLoop_select_not_executing.
    + injection Hs as <-. by apply schedulerLoop_execute_not_executing.
    + injection Hs as <-.
      destruct (schedulerLoop_account_pc t_end w) as [->|Hpc]; [done|].
      unfold not_executing. by rewrite Hpc.
    + apply schedulerLoop_reschedule_pc in Hs as [->|[Hpc|Hpc]]; [done| |];
        unfold not_executing; by rewrite Hpc.
  - apply step_control in Hs; [|done]. unfold not_executing, control in *.
    injection Hs as -> ->. done.
Qed.

Lemma run_stays_terminated (p0 : nat) (es : list Event) : forall w w' t,
  forallb (fun e => negb (revives_directly p0 e)) es = true ->
  run es w = Some w' ->
  store w !! p0 = Some t -> state_ t = TERMINATED -> recoverable_ t = false ->
  not_executing p0 w ->
  exists t',
    store w' !! p0 = Some t' /\ state_ t' = TERMINATED /\
    recoverable_ t' = false /\
    execution_count (statistics_ t') = execution_count (statistics_ t) /\
    not_executing p0 w'.
Proof.
  induction es as [|e es IH]; intros w w' t Hes Hrun Hp Hst Hrec Hne.
  - injection Hrun as <-. by exists t.
  - simpl in Hes, Hrun. apply andb_true_iff in Hes as [He Hes].
    apply negb_true_iff in He.
    destruct (step e w) as [w1|] eqn:Hs; [|done]. simpl in Hrun.
    destruct (step_stays_terminated p0 e w w1 Hne He Hs p0 t Hp) as (t1 & Hp1 & Hk).
    destruct (Hk eq_refl Hst Hrec) as (Hst1 & Hrec1 & Hc1).
    pose proof (step_not_executing p0 e w w1 t Hne He Hp Hst Hrec Hs) as Hne1.
    destruct (IH w1 w' t1 Hes Hrun Hp1 Hst1 Hrec1 Hne1)
      as (t' & Hp' & Hst' & Hrec' & Hc' & Hne').
    exists t'. repeat split; try done. congruence.
Qed.

(** C9 (amended).  Over a sequence of operations of the kernel, the scheduler,
    the dispatcher, the deadline monitor and the task objects that does not
    call [resetStatistics], the execution count of every task never decreases
    and grows by at most one per operation, as long as the counter stays below
    2^64.  A non-recoverable task that is TERMINATED, while the dispatcher is
    not between choosing it and the end of its handler, stays TERMINATED with
    the same execution count over every such sequence that does not call
    [execute], [setState] or [resetStatistics] on that task object.
    [resetStatistics] sets the count to 0, and [execute] adds one to it in
    whatever state the task is. *)
Theorem execution_count_monotone :
  (forall es w w' p t,
     forallb (fun e => negb (is_reset e)) es = true ->
     run es w = Some w' -> store w !! p = Some t ->
     0 <= execution_count (statistics_ t) ->
     execution_count (statistics_ t) + Z.of_nat (length es) < 2 ^ 64 ->
     exists t',
       store w' !! p = Some t' /\
       execution_count (statistics_ t) <= execution_count (statistics_ t')
       <= execution_count (statistics_ t) + Z.of_nat (length es)) /\
  (forall es w w' p t,
     forallb (fun e => negb (revives_directly p e)) es = true ->
     run es w = Some w' -> store w !! p = Some t ->
     state_ t = TERMINATED -> recoverable_ t = false -> not_executing p w ->
     exists t',
       store w' !! p = Some t' /\ state_ t' = TERMINATED /\
       execution_count (statistics_ t') = execution_count (statistics_ t)) /\
  (forall t, execution_count (statistics_ (resetStatistics t)) = 0) /\
  (forall now t,
     execution_count (statistics_ (execute_begin now t))
     = wrap64 (execution_count (statistics_ t) + 1)).
Proof.
  split; [|split; [|split]].
  - intros es w w' p t Hes Hrun Hp H0 Hlt.
    exact (run_count_bounds es w w' p t Hes Hrun Hp H0 Hlt).
  - intros es w w' p t Hes Hrun Hp Hst Hrec Hne.
    destruct (run_stays_terminated p es w w' t Hes Hrun Hp Hst Hrec Hne)
      as (t' & Hp' & Hst' & _ & Hc & _).
    by exists t'.
  - done.
  - done.
Qed.

(** Two tasks in a fresh kernel: T is terminated by hand, U is dispatched
    once; T keeps its count of 0 and stays TERMINATED, U's count grows to 1. *)
Lemma execution_count_monotone_witness :
  let w := snd (createTask "U" 30 PREEMPTIVE 0 0 false
             (snd (createTask "T" 50 PREEMPTIVE 0 0 false (Kernel_new 0)))) in
  let w0 := on_store (call terminate 0%nat) w in
  let es := [ KStart 1000000;
              DispatcherSelect 2000000 2000000 2000000;
              TaskMethod 0%nat CSuspend;
              DispatcherExecute 2100000;
              MonitorTick 0 2500000;
              DispatcherReturn Returns;
              TaskMethod 0%nat CResume;
              DispatcherAccount 3000000;
              SYield;
              DispatcherReschedule 3000000 3000000;
              SAttemptTaskRecovery 0%nat ] in
  exists w' t u,
    run es w0 = Some w' /\
    store w' !! 0%nat = Some t /\ state_ t = TERMINATED /\
    execution_count (statistics_ t) = 0 /\
    store w' !! 1%nat = Some u /\ 0 <= execution_count (statistics_ u) <= 11 /\
    execution_count (statistics_ u) = 1.
Proof.
  cbv zeta. set (w0 := on_store _ _). set (es := _ :: _).
  destruct (run es w0) as [w'|] eqn:Hrun; [|by vm_compute in Hrun].
  destruct (store w0 !! 0%nat) as [t0|] eqn:Ht0; [|by vm_compute in Ht0].
  destruct (store w0 !! 1%nat) as [u0|] eqn:Hu0; [|by vm_compute in Hu0].
  assert (Hes1 : forallb (fun e => negb (revives_directly 0%nat e)) es = true)
    by (vm_compute; reflexivity).
  assert (Hes2 : forallb (fun e => negb (is_reset e)) es = true)
    by (vm_compute; reflexivity).
  assert (Hst0 : state_ t0 = TERMINATED)
    by (vm_compute in Ht0; injection Ht0 as <-; reflexivity).
  assert (Hrec0 : recoverable_ t0 = false)
    by (vm_compute in Ht0; injection Ht0 as <-; reflexivity).
  assert (Hc0 : execution_count (statistics_ t0) = 0)
    by (vm_compute in Ht0; injection Ht0 as <-; reflexivity).
  assert (Hcu : execution_count (statistics_ u0) = 0)
    by (vm_compute in Hu0; injection Hu0 as <-; reflexivity).
  assert (Hne : not_executing 0%nat w0) by (vm_compute; exact I).
  destruct execution_count_monotone as (Hmono & Hstable & _ & _).
  destruct (Hstable es w0 w' 0%nat t0 Hes1 Hrun Ht0 Hst0 Hrec0 Hne)
    as (t & Ht & Hst & Hc).
  assert (Hlen : Z.of_nat (length es) = 11) by reflexivity.
  destruct (Hmono es w0 w' 1%nat u0 Hes2 Hrun Hu0 ltac:(lia) ltac:(lia))
    as (u & Hu & Hb).
  assert (H1 : execution_count (statistics_ u) = 1).
  { vm_compute in Hrun. injection Hrun as <-.
    vm_compute in Hu. by injection Hu as <-. }
  rewrite Hcu, Hlen in Hb. rewrite Hc0 in Hc.
  exists w', t, u.
  split; [reflexivity|]. split; [exact Ht|]. split; [exact Hst|].
  split; [exact Hc|]. split; [exact Hu|]. split; [|exact H1].
  clear -Hb. lia.
Defined.

(** C9, counterexample.  A non-recoverable task is created and terminated;
    [execute] called on the task object then adds one to its execution count
    and leaves it READY. *)
Lemma terminated_count_changes : ~ count_monotone_and_stable.
Proof.
  intros H.
  set (es1 := [KCreateTask "T" 50 PREEMPTIVE 0 0 false; TaskMethod 0%nat CTerminate]).
  set (es2 := [TaskMethod 0%nat (CExecuteBegin 5);
               TaskMethod 0%nat (CExecuteEnd Returns)]).
  destruct (run es1 (Kernel_new 0)) as [w1|] eqn:H1; [|by vm_compute in H1].
  destruct (run es2 w1) as [w2|] eqn:H2;
    [|by vm_compute in H1; injection H1 as <-; vm_compute in H2].
  destruct (store w1 !! 0%nat) as [t1|] eqn:Ht1;
    [|by vm_compute in H1; injection H1 as <-; vm_compute in Ht1].
  destruct (store w2 !! 0%nat) as [t2|] eqn:Ht2;
    [|by vm_compute in H1; injection H1 as <-; vm_compute in H2;
         injection H2 as <-; vm_compute in Ht2].
  destruct (H 0 es1 es2 w1 w2 0%nat t1 t2 H1 H2 Ht1 Ht2) as [_ Hs].
  vm_compute in H1. injection H1 as <-.
  vm_compute in H2. injection H2 as <-.
  vm_compute in Ht1. injection Ht1 as <-.
  vm_compute in Ht2. injection Ht2 as <-.
  specialize (Hs eq_refl eq_refl). discriminate.
Qed.

(** [resetStatistics] after one dispatch: the count goes from 1 back to 0. *)
Example resetStatistics_decreases :
  let es := [KCreateTask "T" 50 PREEMPTIVE 0 0 false; KStart 1000000;
             DispatcherBegin 2000000 2000000 2000000 2000000;
             DispatcherReturn Returns;
             DispatcherEnd 3000000 3000000 3000000] in
  (w1 ← run es (Kernel_new 0); t1 ← store w1 !! 0%nat;
   Some (execution_count (statistics_ t1))) = Some 1 /\
  (w2 ← run (es ++ [TaskMethod 0%nat CResetStatistics]) (Kernel_new 0);
   t2 ← store w2 !! 0%nat;
   Some (execution_count (statistics_ t2))) = Some 0.
Proof.
  split; vm_compute; reflexivity.
Qed.

(** The scheduler itself executes a TERMINATED task, when the task is
    terminated between its selection and its execution: the dispatcher has
    released the mutex (line 186) and does not look at the state again.  T is
    chosen, then removed through the kernel; it is set RUNNING and executed
    all the same, and READY when its handler returns. *)
Example removed_task_is_executed :
  exists w1 w2,
    run [ KCreateTask "T" 50 PREEMPTIVE 0 0 false; KStart 1000000;
          DispatcherSelect 2000000 2000000 2000000;
          KRemoveTask "T" ] (Kernel_new 0) = Some w1 /\
    state_ (deref (store w1) 0%nat) = TERMINATED /\
    recoverable_ (deref (store w1) 0%nat) = false /\
    execution_count (statistics_ (deref (store w1) 0%nat)) = 0 /\
    all_tasks_ (scheduler_ w1) = [] /\
    run [ DispatcherExecute 2100000; DispatcherReturn Returns ] w1 = Some w2 /\
    state_ (deref (store w2) 0%nat) = READY /\
    execution_count (statistics_ (deref (store w2) 0%nat)) = 1.
Proof.
  do 2 eexists.
  repeat (split; [vm_compute; reflexivity|]). vm_compute. reflexivity.
Qed.


(** ** The registry of the kernel *)

Lemma createTask_exists (name : string) (priority : Z) (policy : SchedulePolicy)
    (period deadline : Z) (recoverable : bool) (w : World) :
  is_Some (tasks_ w !! name) ->
  createTask name priority policy period deadline recoverable w = (None, w).
Proof.
  intros [p Hp]. unfold createTask. by rewrite Hp.
Qed.

Lemma createTask_fresh (name : string) (priority : Z) (policy : SchedulePolicy)
    (period deadline : Z) (recoverable : bool) (w : World) :
  tasks_ w !! name = None ->
  let task := length (store w) in
  let w' := snd (createTask name priority policy period deadline recoverable w) in
  createTask name priority policy period deadline recoverable w = (Some task, w') /\
  tasks_ w' = <[name := task]> (tasks_ w) /\
  store w' = store w ++ [TaskBase name priority policy period deadline 4096 recoverable] /\
  all_tasks_ (scheduler_ w') = all_tasks_ (scheduler_ w) ++ [task].
Proof.
  intros Hn. cbv zeta. unfold createTask. rewrite Hn. simpl. done.
Qed.

(** C7.  When the name is already in the registry, [createTask] returns the
    null pointer and leaves the whole kernel as it was, registry and scheduler
    task list included.  When it is not, [createTask] returns the pointer to a
    new task object built from its arguments with a stack of 4096, the
    registry gains exactly the entry of that name (one more entry, the other
    names as before) and the scheduler task list gains that pointer at its
    end.  A second call with the same name, whatever its other arguments,
    returns the null pointer and changes nothing: the registry holds the task
    of the first call under that name, and one entry more than before. *)
Theorem createTask_spec (name : string) (w : World)
    (priority : Z) (policy : SchedulePolicy) (period deadline : Z)
    (recoverable : bool) :
  let r := createTask name priority policy period deadline recoverable w in
  (is_Some (tasks_ w !! name) -> r = (None, w)) /\
  (tasks_ w !! name = None ->
   let task := length (store w) in
   r.1 = Some task /\
   tasks_ r.2 = <[name := task]> (tasks_ w) /\
   tasks_ r.2 !! name = Some task /\
   (forall other, other <> name -> tasks_ r.2 !! other = tasks_ w !! other) /\
   size (tasks_ r.2) = S (size (tasks_ w)) /\
   store w !! task = None /\
   store r.2 !! task
   = Some (TaskBase name priority policy period deadline 4096 recoverable) /\
   (forall p t, store w !! p = Some t -> store r.2 !! p = Some t) /\
   all_tasks_ (scheduler_ r.2) = all_tasks_ (scheduler_ w) ++ [task] /\
   forall priority' policy' period' deadline' recoverable',
     createTask name priority' policy' period' deadline' recoverable' r.2
     = (None, r.2)).
Proof.
  cbv zeta. split.
  - apply createTask_exists.
  - intros Hn.
    destruct (createTask_fresh name priority policy period deadline recoverable
                w Hn) as (Hr & Hm & Hh & Ha).
    rewrite Hr in *. simpl in *.
    assert (Hl : tasks_ (createTask name priority policy period deadline
                           recoverable w).2 !! name = Some (length (store w))).
    { rewrite Hm. apply lookup_insert_eq. }
    split; [done|]. split; [done|]. split; [done|].
    split; [intros other Ho; rewrite Hm; by apply lookup_insert_ne|].
    split; [rewrite Hm; by apply map_size_insert_None|].
    split; [by apply lookup_ge_None_2|].
    split; [rewrite Hh; by apply list_lookup_middle|].
    split; [intros p t Hp; rewrite Hh; by apply lookup_app_l_Some|].
    split; [done|].
    intros. apply createTask_exists. by rewrite Hl.
Qed.

(** The scenario of the specification: [createTask] twice with the name X in
    a kernel that already holds a task W. *)
Lemma createTask_spec_witness :
  let w := snd (createTask "W" 10 PREEMPTIVE 0 0 false (Kernel_new 0)) in
  let r1 := createTask "X" 50 PREEMPTIVE 100 0 false w in
  let r2 := createTask "X" 70 COOPERATIVE 0 0 true r1.2 in
  tasks_ w !! "X" = None /\
  r1.1 = Some 1%nat /\ r2 = (None, r1.2) /\
  tasks_ r2.2 !! "X" = Some 1%nat /\ size (tasks_ r2.2) = 2%nat /\
  all_tasks_ (scheduler_ r2.2) = [0%nat; 1%nat] /\
  createTask "W" 1 PREEMPTIVE 0 0 false w = (None, w).
Proof.
  cbv zeta. set (w := snd _).
  assert (Hx : tasks_ w !! "X" = None) by (vm_compute; reflexivity).
  assert (Hw : is_Some (tasks_ w !! "W")) by (vm_compute; eauto).
  destruct (createTask_spec "X" w 50 PREEMPTIVE 100 0 false) as [_ Hfresh].
  destruct (Hfresh Hx) as (Hr & Hm & Hl & _ & Hsz & _ & _ & _ & Ha & Hagain).
  rewrite (Hagain 70 COOPERATIVE 0 0 true). simpl.
  split; [exact Hx|]. split; [exact Hr|]. split; [reflexivity|].
  split; [exact Hl|]. split; [rewrite Hsz; vm_compute; reflexivity|].
  split; [rewrite Ha; vm_compute; reflexivity|].
  exact (proj1 (createTask_spec "W" w 1 PREEMPTIVE 0 0 false) Hw).
Defined.

(* ===================================================================== *)
(** * Part IV: further properties of the task, the scheduler and the kernel *)
(* ===================================================================== *)

(** ** The task methods *)

Lemma spec_priority_zero (b : Z) : spec_priority b 0 = b.
Proof. reflexivity. Qed.

Lemma spec_priority_mono (b N N' : Z) :
  0 <= b <= 99 -> 0 <= N <= N' -> spec_priority b N <= spec_priority b N'.
Proof.
  intros Hb HN. unfold spec_priority.
  destruct (Z.ltb_spec 0 N) as [H0|H0]; destruct (Z.ltb_spec 0 N') as [H1|H1];
    try lia.
  - assert (b * N / 20 <= b * N' / 20) by (apply Z.div_le_mono; nia). lia.
  - assert (0 <= b * N' / 20) by (apply Z.div_pos; nia). lia.
Qed.

Lemma recordDeadlineMiss_tracks (t t' : Task) :
  task_wf t -> recordDeadlineMiss t = Some t' ->
  tracks_misses t' /\
  deadline_misses (statistics_ t') = wrap64 (deadline_misses (statistics_ t) + 1) /\
  base_priority_ t' = base_priority_ t /\
  state_ t' = state_ t /\
  execution_count (statistics_ t') = execution_count (statistics_ t) /\
  last_execution (statistics_ t') = last_execution (statistics_ t) /\
  deadline_counter (statistics_ t') = deadline_counter (statistics_ t) /\
  total_execution_time (statistics_ t') = total_execution_time (statistics_ t) /\
  average_execution_time (statistics_ t') = average_execution_time (statistics_ t).
Proof.
  intros (Hb & Hd & He & Hm). unfold recordDeadlineMiss. intros Hu.
  apply updatePriority_formula in Hu.
  - rewrite Hu. unfold tracks_misses. simpl. done.
  - pose proof (wrap64_range (deadline_misses (statistics_ t) + 1)).
    unfold task_wf. simpl. lia.
Qed.

Lemma task_call_tracks (c : TaskCall) (t t' : Task) :
  task_wf t -> tracks_misses t -> task_call c t = Some t' -> tracks_misses t'.
Proof.
  intros Hwf Ht. unfold tracks_misses in *.
  destruct c; simpl; try (intros [= <-]); try done.
  - destruct o; simpl; [done|]. by destruct (negb (recoverable_ t)).
  - unfold suspend. by destruct (decide _).
  - unfold resume. by destruct (decide _).
  - intros Hr. by apply (recordDeadlineMiss_tracks t t' Hwf) in Hr as [Hr _].
  - intros Hu. rewrite (updatePriority_formula t t' Hwf Hu). done.
  - unfold updateDeadlineCounter. destruct (0 <? deadline_ t); [|by intros [= <-]].
    destruct (_ <? _); [|by intros [= <-]].
    destruct (recordDeadlineMiss _) as [t2|] eqn:Hr; [|done]. simpl. intros [= <-].
    apply recordDeadlineMiss_tracks in Hr as [Hr _]; [exact Hr|].
    destruct Hwf as (Hb & Hd & He & Hm). unfold task_wf. simpl. lia.
Qed.

Lemma task_calls_tracks (cs : list TaskCall) : forall t t',
  task_wf t -> tracks_misses t -> task_calls cs t = Some t' -> tracks_misses t'.
Proof.
  induction cs as [|c cs IH]; simpl; intros t t' Hwf Ht.
  - by intros [= <-].
  - destruct (task_call c t) as [t1|] eqn:Hc; [|done]. simpl.
    apply IH; [by eapply task_call_wf|by eapply task_call_tracks].
Qed.

Lemma task_call_misses_step (c : TaskCall) (t t' : Task) :
  task_wf t -> is_reset_call c = false -> task_call c t = Some t' ->
  deadline_misses (statistics_ t') = deadline_misses (statistics_ t) \/
  deadline_misses (statistics_ t') = wrap64 (deadline_misses (statistics_ t) + 1).
Proof.
  intros Hwf Hc. destruct c; try done; simpl; try (intros [= <-]); try (by left).
  - left. destruct o; simpl; [done|]. by destruct (negb (recoverable_ t)).
  - left. unfold suspend. by destruct (decide _).
  - left. unfold resume. by destruct (decide _).
  - intros Hr. right. by apply (recordDeadlineMiss_tracks t t' Hwf) in Hr as (_ & Hr & _).
  - intros Hu. left. by apply updatePriority_statistics in Hu as [-> _].
  - unfold updateDeadlineCounter. destruct (0 <? deadline_ t); [|intros [= <-]; by left].
    destruct (_ <? _); [|intros [= <-]; by left].
    destruct (recordDeadlineMiss _) as [t2|] eqn:Hr; [|done]. simpl. intros [= <-].
    right. apply recordDeadlineMiss_tracks in Hr as (_ & Hr & _); [exact Hr|].
    destruct Hwf as (Hb & Hd & He & Hm). unfold task_wf. simpl. lia.
Qed.

Lemma task_calls_misses_mono (cs : list TaskCall) : forall t t',
  task_wf t ->
  forallb (fun c => negb (is_reset_call c)) cs = true ->
  deadline_misses (statistics_ t) + Z.of_nat (length cs) < 2 ^ 64 ->
  task_calls cs t = Some t' ->
  deadline_misses (statistics_ t) <= deadline_misses (statistics_ t')
  <= deadline_misses (statistics_ t) + Z.of_nat (length cs).
Proof.
  induction cs as [|c cs IH]; intros t t' Hwf Hcs Hlt; simpl.
  - intros [= <-]. simpl. lia.
  - simpl in Hcs. apply andb_true_iff in Hcs as [Hc Hcs]. apply negb_true_iff in Hc.
    destruct (task_call c t) as [t1|] eqn:Hc1; [|done]. simpl. intros Hr.
    pose proof (task_call_wf c t t1 Hwf Hc1) as Hwf1.
    assert (H1 : deadline_misses (statistics_ t) <= deadline_misses (statistics_ t1)
                 <= deadline_misses (statistics_ t) + 1).
    { pose proof (task_call_misses_step c t t1 Hwf Hc Hc1) as Hstep.
      destruct Hwf as (_ & _ & _ & Hm). simpl length in Hlt.
      destruct Hstep as [->| ->]; [lia|]. rewrite wrap64_small; lia. }
    simpl length in Hlt.
    specialize (IH t1 t' Hwf1 Hcs ltac:(lia) Hr). simpl length. lia.
Qed.

(** *** When the priority update is defined *)

Lemma recordDeadlineMiss_defined (t : Task) :
  task_wf t ->
  base_priority_ t * (deadline_misses (statistics_ t) + 1) <= 42949650000 ->
  is_Some (recordDeadlineMiss t).
Proof.
  intros (Hb & Hd & He & Hm) Hsmall. unfold recordDeadlineMiss.
  pose proof (wrap64_range (deadline_misses (statistics_ t) + 1)) as Hr.
  assert (Hle : wrap64 (deadline_misses (statistics_ t) + 1)
                <= deadline_misses (statistics_ t) + 1).
  { unfold wrap64. apply Z.mod_le; lia. }
  apply updatePriority_defined.
  - unfold task_wf. simpl. lia.
  - simpl. nia.
Qed.

Lemma task_call_defined (c : TaskCall) (t : Task) :
  task_wf t ->
  base_priority_ t * (deadline_misses (statistics_ t) + 1) <= 42949650000 ->
  is_Some (task_call c t).
Proof.
  intros Hwf Hsmall. destruct c; simpl; try done.
  - by apply recordDeadlineMiss_defined.
  - apply updatePriority_defined; [done|].
    destruct Hwf as (Hb & _ & _ & Hm). nia.
  - unfold updateDeadlineCounter. destruct (0 <? deadline_ t); [|done].
    destruct (_ <? _); [|done].
    destruct (recordDeadlineMiss_defined
                (set_deadline_counter (deadline_counter (statistics_ t) + elapsed) t))
      as [t2 Ht2]; [exact Hwf|exact Hsmall|].
    rewrite Ht2. done.
Qed.

Lemma task_call_misses_le (c : TaskCall) (t t' : Task) :
  task_wf t -> task_call c t = Some t' ->
  deadline_misses (statistics_ t') <= deadline_misses (statistics_ t) + 1.
Proof.
  intros Hwf Hc. destruct (is_reset_call c) eqn:Hr.
  - destruct c; try done. simpl in Hc. injection Hc as <-. simpl.
    destruct Hwf as (_ & _ & _ & Hm). lia.
  - destruct (task_call_misses_step c t t' Hwf Hr Hc) as [->| ->]; [lia|].
    unfold wrap64. apply Z.mod_le; [|lia].
    destruct Hwf as (_ & _ & _ & Hm). lia.
Qed.

(** A sequence of calls is defined as long as the count of misses stays
    within 433 834 848: the largest count at which the conversion in
    [updatePriority] is defined for every base priority up to 99. *)
Lemma task_calls_defined (cs : list TaskCall) : forall t,
  task_wf t ->
  deadline_misses (statistics_ t) + Z.of_nat (length cs) <= 433834848 ->
  is_Some (task_calls cs t).
Proof.
  induction cs as [|c cs IH]; intros t Hwf Hlen; simpl; [done|].
  rewrite length_cons, Nat2Z.inj_succ in Hlen.
  destruct (task_call_defined c t Hwf) as [t1 Hc].
  { destruct Hwf as (Hb & _ & _ & Hm). nia. }
  rewrite Hc. simpl.
  pose proof (task_call_misses_le c t t1 Hwf Hc).
  apply IH; [by eapply task_call_wf|lia].
Qed.

(** X1.  Whatever methods are called on a task after its construction, as
    long as each call is defined its dynamic priority is the value of the
    formula [min(99, b + floor(b * N / 20))] ([b] when [N = 0]) at its base
    priority [b] and its current count [N] of deadline misses: no method
    leaves the two out of step.  Every call is defined in a sequence of at
    most 433 834 848 calls (a call records at most one miss, and up to that
    count of misses the conversion to [int] in [updatePriority] is defined);
    beyond, the conversion can be out of range and the priority is then
    anything. *)
Theorem dynamic_priority_tracks_misses
    name priority policy period deadline stack_size recoverable
    (cs : list TaskCall) :
  let t0 := TaskBase name priority policy period deadline stack_size recoverable in
  (forall t, task_calls cs t0 = Some t ->
             dynamic_priority_ t
             = spec_priority (min_u8 priority 99) (deadline_misses (statistics_ t))) /\
  (Z.of_nat (length cs) <= 433834848 -> is_Some (task_calls cs t0)).
Proof.
  cbv zeta. split.
  - intros t Hcs.
    pose proof (task_calls_tracks cs _ t (TaskBase_wf _ _ _ _ _ _ _) eq_refl Hcs) as Ht.
    apply task_calls_constants in Hcs as (_ & _ & Hb & _).
    unfold tracks_misses in Ht. by rewrite Ht, Hb.
  - intros Hlen. apply task_calls_defined; [apply TaskBase_wf|]. simpl. lia.
Qed.

Lemma dynamic_priority_tracks_misses_witness :
  exists t,
    task_calls [CRecordDeadlineMiss; CExecuteBegin 7; CRecordDeadlineMiss;
                CExecuteEnd Throws; CUpdateDeadlineCounter 500; CSuspend]
               (TaskBase "E" 200 PREEMPTIVE 100 0 4096 true) = Some t /\
    deadline_misses (statistics_ t) = 3 /\ dynamic_priority_ t = 99.
Proof.
  set (cs := [CRecordDeadlineMiss; _; _; _; _; _]).
  destruct (dynamic_priority_tracks_misses "E" 200 PREEMPTIVE 100 0 4096 true cs)
    as [Htracks Hdef].
  destruct Hdef as [t Hcs]; [simpl; lia|].
  exists t. split; [exact Hcs|].
  pose proof (Htracks t Hcs) as Hd.
  assert (Hm : deadline_misses (statistics_ t) = 3)
    by (vm_compute in Hcs; by injection Hcs as <-).
  split; [exact Hm|]. rewrite Hd, Hm. reflexivity.
Defined.

Lemma task_calls_misses_le (cs : list TaskCall) : forall t t',
  task_wf t -> task_calls cs t = Some t' ->
  deadline_misses (statistics_ t')
  <= deadline_misses (statistics_ t) + Z.of_nat (length cs).
Proof.
  induction cs as [|c cs IH]; intros t t' Hwf; simpl.
  - intros [= <-]. lia.
  - destruct (task_call c t) as [t1|] eqn:Hc; [|done]. simpl. intros Hr.
    pose proof (task_call_misses_le c t t1 Hwf Hc).
    pose proof (IH t1 t' (task_call_wf c t t1 Hwf Hc) Hr). lia.
Qed.

Lemma task_calls_app (cs cs' : list TaskCall) : forall t t',
  task_calls (cs ++ cs') t = Some t' ->
  exists t1, task_calls cs t = Some t1 /\ task_calls cs' t1 = Some t'.
Proof.
  induction cs as [|c cs IH]; intros t t'; simpl.
  - intros H. by exists t.
  - destruct (task_call c t) as [t1|]; [|done]. simpl. apply IH.
Qed.

(** X2.  In a sequence of at most 433 834 848 calls of task methods on a
    newly constructed task, every call is defined, and over any part of it
    that does not call [resetStatistics] neither the count of deadline misses
    nor the dynamic priority of the task goes down: a later state of the
    task has at least the priority of an earlier one.  (Beyond that many
    misses the priority update can be undefined, and the priority anything.) *)
Theorem dynamic_priority_monotone
    name priority policy period deadline stack_size recoverable
    (cs cs' : list TaskCall) :
  Z.of_nat (length cs) + Z.of_nat (length cs') <= 433834848 ->
  forallb (fun c => negb (is_reset_call c)) cs' = true ->
  exists t t',
    task_calls cs (TaskBase name priority policy period deadline stack_size
                            recoverable) = Some t /\
    task_calls cs' t = Some t' /\
    deadline_misses (statistics_ t) <= deadline_misses (statistics_ t') /\
    dynamic_priority_ t <= dynamic_priority_ t'.
Proof.
  intros Hlen Hnr.
  pose proof (TaskBase_wf name priority policy period deadline stack_size
                recoverable) as Hwf0.
  destruct (task_calls_defined (cs ++ cs') _ Hwf0) as [t' Hall].
  { rewrite length_app, Nat2Z.inj_add. simpl. lia. }
  destruct (task_calls_app cs cs' _ t' Hall) as (t & Hcs & Hcs').
  exists t, t'. split; [exact Hcs|]. split; [exact Hcs'|].
  pose proof (task_calls_wf cs _ t Hwf0 Hcs) as Hwf.
  pose proof (task_calls_tracks cs _ t Hwf0 eq_refl Hcs) as Ht.
  pose proof (task_calls_wf cs' t t' Hwf Hcs') as Hwf'.
  pose proof (task_calls_tracks cs' t t' Hwf Ht Hcs') as Ht'.
  pose proof (task_calls_misses_le cs _ t Hwf0 Hcs) as Hm0. simpl in Hm0.
  pose proof (task_calls_misses_mono cs' t t' Hwf Hnr ltac:(lia) Hcs') as Hm.
  pose proof (task_calls_constants cs' t t' Hcs') as (_ & _ & Hb & _).
  split; [lia|]. unfold tracks_misses in *. rewrite Ht, Ht', Hb.
  destruct Hwf as (Hbr & _ & _ & Hmr). apply spec_priority_mono; lia.
Qed.

Lemma dynamic_priority_monotone_witness :
  exists t t',
    task_calls [CRecordDeadlineMiss; CRecordDeadlineMiss]
               (TaskBase "E" 50 PREEMPTIVE 100 0 4096 false) = Some t /\
    task_calls [CExecuteBegin 3; CUpdateDeadlineCounter 101; CExecuteEnd Returns] t
    = Some t' /\
    dynamic_priority_ t = 55 /\ 55 <= dynamic_priority_ t'.
Proof.
  destruct (dynamic_priority_monotone "E" 50 PREEMPTIVE 100 0 4096 false
              [CRecordDeadlineMiss; CRecordDeadlineMiss]
              [CExecuteBegin 3; CUpdateDeadlineCounter 101; CExecuteEnd Returns])
    as (t & t' & H1 & H2 & _ & Hle); [simpl; lia|reflexivity|].
  exists t, t'. split; [exact H1|]. split; [exact H2|].
  assert (Hd : dynamic_priority_ t = 55)
    by (vm_compute in H1; by injection H1 as <-).
  split; [exact Hd|]. by rewrite <- Hd.
Defined.

(** X3.  For a task with a positive deadline, [updateDeadlineCounter] adds
    the elapsed time to the counter; when the sum exceeds the deadline it
    records one miss (one, however many deadlines the sum spans) and clears
    the counter, and otherwise keeps the sum.  Either way the counter it
    leaves is at most the deadline, and the state, the execution count and
    the time of the last execution are untouched. *)
Theorem updateDeadlineCounter_spec (elapsed : Z) (t t' : Task) :
  task_wf t -> 0 < deadline_ t ->
  updateDeadlineCounter elapsed t = Some t' ->
  let c := deadline_counter (statistics_ t) + elapsed in
  deadline_counter (statistics_ t') = (if deadline_ t <? c then 0 else c) /\
  deadline_counter (statistics_ t') <= deadline_ t /\
  deadline_misses (statistics_ t')
  = (if deadline_ t <? c then wrap64 (deadline_misses (statistics_ t) + 1)
     else deadline_misses (statistics_ t)) /\
  state_ t' = state_ t /\
  execution_count (statistics_ t') = execution_count (statistics_ t) /\
  last_execution (statistics_ t') = last_execution (statistics_ t) /\
  deadline_ t' = deadline_ t.
Proof.
  intros Hwf Hd. cbv zeta. unfold updateDeadlineCounter.
  destruct (Z.ltb_spec 0 (deadline_ t)) as [_|]; [|lia]. simpl.
  destruct (Z.ltb_spec (deadline_ t)
              (deadline_counter (statistics_ t) + elapsed)) as [Hex|Hin].
  - destruct (recordDeadlineMiss _) as [t2|] eqn:Hr; [|done]. simpl. intros [= <-].
    pose proof (recordDeadlineMiss_constants _ _ Hr) as (_ & _ & _ & _ & Hdl & _).
    apply recordDeadlineMiss_tracks in Hr
        as (_ & Hm & _ & Hst & Hec & Hle & _).
    + simpl in *. repeat split; try done; lia.
    + destruct Hwf as (Hb & Hdy & He & Hm). unfold task_wf. simpl. lia.
  - intros [= <-]. simpl. repeat split; try done; lia.
Qed.

(** A task with deadline 100 whose counter stands at 90: 30 ms more is one
    miss and a cleared counter, and so is 3000 ms more. *)
Lemma updateDeadlineCounter_spec_witness :
  let t := set_deadline_counter 90 (TaskBase "D" 40 PREEMPTIVE 50 100 4096 false) in
  exists t1 t2,
    updateDeadlineCounter 30 t = Some t1 /\
    updateDeadlineCounter 3000 t = Some t2 /\
    deadline_counter (statistics_ t1) = 0 /\
    deadline_misses (statistics_ t1) = 1 /\
    deadline_counter (statistics_ t2) = 0 /\
    deadline_misses (statistics_ t2) = 1.
Proof.
  cbv zeta. set (t := set_deadline_counter _ _).
  assert (Hwf : task_wf t) by (vm_compute; repeat split; discriminate).
  assert (Hd : 0 < deadline_ t) by reflexivity.
  destruct (updateDeadlineCounter 30 t) as [t1|] eqn:H1; [|by vm_compute in H1].
  destruct (updateDeadlineCounter 3000 t) as [t2|] eqn:H2; [|by vm_compute in H2].
  destruct (updateDeadlineCounter_spec 30 t t1 Hwf Hd H1) as (Hc1 & _ & Hm1 & _).
  destruct (updateDeadlineCounter_spec 3000 t t2 Hwf Hd H2) as (Hc2 & _ & Hm2 & _).
  exists t1, t2. split; [reflexivity|]. split; [reflexivity|].
  split; [exact Hc1|]. split; [exact Hm1|]. split; [exact Hc2|exact Hm2].
Defined.

(** X4.  For a task whose deadline is not negative, [isDeadlineApproaching]
    holds exactly when the deadline is positive and the counter has passed
    four fifths of it, that is when [4 * deadline < 5 * counter]; the integer
    division of the source loses nothing. *)
Theorem isDeadlineApproaching_iff (t : Task) :
  0 <= deadline_ t ->
  (isDeadlineApproaching t = true <->
   0 < deadline_ t /\ 4 * deadline_ t < 5 * deadline_counter (statistics_ t)).
Proof.
  intros Hd. unfold isDeadlineApproaching.
  destruct (Z.eqb_spec (deadline_ t) 0) as [H0|H0].
  - split; [done|lia].
  - rewrite Z.quot_div_nonneg by lia.
    pose proof (Z.div_mod (deadline_ t * 4) 5 ltac:(lia)) as Hq.
    pose proof (Z.mod_pos_bound (deadline_ t * 4) 5 ltac:(lia)) as Hr.
    rewrite Z.ltb_lt. lia.
Qed.

Lemma isDeadlineApproaching_iff_witness :
  isDeadlineApproaching
    (set_deadline_counter 81 (TaskBase "D" 40 PREEMPTIVE 0 100 4096 false)) = true /\
  isDeadlineApproaching
    (set_deadline_counter 80 (TaskBase "D" 40 PREEMPTIVE 0 100 4096 false)) = false.
Proof.
  split.
  - apply isDeadlineApproaching_iff; simpl; lia.
  - apply not_true_is_false. intros H.
    apply isDeadlineApproaching_iff in H; simpl in *; lia.
Defined.

(** X5.  [updateStatistics] adds the execution time to the total.  For a task
    that has been executed (count > 0) and a total that is not negative, the
    average it stores is the integer quotient of the new total by the count:
    [average * count <= total < (average + 1) * count].  For a task that has
    never been executed the average is left as it is.  Nothing else of the
    task changes. *)
Theorem updateStatistics_average (execution_time : Z) (t : Task) :
  let t' := updateStatistics execution_time t in
  let n := execution_count (statistics_ t) in
  total_execution_time (statistics_ t')
  = total_execution_time (statistics_ t) + execution_time /\
  (0 < n -> 0 <= total_execution_time (statistics_ t') < 2 ^ 63 ->
   average_execution_time (statistics_ t')
   = total_execution_time (statistics_ t') / n /\
   average_execution_time (statistics_ t') * n
   <= total_execution_time (statistics_ t')
   < (average_execution_time (statistics_ t') + 1) * n) /\
  (n <= 0 ->
   average_execution_time (statistics_ t') = average_execution_time (statistics_ t)) /\
  execution_count (statistics_ t') = n /\
  deadline_misses (statistics_ t') = deadline_misses (statistics_ t) /\
  last_execution (statistics_ t') = last_execution (statistics_ t) /\
  deadline_counter (statistics_ t') = deadline_counter (statistics_ t) /\
  state_ t' = state_ t /\ dynamic_priority_ t' = dynamic_priority_ t /\
  same_constants t t'.
Proof.
  cbv zeta. unfold updateStatistics. simpl.
  split; [done|]. split; [|split].
  - intros Hn Ht. destruct (Z.ltb_spec 0 (execution_count (statistics_ t))); [|lia].
    set (total := total_execution_time (statistics_ t) + execution_time) in *.
    set (n := execution_count (statistics_ t)) in *.
    assert (Hw : wrap64 total = total) by (apply wrap64_small; lia).
    assert (Hq : 0 <= total / n <= total).
    { split; [apply Z.div_pos; lia|]. apply Z.div_le_upper_bound; nia. }
    assert (Hi : to_i64 (wrap64 total / n) = total / n).
    { unfold to_i64. rewrite Hw, wrap64_small by lia.
      destruct (Z.ltb_spec (total / n) (2 ^ 63)); lia. }
    rewrite Hi. split; [done|].
    pose proof (Z.div_mod total n ltac:(lia)).
    pose proof (Z.mod_pos_bound total n ltac:(lia)). nia.
  - intros Hn. by destruct (Z.ltb_spec 0 (execution_count (statistics_ t))); [lia|].
  - repeat split; done.
Qed.

(** Three executions and 10 us in all: 11 us more give an average of 7 us. *)
Lemma updateStatistics_average_witness :
  let t := with_statistics (mkStats 3 0 5 10 3 0)
             (TaskBase "S" 40 PREEMPTIVE 0 0 4096 false) in
  average_execution_time (statistics_ (updateStatistics 11 t)) = 7 /\
  7 * 3 <= total_execution_time (statistics_ (updateStatistics 11 t)) < 8 * 3.
Proof.
  cbv zeta. set (t := with_statistics _ _).
  destruct (updateStatistics_average 11 t) as (_ & Havg & _).
  destruct Havg as [Ha Hb]; [simpl; lia|simpl; lia|].
  split; [rewrite Ha; reflexivity|]. simpl. lia.
Defined.

(** X6.  [resetStatistics] puts a task back to what its constructor built,
    but for the state and the time of the last execution, which it keeps:
    the counts, the times, the deadline counter and the dynamic priority are
    those of a new task.  Resetting twice is resetting once, and after a
    reset [updatePriority] changes nothing. *)
Theorem resetStatistics_restores
    name priority policy period deadline stack_size recoverable
    (cs : list TaskCall) (t : Task) :
  task_calls cs (TaskBase name priority policy period deadline stack_size recoverable)
  = Some t ->
  resetStatistics t
  = with_statistics (mkStats 0 0 (last_execution (statistics_ t)) 0 0 0)
      (with_state (state_ t)
         (TaskBase name priority policy period deadline stack_size recoverable)) /\
  resetStatistics (resetStatistics t) = resetStatistics t /\
  updatePriority (resetStatistics t) = Some (resetStatistics t).
Proof.
  intros Hcs.
  apply task_calls_constants in Hcs as (Hn & Hp & Hb & Hpe & Hd & Hs & Hr).
  destruct t as [n s p b d pe dl st ss r]. simpl in *. subst.
  split; [reflexivity|]. split; reflexivity.
Qed.

Lemma resetStatistics_restores_witness :
  exists t,
    task_calls [CExecuteBegin 9; CRecordDeadlineMiss; CUpdateStatistics 40; CSuspend]
               (TaskBase "R" 60 COOPERATIVE 10 20 4096 true) = Some t /\
    dynamic_priority_ t = 63 /\
    resetStatistics t
    = with_statistics (mkStats 0 0 9 0 0 0)
        (with_state SUSPENDED (TaskBase "R" 60 COOPERATIVE 10 20 4096 true)).
Proof.
  destruct (task_calls _ _) as [t|] eqn:Hcs; [|by vm_compute in Hcs].
  exists t. split; [reflexivity|].
  destruct (resetStatistics_restores _ _ _ _ _ _ _ _ _ Hcs) as (Hr & _).
  vm_compute in Hcs. injection Hcs as <-. split; [reflexivity|exact Hr].
Defined.

(** ** Looking tasks up by name in the scheduler *)

Lemma find_by_name_Some (h : Store) (name : string) (ps : list TaskPtr) :
  forall i j p,
    find_by_name h name i ps = Some (j, p) ->
    exists l1 l2,
      ps = l1 ++ p :: l2 /\ j = (i + length l1)%nat /\
      name_of h p = name /\ name_absent h name l1.
Proof.
  induction ps as [|q ps IH]; simpl; intros i j p; [done|].
  destruct (String.eqb_spec (name_ (deref h q)) name) as [Heq|Hne].
  - intros [= <- <-]. exists [], ps. simpl.
    split; [done|]. split; [lia|]. split; [done|].
    intros x Hx. by apply elem_of_nil in Hx.
  - intros Hf. destruct (IH _ _ _ Hf) as (l1 & l2 & -> & -> & Hn & Hab).
    exists (q :: l1), l2. simpl.
    split; [done|]. split; [lia|]. split; [done|].
    intros x Hx. apply elem_of_cons in Hx as [->|Hx]; [done|by apply Hab].
Qed.

Lemma find_by_name_None (h : Store) (name : string) (ps : list TaskPtr) :
  forall i, find_by_name h name i ps = None <-> name_absent h name ps.
Proof.
  induction ps as [|q ps IH]; simpl; intros i.
  - split; [|done]. intros _ x Hx. by apply elem_of_nil in Hx.
  - destruct (String.eqb_spec (name_ (deref h q)) name) as [Heq|Hne].
    + split; [done|]. intros Hab. exfalso. apply (Hab q); [left|done].
    + rewrite IH. split.
      * intros Hab x Hx. apply elem_of_cons in Hx as [->|Hx]; [done|by apply Hab].
      * intros Hab x Hx. apply Hab. by right.
Qed.

Lemma find_by_name_app (h : Store) (name : string) (ps qs : list TaskPtr) :
  forall i,
    find_by_name h name i (ps ++ qs)
    = match find_by_name h name i ps with
      | Some r => Some r
      | None => find_by_name h name (i + length ps) qs
      end.
Proof.
  induction ps as [|q ps IH]; simpl; intros i.
  - by rewrite Nat.add_0_r.
  - destruct (String.eqb _ _); [done|]. rewrite IH.
    by replace (S i + length ps)%nat with (i + S (length ps))%nat by lia.
Qed.

Lemma find_by_name_ext (h h' : Store) (name : string) (ps : list TaskPtr) :
  (forall q, q ∈ ps -> name_of h' q = name_of h q) ->
  forall i, find_by_name h' name i ps = find_by_name h name i ps.
Proof.
  induction ps as [|q ps IH]; simpl; intros Hn i; [done|].
  assert (Hq : name_ (deref h' q) = name_ (deref h q)) by (apply Hn; left).
  rewrite Hq. destruct (String.eqb _ _); [done|].
  apply IH. intros x Hx. apply Hn. by right.
Qed.

(** X7.  [findTask] returns the first task of the scheduler's list that has
    the name, and the null pointer exactly when no task of the list has it:
    with two tasks of one name in the list, the later one cannot be found. *)
Theorem findTask_spec (name : string) (w : World) :
  match findTask name w with
  | Some p =>
      exists l1 l2,
        all_tasks_ (scheduler_ w) = l1 ++ p :: l2 /\
        name_of (store w) p = name /\
        name_absent (store w) name l1
  | None => name_absent (store w) name (all_tasks_ (scheduler_ w))
  end.
Proof.
  unfold findTask.
  destruct (find_by_name _ _ _ _) as [[j p]|] eqn:Hf; simpl.
  - destruct (find_by_name_Some _ _ _ _ _ _ Hf) as (l1 & l2 & H1 & _ & H2 & H3).
    by exists l1, l2.
  - by apply find_by_name_None in Hf.
Qed.

Lemma addTask_frame (task : TaskPtr) (w : World) :
  store (addTask task w) = store w /\
  tasks_ (addTask task w) = tasks_ w /\
  dispatcher (addTask task w) = dispatcher w /\
  all_tasks_ (scheduler_ (addTask task w)) = all_tasks_ (scheduler_ w) ++ [task] /\
  current_task_ (scheduler_ (addTask task w)) = current_task_ (scheduler_ w).
Proof. done. Qed.

Lemma get_beyond (s : string) : forall n,
  (String.length s <= n)%nat -> String.get n s = None.
Proof.
  induction s as [|c s IH]; simpl; intros n Hn; [done|].
  destruct n as [|n]; [lia|]. apply IH. lia.
Qed.

(** X8.  [addTask] puts the task at the end of the scheduler's list and
    touches no task object.  Lookups by name that succeeded before still
    return the same task; the new task is found under its name only if no
    task of the list had that name.  The task enters the ready queue exactly
    when it is READY, and a queue that was ordered stays ordered.  The symbol
    of the task is the letter at the position the task takes in the list,
    '#' from the 27th position on: it depends on the length of the list at
    that moment, so after a removal two tasks can have the same letter. *)
Theorem addTask_spec (task : TaskPtr) (w : World) :
  let w' := addTask task w in
  all_tasks_ (scheduler_ w') = all_tasks_ (scheduler_ w) ++ [task] /\
  store w' = store w /\
  (forall name,
     findTask name w'
     = match findTask name w with
       | Some p => Some p
       | None => if String.eqb (name_of (store w) task) name
                 then Some task else None
       end) /\
  (forall p, p ∈ ready_queue_ (scheduler_ w') <->
             (p = task /\ state_ (deref (store w) task) = READY)
             \/ p ∈ ready_queue_ (scheduler_ w)) /\
  (pq_ordered (store w) (ready_queue_ (scheduler_ w)) = true ->
   pq_ordered (store w') (ready_queue_ (scheduler_ w')) = true) /\
  task_symbols_ (scheduler_ w') !! task
  = Some (default "#"%char
            (String.get (length (all_tasks_ (scheduler_ w))) symbols)).
Proof.
  cbv zeta. split; [done|]. split; [done|]. split; [|split; [|split]].
  - intros name. unfold findTask. simpl. rewrite find_by_name_app.
    destruct (find_by_name _ _ _ (all_tasks_ _)) as [[j p]|]; [done|]. simpl.
    unfold name_of. by destruct (String.eqb _ _).
  - intros p. simpl. destruct (is_ready (store w) task) eqn:Hr.
    + rewrite elem_of_pq_push. apply is_ready_spec in Hr. split.
      * intros [->|Hp]; [by left|by right].
      * intros [[-> _]|Hp]; [by left|by right].
    + split; [by right|]. intros [[_ Hs]|Hp]; [|done].
      apply is_ready_spec in Hs. congruence.
  - intros Hord. simpl. destruct (is_ready (store w) task); [|done].
    by apply pq_push_ordered.
  - cbn -[symbols String.length String.get]. rewrite lookup_insert_eq.
    rewrite length_app. simpl length.
    replace (length (all_tasks_ (scheduler_ w)) + 1 - 1)%nat
      with (length (all_tasks_ (scheduler_ w))) by lia.
    destruct (Nat.leb_spec (length (all_tasks_ (scheduler_ w)) + 1)
                (String.length symbols)) as [Hle|Hgt]; [done|].
    rewrite get_beyond by lia. done.
Qed.

Lemma Scheduler_removeTask_absent (name : string) (w : World) :
  findTask name w = None -> Scheduler_removeTask name w = w.
Proof.
  unfold findTask, Scheduler_removeTask.
  by destruct (find_by_name _ _ _ _) as [[j p]|].
Qed.

Lemma delete_middle_length {A : Type} (l1 l2 : list A) (x : A) :
  delete (length l1) (l1 ++ x :: l2) = l1 ++ l2.
Proof. induction l1 as [|y l1 IH]; simpl; [done|]. by rewrite IH. Qed.

Lemma deref_call (f : Task -> Task) (h : Store) (p q : TaskPtr) :
  deref (call f p h) q
  = if decide (q = p) then
      match h !! p with Some t => f t | None => no_task end
    else deref h q.
Proof.
  unfold call, deref. destruct (decide (q = p)) as [->|Hne].
  - destruct (h !! p) as [t|] eqn:Hp.
    + rewrite list_lookup_insert_eq by (by eapply lookup_lt_Some). done.
    + rewrite list_insert_ge by (by apply lookup_ge_None). by rewrite Hp.
  - by rewrite list_lookup_insert_ne.
Qed.

(** X9.  [Scheduler::removeTask] changes nothing when no task of the list
    has the name.  Otherwise it terminates the first task of that name and
    takes that one entry out of the list, with its symbol; later tasks of the
    same name stay.  The ready queue and the current task are left as they
    are, so the pointer can still be in the queue; but it is TERMINATED, and
    [selectNextTask], called in the state that the removal leaves, does not
    return it.  If moreover the task is not recoverable and the dispatcher is
    not between choosing it and the end of its handler, it stays TERMINATED
    and is not selected in any state that follows, over every sequence of
    operations that does not call [execute], [setState] or
    [resetStatistics] on the task object itself. *)
Theorem Scheduler_removeTask_spec (name : string) (w : World) :
  let w' := Scheduler_removeTask name w in
  match findTask name w with
  | None => w' = w
  | Some p =>
      (exists l1 l2,
         all_tasks_ (scheduler_ w) = l1 ++ p :: l2 /\
         name_absent (store w) name l1 /\
         all_tasks_ (scheduler_ w') = l1 ++ l2) /\
      store w' = call terminate p (store w) /\
      state_ (deref (store w') p) = TERMINATED /\
      (forall q, q <> p -> deref (store w') q = deref (store w) q) /\
      ready_queue_ (scheduler_ w') = ready_queue_ (scheduler_ w) /\
      current_task_ (scheduler_ w') = current_task_ (scheduler_ w) /\
      task_symbols_ (scheduler_ w') = delete p (task_symbols_ (scheduler_ w)) /\
      tasks_ w' = tasks_ w /\
      (forall fuel r w'', selectNextTask fuel w' = Some (r, w'') -> r <> Some p) /\
      (is_Some (store w !! p) -> recoverable_ (deref (store w) p) = false ->
       not_executing p w ->
       forall es w2,
         forallb (fun e => negb (revives_directly p e)) es = true ->
         run es w' = Some w2 ->
         state_ (deref (store w2) p) = TERMINATED /\
         forall fuel r w3, selectNextTask fuel w2 = Some (r, w3) -> r <> Some p)
  end.
Proof.
  cbv zeta. destruct (findTask name w) as [p|] eqn:Hf.
  - unfold findTask in Hf. unfold Scheduler_removeTask.
    destruct (find_by_name _ _ _ _) as [[j p']|] eqn:Hfind; [|done].
    simpl in Hf. injection Hf as ->.
    destruct (find_by_name_Some _ _ _ _ _ _ Hfind) as (l1 & l2 & Hl & -> & Hn & Hab).
    assert (Hterm : state_ (deref (call terminate p (store w)) p) = TERMINATED).
    { rewrite deref_call. rewrite decide_True by done.
      by destruct (store w !! p). }
    simpl. split; [|split; [done|split; [done|split; [|split; [done|]]]]].
    + exists l1, l2. split; [done|]. split; [done|].
      rewrite Hl. apply delete_middle_length.
    + intros q Hq. rewrite deref_call. by rewrite decide_False.
    + split; [done|]. split; [done|]. split; [done|]. split.
      * intros fuel r w'' Hsel ->.
        apply selectNextTask_frame in Hsel as [_ Hr].
        specialize (Hr p eq_refl). apply is_ready_spec in Hr. simpl in Hr.
        congruence.
      * intros [t Hp] Hrec Hne es w2 Hes Hrun.
        set (w1 := with_store _ _) in Hrun.
        assert (Hp1 : store w1 !! p = Some (terminate t)).
        { unfold w1. simpl. unfold call. rewrite (deref_lookup _ _ _ Hp).
          apply list_lookup_insert_eq. by eapply lookup_lt_Some. }
        rewrite (deref_lookup _ _ _ Hp) in Hrec.
        destruct (run_stays_terminated p es w1 w2 (terminate t) Hes Hrun Hp1
                    eq_refl Hrec Hne) as (t' & Hp' & Hst' & _).
        rewrite (deref_lookup _ _ _ Hp'). split; [exact Hst'|].
        intros fuel r w3 Hsel ->.
        apply selectNextTask_frame in Hsel as [_ Hr].
        specialize (Hr p eq_refl). apply is_ready_spec in Hr.
        rewrite (deref_lookup _ _ _ Hp') in Hr. congruence.
  - by apply Scheduler_removeTask_absent.
Qed.

(** A, not recoverable, is removed from the scheduler while it waits in the
    ready queue: the dispatcher then passes over it, executes B, and A is
    still TERMINATED after the monitor and a reading of the display. *)
Lemma Scheduler_removeTask_spec_witness :
  exists w w2,
    run [KCreateTask "A" 80 PREEMPTIVE 0 0 false;
         KCreateTask "B" 40 PREEMPTIVE 0 0 false;
         KStart 1000000] (Kernel_new 0) = Some w /\
    ready_queue_ (scheduler_ (Scheduler_removeTask "A" w)) = [0%nat; 1%nat] /\
    all_tasks_ (scheduler_ (Scheduler_removeTask "A" w)) = [1%nat] /\
    run [DispatcherBegin 2000000 2000000 2000000 2000000;
         DispatcherReturn Returns;
         DispatcherEnd 3000000 3000000 3000000;
         MonitorTick 3000000 13000000;
         TaskMethod 0%nat CResume] (Scheduler_removeTask "A" w) = Some w2 /\
    execution_count (statistics_ (deref (store w2) 1%nat)) = 1 /\
    state_ (deref (store w2) 0%nat) = TERMINATED.
Proof.
  set (es := _ :: _).
  destruct (run es (Kernel_new 0)) as [w|] eqn:Hrun; [|by vm_compute in Hrun].
  set (es2 := [DispatcherBegin _ _ _ _; _; _; _; _]).
  destruct (run es2 (Scheduler_removeTask "A" w)) as [w2|] eqn:H2;
    [|by vm_compute in Hrun; injection Hrun as <-; vm_compute in H2].
  assert (Hw : findTask "A" w = Some 0%nat /\
               is_Some (store w !! 0%nat) /\
               recoverable_ (deref (store w) 0%nat) = false /\
               not_executing 0%nat w /\
               ready_queue_ (scheduler_ (Scheduler_removeTask "A" w))
               = [0%nat; 1%nat] /\
               all_tasks_ (scheduler_ (Scheduler_removeTask "A" w)) = [1%nat]).
  { vm_compute in Hrun. injection Hrun as <-. split; [by vm_compute|].
    split; [by eexists|]. split; [by vm_compute|]. split; [by vm_compute|].
    split; by vm_compute. }
  destruct Hw as (Hf & Hin & Hrec & Hne & Hq & Hall).
  pose proof (Scheduler_removeTask_spec "A" w) as H. cbv zeta in H.
  rewrite Hf in H. destruct H as (_ & _ & _ & _ & _ & _ & _ & _ & _ & Hlater).
  destruct (Hlater Hin Hrec Hne es2 w2 eq_refl H2) as [Hst _].
  assert (Hc : execution_count (statistics_ (deref (store w2) 1%nat)) = 1).
  { vm_compute in Hrun. injection Hrun as <-. vm_compute in H2.
    by injection H2 as <-. }
  exists w, w2. split; [reflexivity|]. split; [exact Hq|]. split; [exact Hall|].
  split; [exact H2|]. split; [exact Hc|exact Hst].
Defined.

Lemma findTask_lookup (name : string) (w : World) :
  match findTask name w with
  | Some p => p ∈ all_tasks_ (scheduler_ w) /\ name_of (store w) p = name
  | None => name_absent (store w) name (all_tasks_ (scheduler_ w))
  end.
Proof.
  unfold findTask.
  destruct (find_by_name _ _ _ _) as [[j p]|] eqn:Hf; simpl.
  - destruct (find_by_name_Some _ _ _ _ _ _ Hf) as (l1 & l2 & H1 & _ & H2 & H3).
    split; [|done]. rewrite H1. apply elem_of_app. right. by left.
  - by apply find_by_name_None in Hf.
Qed.

(** ** The extent of the store *)

Lemma length_call (f : Task -> Task) (p : TaskPtr) (h : Store) :
  length (call f p h) = length h.
Proof. apply length_insert. Qed.

Lemma length_call_opt (f : Task -> option Task) (p : TaskPtr) (h h' : Store) :
  call_opt f p h = Some h' -> length h' = length h.
Proof.
  unfold call_opt. destruct (f _); [|done]. simpl. intros [= <-].
  apply length_insert.
Qed.

Lemma length_for_each (f : Task -> option Task) (ps : list TaskPtr) :
  forall h h', for_each f ps h = Some h' -> length h' = length h.
Proof.
  induction ps as [|p ps IH]; simpl; intros h h'; [by intros [= <-]|].
  destruct (call_opt f p h) as [h1|] eqn:Hc; [|done]. simpl. intros Hf.
  rewrite (IH _ _ Hf). by eapply length_call_opt.
Qed.

Lemma length_Scheduler_removeTask (name : string) (w : World) :
  length (store (Scheduler_removeTask name w)) = length (store w).
Proof.
  unfold Scheduler_removeTask. destruct (find_by_name _ _ _ _) as [[i task]|]; [|done].
  apply length_call.
Qed.

Lemma length_adjustPriorities (w w' : World) :
  adjustPriorities w = Some w' -> length (store w') = length (store w).
Proof.
  unfold adjustPriorities. destruct (for_each _ _ _) as [h|] eqn:Hf; [|done].
  simpl. intros [= <-]. simpl. by eapply length_for_each.
Qed.

Lemma length_checkDeadlines (now : Z) (w w' : World) :
  checkDeadlines now w = Some w' -> length (store w') = length (store w).
Proof.
  unfold checkDeadlines, on_store_opt.
  destruct (for_each _ _ _) as [h|] eqn:Hf; [|done].
  simpl. intros [= <-]. simpl. by eapply length_for_each.
Qed.

Lemma length_attemptTaskRecovery (task : TaskPtr) (w : World) :
  length (store (snd (attemptTaskRecovery task w))) = length (store w).
Proof.
  unfold attemptTaskRecovery. destruct (negb _); [done|].
  destruct (_ <=? _); [done|]. simpl. apply length_call.
Qed.

Lemma length_monitor_scan (elapsed : Z) (ps : list TaskPtr) : forall w w',
  monitor_scan elapsed ps w = Some w' -> length (store w') = length (store w).
Proof.
  induction ps as [|p ps IH]; simpl; intros w w'; [by intros [= <-]|].
  destruct (monitor_task elapsed p w) as [w1|] eqn:Hm; [|done]. simpl. intros Hs.
  rewrite (IH _ _ Hs). clear Hs IH. unfold monitor_task in Hm.
  destruct (_ || _).
  - unfold on_store_opt in Hm.
    destruct (call_opt _ _ _) as [h|] eqn:Hc; [|done]. simpl in Hm.
    injection Hm as <-. apply length_call_opt in Hc. by destruct (_ && _).
  - simpl in Hm. injection Hm as <-. by destruct (_ && _).
Qed.

Lemma length_schedulerLoop_select (t_check t_idle t_start : Z) (w w' : World) :
  schedulerLoop_select t_check t_idle t_start w = Some w' ->
  length (store w') = length (store w).
Proof.
  unfold schedulerLoop_select.
  destruct (dispatcher w); try (by intros [= <-]).
  destruct (negb _); [by intros [= <-]|].
  destruct (checkDeadlines t_check w) as [w1|] eqn:Hc; [|done].
  cbn -[selectNextTask select_fuel].
  apply length_checkDeadlines in Hc.
  destruct (selectNextTask (select_fuel w1) w1) as [[next w2]|] eqn:Hsel; [|done].
  cbn -[selectNextTask select_fuel].
  apply selectNextTask_frame in Hsel as [[q' ->] _].
  destruct next as [task|]; by intros [= <-].
Qed.

Lemma length_schedulerLoop_execute (t_exec : Z) (w : World) :
  length (store (schedulerLoop_execute t_exec w)) = length (store w).
Proof.
  unfold schedulerLoop_execute. destruct (dispatcher w); try done.
  destruct (current_task_ _); [|done]. simpl. by rewrite !length_call.
Qed.

Lemma length_schedulerLoop_begin (t_check t_idle t_start t_exec : Z) (w w' : World) :
  schedulerLoop_begin t_check t_idle t_start t_exec w = Some w' ->
  length (store w') = length (store w).
Proof.
  unfold schedulerLoop_begin.
  destruct (schedulerLoop_select _ _ _ w) as [w1|] eqn:Hsel; [|done]. simpl.
  intros [= <-]. rewrite length_schedulerLoop_execute.
  by eapply length_schedulerLoop_select.
Qed.

Lemma length_schedulerLoop_return (o : HandlerOutcome) (w : World) :
  length (store (schedulerLoop_return o w)) = length (store w).
Proof.
  unfold schedulerLoop_return. destruct (dispatcher w); try done.
  destruct (current_task_ _); [|done]. simpl. apply length_insert.
Qed.

Lemma length_schedulerLoop_account (t_end : Z) (w : World) :
  length (store (schedulerLoop_account t_end w)) = length (store w).
Proof.
  unfold schedulerLoop_account. destruct (dispatcher w); try done.
  destruct (current_task_ _) as [task|]; [|done]. simpl.
  destruct (_ && _).
  - rewrite length_attemptTaskRecovery. simpl. apply length_insert.
  - simpl. apply length_insert.
Qed.

Lemma schedulerLoop_reschedule_store (now t_static : Z) (w w' : World) :
  schedulerLoop_reschedule now t_static w = Some w' -> store w' = store w.
Proof.
  unfold schedulerLoop_reschedule.
  destruct (dispatcher w); try (by intros [= <-]).
  apply schedulerLoop_tail_store.
Qed.

Lemma length_schedulerLoop_end (t_end now t_static : Z) (w w' : World) :
  schedulerLoop_end t_end now t_static w = Some w' ->
  length (store w') = length (store w).
Proof.
  unfold schedulerLoop_end. intros H.
  apply schedulerLoop_reschedule_store in H. rewrite H.
  apply length_schedulerLoop_account.
Qed.

Lemma length_attemptTaskRecovery_overlapped (task : TaskPtr) (w : World) :
  length (store (attemptTaskRecovery_overlapped task w)) = length (store w).
Proof.
  unfold attemptTaskRecovery_overlapped. destruct (negb _); [done|].
  simpl. apply length_call.
Qed.

(** A step leaves the store as long as it was, or adds one READY task. *)
Lemma step_store_extent (e : Event) (w w' : World) :
  step e w = Some w' -> store_extent (store w) (store w').
Proof.
  unfold store_extent. destruct e; simpl; try done; try (intros [= <-]; by left).
  - intros [= <-]. unfold createTask. destruct (tasks_ w !! name); [by left|].
    right. simpl. by do 7 eexists.
  - intros [= <-]. left. unfold removeTask. destruct (tasks_ w !! name); [|done].
    simpl. apply length_Scheduler_removeTask.
  - intros [= <-]. left. unfold Scheduler_start. by destruct (is_running_ _).
  - intros [= <-]. left. apply length_Scheduler_removeTask.
  - intros H. left. by apply length_adjustPriorities.
  - intros [= <-]. left. apply length_attemptTaskRecovery.
  - intros H. left. by eapply length_schedulerLoop_begin.
  - intros [= <-]. left. apply length_schedulerLoop_return.
  - intros H. left. by eapply length_schedulerLoop_end.
  - unfold deadlineMonitor_tick. destruct (negb _); [intros [= <-]; by left|].
    intros H. left. by apply length_monitor_scan in H.
  - intros [= <-]. right. simpl. by do 7 eexists.
  - unfold on_store_opt. destruct (call_opt _ _ _) as [h|] eqn:Hc; [|done].
    simpl. intros [= <-]. left. by eapply length_call_opt.
  - intros H. left. by eapply length_schedulerLoop_select.
  - intros [= <-]. left. apply length_schedulerLoop_execute.
  - intros [= <-]. left. apply length_schedulerLoop_account.
  - intros H. left. by rewrite (schedulerLoop_reschedule_store _ _ _ _ H).
  - intros [= <-]. left. apply length_attemptTaskRecovery_overlapped.
Qed.

(** ** At most one task is RUNNING *)

Lemma not_made_running_closed : method_closed not_made_running.
Proof.
  unfold not_made_running. split.
  - done.
  - intros p a b c Hab Hbc Hc. auto.
  - intros p t. simpl. done.
  - intros p t. unfold suspend. by destruct (decide _).
  - intros p t. unfold resume. by destruct (decide _).
  - intros p t _. simpl. done.
  - intros p t t' Hu. apply updatePriority_statistics in Hu as [_ ->]. done.
  - intros p now t t' Hc. apply checkDeadlines_task_keeps in Hc as [-> _]. done.
  - intros p d t t' Hc. apply updateDeadlineCounter_keeps in Hc as [-> _]. done.
  - intros p d t. simpl. done.
Qed.

Lemma task_call_not_made_running (p : TaskPtr) (c : TaskCall) (t t' : Task) :
  sets_running (TaskMethod p c) = false ->
  task_call c t = Some t' -> not_made_running p t t'.
Proof.
  pose proof not_made_running_closed as HR.
  intros Hc. destruct c; try done; simpl; try (intros [= <-]).
  - unfold not_made_running. destruct o; simpl; [done|]. by destruct (negb _).
  - apply (mc_suspend _ HR).
  - apply (mc_resume _ HR).
  - apply (mc_terminate _ HR).
  - intros Hr. unfold not_made_running.
    apply recordDeadlineMiss_keeps in Hr as [-> _]. done.
  - apply (mc_updatePriority _ HR).
  - by unfold not_made_running.
  - apply (mc_updateDeadlineCounter _ HR).
  - unfold not_made_running. simpl. intros Hs. subst s. done.
  - apply (mc_updateStatistics _ HR).
Qed.

(** Over a step that keeps the dispatcher where it is, adds no RUNNING task
    and makes no task RUNNING, the invariant carries over. *)
Lemma running_is_current_frame (w w' : World) :
  running_is_current w ->
  control w' = control w ->
  store_rel not_made_running (store w) (store w') ->
  store_extent (store w) (store w') ->
  running_is_current w'.
Proof.
  intros HI Hctl Hrel Hext p t' Hp Hrun.
  unfold control in Hctl. injection Hctl as Hpc Hcur. rewrite Hpc, Hcur.
  destruct (store w !! p) as [t|] eqn:Hp0.
  - destruct (Hrel p t Hp0) as (t2 & Hp2 & HR). rewrite Hp in Hp2.
    injection Hp2 as <-. apply (HI p t Hp0). by apply HR.
  - exfalso. apply lookup_ge_None in Hp0.
    destruct Hext as [Hlen|(n & pr & po & pe & d & ss & r & Hh)].
    + apply lookup_lt_Some in Hp. lia.
    + rewrite Hh in Hp. rewrite lookup_app_r in Hp by done.
      destruct (p - length (store w))%nat; simpl in Hp; [|done].
      injection Hp as <-. done.
Qed.

Lemma no_running_frame (w w' : World) :
  (forall p t, store w !! p = Some t -> state_ t <> RUNNING) ->
  store_rel not_made_running (store w) (store w') ->
  length (store w') = length (store w) ->
  forall p t, store w' !! p = Some t -> state_ t <> RUNNING.
Proof.
  intros Hno Hrel Hlen p t' Hp Hrun.
  destruct (store w !! p) as [t|] eqn:Hp0.
  - destruct (Hrel p t Hp0) as (t2 & Hp2 & HR). rewrite Hp in Hp2.
    injection Hp2 as <-. apply (Hno p t Hp0). by apply HR.
  - apply lookup_ge_None in Hp0. apply lookup_lt_Some in Hp. lia.
Qed.

Lemma running_is_current_no_running (w : World) :
  running_is_current w ->
  (forall start_time, dispatcher w <> InHandler start_time) ->
  forall p t, store w !! p = Some t -> state_ t <> RUNNING.
Proof.
  intros HI Hpc p t Hp Hrun. destruct (HI p t Hp Hrun) as [_ [st Hst]].
  by apply (Hpc st).
Qed.

Lemma no_running_is_current (w : World) :
  (forall p t, store w !! p = Some t -> state_ t <> RUNNING) ->
  running_is_current w.
Proof. intros Hno p t Hp Hrun. by destruct (Hno p t Hp). Qed.

(** The steps of the dispatcher, one by one. *)
Lemma schedulerLoop_select_running (t_check t_idle t_start : Z) (w w' : World) :
  running_is_current w ->
  schedulerLoop_select t_check t_idle t_start w = Some w' ->
  running_is_current w'.
Proof.
  intros HI Hs.
  pose proof (length_schedulerLoop_select _ _ _ _ _ Hs) as Hlen.
  apply (schedulerLoop_select_shape _ not_made_running_closed) in Hs
    as [Hrel [->|Hshape]]; [done|].
  assert (Hhead : dispatcher w = AtLoopHead).
  { destruct Hshape as [(H & _)|(task & t & H & _)]; exact H. }
  apply no_running_is_current. eapply no_running_frame; [|exact Hrel|exact Hlen].
  apply running_is_current_no_running; [done|]. intros st. by rewrite Hhead.
Qed.

Lemma schedulerLoop_execute_running (t_exec : Z) (w : World) :
  running_is_current w -> running_is_current (schedulerLoop_execute t_exec w).
Proof.
  intros HI. unfold schedulerLoop_execute.
  destruct (dispatcher w) as [|st|st| |st| |] eqn:Hpc; try done.
  destruct (current_task_ (scheduler_ w)) as [c|] eqn:Hcur; [|done].
  assert (Hno : forall p t, store w !! p = Some t -> state_ t <> RUNNING).
  { apply running_is_current_no_running; [done|]. intros st'. by rewrite Hpc. }
  intros p t Hp Hrun. simpl. split; [|by exists st]. rewrite Hcur. f_equal.
  destruct (decide (p = c)) as [->|Hne]; [done|]. exfalso.
  simpl in Hp. unfold call in Hp. rewrite !list_lookup_insert_ne in Hp by done.
  by apply (Hno p t Hp).
Qed.

Lemma schedulerLoop_return_running (o : HandlerOutcome) (w : World) :
  running_is_current w -> running_is_current (schedulerLoop_return o w).
Proof.
  intros HI. unfold schedulerLoop_return.
  destruct (dispatcher w) as [|st|st| |st| |] eqn:Hpc; try done.
  destruct (current_task_ (scheduler_ w)) as [c|] eqn:Hcur; [|done].
  apply no_running_is_current. simpl. intros p t Hp Hrun.
  unfold call in Hp. destruct (decide (p = c)) as [->|Hne].
  - assert (Hlt : (c < length (store w))%nat).
    { apply lookup_lt_Some in Hp. by rewrite length_insert in Hp. }
    rewrite list_lookup_insert_eq in Hp by done. injection Hp as <-.
    destruct o; simpl in Hrun; [done|]. by destruct (negb _).
  - rewrite list_lookup_insert_ne in Hp by done.
    destruct (HI p t Hp Hrun) as [Hc _]. congruence.
Qed.

Lemma schedulerLoop_account_running (t_end : Z) (w : World) :
  running_is_current w -> running_is_current (schedulerLoop_account t_end w).
Proof.
  intros HI.
  destruct (schedulerLoop_account_pc t_end w) as [->|Hpc']; [done|].
  assert (Hno : forall p t, store w !! p = Some t -> state_ t <> RUNNING).
  { apply running_is_current_no_running; [done|]. intros st Hpc.
    unfold schedulerLoop_account in Hpc'. rewrite Hpc in Hpc'. simpl in Hpc'.
    congruence. }
  apply no_running_is_current. eapply no_running_frame; [exact Hno| |].
  - apply (schedulerLoop_account_rel _ not_made_running_closed).
  - apply length_schedulerLoop_account.
Qed.

Lemma schedulerLoop_reschedule_running (now t_static : Z) (w w' : World) :
  running_is_current w ->
  schedulerLoop_reschedule now t_static w = Some w' ->
  running_is_current w'.
Proof.
  intros HI Hs.
  pose proof (schedulerLoop_reschedule_store _ _ _ _ Hs) as Hst.
  unfold schedulerLoop_reschedule in Hs.
  destruct (dispatcher w) eqn:Hpc; try (by injection Hs as <-).
  assert (Hno : forall p t, store w !! p = Some t -> state_ t <> RUNNING).
  { apply running_is_current_no_running; [done|]. intros st. by rewrite Hpc. }
  apply no_running_is_current. by rewrite Hst.
Qed.

Lemma step_running_is_current (e : Event) (w w' : World) :
  running_is_current w -> sets_running e = false -> step e w = Some w' ->
  running_is_current w'.
Proof.
  intros HI He Hs.
  pose proof not_made_running_closed as HR.
  pose proof (step_store_extent e w w' Hs) as Hext.
  destruct (is_dispatcher_step e) eqn:Hd.
  - destruct e; try done; simpl in Hs.
    + unfold schedulerLoop_begin in Hs.
      destruct (schedulerLoop_select _ _ _ w) as [w1|] eqn:Hsel; [|done].
      simpl in Hs. injection Hs as <-. apply schedulerLoop_execute_running.
      by eapply schedulerLoop_select_running.
    + injection Hs as <-. by apply schedulerLoop_return_running.
    + unfold schedulerLoop_end in Hs.
      eapply schedulerLoop_reschedule_running; [|exact Hs].
      by apply schedulerLoop_account_running.
    + by eapply schedulerLoop_select_running.
    + injection Hs as <-. by apply schedulerLoop_execute_running.
    + injection Hs as <-. by apply schedulerLoop_account_running.
    + by eapply schedulerLoop_reschedule_running.
  - apply (running_is_current_frame w w' HI);
      [exact (step_control e w w' Hd Hs)| |done].
    destruct (is_background e) eqn:Hbg.
    + exact (step_background_rel _ HR e w w' Hbg Hs).
    + destruct e; try done.
      refine (step_direct_rel _ HR _ _ _ _ _ Hs).
      intros t t' _. by apply task_call_not_made_running.
Qed.

Lemma run_running_is_current (es : list Event) : forall w w',
  running_is_current w ->
  forallb (fun e => negb (sets_running e)) es = true ->
  run es w = Some w' -> running_is_current w'.
Proof.
  induction es as [|e es IH]; simpl; intros w w' HI Hes.
  - by intros [= <-].
  - apply andb_true_iff in Hes as [He Hes]. apply negb_true_iff in He.
    destruct (step e w) as [w1|] eqn:Hs; [|done]. simpl.
    apply IH; [|done]. by eapply step_running_is_current.
Qed.

(** X10.  In every state the system reaches from a new kernel through the
    kernel, the scheduler, the two threads and the task methods other than a
    direct [execute()] or [setState(RUNNING)], a task that is RUNNING is the
    dispatcher's current task, inside its handler: so at most one task is
    RUNNING, and none is while the dispatcher is between two handlers. *)
Theorem at_most_one_running (now : Z) (es : list Event) (w : World) :
  run es (Kernel_new now) = Some w ->
  forallb (fun e => negb (sets_running e)) es = true ->
  running_is_current w /\
  (forall p q tp tq,
     store w !! p = Some tp -> store w !! q = Some tq ->
     state_ tp = RUNNING -> state_ tq = RUNNING -> p = q) /\
  ((forall start_time, dispatcher w <> InHandler start_time) ->
   forall p t, store w !! p = Some t -> state_ t <> RUNNING).
Proof.
  intros Hrun Hes.
  assert (HI : running_is_current w).
  { apply (run_running_is_current es (Kernel_new now) w); [|done|done].
    intros p t Hp. simpl in Hp. by destruct p. }
  split; [done|]. split.
  - intros p q tp tq Hp Hq Hrp Hrq.
    destruct (HI p tp Hp Hrp) as [H1 _]. destruct (HI q tq Hq Hrq) as [H2 _].
    congruence.
  - intros Hpc. by apply running_is_current_no_running.
Qed.

(** A and B created, the scheduler started, B dispatched; while its handler
    runs the monitor ticks and A is suspended: B is the one RUNNING task. *)
Lemma at_most_one_running_witness :
  exists w tb,
    run [KCreateTask "A" 10 PREEMPTIVE 0 0 false;
         KCreateTask "B" 80 PREEMPTIVE 0 0 false;
         KStart 1000000;
         DispatcherBegin 2000000 2000000 2000000 2000000;
         MonitorTick 0 2500000;
         TaskMethod 0%nat CSuspend] (Kernel_new 0) = Some w /\
    store w !! 1%nat = Some tb /\ state_ tb = RUNNING /\
    forall q tq, store w !! q = Some tq -> state_ tq = RUNNING -> q = 1%nat.
Proof.
  set (es := _ :: _).
  destruct (run es (Kernel_new 0)) as [w|] eqn:Hrun; [|by vm_compute in Hrun].
  destruct (store w !! 1%nat) as [tb|] eqn:Hb;
    [|by vm_compute in Hrun; injection Hrun as <-; vm_compute in Hb].
  assert (Hst : state_ tb = RUNNING).
  { vm_compute in Hrun. injection Hrun as <-. vm_compute in Hb.
    by injection Hb as <-. }
  assert (Hes : forallb (fun e => negb (sets_running e)) es = true)
    by (vm_compute; reflexivity).
  destruct (at_most_one_running 0 es w Hrun Hes) as (_ & Hone & _).
  exists w, tb. split; [reflexivity|]. split; [exact Hb|]. split; [exact Hst|].
  intros q tq Hq Hrq. exact (Hone q 1%nat tq tb Hq Hb Hrq Hst).
Defined.

(** ** The deadline monitor and the running task *)

Lemma monitor_task_control (elapsed : Z) (task : TaskPtr) (w w' : World) :
  monitor_task elapsed task w = Some w' -> control w' = control w.
Proof.
  intros Hm. apply (monitor_scan_control elapsed [task] w w'). simpl.
  by rewrite Hm.
Qed.

Lemma monitor_task_frame (elapsed : Z) (task : TaskPtr) (w w' : World) (p : TaskPtr) :
  monitor_task elapsed task w = Some w' ->
  p <> task \/ (current_task_ (scheduler_ w) = Some task /\
                state_ (deref (store w) task) = RUNNING) ->
  store w' !! p = store w !! p.
Proof.
  unfold monitor_task. intros Hm Hp.
  destruct (negb (bool_decide (current_task_ (scheduler_ w) = Some task))
            || negb (bool_decide (state_ (deref (store w) task) = RUNNING)))
    eqn:Hcond.
  - unfold on_store_opt, call_opt in Hm.
    destruct (updateDeadlineCounter _ _) as [t1|]; [|done]. simpl in Hm.
    injection Hm as <-. destruct Hp as [Hne|[Hcur Hst]].
    + destruct (_ && _); simpl; by apply list_lookup_insert_ne.
    + apply orb_true_iff in Hcond as [Hc|Hc]; apply negb_true_iff in Hc;
        apply bool_decide_eq_false in Hc; done.
  - simpl in Hm. injection Hm as <-. by destruct (_ && _).
Qed.

Lemma monitor_scan_frame (elapsed : Z) (ps : list TaskPtr) (p : TaskPtr) :
  forall w w',
    monitor_scan elapsed ps w = Some w' ->
    p ∉ ps \/ (current_task_ (scheduler_ w) = Some p /\
               state_ (deref (store w) p) = RUNNING) ->
    store w' !! p = store w !! p.
Proof.
  induction ps as [|q ps IH]; simpl; intros w w'; [by intros [= <-]|].
  destruct (monitor_task elapsed q w) as [w1|] eqn:Hm; [|done]. simpl.
  intros Hs Hp.
  assert (H1 : store w1 !! p = store w !! p).
  { apply (monitor_task_frame elapsed q w w1 p Hm).
    destruct Hp as [Hnin|Hrun].
    - left. intros ->. apply Hnin. by left.
    - destruct (decide (p = q)) as [->|Hne]; [by right|by left]. }
  rewrite <- H1. apply (IH w1 w' Hs).
  destruct Hp as [Hnin|[Hcur Hst]].
  - left. intros Hin. apply Hnin. by right.
  - right. pose proof (monitor_task_control _ _ _ _ Hm) as Hctl.
    unfold control in Hctl. injection Hctl as _ Hc. rewrite Hc.
    split; [done|]. unfold deref in *. by rewrite H1.
Qed.

(** X11.  One pass of the deadline monitor leaves alone the task that the
    dispatcher is executing (the current task, while it is RUNNING): its
    deadline counter does not advance and no miss is recorded for it during
    its own execution.  It also leaves alone every task object that is not in
    the scheduler's list. *)
Theorem deadlineMonitor_skips_running (t_static now : Z) (w w' : World) (p : TaskPtr) :
  deadlineMonitor_tick t_static now w = Some w' ->
  p ∉ all_tasks_ (scheduler_ w)
  \/ (current_task_ (scheduler_ w) = Some p /\
      state_ (deref (store w) p) = RUNNING) ->
  store w' !! p = store w !! p.
Proof.
  unfold deadlineMonitor_tick. destruct (negb _); [by intros [= <-]|].
  intros Hs Hp. by apply (monitor_scan_frame _ _ p _ _ Hs).
Qed.

(** D (deadline 100 ms) is being executed when the monitor finds that 500 ms
    have passed: D is untouched, while E, waiting with the same deadline,
    gets a miss. *)
Lemma deadlineMonitor_skips_running_witness :
  exists w w' td te,
    run [KCreateTask "D" 80 PREEMPTIVE 100 100 false;
         KCreateTask "E" 10 PREEMPTIVE 100 100 false;
         KStart 1000000;
         DispatcherBegin 2000000 2000000 2000000 2000000] (Kernel_new 0)
    = Some w /\
    deadlineMonitor_tick 0 500000000 w = Some w' /\
    store w' !! 0%nat = store w !! 0%nat /\
    store w' !! 0%nat = Some td /\ deadline_misses (statistics_ td) = 0 /\
    store w' !! 1%nat = Some te /\ deadline_misses (statistics_ te) = 1.
Proof.
  set (es := _ :: _).
  destruct (run es (Kernel_new 0)) as [w|] eqn:Hrun; [|by vm_compute in Hrun].
  destruct (deadlineMonitor_tick 0 500000000 w) as [w'|] eqn:Ht;
    [|by vm_compute in Hrun; injection Hrun as <-; vm_compute in Ht].
  assert (Hcur : current_task_ (scheduler_ w) = Some 0%nat /\
                 state_ (deref (store w) 0%nat) = RUNNING).
  { vm_compute in Hrun. injection Hrun as <-. by split. }
  pose proof (deadlineMonitor_skips_running 0 500000000 w w' 0%nat Ht
                (or_intror Hcur)) as Hsame.
  assert (Hrest : exists td te,
             store w' !! 0%nat = Some td /\ deadline_misses (statistics_ td) = 0 /\
             store w' !! 1%nat = Some te /\ deadline_misses (statistics_ te) = 1).
  { vm_compute in Hrun. injection Hrun as <-. vm_compute in Ht. injection Ht as <-.
    do 2 eexists. repeat split; reflexivity. }
  destruct Hrest as (td & te & H1 & H2 & H3 & H4).
  exists w, w', td, te. split; [reflexivity|]. split; [exact Ht|].
  split; [exact Hsame|]. split; [exact H1|]. split; [exact H2|].
  split; [exact H3|exact H4].
Defined.

(** ** The dispatcher's check of the deadlines *)

Lemma recordDeadlineMiss_statistics (t t' : Task) :
  recordDeadlineMiss t = Some t' ->
  statistics_ t'
  = mkStats (execution_count (statistics_ t))
            (wrap64 (deadline_misses (statistics_ t) + 1))
            (last_execution (statistics_ t))
            (total_execution_time (statistics_ t))
            (average_execution_time (statistics_ t))
            (deadline_counter (statistics_ t)).
Proof.
  unfold recordDeadlineMiss. intros H.
  by apply updatePriority_statistics in H as [-> _].
Qed.

Lemma checkDeadlines_task_overdue (now : Z) (t : Task) :
  checkDeadlines_task now t
  = if overdue now t then recordDeadlineMiss t else Some t.
Proof.
  unfold checkDeadlines_task, overdue.
  destruct (0 <? deadline_ t); simpl; [|done].
  destruct (0 <? period_ t); simpl; [|done].
  destruct (0 <? last_execution _); simpl; [|done].
  by destruct (_ <? _).
Qed.

Lemma overdue_later (now now' : Z) (t t' : Task) :
  overdue now t = true -> now <= now' ->
  deadline_ t' = deadline_ t -> period_ t' = period_ t ->
  last_execution (statistics_ t') = last_execution (statistics_ t) ->
  overdue now' t' = true.
Proof.
  unfold overdue. intros Ho Hle -> -> ->.
  apply andb_true_iff in Ho as [Ho H4]. rewrite Ho. simpl.
  apply Z.ltb_lt in H4. apply Z.ltb_lt. unfold ns_to_ms in *.
  pose proof (Z.quot_le_mono (now - last_execution (statistics_ t))
                (now' - last_execution (statistics_ t)) 1000000
                ltac:(lia) ltac:(lia)).
  lia.
Qed.

(** X12.  [checkDeadlines] records a miss for a task exactly when the task is
    periodic with a deadline, has been executed at least once, and more than
    period + deadline has passed since its last execution began; a task that
    was never executed, or has no period, never gets a miss from it.  The miss
    does not move the time of the last execution, so a task that is overdue
    stays overdue: every later check, that is every iteration of the
    dispatcher, records one more miss until the task is executed again. *)
Theorem checkDeadlines_task_spec (now : Z) (t : Task) :
  (overdue now t = false -> checkDeadlines_task now t = Some t) /\
  (last_execution (statistics_ t) <= 0 \/ period_ t <= 0 \/ deadline_ t <= 0 ->
   overdue now t = false) /\
  (overdue now t = true ->
   forall t', checkDeadlines_task now t = Some t' ->
     deadline_misses (statistics_ t')
     = wrap64 (deadline_misses (statistics_ t) + 1) /\
     last_execution (statistics_ t') = last_execution (statistics_ t) /\
     state_ t' = state_ t /\
     forall now' t'', now <= now' ->
       checkDeadlines_task now' t' = Some t'' ->
       deadline_misses (statistics_ t'')
       = wrap64 (wrap64 (deadline_misses (statistics_ t) + 1) + 1)).
Proof.
  split; [|split].
  - intros Ho. by rewrite checkDeadlines_task_overdue, Ho.
  - unfold overdue. intros [H|[H|H]].
    + destruct (Z.ltb_spec 0 (last_execution (statistics_ t))); [lia|].
      by rewrite andb_false_r.
    + destruct (Z.ltb_spec 0 (period_ t)); [lia|]. by rewrite andb_false_r.
    + by destruct (Z.ltb_spec 0 (deadline_ t)); [lia|].
  - intros Ho t' Hc. rewrite checkDeadlines_task_overdue, Ho in Hc.
    pose proof (recordDeadlineMiss_statistics t t' Hc) as Hs.
    pose proof (recordDeadlineMiss_constants t t' Hc) as (_ & _ & _ & Hp & Hd & _).
    pose proof (recordDeadlineMiss_keeps t t' Hc) as [Hst _].
    rewrite Hs. simpl. split; [done|]. split; [done|]. split; [done|].
    intros now' t'' Hle Hc'.
    assert (Ho' : overdue now' t' = true).
    { apply (overdue_later now now' t t' Ho Hle Hd Hp). by rewrite Hs. }
    rewrite checkDeadlines_task_overdue, Ho' in Hc'.
    rewrite (recordDeadlineMiss_statistics t' t'' Hc'), Hs. done.
Qed.

(** A task of period 10 ms and deadline 20 ms, last executed at 1 ms: checked
    at 40 ms and again at 41 ms, it has two misses. *)
Lemma checkDeadlines_task_spec_witness :
  let t := execute_end Returns
             (execute_begin 1000000 (TaskBase "P" 50 PREEMPTIVE 10 20 4096 false)) in
  overdue 40000000 t = true /\
  exists t' t'',
    checkDeadlines_task 40000000 t = Some t' /\
    checkDeadlines_task 41000000 t' = Some t'' /\
    deadline_misses (statistics_ t'') = 2.
Proof.
  cbv zeta. set (t := execute_end _ _).
  assert (Ho : overdue 40000000 t = true) by (vm_compute; reflexivity).
  destruct (checkDeadlines_task 40000000 t) as [t'|] eqn:H1; [|by vm_compute in H1].
  destruct (checkDeadlines_task 41000000 t') as [t''|] eqn:H2;
    [|by vm_compute in H1; injection H1 as <-; vm_compute in H2].
  destruct (checkDeadlines_task_spec 40000000 t) as (_ & _ & Hover).
  destruct (Hover Ho t' H1) as (_ & _ & _ & Hnext).
  split; [exact Ho|]. exists t', t''. split; [reflexivity|]. split; [exact H2|].
  rewrite (Hnext 41000000 t'' ltac:(lia) H2). reflexivity.
Defined.

(** ** [yield()] and the dispatcher *)

Lemma schedulerLoop_account_yield (t_end : Z) (w : World)
    (start_time : Z) (task : TaskPtr) :
  dispatcher w = AfterExecute start_time ->
  current_task_ (scheduler_ w) = Some task ->
  schedulerLoop_account t_end (yield w) = schedulerLoop_account t_end w.
Proof.
  intros Hpc Hcur. unfold schedulerLoop_account. simpl. rewrite Hpc, Hcur.
  destruct w as [h s m pc]. destruct s. simpl in *.
  destruct (_ && _); [|reflexivity].
  unfold attemptTaskRecovery. simpl.
  destruct (negb _); [reflexivity|]. by destruct (_ <=? _).
Qed.

Lemma schedulerLoop_end_yield (t_end now t_static : Z) (w : World)
    (start_time : Z) (task : TaskPtr) :
  dispatcher w = AfterExecute start_time ->
  current_task_ (scheduler_ w) = Some task ->
  schedulerLoop_end t_end now t_static (yield w)
  = schedulerLoop_end t_end now t_static w.
Proof.
  intros Hpc Hcur. unfold schedulerLoop_end.
  by rewrite (schedulerLoop_account_yield t_end w start_time task).
Qed.

Lemma schedulerLoop_return_yield (o : HandlerOutcome) (w : World) :
  schedulerLoop_return o (yield w) = yield (schedulerLoop_return o w).
Proof.
  unfold schedulerLoop_return. simpl.
  destruct (dispatcher w); try done. by destruct (current_task_ _).
Qed.

(** X13.  A [yield()] that arrives while the dispatcher is executing a task
    (inside the handler, or after it and before the dispatcher has taken the
    mutex again) has no effect at all: the dispatcher clears
    [force_reschedule_] after the execution, before the place where it tests
    the flag, so the system ends the iteration in the state it would have
    reached without the call. *)
Theorem yield_during_execution_is_lost (w : World) (start_time : Z) (task : TaskPtr)
    (o : HandlerOutcome) (t_end now t_static : Z) :
  dispatcher w = InHandler start_time ->
  current_task_ (scheduler_ w) = Some task ->
  run [SYield; DispatcherReturn o; DispatcherEnd t_end now t_static] w
  = run [DispatcherReturn o; DispatcherEnd t_end now t_static] w /\
  run [DispatcherReturn o; SYield; DispatcherEnd t_end now t_static] w
  = run [DispatcherReturn o; DispatcherEnd t_end now t_static] w.
Proof.
  intros Hpc Hcur.
  assert (Hret : dispatcher (schedulerLoop_return o w) = AfterExecute start_time /\
                 current_task_ (scheduler_ (schedulerLoop_return o w)) = Some task).
  { unfold schedulerLoop_return. by rewrite Hpc, Hcur. }
  destruct Hret as [Hpc' Hcur'].
  pose proof (schedulerLoop_end_yield t_end now t_static _ _ _ Hpc' Hcur') as Hy.
  split; simpl.
  - rewrite schedulerLoop_return_yield, Hy. done.
  - rewrite Hy. done.
Qed.

(** A PREEMPTIVE task B is dispatched and yields during its handler: the
    iteration ends with B still the current task and not requeued. *)
Lemma yield_during_execution_is_lost_witness :
  exists w w',
    run [KCreateTask "B" 80 PREEMPTIVE 0 0 false; KStart 1000000;
         DispatcherBegin 2000000 2000000 2000000 2000000] (Kernel_new 0) = Some w /\
    run [SYield; DispatcherReturn Returns; DispatcherEnd 3000000 3000000 3000000] w
    = Some w' /\
    run [DispatcherReturn Returns; DispatcherEnd 3000000 3000000 3000000] w = Some w' /\
    force_reschedule_ (scheduler_ w') = false /\
    current_task_ (scheduler_ w') = Some 0%nat /\
    ready_queue_ (scheduler_ w') = [].
Proof.
  set (es := _ :: _).
  destruct (run es (Kernel_new 0)) as [w|] eqn:Hrun; [|by vm_compute in Hrun].
  assert (Hpc : dispatcher w = InHandler 2000000 /\
                current_task_ (scheduler_ w) = Some 0%nat).
  { vm_compute in Hrun. injection Hrun as <-. by split. }
  destruct Hpc as [Hpc Hcur].
  destruct (yield_during_execution_is_lost w 2000000 0%nat Returns
              3000000 3000000 3000000 Hpc Hcur) as [Hy _].
  destruct (run [DispatcherReturn Returns; DispatcherEnd 3000000 3000000 3000000] w)
    as [w'|] eqn:H2;
    [|by vm_compute in Hrun; injection Hrun as <-; vm_compute in H2].
  exists w, w'. split; [reflexivity|]. split; [exact Hy|]. split; [exact H2|].
  vm_compute in Hrun. injection Hrun as <-. vm_compute in H2. injection H2 as <-.
  by repeat split.
Defined.

(** ** The idle time *)

Lemma selectNextTask_sched_frame (fuel : nat) (w w' : World) (r : option TaskPtr) :
  selectNextTask fuel w = Some (r, w') ->
  idle_start_time_ (scheduler_ w') = idle_start_time_ (scheduler_ w) /\
  total_idle_time_ (scheduler_ w') = total_idle_time_ (scheduler_ w) /\
  total_run_time_ (scheduler_ w') = total_run_time_ (scheduler_ w).
Proof. intros H. by apply selectNextTask_frame in H as [[q' ->] _]. Qed.

Lemma checkDeadlines_sched_frame (now : Z) (w w' : World) :
  checkDeadlines now w = Some w' -> scheduler_ w' = scheduler_ w.
Proof.
  unfold checkDeadlines, on_store_opt. destruct (for_each _ _ _); [|done].
  simpl. by intros [= <-].
Qed.

Lemma schedulerLoop_tail_idle (now t_static : Z) (w w' : World) :
  schedulerLoop_tail now t_static w = Some w' ->
  idle_start_time_ (scheduler_ w') = idle_start_time_ (scheduler_ w) /\
  total_idle_time_ (scheduler_ w') = total_idle_time_ (scheduler_ w).
Proof.
  unfold schedulerLoop_tail.
  set (w1 := if _ : bool then _ else w).
  assert (H1 : idle_start_time_ (scheduler_ w1) = idle_start_time_ (scheduler_ w) /\
               total_idle_time_ (scheduler_ w1) = total_idle_time_ (scheduler_ w))
    by (unfold w1; by destruct (_ || _)).
  destruct (_ <? _); simpl; by intros [= <-].
Qed.

(** X14.  Each time the dispatcher picks a task it calls [exitIdleState],
    whether or not it was idle: the iteration adds to [total_idle_time_] the
    whole time since the last idle wait began (since the construction of the
    scheduler when there was none) and does not move [idle_start_time_].
    When no task is READY the iteration sets [idle_start_time_], waits, and
    adds the time of the wait to [total_idle_time_] when the wait ends; the
    rest of the iteration changes neither.  As [idle_start_time_] stays at
    the beginning of the wait, the dispatch that follows adds the wait a
    second time, and two dispatches in a row both count the time before the
    first. *)
Theorem dispatch_adds_idle_time (t_check t_idle t_start t_exec : Z) (w w' : World) :
  dispatcher w = AtLoopHead ->
  is_running_ (scheduler_ w) = true ->
  schedulerLoop_begin t_check t_idle t_start t_exec w = Some w' ->
  (dispatcher w' = InHandler t_start /\
   idle_start_time_ (scheduler_ w') = idle_start_time_ (scheduler_ w) /\
   total_idle_time_ (scheduler_ w')
   = total_idle_time_ (scheduler_ w)
     + ns_to_us (t_idle - idle_start_time_ (scheduler_ w)))
  \/
  (dispatcher w' = InWait /\
   idle_start_time_ (scheduler_ w') = t_idle /\
   total_idle_time_ (scheduler_ w') = total_idle_time_ (scheduler_ w) /\
   forall t_end now t_static w'',
     schedulerLoop_end t_end now t_static w' = Some w'' ->
     idle_start_time_ (scheduler_ w'') = t_idle /\
     total_idle_time_ (scheduler_ w'')
     = total_idle_time_ (scheduler_ w) + ns_to_us (t_end - t_idle)).
Proof.
  intros Hpc Hrun. unfold schedulerLoop_begin, schedulerLoop_select.
  rewrite Hpc, Hrun.
  cbn -[selectNextTask select_fuel checkDeadlines].
  destruct (checkDeadlines t_check w) as [w1|] eqn:Hc; [|done].
  cbn -[selectNextTask select_fuel].
  apply checkDeadlines_sched_frame in Hc.
  destruct (selectNextTask (select_fuel w1) w1) as [[next w2]|] eqn:Hsel; [|done].
  cbn -[selectNextTask select_fuel].
  apply selectNextTask_sched_frame in Hsel as (Hi & Ht & _). rewrite Hc in Hi, Ht.
  destruct next as [task|]; intros [= <-]; simpl.
  - left. by rewrite Hi, Ht.
  - right. split; [done|]. split; [done|]. split; [by rewrite Ht|].
    intros t_end now t_static w'' Hend.
    unfold schedulerLoop_end, schedulerLoop_account, schedulerLoop_reschedule in Hend.
    simpl in Hend. apply schedulerLoop_tail_idle in Hend as [-> ->]. simpl.
    by rewrite Ht.
Qed.

(** A scheduler constructed at time 0 with nothing to run: it waits from 2 ms
    to 3 ms and counts 1000 us.  Then B is created and dispatched at 5 ms:
    the time since 2 ms is added, the wait a second time, 4000 us in all;
    the next dispatch, at 8 ms, adds the time since 2 ms once more. *)
Lemma dispatch_adds_idle_time_witness :
  exists w w1 w2 w3 w4 w5,
    run [KStart 1000000] (Kernel_new 0) = Some w /\
    schedulerLoop_begin 2000000 2000000 2000000 2000000 w = Some w1 /\
    dispatcher w1 = InWait /\
    schedulerLoop_end 3000000 3000000 3000000 w1 = Some w2 /\
    total_idle_time_ (scheduler_ w2) = 1000 /\
    run [KCreateTask "B" 80 PREEMPTIVE 0 0 false] w2 = Some w3 /\
    schedulerLoop_begin 5000000 5000000 5000000 5000000 w3 = Some w4 /\
    total_idle_time_ (scheduler_ w4) = 4000 /\
    run [DispatcherReturn Returns; DispatcherEnd 7000000 7000000 7000000] w4
    = Some w5 /\
    (w6 ← schedulerLoop_begin 8000000 8000000 8000000 8000000 w5;
     Some (total_idle_time_ (scheduler_ w6))) = Some 10000.
Proof.
  destruct (run [KStart 1000000] (Kernel_new 0)) as [w|] eqn:Hrun;
    [|by vm_compute in Hrun].
  destruct (schedulerLoop_begin 2000000 2000000 2000000 2000000 w) as [w1|] eqn:H1;
    [|by vm_compute in Hrun; injection Hrun as <-; vm_compute in H1].
  assert (Hw : dispatcher w = AtLoopHead /\ is_running_ (scheduler_ w) = true /\
               total_idle_time_ (scheduler_ w) = 0).
  { vm_compute in Hrun. injection Hrun as <-. by repeat split. }
  destruct Hw as (Hpc & Hr & Ht0).
  assert (Hw1 : dispatcher w1 = InWait).
  { vm_compute in Hrun. injection Hrun as <-. vm_compute in H1.
    by injection H1 as <-. }
  destruct (dispatch_adds_idle_time _ _ _ _ w w1 Hpc Hr H1)
    as [(Hh & _)|(_ & Hi1 & Ht1 & Hend)]; [congruence|].
  destruct (schedulerLoop_end 3000000 3000000 3000000 w1) as [w2|] eqn:H2;
    [|by vm_compute in Hrun; injection Hrun as <-; vm_compute in H1;
         injection H1 as <-; vm_compute in H2].
  destruct (Hend _ _ _ w2 H2) as [Hi2 Ht2]. rewrite Ht0 in Ht2.
  destruct (run [KCreateTask "B" 80 PREEMPTIVE 0 0 false] w2) as [w3|] eqn:H3;
    [|by vm_compute in H3].
  destruct (schedulerLoop_begin 5000000 5000000 5000000 5000000 w3) as [w4|] eqn:H4;
    [|by vm_compute in Hrun; injection Hrun as <-; vm_compute in H1;
         injection H1 as <-; vm_compute in H2; injection H2 as <-;
         vm_compute in H3; injection H3 as <-; vm_compute in H4].
  destruct (run [DispatcherReturn Returns; DispatcherEnd 7000000 7000000 7000000] w4)
    as [w5|] eqn:H5;
    [|by vm_compute in Hrun; injection Hrun as <-; vm_compute in H1;
         injection H1 as <-; vm_compute in H2; injection H2 as <-;
         vm_compute in H3; injection H3 as <-; vm_compute in H4;
         injection H4 as <-; vm_compute in H5].
  exists w, w1, w2, w3, w4, w5. split; [reflexivity|]. split; [exact H1|].
  split; [exact Hw1|]. split; [exact H2|]. split; [exact Ht2|].
  split; [exact H3|]. split; [exact H4|].
  vm_compute in Hrun. injection Hrun as <-. vm_compute in H1. injection H1 as <-.
  vm_compute in H2. injection H2 as <-. vm_compute in H3. injection H3 as <-.
  vm_compute in H4. injection H4 as <-. split; [reflexivity|].
  vm_compute in H5. injection H5 as <-. split; [reflexivity|].
  vm_compute. reflexivity.
Defined.

(** ** The threads of a scheduler that is not running *)

Lemma step_thread_stopped (e : Event) (w : World) :
  is_running_ (scheduler_ w) = false -> dispatcher w = AtLoopHead ->
  is_thread_step e = true -> step e w = Some w.
Proof.
  intros Hr Hpc He. destruct e; try done; simpl.
  - unfold schedulerLoop_begin, schedulerLoop_select. rewrite Hpc, Hr. simpl.
    unfold schedulerLoop_execute. by rewrite Hpc.
  - unfold schedulerLoop_return. by rewrite Hpc.
  - unfold schedulerLoop_end, schedulerLoop_account. rewrite Hpc.
    unfold schedulerLoop_reschedule. by rewrite Hpc.
  - unfold deadlineMonitor_tick. by rewrite Hr.
  - unfold schedulerLoop_select. by rewrite Hpc, Hr.
  - unfold schedulerLoop_execute. by rewrite Hpc.
  - unfold schedulerLoop_account. by rewrite Hpc.
  - unfold schedulerLoop_reschedule. by rewrite Hpc.
Qed.

(** X15.  While the scheduler is not running (before [start()], after
    [stop()] once the dispatcher is back at the head of its loop) no step of
    the dispatcher or of the deadline monitor changes anything: no task is
    dispatched, no counter advances, no miss is recorded.  A second
    [start()] has no effect, whatever the clock reads: it does not move
    [last_schedule_time_]. *)
Theorem stopped_scheduler_is_inert (es : list Event) (w : World) :
  is_running_ (scheduler_ w) = false -> dispatcher w = AtLoopHead ->
  forallb is_thread_step es = true ->
  run es w = Some w /\
  forall now now',
    Scheduler_start now' (Scheduler_start now w) = Scheduler_start now w /\
    last_schedule_time_ (scheduler_ (Scheduler_start now w)) = now /\
    is_running_ (scheduler_ (Scheduler_start now w)) = true.
Proof.
  intros Hr Hpc Hes. split.
  - induction es as [|e es IH]; simpl; [done|].
    simpl in Hes. apply andb_true_iff in Hes as [He Hes].
    rewrite (step_thread_stopped e w Hr Hpc He). simpl. by apply IH.
  - intros now now'. unfold Scheduler_start. rewrite Hr. simpl. done.
Qed.

Lemma stopped_scheduler_is_inert_witness :
  let w := snd (createTask "B" 80 PREEMPTIVE 10 10 false (Kernel_new 0)) in
  run [DispatcherBegin 5 5 5 5; MonitorTick 0 900000000; DispatcherReturn Throws;
       DispatcherEnd 7 7 7; MonitorTick 0 1900000000] w = Some w /\
  last_schedule_time_ (scheduler_ (Scheduler_start 9 (Scheduler_start 4 w))) = 4.
Proof.
  cbv zeta. set (w := snd _).
  assert (Hr : is_running_ (scheduler_ w) = false) by reflexivity.
  assert (Hpc : dispatcher w = AtLoopHead) by reflexivity.
  set (es := _ :: _).
  destruct (stopped_scheduler_is_inert es w Hr Hpc eq_refl) as [Hrun Hstart].
  split; [exact Hrun|].
  destruct (Hstart 4 9) as (-> & Hl & _). exact Hl.
Defined.

(** ** The recursion of [selectNextTask] *)

(** X16.  [selectNextTask] always returns, whatever the ready queue holds:
    it calls itself at most once per entry of the queue, and once more after
    it has rebuilt an empty queue.  It changes the ready queue only.  What
    it takes out of the queue are entries that are not READY and the entry
    that it returns: every other READY entry is still in the queue
    afterwards.  What it adds are READY tasks of the scheduler's list, and
    only when the queue held no READY entry.  When it returns the null
    pointer, no task of the list and no entry of the queue is READY, and the
    queue is left empty; when some task of the list or some entry of the
    queue is READY, it returns a task. *)
Theorem selectNextTask_terminates (w : World) :
  exists (r : option TaskPtr) (q' : list TaskPtr),
    selectNextTask (select_fuel w) w = Some (r, on_sched (set_ready_queue q') w) /\
    (forall y, y ∈ ready_queue_ (scheduler_ w) ->
               state_ (deref (store w) y) = READY -> r = Some y \/ y ∈ q') /\
    (forall y, y ∈ q' ->
       y ∈ ready_queue_ (scheduler_ w) \/
       ((forall z, z ∈ ready_queue_ (scheduler_ w) ->
                   state_ (deref (store w) z) <> READY) /\
        y ∈ all_tasks_ (scheduler_ w) /\ state_ (deref (store w) y) = READY)) /\
    (r = None ->
     q' = [] /\
     (forall y, y ∈ ready_queue_ (scheduler_ w) ->
                state_ (deref (store w) y) <> READY) /\
     (forall y, y ∈ all_tasks_ (scheduler_ w) ->
                state_ (deref (store w) y) <> READY)) /\
    (forall y,
       y ∈ ready_queue_ (scheduler_ w) \/ y ∈ all_tasks_ (scheduler_ w) ->
       state_ (deref (store w) y) = READY -> r <> None).
Proof.
  destruct (selectNextTask_any _ w eq_refl) as (r & q' & Hsel & Hq' & Hkeep & Hr).
  exists r, q'. split; [exact Hsel|]. split; [exact Hkeep|].
  assert (Hnone : r = None ->
            q' = [] /\
            (forall y, y ∈ ready_queue_ (scheduler_ w) ->
                       state_ (deref (store w) y) <> READY) /\
            (forall y, y ∈ all_tasks_ (scheduler_ w) ->
                       state_ (deref (store w) y) <> READY)).
  { intros ->. exact Hr. }
  split; [exact Hq'|]. split; [exact Hnone|].
  intros y Hy Hready ->. destruct (Hnone eq_refl) as (_ & Hq & Hall).
  destruct Hy as [Hy|Hy]; [by apply (Hq y)|by apply (Hall y)].
Qed.

(** A is suspended while it is on top of the queue: the selection drops its
    entry, returns B and leaves C in the queue. *)
Lemma selectNextTask_terminates_witness :
  exists w w',
    run [KCreateTask "A" 80 PREEMPTIVE 0 0 false;
         KCreateTask "B" 40 PREEMPTIVE 0 0 false;
         KCreateTask "C" 20 PREEMPTIVE 0 0 false;
         TaskMethod 0%nat CSuspend] (Kernel_new 0) = Some w /\
    ready_queue_ (scheduler_ w) = [0%nat; 1%nat; 2%nat] /\
    selectNextTask (select_fuel w) w = Some (Some 1%nat, w') /\
    ready_queue_ (scheduler_ w') = [2%nat].
Proof.
  set (es := _ :: _).
  destruct (run es (Kernel_new 0)) as [w|] eqn:Hrun; [|by vm_compute in Hrun].
  destruct (selectNextTask_terminates w) as (r & q' & Hsel & _).
  assert (Hw : ready_queue_ (scheduler_ w) = [0%nat; 1%nat; 2%nat] /\
               r = Some 1%nat /\ q' = [2%nat]).
  { vm_compute in Hrun. injection Hrun as <-. split; [done|].
    vm_compute in Hsel. injection Hsel as <- <-. done. }
  destruct Hw as (Hq & -> & ->).
  exists w, (on_sched (set_ready_queue [2%nat]) w).
  split; [reflexivity|]. split; [exact Hq|]. split; [exact Hsel|reflexivity].
Defined.

(** ** [adjustPriorities] *)

Lemma for_each_updatePriority_lookup (ps : list TaskPtr) : forall h h',
  for_each updatePriority ps h = Some h' ->
  forall p t, h !! p = Some t ->
    exists t',
      h' !! p = Some t' /\
      statistics_ t' = statistics_ t /\ state_ t' = state_ t /\
      same_constants t t' /\
      (p ∉ ps -> t' = t) /\
      (task_wf t -> p ∈ ps \/ tracks_misses t -> tracks_misses t' /\ task_wf t').
Proof.
  induction ps as [|q ps IH]; simpl; intros h h'.
  - intros [= <-] p t Hp. exists t. split; [done|]. split; [done|]. split; [done|].
    split; [apply same_constants_refl|]. split; [done|].
    intros Hwf [Hin|Ht]; [by apply elem_of_nil in Hin|done].
  - unfold call_opt at 1.
    destruct (updatePriority (deref h q)) as [tq|] eqn:Hu; [|done]. simpl.
    intros Hf p t Hp. destruct (decide (p = q)) as [->|Hne].
    + rewrite (deref_lookup h q t Hp) in Hu.
      assert (Hq1 : <[q:=tq]> h !! q = Some tq).
      { apply list_lookup_insert_eq. by eapply lookup_lt_Some. }
      destruct (IH _ _ Hf q tq Hq1) as (t' & Hp' & Hs & Hst & Hc & Hnot & Htr).
      pose proof (updatePriority_statistics t tq Hu) as [Hs1 Hst1].
      pose proof (updatePriority_constants t tq Hu) as Hc1.
      exists t'. split; [done|]. split; [congruence|]. split; [congruence|].
      split; [by eapply same_constants_trans|]. split.
      * intros Hnin. exfalso. apply Hnin. by left.
      * intros Hwf _. apply Htr; [by eapply updatePriority_wf|]. right.
        rewrite (updatePriority_formula t tq Hwf Hu). unfold tracks_misses. done.
    + assert (Hq1 : <[q:=tq]> h !! p = Some t).
      { by rewrite list_lookup_insert_ne. }
      destruct (IH _ _ Hf p t Hq1) as (t' & Hp' & Hs & Hst & Hc & Hnot & Htr).
      exists t'. split; [done|]. split; [done|]. split; [done|]. split; [done|].
      split.
      * intros Hnin. apply Hnot. intros Hin. apply Hnin. by right.
      * intros Hwf [Hin|Ht]; apply Htr; try done.
        -- apply elem_of_cons in Hin as [->|Hin]; [done|by left].
        -- by right.
Qed.

(** X17.  [adjustPriorities] recomputes the dynamic priority of every task
    of the scheduler's list from its base priority and its misses, touching
    nothing else of any task, and rebuilds the ready queue: afterwards the
    queue holds exactly its former entries that are READY, in an order that
    is right for the new priorities, whatever its order was before. *)
Theorem adjustPriorities_spec (w w' : World) :
  adjustPriorities w = Some w' ->
  pq_ordered (store w') (ready_queue_ (scheduler_ w')) = true /\
  (forall p, p ∈ ready_queue_ (scheduler_ w') <->
             p ∈ ready_queue_ (scheduler_ w) /\
             state_ (deref (store w') p) = READY) /\
  all_tasks_ (scheduler_ w') = all_tasks_ (scheduler_ w) /\
  current_task_ (scheduler_ w') = current_task_ (scheduler_ w) /\
  tasks_ w' = tasks_ w /\
  (forall p t, store w !! p = Some t ->
     exists t',
       store w' !! p = Some t' /\
       statistics_ t' = statistics_ t /\ state_ t' = state_ t /\
       same_constants t t' /\
       (p ∉ all_tasks_ (scheduler_ w) -> t' = t) /\
       (task_wf t -> p ∈ all_tasks_ (scheduler_ w) -> tracks_misses t')).
Proof.
  unfold adjustPriorities.
  destruct (for_each _ _ _) as [h|] eqn:Hf; [|done]. simpl. intros [= <-]. simpl.
  split; [by apply push_ready_ordered|]. split; [|split; [done|split; [done|]]].
  - intros p. rewrite elem_of_push_ready, elem_of_nil, is_ready_spec. tauto.
  - split; [done|]. intros p t Hp.
    destruct (for_each_updatePriority_lookup _ _ _ Hf p t Hp)
      as (t' & Hp' & Hs & Hst & Hc & Hnot & Htr).
    exists t'. split; [done|]. split; [done|]. split; [done|]. split; [done|].
    split; [done|]. intros Hwf Hin. by apply Htr; [|left].
Qed.

(** B (80) and A (70) are queued in that order; four misses then raise A
    to 84 and leave the queue in the wrong order.  After [adjustPriorities]
    A is at the top. *)
Lemma adjustPriorities_spec_witness :
  exists w w',
    run [KCreateTask "B" 80 PREEMPTIVE 0 0 false;
         KCreateTask "A" 70 PREEMPTIVE 0 0 false;
         TaskMethod 1%nat CRecordDeadlineMiss;
         TaskMethod 1%nat CRecordDeadlineMiss;
         TaskMethod 1%nat CRecordDeadlineMiss;
         TaskMethod 1%nat CRecordDeadlineMiss] (Kernel_new 0) = Some w /\
    ready_queue_ (scheduler_ w) = [0%nat; 1%nat] /\
    pq_ordered (store w) (ready_queue_ (scheduler_ w)) = false /\
    adjustPriorities w = Some w' /\
    ready_queue_ (scheduler_ w') = [1%nat; 0%nat] /\
    pq_ordered (store w') (ready_queue_ (scheduler_ w')) = true.
Proof.
  set (es := _ :: _).
  destruct (run es (Kernel_new 0)) as [w|] eqn:Hrun; [|by vm_compute in Hrun].
  destruct (adjustPriorities w) as [w'|] eqn:Ha;
    [|by vm_compute in Hrun; injection Hrun as <-; vm_compute in Ha].
  destruct (adjustPriorities_spec w w' Ha) as (Hord & _).
  exists w, w'. split; [reflexivity|].
  assert (Hq : ready_queue_ (scheduler_ w) = [0%nat; 1%nat] /\
               pq_ordered (store w) (ready_queue_ (scheduler_ w)) = false)
    by (vm_compute in Hrun; injection Hrun as <-; by split).
  destruct Hq as [Hq Hbad].
  split; [exact Hq|]. split; [exact Hbad|]. split; [exact Ha|]. split; [|exact Hord].
  vm_compute in Hrun. injection Hrun as <-. vm_compute in Ha. by injection Ha as <-.
Defined.

(** ** The registry of the kernel and the scheduler's list *)

Lemma adjustPriorities_lists (w w' : World) :
  adjustPriorities w = Some w' -> lists w' = lists w.
Proof.
  unfold adjustPriorities. destruct (for_each _ _ _); [|done]. simpl.
  by intros [= <-].
Qed.

Lemma monitor_scan_lists (elapsed : Z) (ps : list TaskPtr) : forall w w',
  monitor_scan elapsed ps w = Some w' -> lists w' = lists w.
Proof.
  induction ps as [|p ps IH]; simpl; intros w w'; [by intros [= <-]|].
  destruct (monitor_task elapsed p w) as [w1|] eqn:Hm; [|done]. simpl. intros Hs.
  rewrite (IH _ _ Hs). clear Hs IH. unfold monitor_task in Hm.
  destruct (_ || _).
  - unfold on_store_opt in Hm. destruct (call_opt _ _ _); [|done]. simpl in Hm.
    injection Hm as <-. by destruct (_ && _).
  - simpl in Hm. injection Hm as <-. by destruct (_ && _).
Qed.

Lemma schedulerLoop_tail_lists (now t_static : Z) (w w' : World) :
  schedulerLoop_tail now t_static w = Some w' -> lists w' = lists w.
Proof.
  unfold schedulerLoop_tail.
  set (w1 := if _ || _ then _ else w).
  assert (H1 : lists w1 = lists w) by (unfold w1; by destruct (_ || _)).
  destruct (_ <? _); simpl; intros [= <-]; unfold lists in *; simpl in *;
    congruence.
Qed.

Lemma schedulerLoop_select_lists (t_check t_idle t_start : Z) (w w' : World) :
  schedulerLoop_select t_check t_idle t_start w = Some w' ->
  lists w' = lists w.
Proof.
  unfold schedulerLoop_select.
  destruct (dispatcher w); try (by intros [= <-]).
  destruct (negb _); [by intros [= <-]|].
  destruct (checkDeadlines t_check w) as [w1|] eqn:Hc; [|done].
  cbn -[selectNextTask select_fuel].
  assert (H1 : lists w1 = lists w).
  { unfold checkDeadlines, on_store_opt in Hc. destruct (for_each _ _ _); [|done].
    simpl in Hc. by injection Hc as <-. }
  destruct (selectNextTask (select_fuel w1) w1) as [[next w2]|] eqn:Hsel; [|done].
  cbn -[selectNextTask select_fuel].
  apply selectNextTask_frame in Hsel as [[q' ->] _].
  destruct next as [task|]; intros [= <-]; exact H1.
Qed.

Lemma schedulerLoop_execute_lists (t_exec : Z) (w : World) :
  lists (schedulerLoop_execute t_exec w) = lists w.
Proof.
  unfold schedulerLoop_execute. destruct (dispatcher w); try done.
  by destruct (current_task_ _).
Qed.

Lemma schedulerLoop_begin_lists (t_check t_idle t_start t_exec : Z) (w w' : World) :
  schedulerLoop_begin t_check t_idle t_start t_exec w = Some w' ->
  lists w' = lists w.
Proof.
  unfold schedulerLoop_begin.
  destruct (schedulerLoop_select _ _ _ w) as [w1|] eqn:Hsel; [|done]. simpl.
  intros [= <-]. rewrite schedulerLoop_execute_lists.
  by eapply schedulerLoop_select_lists.
Qed.

Lemma schedulerLoop_account_lists (t_end : Z) (w : World) :
  lists (schedulerLoop_account t_end w) = lists w.
Proof.
  unfold schedulerLoop_account. destruct (dispatcher w); try done.
  destruct (current_task_ _) as [task|]; [|done].
  unfold lists. simpl. destruct (_ && _); [|done].
  unfold attemptTaskRecovery. simpl. destruct (negb _); [done|].
  by destruct (_ <=? _).
Qed.

Lemma schedulerLoop_reschedule_lists (now t_static : Z) (w w' : World) :
  schedulerLoop_reschedule now t_static w = Some w' -> lists w' = lists w.
Proof.
  unfold schedulerLoop_reschedule.
  destruct (dispatcher w); try (by intros [= <-]).
  apply schedulerLoop_tail_lists.
Qed.

Lemma schedulerLoop_end_lists (t_end now t_static : Z) (w w' : World) :
  schedulerLoop_end t_end now t_static w = Some w' -> lists w' = lists w.
Proof.
  unfold schedulerLoop_end. intros H.
  apply schedulerLoop_reschedule_lists in H. rewrite H.
  apply schedulerLoop_account_lists.
Qed.

(** Only the four operations that add or remove a task change the registry
    or the scheduler's list. *)
Lemma step_lists (e : Event) (w w' : World) :
  changes_lists e = false -> step e w = Some w' -> lists w' = lists w.
Proof.
  intros He. destruct e; try done; simpl; try (by intros [= <-]).
  - intros [= <-]. unfold Scheduler_start. by destruct (is_running_ _).
  - apply adjustPriorities_lists.
  - intros [= <-]. unfold attemptTaskRecovery. destruct (negb _); [done|].
    by destruct (_ <=? _).
  - apply schedulerLoop_begin_lists.
  - intros [= <-]. unfold schedulerLoop_return. destruct (dispatcher w); try done.
    by destruct (current_task_ _).
  - apply schedulerLoop_end_lists.
  - unfold deadlineMonitor_tick. destruct (negb _); [by intros [= <-]|].
    intros H. by apply monitor_scan_lists in H.
  - unfold on_store_opt. destruct (call_opt _ _ _); [|done]. simpl. by intros [= <-].
  - apply schedulerLoop_select_lists.
  - intros [= <-]. apply schedulerLoop_execute_lists.
  - intros [= <-]. apply schedulerLoop_account_lists.
  - apply schedulerLoop_reschedule_lists.
  - intros [= <-]. unfold attemptTaskRecovery_overlapped. by destruct (negb _).
Qed.

Lemma constants_kept_closed : method_closed constants_kept.
Proof.
  unfold constants_kept. split.
  - intros p t. apply same_constants_refl.
  - intros p a b c. apply same_constants_trans.
  - done.
  - intros p t. unfold suspend. by destruct (decide _).
  - intros p t. unfold resume. by destruct (decide _).
  - done.
  - intros p t t'. apply updatePriority_constants.
  - intros p now t t' Hc. exact (proj1 (mc_checkDeadlines _ misses_kept_closed p now t t' Hc)).
  - intros p d t t'. apply updateDeadlineCounter_constants.
  - done.
Qed.

(** No step changes the name (or any other constant) of a task object. *)
Lemma step_constants_kept (e : Event) (w w' : World) :
  step e w = Some w' -> store_rel constants_kept (store w) (store w').
Proof.
  intros Hs. pose proof constants_kept_closed as HR.
  destruct (is_background e) eqn:Hbg.
  - exact (step_background_rel _ HR e w w' Hbg Hs).
  - destruct e; try done.
    + refine (schedulerLoop_begin_rel _ HR _ _ _ _ _ _ _ Hs). done.
    + injection Hs as <-. apply (schedulerLoop_return_rel _ HR).
      intros _ c t _ _ _. unfold constants_kept. destruct o; simpl; [done|].
      by destruct (negb _).
    + refine (step_direct_rel _ HR _ _ _ _ _ Hs).
      intros t t' _. apply task_call_constants.
    + injection Hs as <-. apply (schedulerLoop_execute_rel _ HR). done.
Qed.

Lemma store_rel_name (h h' : Store) (p : TaskPtr) :
  store_rel constants_kept h h' -> (p < length h)%nat ->
  name_of h' p = name_of h p /\ (p < length h')%nat.
Proof.
  intros Hrel Hp. destruct (lookup_lt_is_Some_2 h p Hp) as [t Ht].
  destruct (Hrel p t Ht) as (t' & Ht' & Hc). unfold name_of, deref.
  rewrite Ht, Ht'. simpl. split; [by destruct Hc as [-> _]|].
  by eapply lookup_lt_Some.
Qed.

Lemma registry_sync_frame (w w' : World) :
  registry_sync w -> lists w' = lists w ->
  store_rel constants_kept (store w) (store w') ->
  registry_sync w'.
Proof.
  intros (Hnd & Hval & Hsync) Hl Hrel. unfold lists in Hl.
  injection Hl as Ht Ha _. unfold registry_sync. rewrite Ht, Ha.
  split; [done|]. split.
  - intros p Hp. by apply (store_rel_name _ _ p Hrel), Hval.
  - intros name p. rewrite Hsync. split; intros [Hin Hn]; (split; [done|]).
    + by rewrite (proj1 (store_rel_name _ _ p Hrel (Hval p Hin))).
    + by rewrite <- (proj1 (store_rel_name _ _ p Hrel (Hval p Hin))).
Qed.

Lemma name_of_app (h : Store) (t : Task) (p : TaskPtr) :
  (p < length h)%nat -> name_of (h ++ [t]) p = name_of h p.
Proof. intros Hp. unfold name_of, deref. by rewrite lookup_app_l. Qed.

Lemma name_of_new (h : Store) (t : Task) : name_of (h ++ [t]) (length h) = name_ t.
Proof. unfold name_of, deref. by rewrite list_lookup_middle. Qed.

Lemma createTask_registry_sync (name : string) (priority : Z)
    (policy : SchedulePolicy) (period deadline : Z) (recoverable : bool) (w : World) :
  registry_sync w ->
  registry_sync (snd (createTask name priority policy period deadline recoverable w)).
Proof.
  intros (Hnd & Hval & Hsync). unfold createTask.
  destruct (tasks_ w !! name) as [p0|] eqn:Hname; [done|].
  unfold registry_sync. simpl.
  set (t := TaskBase name priority policy period deadline 4096 recoverable).
  assert (Hfresh : length (store w) ∉ all_tasks_ (scheduler_ w)).
  { intros Hin. apply Hval in Hin. lia. }
  split; [|split].
  - apply NoDup_app. split; [done|]. split; [|apply NoDup_singleton].
    intros x Hx Hx'. apply list_elem_of_singleton in Hx'. by subst.
  - intros p Hp. rewrite length_app. simpl.
    apply elem_of_app in Hp as [Hp|Hp]; [apply Hval in Hp; lia|].
    apply list_elem_of_singleton in Hp. lia.
  - intros n p. rewrite elem_of_app, list_elem_of_singleton.
    destruct (decide (n = name)) as [->|Hne].
    + rewrite lookup_insert_eq. split.
      * intros [= <-]. split; [by right|]. by rewrite name_of_new.
      * intros [[Hin| ->] Hn]; [|done]. exfalso.
        rewrite name_of_app in Hn by (by apply Hval).
        pose proof (proj2 (Hsync name p) (conj Hin Hn)). congruence.
    + rewrite lookup_insert_ne by done. rewrite Hsync. split.
      * intros [Hin Hn]. split; [by left|].
        rewrite name_of_app by (by apply Hval). done.
      * intros [[Hin| ->] Hn].
        -- split; [done|]. by rewrite name_of_app in Hn by (by apply Hval).
        -- rewrite name_of_new in Hn. by subst.
Qed.

Lemma name_of_terminate (h : Store) (p q : TaskPtr) :
  name_of (call terminate p h) q = name_of h q.
Proof.
  unfold name_of. rewrite deref_call. destruct (decide (q = p)) as [->|]; [|done].
  unfold deref. by destruct (h !! p).
Qed.

Lemma removeTask_registry_sync (name : string) (w : World) :
  registry_sync w -> registry_sync (removeTask name w).
Proof.
  intros (Hnd & Hval & Hsync). unfold removeTask.
  destruct (tasks_ w !! name) as [p|] eqn:Hname; [|done].
  apply Hsync in Hname as [Hin Hn].
  unfold Scheduler_removeTask.
  destruct (find_by_name _ _ _ _) as [[i p']|] eqn:Hfind.
  - destruct (find_by_name_Some _ _ _ _ _ _ Hfind) as (l1 & l2 & Hl & -> & Hn' & Hab).
    assert (p' = p) as ->.
    { assert (H1 : tasks_ w !! name = Some p').
      { apply Hsync. split; [|done]. rewrite Hl. apply elem_of_app. right. by left. }
      assert (H2 : tasks_ w !! name = Some p) by (by apply Hsync).
      congruence. }
    unfold registry_sync. simpl. rewrite Hl, delete_middle_length.
    rewrite Hl in Hnd. apply NoDup_app in Hnd as (Hnd1 & Hdisj & Hnd2).
    apply NoDup_cons in Hnd2 as [Hp2 Hnd2].
    assert (Hp1 : p ∉ l1). { intros H. apply (Hdisj p H). by left. }
    split; [|split].
    + apply NoDup_app. split; [done|]. split; [|done].
      intros x Hx Hx'. apply (Hdisj x Hx). by right.
    + intros q Hq. rewrite length_call. apply Hval. rewrite Hl.
      apply elem_of_app in Hq as [Hq|Hq]; apply elem_of_app; [by left|].
      right. by right.
    + intros n q. rewrite name_of_terminate.
      destruct (decide (n = name)) as [->|Hne].
      * rewrite lookup_delete_eq. split; [done|]. intros [Hq Hnq]. exfalso.
        assert (Hq' : q ∈ all_tasks_ (scheduler_ w)).
        { rewrite Hl. apply elem_of_app in Hq as [Hq|Hq]; apply elem_of_app;
            [by left|]. right. by right. }
        assert (q = p) as ->.
        { pose proof (proj2 (Hsync name q) (conj Hq' Hnq)) as H1.
          pose proof (proj2 (Hsync name p) (conj Hin Hn)) as H2. congruence. }
        apply elem_of_app in Hq as [Hq|Hq]; done.
      * rewrite lookup_delete_ne by done. rewrite Hsync, Hl.
        rewrite !elem_of_app, elem_of_cons. split.
        -- intros [[Hq|[->|Hq]] Hnq]; [by split; [left|]| |by split; [right|]].
           congruence.
        -- intros [[Hq|Hq] Hnq]; (split; [|done]); [by left|]. right. by right.
  - exfalso. apply find_by_name_None in Hfind. by apply (Hfind p Hin).
Qed.

Lemma step_registry_sync (e : Event) (w w' : World) :
  registry_sync w -> bypasses_kernel e = false -> step e w = Some w' ->
  registry_sync w'.
Proof.
  intros HI He Hs. destruct (changes_lists e) eqn:Hch.
  - destruct e; try done; simpl in Hs; injection Hs as <-.
    + by apply createTask_registry_sync.
    + by apply removeTask_registry_sync.
  - apply (registry_sync_frame w w' HI).
    + exact (step_lists e w w' Hch Hs).
    + exact (step_constants_kept e w w' Hs).
Qed.

Lemma run_registry_sync (es : list Event) : forall w w',
  registry_sync w ->
  forallb (fun e => negb (bypasses_kernel e)) es = true ->
  run es w = Some w' -> registry_sync w'.
Proof.
  induction es as [|e es IH]; simpl; intros w w' HI Hes.
  - by intros [= <-].
  - apply andb_true_iff in Hes as [He Hes]. apply negb_true_iff in He.
    destruct (step e w) as [w1|] eqn:Hs; [|done]. simpl.
    apply IH; [|done]. by eapply step_registry_sync.
Qed.

Lemma Kernel_new_registry_sync (now : Z) : registry_sync (Kernel_new now).
Proof.
  unfold registry_sync. simpl. split; [apply NoDup_nil_2|]. split.
  - intros p Hp. by apply elem_of_nil in Hp.
  - intros name p. rewrite lookup_empty. split; [done|].
    intros [Hp _]. by apply elem_of_nil in Hp.
Qed.

Lemma registry_sync_findTask (w : World) (name : string) :
  registry_sync w -> findTask name w = getTask name w.
Proof.
  intros (Hnd & Hval & Hsync). unfold getTask.
  pose proof (findTask_lookup name w) as Hf.
  destruct (findTask name w) as [p|].
  - destruct Hf as [Hin Hn]. symmetry. by apply Hsync.
  - destruct (tasks_ w !! name) as [p|] eqn:Ht; [|done].
    apply Hsync in Ht as [Hin Hn]. by destruct (Hf p Hin).
Qed.

Lemma registry_sync_size (w : World) :
  registry_sync w -> size (tasks_ w) = length (all_tasks_ (scheduler_ w)).
Proof.
  destruct w as [h s m pc]. simpl. unfold registry_sync. simpl.
  generalize (all_tasks_ s). clear s pc. intros l. revert m.
  induction l as [|p l IH]; intros m (Hnd & Hval & Hsync).
  - simpl. apply map_size_empty_iff. apply map_eq. intros name.
    rewrite lookup_empty. destruct (m !! name) as [p|] eqn:Hm; [|done].
    apply Hsync in Hm as [Hin _]. by apply elem_of_nil in Hin.
  - apply NoDup_cons in Hnd as [Hp Hnd].
    assert (Hmp : m !! name_of h p = Some p).
    { apply Hsync. split; [by left|done]. }
    rewrite <- (insert_delete_id m (name_of h p) p Hmp).
    rewrite map_size_insert_None by apply lookup_delete_eq.
    simpl. f_equal. apply IH. split; [done|]. split.
    + intros q Hq. apply Hval. by right.
    + intros name q. split.
      * intros Hd. destruct (decide (name = name_of h p)) as [->|Hne].
        -- by rewrite lookup_delete_eq in Hd.
        -- rewrite lookup_delete_ne in Hd by done. apply Hsync in Hd as [Hin Hn].
           split; [|done]. apply elem_of_cons in Hin as [->|Hin]; [|done].
           by destruct Hne.
      * intros [Hin Hn]. destruct (decide (name = name_of h p)) as [->|Hne].
        -- exfalso. assert (H2 : m !! name_of h p = Some q).
           { apply Hsync. split; [by right|done]. }
           assert (q = p) by congruence. by subst.
        -- rewrite lookup_delete_ne by done. apply Hsync. split; [by right|done].
Qed.

(** X18.  As long as tasks are added and removed through the kernel only
    (no direct [addTask] or [removeTask] on the scheduler), the registry and
    the scheduler's list hold the same tasks in every state the system
    reaches from a new kernel: no pointer is in the list twice, no two tasks
    of the list have the same name, and the kernel's [getTask] and the
    scheduler's [findTask] return the same pointer for every name. *)
Theorem registry_in_sync (now : Z) (es : list Event) (w : World) :
  run es (Kernel_new now) = Some w ->
  forallb (fun e => negb (bypasses_kernel e)) es = true ->
  registry_sync w /\
  (forall name, findTask name w = getTask name w) /\
  (forall p q, p ∈ all_tasks_ (scheduler_ w) -> q ∈ all_tasks_ (scheduler_ w) ->
               name_of (store w) p = name_of (store w) q -> p = q) /\
  size (tasks_ w) = length (all_tasks_ (scheduler_ w)).
Proof.
  intros Hrun Hes.
  assert (HI : registry_sync w).
  { apply (run_registry_sync es (Kernel_new now) w); [|done|done].
    apply Kernel_new_registry_sync. }
  split; [done|]. split; [|split].
  - intros name. by apply registry_sync_findTask.
  - destruct HI as (_ & _ & Hsync). intros p q Hp Hq Hn.
    pose proof (proj2 (Hsync (name_of (store w) p) p) (conj Hp eq_refl)) as H1.
    pose proof (proj2 (Hsync (name_of (store w) p) q) (conj Hq (eq_sym Hn))) as H2.
    congruence.
  - by apply registry_sync_size.
Qed.

(** Three tasks created, one removed, one executed once, a fourth created
    under the name of the removed one: two lookups agree on every name. *)
Lemma registry_in_sync_witness :
  exists w,
    run [KCreateTask "A" 10 PREEMPTIVE 0 0 false;
         KCreateTask "B" 80 PREEMPTIVE 0 0 false;
         KCreateTask "C" 40 COOPERATIVE 0 0 true;
         KRemoveTask "B";
         KStart 1000000;
         DispatcherBegin 2000000 2000000 2000000 2000000;
         DispatcherReturn Throws;
         DispatcherEnd 3000000 3000000 3000000;
         KCreateTask "B" 20 PREEMPTIVE 0 0 false;
         KCreateTask "A" 99 PREEMPTIVE 0 0 false] (Kernel_new 0) = Some w /\
    findTask "B" w = getTask "B" w /\ getTask "B" w = Some 3%nat /\
    all_tasks_ (scheduler_ w) = [0%nat; 2%nat; 3%nat] /\
    size (tasks_ w) = 3%nat.
Proof.
  set (es := _ :: _).
  destruct (run es (Kernel_new 0)) as [w|] eqn:Hrun; [|by vm_compute in Hrun].
  assert (Hes : forallb (fun e => negb (bypasses_kernel e)) es = true)
    by (vm_compute; reflexivity).
  destruct (registry_in_sync 0 es w Hrun Hes) as (_ & Hfind & _ & Hsize).
  assert (Hw : getTask "B" w = Some 3%nat /\
               all_tasks_ (scheduler_ w) = [0%nat; 2%nat; 3%nat]).
  { vm_compute in Hrun. injection Hrun as <-. split; [|reflexivity].
    vm_compute. reflexivity. }
  destruct Hw as [Hb Hall].
  exists w. split; [reflexivity|]. split; [apply Hfind|]. split; [exact Hb|].
  split; [exact Hall|]. rewrite Hsize, Hall. reflexivity.
Defined.

(** X19.  With the registry and the scheduler's list in step, creating a
    task under a new name and then removing it by that name gives back the
    registry and the scheduler's list as they were: the name can be used
    again, neither lookup finds it, and the only trace is the task object
    itself, TERMINATED, which a holder of the pointer still sees (and which
    may still sit in the ready queue, where it is never selected). *)
Theorem createTask_removeTask (name : string) (priority : Z)
    (policy : SchedulePolicy) (period deadline : Z) (recoverable : bool) (w : World) :
  registry_sync w -> tasks_ w !! name = None ->
  let r := createTask name priority policy period deadline recoverable w in
  let w2 := removeTask name r.2 in
  r.1 = Some (length (store w)) /\
  tasks_ w2 = tasks_ w /\
  all_tasks_ (scheduler_ w2) = all_tasks_ (scheduler_ w) /\
  store w2
  = store w
    ++ [terminate (TaskBase name priority policy period deadline 4096 recoverable)] /\
  getTask name w2 = None /\ findTask name w2 = None /\
  registry_sync w2 /\
  (forall fuel r' w3, selectNextTask fuel w2 = Some (r', w3) ->
                      r' <> Some (length (store w))).
Proof.
  intros HI Hname. cbv zeta.
  pose proof (createTask_registry_sync name priority policy period deadline
                recoverable w HI) as HI1.
  pose proof (removeTask_registry_sync name _ HI1) as HI2.
  destruct HI as (Hnd & Hval & Hsync).
  assert (Habs : name_absent (store w) name (all_tasks_ (scheduler_ w))).
  { intros q Hq Hn. pose proof (proj2 (Hsync name q) (conj Hq Hn)). congruence. }
  revert HI1 HI2. unfold createTask. rewrite Hname. simpl.
  set (t := TaskBase name priority policy period deadline 4096 recoverable).
  set (w1 := addTask _ _). intros HI1 HI2.
  assert (Hfind : find_by_name (store w1) name 0 (all_tasks_ (scheduler_ w1))
                  = Some (length (all_tasks_ (scheduler_ w)), length (store w))).
  { unfold w1. simpl. rewrite find_by_name_app.
    assert (Hnone : find_by_name (store w ++ [t]) name 0 (all_tasks_ (scheduler_ w))
                    = None).
    { apply find_by_name_None. intros q Hq.
      rewrite name_of_app by (by apply Hval). by apply Habs. }
    rewrite Hnone. simpl.
    pose proof (name_of_new (store w) t) as Hn. unfold name_of in Hn. rewrite Hn.
    simpl. by rewrite String.eqb_refl. }
  assert (Hreg : tasks_ w1 !! name = Some (length (store w))).
  { unfold w1. simpl. apply lookup_insert_eq. }
  assert (Hw2 : removeTask name w1
                = with_tasks (delete name (tasks_ w1))
                    (with_store (call terminate (length (store w)) (store w1))
                       (with_scheduler
                          (set_task_symbols
                             (delete (length (store w))
                                (task_symbols_ (scheduler_ w1)))
                             (set_all_tasks
                                (delete (length (all_tasks_ (scheduler_ w)))
                                   (all_tasks_ (scheduler_ w1)))
                                (scheduler_ w1)))
                          w1))).
  { unfold removeTask. rewrite Hreg. unfold Scheduler_removeTask. by rewrite Hfind. }
  rewrite Hw2 in *. clear Hw2.
  assert (Hstore : call terminate (length (store w)) (store w1)
                   = store w ++ [terminate t]).
  { unfold w1, call. simpl. unfold deref. rewrite list_lookup_middle by done. simpl.
    replace (length (store w)) with (length (store w) + 0)%nat at 1 by lia.
    by rewrite insert_app_r. }
  split; [done|]. split; [|split; [|split; [|split; [|split; [|split]]]]].
  - simpl. unfold w1. simpl. rewrite delete_insert_eq.
    by apply delete_id.
  - simpl. unfold w1. simpl.
    replace (all_tasks_ (scheduler_ w) ++ [length (store w)])
      with (all_tasks_ (scheduler_ w) ++ length (store w) :: []) by done.
    rewrite delete_middle_length. by rewrite app_nil_r.
  - simpl. exact Hstore.
  - unfold getTask. simpl. apply lookup_delete_eq.
  - rewrite (registry_sync_findTask _ name HI2). unfold getTask. simpl.
    apply lookup_delete_eq.
  - exact HI2.
  - intros fuel r' w3 Hsel ->.
    apply selectNextTask_frame in Hsel as [_ Hr].
    specialize (Hr _ eq_refl). apply is_ready_spec in Hr. simpl in Hr.
    change (store w ++ [t]) with (store w1) in Hr.
    rewrite Hstore in Hr. unfold deref in Hr.
    rewrite list_lookup_middle in Hr by done. simpl in Hr. done.
Qed.

(** A kernel that holds A and B: X is created and removed again. *)
Lemma createTask_removeTask_witness :
  let w := snd (createTask "B" 80 PREEMPTIVE 0 0 false
             (snd (createTask "A" 10 PREEMPTIVE 0 0 false (Kernel_new 0)))) in
  let w2 := removeTask "X" (snd (createTask "X" 50 PREEMPTIVE 20 20 true w)) in
  registry_sync w /\ tasks_ w !! "X" = None /\
  tasks_ w2 = tasks_ w /\
  all_tasks_ (scheduler_ w2) = [0%nat; 1%nat] /\
  state_ (deref (store w2) 2%nat) = TERMINATED /\
  findTask "X" w2 = None.
Proof.
  cbv zeta. set (w := snd (createTask "B" _ _ _ _ _ _)).
  assert (HI : registry_sync w).
  { apply createTask_registry_sync, createTask_registry_sync,
      Kernel_new_registry_sync. }
  assert (Hx : tasks_ w !! "X" = None) by (vm_compute; reflexivity).
  destruct (createTask_removeTask "X" 50 PREEMPTIVE 20 20 true w HI Hx)
    as (_ & Ht & Ha & Hs & _ & Hf & _).
  split; [exact HI|]. split; [exact Hx|]. split; [exact Ht|].
  split; [rewrite Ha; reflexivity|]. split; [rewrite Hs; reflexivity|exact Hf].
Defined.

(** ** Suspending and resuming by name *)

Lemma state_suspend_not_ready (h : Store) (p : TaskPtr) :
  state_ (deref (call suspend p h) p) <> READY.
Proof.
  rewrite deref_call, decide_True by done.
  destruct (h !! p) as [t|]; [|done]. unfold suspend.
  destruct (decide _) as [Hn|Hn]; [done|].
  destruct (state_ t) eqn:E; try done. by destruct Hn.
Qed.

(** X20.  [Kernel::suspendTask] and [Kernel::resumeTask] never return,
    whatever the name and the state of the system: each takes
    [kernel_mutex_] and then calls [getTask], which takes it again.  So no
    sequence of operations that have all returned holds one of them, and a
    task is suspended or resumed only through its own methods, on the
    pointer that [createTask] returned.  These act on the task object only
    and leave the scheduler, its ready queue included, as it is: a suspended
    task keeps its place in the queue but is not selected, and a resumed
    task is not put back in the queue. *)
Theorem suspendTask_never_returns :
  (forall name w, suspendTask name w = None /\ resumeTask name w = None) /\
  (forall es w w',
     run es w = Some w' -> forallb (fun e => negb (by_name e)) es = true) /\
  (forall p w t,
     store w !! p = Some t ->
     exists w1 w2,
       step (TaskMethod p CSuspend) w = Some w1 /\
       step (TaskMethod p CResume) w = Some w2 /\
       store w1 = <[p := suspend t]> (store w) /\
       store w2 = <[p := resume t]> (store w) /\
       scheduler_ w1 = scheduler_ w /\ scheduler_ w2 = scheduler_ w /\
       tasks_ w1 = tasks_ w /\ tasks_ w2 = tasks_ w /\
       forall fuel r w', selectNextTask fuel w1 = Some (r, w') -> r <> Some p).
Proof.
  split; [|split].
  - intros name w. by split.
  - induction es as [|e es IH]; intros w w' Hrun; [done|].
    simpl in Hrun. destruct (step e w) as [w1|] eqn:Hs; [|done]. simpl in Hrun.
    simpl. rewrite (IH w1 w' Hrun), andb_true_r.
    destruct e; try done; simpl in Hs; discriminate.
  - intros p w t Hp. do 2 eexists. simpl. unfold on_store_opt, call_opt. simpl.
    rewrite (deref_lookup _ _ _ Hp). simpl.
    split; [reflexivity|]. split; [reflexivity|]. simpl.
    repeat (split; [reflexivity|]).
    intros fuel r w' Hsel ->. apply selectNextTask_frame in Hsel as [_ Hr].
    specialize (Hr p eq_refl). apply is_ready_spec in Hr. simpl in Hr.
    unfold deref in Hr. rewrite list_lookup_insert_eq in Hr
      by (by eapply lookup_lt_Some).
    simpl in Hr. unfold suspend in Hr.
    destruct (decide _) as [Hn|Hn]; [done|].
    destruct (state_ t) eqn:E; try done. by destruct Hn.
Qed.

(** A is created and suspended through its pointer: it stays in the queue
    and is not selected. *)
Lemma suspendTask_never_returns_witness :
  exists w w1,
    run [KCreateTask "A" 10 PREEMPTIVE 0 0 false] (Kernel_new 0) = Some w /\
    run [KCreateTask "A" 10 PREEMPTIVE 0 0 false; KSuspendTask "A"] (Kernel_new 0)
    = None /\
    step (TaskMethod 0%nat CSuspend) w = Some w1 /\
    ready_queue_ (scheduler_ w1) = [0%nat] /\
    fst <$> selectNextTask (select_fuel w1) w1 = Some None.
Proof.
  destruct (run [KCreateTask "A" 10 PREEMPTIVE 0 0 false] (Kernel_new 0))
    as [w|] eqn:Hrun; [|by vm_compute in Hrun].
  destruct (store w !! 0%nat) as [t|] eqn:Ht;
    [|by vm_compute in Hrun; injection Hrun as <-; vm_compute in Ht].
  destruct suspendTask_never_returns as (_ & _ & Hdirect).
  destruct (Hdirect 0%nat w t Ht) as (w1 & w2 & H1 & _ & _ & _ & Hs1 & _).
  exists w, w1. split; [reflexivity|]. split; [vm_compute; reflexivity|].
  split; [exact H1|]. rewrite Hs1.
  vm_compute in Hrun. injection Hrun as <-. split; [reflexivity|].
  vm_compute in H1. injection H1 as <-. vm_compute. reflexivity.
Defined.

(** ** When the dispatcher puts a task back in the ready queue *)

Lemma adjustPriorities_deref (w w' : World) (p : TaskPtr) :
  adjustPriorities w = Some w' ->
  state_ (deref (store w') p) = state_ (deref (store w) p).
Proof.
  intros Ha. pose proof (length_adjustPriorities w w' Ha) as Hlen.
  unfold adjustPriorities in Ha.
  destruct (for_each _ _ _) as [h|] eqn:Hf; [|done]. simpl in Ha.
  injection Ha as <-. simpl in *. unfold deref.
  destruct (store w !! p) as [t|] eqn:Hp.
  - destruct (for_each_updatePriority_lookup _ _ _ Hf p t Hp) as (t' & -> & _ & Hst & _).
    done.
  - apply lookup_ge_None in Hp. rewrite (proj2 (lookup_ge_None h p)) by lia. done.
Qed.

Lemma adjustPriorities_sched (w w' : World) :
  adjustPriorities w = Some w' ->
  scheduler_ w' = set_ready_queue (ready_queue_ (scheduler_ w')) (scheduler_ w) /\
  dispatcher w' = dispatcher w /\
  forall p, p ∈ ready_queue_ (scheduler_ w') <->
            p ∈ ready_queue_ (scheduler_ w) /\
            state_ (deref (store w') p) = READY.
Proof.
  unfold adjustPriorities.
  destruct (for_each _ _ _) as [h|] eqn:Hf; [|done]. simpl. intros [= <-]. simpl.
  split; [done|]. split; [done|].
  intros p. rewrite elem_of_push_ready, elem_of_nil, is_ready_spec. tauto.
Qed.

Lemma schedulerLoop_tail_requeue (now t_static : Z) (w w' : World) (task : TaskPtr) :
  current_task_ (scheduler_ w) = Some task ->
  schedulerLoop_tail now t_static w = Some w' ->
  let go := time_slice_expired now w task || force_reschedule_ (scheduler_ w) in
  dispatcher w' = (if adjustment_due now t_static w then Blocked else AtLoopHead) /\
  store w' = store w /\
  force_reschedule_ (scheduler_ w') = false /\
  current_task_ (scheduler_ w') = (if go then None else Some task) /\
  last_schedule_time_ (scheduler_ w')
  = (if go then now else last_schedule_time_ (scheduler_ w)) /\
  (go = true -> state_ (deref (store w) task) = READY ->
   task ∈ ready_queue_ (scheduler_ w')) /\
  (go = false -> ready_queue_ (scheduler_ w') = ready_queue_ (scheduler_ w)).
Proof.
  intros Hcur. unfold schedulerLoop_tail, adjustment_due. rewrite Hcur.
  assert (Hex : (if bool_decide (policy_ (deref (store w) task) = PREEMPTIVE)
                    && (bool_decide (preemption_mode_ (scheduler_ w) = TIME_SLICE)
                        || bool_decide (preemption_mode_ (scheduler_ w) = HYBRID))
                 then ms_to_ns (time_slice_ (scheduler_ w))
                      <=? now - last_schedule_time_ (scheduler_ w)
                 else false)
                = time_slice_expired now w task).
  { unfold time_slice_expired. by destruct (_ && _). }
  rewrite Hex. cbv zeta.
  destruct (time_slice_expired now w task || force_reschedule_ (scheduler_ w))
    eqn:Ego.
  - assert (Hq : state_ (deref (store w) task) = READY ->
                 task ∈ (if is_ready (store w) task
                         then pq_push (store w) task (ready_queue_ (scheduler_ w))
                         else ready_queue_ (scheduler_ w))).
    { intros Hr. apply is_ready_spec in Hr. rewrite Hr.
      apply elem_of_pq_push. by left. }
    simpl. destruct (_ <? _); simpl; intros [= <-]; simpl;
      (split; [done|]); (split; [done|]); (split; [done|]); (split; [done|]);
      (split; [done|]); (split; [|done]); intros _ Hr; by apply Hq.
  - apply orb_false_iff in Ego as [_ Hf].
    destruct (_ <? _); simpl; intros [= <-]; simpl; by repeat split.
Qed.

Lemma deref_call_fields (f : Task -> Task) (h : Store) (p q : TaskPtr) :
  (forall t, policy_ (f t) = policy_ t /\ recoverable_ (f t) = recoverable_ t) ->
  policy_ (deref (call f p h) q) = policy_ (deref h q) /\
  recoverable_ (deref (call f p h) q) = recoverable_ (deref h q).
Proof.
  intros Hf. rewrite deref_call. destruct (decide (q = p)) as [->|]; [|done].
  unfold deref. destruct (h !! p) as [t|]; [apply Hf|done].
Qed.

(** What the accounting after [execute()] leaves for the reschedule test. *)
Lemma schedulerLoop_account_fields (t_end : Z) (w : World) (start_time : Z)
    (task : TaskPtr) :
  dispatcher w = AfterExecute start_time ->
  current_task_ (scheduler_ w) = Some task ->
  let w1 := schedulerLoop_account t_end w in
  dispatcher w1 = BeforeReschedule /\
  current_task_ (scheduler_ w1) = Some task /\
  force_reschedule_ (scheduler_ w1) = false /\
  (forall now, time_slice_expired now w1 task = time_slice_expired now w task) /\
  last_schedule_time_ (scheduler_ w1) = last_schedule_time_ (scheduler_ w) /\
  last_priority_adjustment (scheduler_ w1) = last_priority_adjustment (scheduler_ w) /\
  (recoverable_ (deref (store w) task) = false ->
   ready_queue_ (scheduler_ w1) = ready_queue_ (scheduler_ w)).
Proof.
  intros Hpc Hcur. cbv zeta. unfold schedulerLoop_account. rewrite Hpc, Hcur.
  set (w2 := on_store (call (updateStatistics _) task) w).
  set (w3 := on_sched _ w2).
  set (w4 := if _ && _ then _ else w3).
  assert (Hf3 : policy_ (deref (store w3) task) = policy_ (deref (store w) task) /\
                recoverable_ (deref (store w3) task)
                = recoverable_ (deref (store w) task)).
  { unfold w3, w2. simpl. by apply deref_call_fields. }
  destruct Hf3 as [Hp3 Hr3].
  assert (H4 : policy_ (deref (store w4) task) = policy_ (deref (store w) task) /\
               preemption_mode_ (scheduler_ w4) = preemption_mode_ (scheduler_ w) /\
               time_slice_ (scheduler_ w4) = time_slice_ (scheduler_ w) /\
               last_schedule_time_ (scheduler_ w4) = last_schedule_time_ (scheduler_ w) /\
               current_task_ (scheduler_ w4) = Some task /\
               last_priority_adjustment (scheduler_ w4)
               = last_priority_adjustment (scheduler_ w) /\
               (recoverable_ (deref (store w) task) = false ->
                ready_queue_ (scheduler_ w4) = ready_queue_ (scheduler_ w))).
  { unfold w4. destruct (_ && _) eqn:Hrec.
    - apply andb_true_iff in Hrec as [_ Hrec]. rewrite Hr3 in Hrec.
      unfold attemptTaskRecovery. rewrite Hr3, Hrec. simpl.
      destruct (_ <=? _); simpl.
      + by repeat split; try done; intros; congruence.
      + split; [|by repeat split; try done; intros; congruence].
        rewrite <- Hp3. by apply deref_call_fields.
    - by repeat split. }
  destruct H4 as (Hp4 & Hm4 & Hts4 & Hl4 & Hc4 & Ha4 & Hq4).
  simpl. split; [done|]. split; [done|]. split; [done|]. split.
  - intros now. unfold time_slice_expired. simpl. by rewrite Hp4, Hm4, Hts4, Hl4.
  - split; [done|]. split; [done|]. exact Hq4.
Qed.

(** X21.  At the end of an iteration in which it executed a task, the
    dispatcher puts the task back in the ready queue (when it is READY), and
    gives up its current task, exactly in two cases: the time slice has
    expired (the task is PREEMPTIVE, the mode is TIME_SLICE or HYBRID, and at
    least [time_slice_] has passed since [last_schedule_time_]), or a
    [yield()] has arrived after line 217, where the dispatcher clears
    [force_reschedule_] itself; [last_schedule_time_] is moved only then, and
    the flag is clear afterwards.  Otherwise the task stays the current task
    and nothing is added to the queue, unless the task is recovered.  The
    iteration ends at the head of the loop, unless more than one second has
    passed since the last adjustment of the priorities (since the first
    iteration when there was none): then the dispatcher calls
    [adjustPriorities()] with the mutex held, and stays blocked in it. *)
Theorem requeue_only_on_expiry (t_end now t_static : Z) (yielded : bool)
    (w w' : World) (start_time : Z) (task : TaskPtr) :
  dispatcher w = AfterExecute start_time ->
  current_task_ (scheduler_ w) = Some task ->
  run (end_of_iteration t_end now t_static yielded) w = Some w' ->
  let go := time_slice_expired now w task || yielded in
  dispatcher w' = (if adjustment_due now t_static w then Blocked else AtLoopHead) /\
  force_reschedule_ (scheduler_ w') = false /\
  current_task_ (scheduler_ w') = (if go then None else Some task) /\
  last_schedule_time_ (scheduler_ w')
  = (if go then now else last_schedule_time_ (scheduler_ w)) /\
  (go = true -> state_ (deref (store w') task) = READY ->
   task ∈ ready_queue_ (scheduler_ w')) /\
  (go = false -> recoverable_ (deref (store w) task) = false ->
   ready_queue_ (scheduler_ w') = ready_queue_ (scheduler_ w)).
Proof.
  intros Hpc Hcur Hrun. cbv zeta.
  destruct (schedulerLoop_account_fields t_end w start_time task Hpc Hcur)
    as (Hpc1 & Hcur1 & Hf1 & Hex1 & Hl1 & Ha1 & Hq1).
  set (w1 := schedulerLoop_account t_end w) in *.
  set (w2 := if yielded then yield w1 else w1).
  assert (Hrun2 : schedulerLoop_tail now t_static w2 = Some w').
  { unfold end_of_iteration in Hrun. simpl in Hrun. fold w1 in Hrun.
    unfold w2. destruct yielded; simpl in Hrun.
    - unfold schedulerLoop_reschedule in Hrun. simpl in Hrun.
      rewrite Hpc1 in Hrun. by destruct (schedulerLoop_tail _ _ _).
    - unfold schedulerLoop_reschedule in Hrun. rewrite Hpc1 in Hrun.
      by destruct (schedulerLoop_tail _ _ _). }
  assert (H2 : current_task_ (scheduler_ w2) = Some task /\
               force_reschedule_ (scheduler_ w2) = yielded /\
               time_slice_expired now w2 task = time_slice_expired now w task /\
               last_schedule_time_ (scheduler_ w2) = last_schedule_time_ (scheduler_ w) /\
               adjustment_due now t_static w2 = adjustment_due now t_static w /\
               store w2 = store w1 /\
               ready_queue_ (scheduler_ w2) = ready_queue_ (scheduler_ w1)).
  { unfold w2, adjustment_due. destruct yielded; simpl.
    - rewrite <- (Hex1 now), Hl1, Ha1. by repeat split.
    - rewrite <- (Hex1 now), Hl1, Ha1, Hf1. by repeat split. }
  destruct H2 as (Hcur2 & Hf2 & Hex2 & Hl2 & Had2 & Hst2 & Hq2).
  destruct (schedulerLoop_tail_requeue now t_static w2 w' task Hcur2 Hrun2)
    as (R1 & R2 & R3 & R4 & R5 & R6 & R7).
  cbv zeta in *. rewrite Hex2, Hf2 in *. rewrite Had2 in R1. rewrite Hl2 in R5.
  split; [exact R1|]. split; [exact R3|]. split; [exact R4|]. split; [exact R5|].
  split.
  - intros Hgo Hr. apply R6; [exact Hgo|]. by rewrite <- R2.
  - intros Hgo Hrec. rewrite (R7 Hgo), Hq2. by apply Hq1.
Qed.

(** B, PREEMPTIVE under HYBRID with a slice of 50 ms started at 1 ms: an
    iteration that ends at 3 ms keeps B as the current task and does not
    queue it; with a [yield()] just before the test it queues B again; and
    so does one that ends at 60 ms.  One that ends after 2 s leaves the
    dispatcher blocked. *)
Lemma requeue_only_on_expiry_witness :
  exists w w1 w2 w3 w4,
    run [KCreateTask "B" 80 PREEMPTIVE 0 0 false; KStart 1000000;
         DispatcherBegin 2000000 2000000 2000000 2000000;
         DispatcherReturn Returns] (Kernel_new 0) = Some w /\
    run (end_of_iteration 3000000 3000000 3000000 false) w = Some w1 /\
    current_task_ (scheduler_ w1) = Some 0%nat /\
    ready_queue_ (scheduler_ w1) = [] /\
    dispatcher w1 = AtLoopHead /\
    run (end_of_iteration 3000000 3000000 3000000 true) w = Some w2 /\
    current_task_ (scheduler_ w2) = None /\
    0%nat ∈ ready_queue_ (scheduler_ w2) /\
    run (end_of_iteration 60000000 60000000 60000000 false) w = Some w3 /\
    current_task_ (scheduler_ w3) = None /\
    0%nat ∈ ready_queue_ (scheduler_ w3) /\
    run (end_of_iteration 2003000000 2003000000 3000000 false) w = Some w4 /\
    dispatcher w4 = Blocked.
Proof.
  set (es := _ :: _).
  destruct (run es (Kernel_new 0)) as [w|] eqn:Hrun; [|by vm_compute in Hrun].
  assert (Hw : dispatcher w = AfterExecute 2000000 /\
               current_task_ (scheduler_ w) = Some 0%nat /\
               time_slice_expired 3000000 w 0%nat = false /\
               time_slice_expired 60000000 w 0%nat = true /\
               adjustment_due 3000000 3000000 w = false /\
               adjustment_due 2003000000 3000000 w = true /\
               ready_queue_ (scheduler_ w) = [] /\
               recoverable_ (deref (store w) 0%nat) = false).
  { vm_compute in Hrun. injection Hrun as <-. by repeat split. }
  destruct Hw as (Hpc & Hcur & He1 & He2 & Ha1 & Ha4 & Hq & Hrec).
  destruct (run (end_of_iteration 3000000 3000000 3000000 false) w) as [w1|] eqn:H1;
    [|by vm_compute in Hrun; injection Hrun as <-; vm_compute in H1].
  destruct (run (end_of_iteration 3000000 3000000 3000000 true) w) as [w2|] eqn:H2;
    [|by vm_compute in Hrun; injection Hrun as <-; vm_compute in H2].
  destruct (run (end_of_iteration 60000000 60000000 60000000 false) w)
    as [w3|] eqn:H3;
    [|by vm_compute in Hrun; injection Hrun as <-; vm_compute in H3].
  destruct (run (end_of_iteration 2003000000 2003000000 3000000 false) w)
    as [w4|] eqn:H4;
    [|by vm_compute in Hrun; injection Hrun as <-; vm_compute in H4].
  pose proof (requeue_only_on_expiry _ _ _ _ w w1 _ _ Hpc Hcur H1) as R1.
  pose proof (requeue_only_on_expiry _ _ _ _ w w2 _ _ Hpc Hcur H2) as R2.
  pose proof (requeue_only_on_expiry _ _ _ _ w w3 _ _ Hpc Hcur H3) as R3.
  pose proof (requeue_only_on_expiry _ _ _ _ w w4 _ _ Hpc Hcur H4) as R4.
  cbv zeta in R1, R2, R3, R4.
  rewrite He1, Ha1 in R1. rewrite He1, Ha1 in R2. rewrite He2 in R3.
  rewrite Ha4 in R4. cbn [orb] in R1, R2, R3.
  destruct R1 as (Hd1 & _ & Hc1 & _ & _ & Hq1).
  destruct R2 as (_ & _ & Hc2 & _ & Hq2 & _).
  destruct R3 as (_ & _ & Hc3 & _ & Hq3 & _).
  destruct R4 as (Hd4 & _).
  assert (Hs2 : state_ (deref (store w2) 0%nat) = READY).
  { vm_compute in Hrun. injection Hrun as <-. vm_compute in H2.
    by injection H2 as <-. }
  assert (Hs3 : state_ (deref (store w3) 0%nat) = READY).
  { vm_compute in Hrun. injection Hrun as <-. vm_compute in H3.
    by injection H3 as <-. }
  exists w, w1, w2, w3, w4. split; [reflexivity|]. split; [exact H1|].
  split; [exact Hc1|]. split; [by rewrite (Hq1 eq_refl Hrec)|].
  split; [exact Hd1|]. split; [exact H2|]. split; [exact Hc2|].
  split; [by apply Hq2|]. split; [exact H3|]. split; [exact Hc3|].
  split; [by apply Hq3|]. split; [exact H4|exact Hd4].
Defined.

(** ** Properties that hold of every task object in every reachable state *)

Section TaskInvariant.

Variable P : Task -> Prop.

Hypothesis P_new :
  forall name priority policy period deadline stack_size recoverable,
    P (TaskBase name priority policy period deadline stack_size recoverable).

Hypothesis P_call : forall c t t', P t -> task_call c t = Some t' -> P t'.

Lemma keeps_invariant_closed : method_closed (keeps_invariant P).
Proof.
  unfold keeps_invariant. split.
  - done.
  - intros p a b c Hab Hbc Ha. auto.
  - intros p t Ht. by apply (P_call CTerminate t).
  - intros p t Ht. by apply (P_call CSuspend t).
  - intros p t Ht. by apply (P_call CResume t).
  - intros p t _ Ht. by apply (P_call (CSetState READY) t).
  - intros p t t' Hu Ht. by apply (P_call CUpdatePriority t).
  - intros p now t t' Hc Ht. rewrite checkDeadlines_task_overdue in Hc.
    destruct (overdue now t).
    + by apply (P_call CRecordDeadlineMiss t).
    + by injection Hc as <-.
  - intros p d t t' Hc Ht. by apply (P_call (CUpdateDeadlineCounter d) t).
  - intros p d t Ht. by apply (P_call (CUpdateStatistics d) t).
Qed.

Lemma step_keeps_invariant (e : Event) (w w' : World) :
  step e w = Some w' -> store_rel (keeps_invariant P) (store w) (store w').
Proof.
  intros Hs. pose proof keeps_invariant_closed as HR.
  destruct (is_background e) eqn:Hbg.
  - exact (step_background_rel _ HR e w w' Hbg Hs).
  - destruct e; try done.
    + refine (schedulerLoop_begin_rel _ HR _ _ _ _ _ _ _ Hs).
      intros p t _ Ht.
      apply (P_call (CExecuteBegin t_exec) (setState RUNNING t)); [|done].
      by apply (P_call (CSetState RUNNING) t).
    + injection Hs as <-. apply (schedulerLoop_return_rel _ HR).
      intros _ c t _ _ _ Ht. by apply (P_call (CExecuteEnd o) t).
    + refine (step_direct_rel _ HR _ _ _ _ _ Hs).
      intros t t' _ Hc Ht. by apply (P_call c t).
    + injection Hs as <-. apply (schedulerLoop_execute_rel _ HR).
      intros _ p t _ _ _ Ht.
      apply (P_call (CExecuteBegin t_exec) (setState RUNNING t)); [|done].
      by apply (P_call (CSetState RUNNING) t).
Qed.

Lemma step_all_tasks_satisfy (e : Event) (w w' : World) :
  all_tasks_satisfy P w -> step e w = Some w' -> all_tasks_satisfy P w'.
Proof.
  intros HI Hs p t' Hp.
  pose proof (step_keeps_invariant e w w' Hs) as Hrel.
  destruct (store w !! p) as [t|] eqn:Hp0.
  - destruct (Hrel p t Hp0) as (t2 & Hp2 & HR). rewrite Hp in Hp2.
    injection Hp2 as <-. apply HR. by apply (HI p).
  - apply lookup_ge_None in Hp0.
    destruct (step_store_extent e w w' Hs)
      as [Hlen|(n & pr & po & pe & d & ss & r & Hh)].
    + apply lookup_lt_Some in Hp. lia.
    + rewrite Hh in Hp. rewrite lookup_app_r in Hp by done.
      destruct (p - length (store w))%nat; simpl in Hp; [|done].
      injection Hp as <-. apply P_new.
Qed.

Lemma run_all_tasks_satisfy (es : list Event) : forall w w',
  all_tasks_satisfy P w -> run es w = Some w' -> all_tasks_satisfy P w'.
Proof.
  induction es as [|e es IH]; simpl; intros w w' HI.
  - by intros [= <-].
  - destruct (step e w) as [w1|] eqn:Hs; [|done]. simpl.
    apply IH. by eapply step_all_tasks_satisfy.
Qed.

Lemma reachable_all_tasks_satisfy (now : Z) (es : list Event) (w : World) :
  run es (Kernel_new now) = Some w -> all_tasks_satisfy P w.
Proof.
  apply run_all_tasks_satisfy. intros p t Hp. simpl in Hp. by destruct p.
Qed.

End TaskInvariant.


(** ** Operations that are defined *)









Lemma counter_ok_call (c : TaskCall) (t t' : Task) :
  counter_ok t -> task_call c t = Some t' -> counter_ok t'.
Proof.
  unfold counter_ok. intros Ht.
  destruct c; simpl; try (intros [= <-]); simpl; try done; try lia.
  - destruct o; simpl; [done|]. by destruct (negb _).
  - unfold suspend. by destruct (decide _).
  - unfold resume. by destruct (decide _).
  - intros Hr. pose proof (recordDeadlineMiss_statistics t t' Hr) as Hs.
    pose proof (recordDeadlineMiss_constants t t' Hr) as (_ & _ & _ & _ & Hd & _).
    rewrite Hs, Hd. done.
  - intros Hu. pose proof (updatePriority_statistics t t' Hu) as [Hs _].
    pose proof (updatePriority_constants t t' Hu) as (_ & _ & _ & _ & Hd & _).
    rewrite Hs, Hd. done.
  - unfold updateDeadlineCounter.
    destruct (Z.ltb_spec 0 (deadline_ t)); [|by intros [= <-]]. simpl.
    destruct (Z.ltb_spec (deadline_ t) (deadline_counter (statistics_ t) + elapsed)).
    + destruct (recordDeadlineMiss _) as [t2|] eqn:Hr; [|done]. simpl.
      intros [= <-]. simpl.
      pose proof (recordDeadlineMiss_constants _ _ Hr) as (_ & _ & _ & _ & Hd & _).
      simpl in Hd. lia.
    + intros [= <-]. simpl. lia.
Qed.

(** X23.  In every state the system reaches from a new kernel, by whatever
    operations, the deadline counter of every task object is at most its
    deadline (at most 0 for a task without a deadline): a counter that passes
    the deadline is cleared in the same call that records the miss. *)
Theorem deadline_counter_bounded (now : Z) (es : list Event) (w : World)
    (p : TaskPtr) (t : Task) :
  run es (Kernel_new now) = Some w -> store w !! p = Some t ->
  deadline_counter (statistics_ t) <= Z.max 0 (deadline_ t).
Proof.
  intros Hrun Hp.
  refine (reachable_all_tasks_satisfy counter_ok _ counter_ok_call
            now es w Hrun p t Hp).
  intros. unfold counter_ok. simpl. lia.
Qed.


Lemma deadline_counter_bounded_witness :
  exists w t,
    run [KCreateTask "D" 50 PREEMPTIVE 0 100 false;
         KCreateTask "Z" 50 PREEMPTIVE 0 0 false;
         KStart 1000000;
         MonitorTick 0 60000000;
         MonitorTick 0 90000000;
         TaskMethod 0%nat (CUpdateDeadlineCounter 5)] (Kernel_new 0) = Some w /\
    store w !! 0%nat = Some t /\
    deadline_ t = 100 /\ deadline_counter (statistics_ t) <= 100.
Proof.
  set (es := _ :: _).
  destruct (run es (Kernel_new 0)) as [w|] eqn:Hrun; [|by vm_compute in Hrun].
  destruct (store w !! 0%nat) as [t|] eqn:Hp;
    [|by vm_compute in Hrun; injection Hrun as <-; vm_compute in Hp].
  pose proof (deadline_counter_bounded 0 es w 0%nat t Hrun Hp) as Hc.
  assert (Hd : deadline_ t = 100).
  { vm_compute in Hrun. injection Hrun as <-. vm_compute in Hp.
    by injection Hp as <-. }
  rewrite Hd in Hc.
  exists w, t. split; [reflexivity|]. split; [exact Hp|]. split; [exact Hd|].
  lia.
Defined.

(** ** Failures of the handler and the recovery counter *)

(** X24.  A failure of the handler never reaches the recovery of the
    scheduler.  [execute()] itself sets a recoverable task READY when its
    handler throws, and a task that is not recoverable is never recovered; so
    when the dispatcher comes back from the execution, its test "TERMINATED
    and recoverable" fails, [attemptTaskRecovery] is not called and
    [recovery_attempts_] does not move.  A recoverable task whose handler
    throws every time is READY after every execution, without limit: the cap
    of 3 only counts recoveries of tasks that were terminated by other
    means. *)
Theorem handler_failure_bypasses_recovery (w w' : World) (start_time : Z)
    (task : TaskPtr) (t : Task) (o : HandlerOutcome) (t_end now t_static : Z) :
  dispatcher w = InHandler start_time ->
  current_task_ (scheduler_ w) = Some task ->
  store w !! task = Some t ->
  run [DispatcherReturn o; DispatcherEnd t_end now t_static] w = Some w' ->
  recovery_attempts_ (scheduler_ w') = recovery_attempts_ (scheduler_ w) /\
  state_ (deref (store w') task)
  = match o with
    | Returns => READY
    | Throws => if recoverable_ t then READY else TERMINATED
    end.
Proof.
  intros Hpc Hcur Hp Hrun.
  destruct (return_end_recovery w w' start_time task t o t_end now t_static
              Hpc Hcur Hp Hrun) as [Ha Hs].
  split; [exact Ha|exact Hs].
Qed.

(** A recoverable task whose handler throws five times in a row: READY each
    time, the recovery counter still 0. *)
Lemma handler_failure_bypasses_recovery_witness :
  exists w w',
    run [KCreateTask "F" 50 PREEMPTIVE 0 0 true; KStart 1000000;
         DispatcherBegin 2000000 2000000 2000000 2000000;
         DispatcherReturn Throws; DispatcherEnd 3000000 3000000 3000000;
         DispatcherBegin 4000000 4000000 4000000 4000000;
         DispatcherReturn Throws; DispatcherEnd 5000000 5000000 5000000;
         DispatcherBegin 6000000 6000000 6000000 6000000;
         DispatcherReturn Throws; DispatcherEnd 7000000 7000000 7000000;
         DispatcherBegin 8000000 8000000 8000000 8000000;
         DispatcherReturn Throws; DispatcherEnd 9000000 9000000 9000000;
         DispatcherBegin 10000000 10000000 10000000 10000000]
        (Kernel_new 0) = Some w /\
    execution_count (statistics_ (deref (store w) 0%nat)) = 5 /\
    run [DispatcherReturn Throws; DispatcherEnd 11000000 11000000 11000000] w
    = Some w' /\
    recovery_attempts_ (scheduler_ w') = 0 /\
    state_ (deref (store w') 0%nat) = READY.
Proof.
  set (es := _ :: _).
  destruct (run es (Kernel_new 0)) as [w|] eqn:Hrun; [|by vm_compute in Hrun].
  destruct (store w !! 0%nat) as [t|] eqn:Hp;
    [|by vm_compute in Hrun; injection Hrun as <-; vm_compute in Hp].
  destruct (run [DispatcherReturn Throws; DispatcherEnd 11000000 11000000 11000000] w)
    as [w'|] eqn:H2;
    [|by vm_compute in Hrun; injection Hrun as <-; vm_compute in H2].
  assert (Hw : dispatcher w = InHandler 10000000 /\
               current_task_ (scheduler_ w) = Some 0%nat /\
               recovery_attempts_ (scheduler_ w) = 0 /\
               execution_count (statistics_ (deref (store w) 0%nat)) = 5 /\
               recoverable_ t = true).
  { vm_compute in Hrun. injection Hrun as <-. vm_compute in Hp.
    injection Hp as <-. by repeat split. }
  destruct Hw as (Hpc & Hcur & Ha & Hc & Hr).
  destruct (handler_failure_bypasses_recovery w w' _ 0%nat t Throws _ _ _
              Hpc Hcur Hp H2) as [Ha' Hs'].
  rewrite Hr in Hs'. rewrite Ha in Ha'.
  exists w, w'. split; [reflexivity|]. split; [exact Hc|]. split; [exact H2|].
  split; [exact Ha'|exact Hs'].
Defined.

(** ** [attemptTaskRecovery] on a task that is not TERMINATED *)

Lemma filter_pq_push (h : Store) (x p : TaskPtr) (q : list TaskPtr) :
  length (filter (fun y => y = p) (pq_push h x q))
  = (length (filter (fun y => y = p) q) + (if decide (x = p) then 1 else 0))%nat.
Proof.
  induction q as [|y q IH]; simpl.
  - rewrite filter_cons, filter_nil. destruct (decide (x = p)); done.
  - destruct (TaskPriorityCompare h y x).
    + rewrite (filter_cons _ x). destruct (decide (x = p)); simpl; lia.
    + rewrite !(filter_cons _ y). destruct (decide (y = p)); simpl; rewrite IH; lia.
Qed.

Lemma length_pq_push (h : Store) (x : TaskPtr) (q : list TaskPtr) :
  length (pq_push h x q) = S (length q).
Proof.
  induction q as [|y q IH]; simpl; [done|].
  destruct (TaskPriorityCompare h y x); simpl; [done|]. by rewrite IH.
Qed.

(** X26.  [attemptTaskRecovery] does not look at the state of the task.  For
    a recoverable task and a counter below 3 it succeeds in whatever state
    the task is: RUNNING, SUSPENDED or already READY, the task is set READY,
    one attempt is counted, and one more entry for the task is pushed on the
    ready queue, next to any entry it already has.  For a task that is not
    recoverable it does nothing and fails. *)
Theorem attemptTaskRecovery_any_state (task : TaskPtr) (w : World) :
  (recoverable_ (deref (store w) task) = false ->
   attemptTaskRecovery task w = (false, w)) /\
  (recoverable_ (deref (store w) task) = true ->
   0 <= recovery_attempts_ (scheduler_ w) < 3 ->
   exists w',
     attemptTaskRecovery task w = (true, w') /\
     state_ (deref (store w') task) = READY /\
     recovery_attempts_ (scheduler_ w') = recovery_attempts_ (scheduler_ w) + 1 /\
     queue_entries task w' = S (queue_entries task w) /\
     length (ready_queue_ (scheduler_ w'))
     = S (length (ready_queue_ (scheduler_ w)))).
Proof.
  split.
  - intros Hr. unfold attemptTaskRecovery. by rewrite Hr.
  - intros Hr Ha.
    destruct (attemptTaskRecovery_granted task w Hr Ha)
      as (w' & H1 & H2 & H3 & H4 & H5 & H6 & H7).
    exists w'. split; [done|]. split; [done|]. split; [done|].
    unfold queue_entries. rewrite H4, filter_pq_push, length_pq_push.
    rewrite decide_True by done. split; [lia|done].
Qed.

(** A recoverable task that is READY and in the queue is "recovered": it
    has two entries in the queue afterwards. *)
Lemma attemptTaskRecovery_any_state_witness :
  let w := snd (createTask "R" 50 PREEMPTIVE 0 0 true (Kernel_new 0)) in
  state_ (deref (store w) 0%nat) = READY /\
  exists w',
    attemptTaskRecovery 0%nat w = (true, w') /\
    ready_queue_ (scheduler_ w') = [0%nat; 0%nat] /\
    recovery_attempts_ (scheduler_ w') = 1.
Proof.
  cbv zeta. set (w := snd _). split; [reflexivity|].
  destruct (attemptTaskRecovery_any_state 0%nat w) as [_ Hrec].
  assert (Ha0 : recovery_attempts_ (scheduler_ w) = 0) by reflexivity.
  destruct Hrec as (w' & H1 & _ & Ha & _); [reflexivity|rewrite Ha0; lia|].
  rewrite Ha0 in Ha.
  exists w'. split; [exact H1|]. split; [|exact Ha].
  vm_compute in H1. by injection H1 as <-.
Defined.

(** ** Operations on a task while it is being executed *)

Lemma removeTask_registered (name : string) (p : TaskPtr) (w : World) :
  registry_sync w -> tasks_ w !! name = Some p ->
  exists l1 l2,
    all_tasks_ (scheduler_ w) = l1 ++ p :: l2 /\ (p ∉ (l1 ++ l2)) /\
    removeTask name w
    = with_tasks (delete name (tasks_ w))
        (with_store (call terminate p (store w))
           (with_scheduler
              (set_task_symbols (delete p (task_symbols_ (scheduler_ w)))
                 (set_all_tasks (l1 ++ l2) (scheduler_ w)))
              w)).
Proof.
  intros (Hnd & Hval & Hsync) Hname. unfold removeTask. rewrite Hname.
  pose proof (proj1 (Hsync name p) Hname) as [Hin Hn].
  unfold Scheduler_removeTask.
  destruct (find_by_name _ _ _ _) as [[i p']|] eqn:Hfind.
  - destruct (find_by_name_Some _ _ _ _ _ _ Hfind) as (l1 & l2 & Hl & -> & Hn' & Hab).
    assert (p' = p) as ->.
    { assert (H1 : tasks_ w !! name = Some p').
      { apply Hsync. split; [|done]. rewrite Hl. apply elem_of_app. right. by left. }
      congruence. }
    exists l1, l2. split; [done|]. split.
    + rewrite Hl in Hnd. apply NoDup_app in Hnd as (_ & Hdisj & Hnd2).
      apply NoDup_cons in Hnd2 as [Hp2 _].
      intros Hq. apply elem_of_app in Hq as [Hq|Hq]; [|done].
      apply (Hdisj p Hq). by left.
    + simpl. by rewrite Hl, delete_middle_length.
  - exfalso. apply find_by_name_None in Hfind. by apply (Hfind p Hin).
Qed.

(** X27.  What is done to a task while its handler runs does not outlast the
    handler: [execute()] sets the state when the handler ends, without
    looking at it.  A task suspended through its pointer ([Task::suspend()];
    [Kernel::suspendTask] does not return) during its execution is READY, not
    SUSPENDED, when its handler has returned.  A task removed by name during
    its execution is gone from the registry and from the scheduler's list,
    but its object, TERMINATED by the removal, is READY again when the
    handler has returned, and the dispatcher puts it back in the ready queue
    if its time slice has expired: the removed task will be executed
    again. *)
Theorem operations_during_execution_are_undone (w : World) (start_time : Z)
    (p : TaskPtr) (name : string) (o : HandlerOutcome) (t_end now t_static : Z) :
  registry_sync w ->
  dispatcher w = InHandler start_time ->
  current_task_ (scheduler_ w) = Some p ->
  tasks_ w !! name = Some p ->
  let after := match o with
               | Returns => READY
               | Throws => if recoverable_ (deref (store w) p) then READY
                           else TERMINATED
               end in
  (exists w1 w',
     run [TaskMethod p CSuspend] w = Some w1 /\
     (state_ (deref (store w) p) = RUNNING ->
      state_ (deref (store w1) p) = SUSPENDED) /\
     run [DispatcherReturn o] w1 = Some w' /\
     state_ (deref (store w') p) = after) /\
  (forall w',
     run [KRemoveTask name; DispatcherReturn o;
          DispatcherEnd t_end now t_static] w = Some w' ->
     getTask name w' = None /\
     (p ∉ all_tasks_ (scheduler_ w')) /\
     state_ (deref (store w') p) = after /\
     (time_slice_expired now w p = true -> after = READY ->
      p ∈ ready_queue_ (scheduler_ w'))).
Proof.
  intros HI Hpc Hcur Hname. cbv zeta.
  assert (Hlt : (p < length (store w))%nat).
  { destruct HI as (_ & Hval & Hsync). apply Hval. by apply (Hsync name p). }
  destruct (lookup_lt_is_Some_2 _ _ Hlt) as [t Hp].
  rewrite (deref_lookup _ _ _ Hp). split.
  - set (w1 := with_store (<[p := suspend t]> (store w)) w).
    assert (Hp1 : store w1 !! p = Some (suspend t))
      by (by apply list_lookup_insert_eq).
    exists w1, (schedulerLoop_return o w1).
    split; [|split; [|split; [done|]]].
    + simpl. unfold on_store_opt, call_opt. rewrite (deref_lookup _ _ _ Hp). done.
    + intros Hst. rewrite (deref_lookup _ _ _ Hp1). unfold suspend.
      rewrite decide_True by congruence. done.
    + unfold schedulerLoop_return.
      change (dispatcher w1) with (dispatcher w).
      change (current_task_ (scheduler_ w1)) with (current_task_ (scheduler_ w)).
      rewrite Hpc, Hcur. simpl. rewrite (deref_call_same _ _ _ _ Hp1).
      assert (Hr : recoverable_ (suspend t) = recoverable_ t)
        by (unfold suspend; by destruct (decide _)).
      destruct o; simpl; [done|]. rewrite Hr. by destruct (recoverable_ t).
  - intros w' Hrun.
    destruct (removeTask_registered name p w HI Hname) as (l1 & l2 & Hl & Hnin & Hw1).
    set (w1 := removeTask name w) in *.
    assert (Hrun1 : run [DispatcherReturn o; DispatcherEnd t_end now t_static] w1
                    = Some w') by exact Hrun.
    assert (Hpc1 : dispatcher w1 = InHandler start_time) by (by rewrite Hw1).
    assert (Hcur1 : current_task_ (scheduler_ w1) = Some p) by (by rewrite Hw1).
    assert (Hp1 : store w1 !! p = Some (terminate t)).
    { rewrite Hw1. simpl. unfold call. rewrite (deref_lookup _ _ _ Hp).
      by apply list_lookup_insert_eq. }
    destruct (return_end_recovery w1 w' start_time p (terminate t) o
                t_end now t_static Hpc1 Hcur1 Hp1 Hrun1) as [_ Hstate].
    simpl in Hstate.
    (* the two dispatcher steps, one by one *)
    simpl in Hrun1. set (w2 := schedulerLoop_return o w1) in *.
    destruct (schedulerLoop_end t_end now t_static w2) as [w3|] eqn:Hend; [|done].
    simpl in Hrun1. injection Hrun1 as ->.
    assert (Hl2 : lists w2 = lists w1).
    { apply (step_lists (DispatcherReturn o) w1 w2); done. }
    assert (Hl3 : lists w' = lists w2).
    { apply (step_lists (DispatcherEnd t_end now t_static) w2 w'); done. }
    unfold lists in Hl2, Hl3. injection Hl2 as Ht2 Ha2 _. injection Hl3 as Ht3 Ha3 _.
    split; [|split; [|split]].
    + unfold getTask. rewrite Ht3, Ht2, Hw1. simpl. apply lookup_delete_eq.
    + rewrite Ha3, Ha2, Hw1. simpl. exact Hnin.
    + exact Hstate.
    + intros Hex Hready.
      assert (Hw2 : w2 = with_dispatcher (AfterExecute start_time)
                           (on_store (call (execute_end o) p) w1)).
      { unfold w2, schedulerLoop_return. by rewrite Hpc1, Hcur1. }
      assert (Hpc2 : dispatcher w2 = AfterExecute start_time) by (by rewrite Hw2).
      assert (Hcur2 : current_task_ (scheduler_ w2) = Some p) by (by rewrite Hw2).
      destruct (schedulerLoop_account_fields t_end w2 start_time p Hpc2 Hcur2)
        as (Hpc3 & Hcur3 & Hf3 & Hex3 & _).
      unfold schedulerLoop_end, schedulerLoop_reschedule in Hend.
      rewrite Hpc3 in Hend.
      destruct (schedulerLoop_tail_requeue now t_static _ w' p Hcur3 Hend)
        as (_ & Hstore & _ & _ & _ & Hin & _).
      assert (Hex2 : time_slice_expired now w2 p = true).
      { rewrite <- Hex. unfold time_slice_expired.
        assert (Hpol : policy_ (deref (store w2) p) = policy_ (deref (store w) p)).
        { rewrite Hw2. simpl. rewrite (deref_call_same _ _ _ _ Hp1).
          rewrite (deref_lookup _ _ _ Hp). destruct o; simpl; [done|].
          by destruct (negb _). }
        rewrite Hpol. rewrite Hw2, Hw1. done. }
      apply Hin.
      * by rewrite Hex3, Hex2.
      * rewrite <- Hstore. by rewrite Hstate.
Qed.

(** B, PREEMPTIVE with a slice of 50 ms, is removed while it runs; its
    handler returns after 60 ms: B is in no list, and READY in the queue. *)
Lemma operations_during_execution_are_undone_witness :
  exists w w',
    run [KCreateTask "B" 80 PREEMPTIVE 0 0 false; KStart 1000000;
         DispatcherBegin 2000000 2000000 2000000 2000000] (Kernel_new 0) = Some w /\
    run [KRemoveTask "B"; DispatcherReturn Returns;
         DispatcherEnd 62000000 62000000 62000000] w = Some w' /\
    getTask "B" w' = None /\ all_tasks_ (scheduler_ w') = [] /\
    state_ (deref (store w') 0%nat) = READY /\
    0%nat ∈ ready_queue_ (scheduler_ w').
Proof.
  set (es := _ :: _).
  destruct (run es (Kernel_new 0)) as [w|] eqn:Hrun; [|by vm_compute in Hrun].
  assert (HI : registry_sync w).
  { apply (run_registry_sync es (Kernel_new 0) w);
      [apply Kernel_new_registry_sync|by vm_compute|done]. }
  assert (Hw : dispatcher w = InHandler 2000000 /\
               current_task_ (scheduler_ w) = Some 0%nat /\
               tasks_ w !! "B" = Some 0%nat /\
               time_slice_expired 62000000 w 0%nat = true).
  { vm_compute in Hrun. injection Hrun as <-. split; [done|]. split; [done|].
    split; vm_compute; reflexivity. }
  destruct Hw as (Hpc & Hcur & Hname & Hex).
  destruct (run [KRemoveTask "B"; DispatcherReturn Returns;
                 DispatcherEnd 62000000 62000000 62000000] w) as [w'|] eqn:H2;
    [|by vm_compute in Hrun; injection Hrun as <-; vm_compute in H2].
  destruct (operations_during_execution_are_undone w 2000000 0%nat "B" Returns
              62000000 62000000 62000000 HI Hpc Hcur Hname) as [_ Hrem].
  destruct (Hrem w' H2) as (Hg & _ & Hst & Hq).
  assert (Hall : all_tasks_ (scheduler_ w') = []).
  { vm_compute in Hrun. injection Hrun as <-. vm_compute in H2.
    by injection H2 as <-. }
  exists w, w'. split; [reflexivity|]. split; [exact H2|]. split; [exact Hg|].
  split; [exact Hall|]. split; [exact Hst|]. by apply Hq.
Defined.

(** ** The text display *)

Lemma set_task_symbols_same (w : World) :
  on_sched (set_task_symbols (task_symbols_ (scheduler_ w))) w = w.
Proof. destruct w as [h s m pc]. by destruct s. Qed.

Lemma symbols_cover_nonempty (w : World) :
  symbols_cover w -> all_tasks_ (scheduler_ w) <> [] ->
  task_symbols_ (scheduler_ w) <> ∅.
Proof.
  intros Hc Hne Hempty. destruct (all_tasks_ (scheduler_ w)) as [|p l] eqn:Hl; [done|].
  destruct (Hc p) as [c Hp]; [rewrite Hl; by left|].
  rewrite Hempty in Hp. by rewrite lookup_empty in Hp.
Qed.

Lemma createTask_symbols_cover (name : string) (priority : Z)
    (policy : SchedulePolicy) (period deadline : Z) (recoverable : bool) (w : World) :
  symbols_cover w ->
  symbols_cover (snd (createTask name priority policy period deadline recoverable w)).
Proof.
  intros Hc. unfold createTask. destruct (tasks_ w !! name); [done|].
  unfold symbols_cover. simpl. intros q Hq.
  destruct (decide (q = length (store w))) as [->|Hne].
  - rewrite lookup_insert_eq. by eexists.
  - rewrite lookup_insert_ne by done. apply Hc.
    apply elem_of_app in Hq as [Hq|Hq]; [done|].
    by apply list_elem_of_singleton in Hq.
Qed.

Lemma Scheduler_removeTask_symbols_cover (name : string) (w : World) :
  NoDup (all_tasks_ (scheduler_ w)) -> symbols_cover w ->
  symbols_cover (Scheduler_removeTask name w).
Proof.
  intros Hnd Hc. unfold Scheduler_removeTask.
  destruct (find_by_name _ _ _ _) as [[i p]|] eqn:Hfind; [|done].
  destruct (find_by_name_Some _ _ _ _ _ _ Hfind) as (l1 & l2 & Hl & -> & _ & _).
  unfold symbols_cover. simpl. rewrite Hl, delete_middle_length. intros q Hq.
  rewrite Hl in Hnd. apply NoDup_app in Hnd as (_ & Hdisj & Hnd2).
  apply NoDup_cons in Hnd2 as [Hp2 _].
  assert (Hqp : q <> p).
  { intros ->. apply elem_of_app in Hq as [Hq|Hq]; [|done].
    apply (Hdisj p Hq). by left. }
  rewrite lookup_delete_ne by done. apply Hc. rewrite Hl.
  apply elem_of_app in Hq as [Hq|Hq]; apply elem_of_app; [by left|].
  right. by right.
Qed.

Lemma step_symbols_cover (e : Event) (w w' : World) :
  registry_sync w -> symbols_cover w -> bypasses_kernel e = false ->
  step e w = Some w' -> symbols_cover w'.
Proof.
  intros HI Hc He Hs. destruct (changes_lists e) eqn:Hch.
  - destruct e; try done; simpl in Hs; injection Hs as <-.
    + by apply createTask_symbols_cover.
    + unfold removeTask. destruct (tasks_ w !! name); [|done].
      destruct HI as (Hnd & _).
      pose proof (Scheduler_removeTask_symbols_cover name w Hnd Hc) as H.
      unfold symbols_cover in *. simpl. exact H.
  - pose proof (step_lists e w w' Hch Hs) as Hl. unfold lists in Hl.
    injection Hl as _ Ha Hsym. unfold symbols_cover. by rewrite Ha, Hsym.
Qed.

Lemma run_symbols_cover (es : list Event) : forall w w',
  registry_sync w -> symbols_cover w ->
  forallb (fun e => negb (bypasses_kernel e)) es = true ->
  run es w = Some w' -> symbols_cover w'.
Proof.
  induction es as [|e es IH]; simpl; intros w w' HI Hc Hes.
  - by intros [= <-].
  - apply andb_true_iff in Hes as [He Hes]. apply negb_true_iff in He.
    destruct (step e w) as [w1|] eqn:Hs; [|done]. simpl.
    apply IH; [by eapply step_registry_sync|by eapply step_symbols_cover|done].
Qed.

(** X25.  [getTaskStateVisualization] returns the fixed message, and changes
    nothing, when the scheduler has no task.  It can change the scheduler
    only in one case: tasks in the list and no symbol at all, when it gives
    the tasks the symbols from 'A' on.  In every state reached from a new
    kernel with tasks added and removed through the kernel only, every task
    of the list has the symbol [addTask] gave it, so the call changes nothing
    and never prints '?' for a task. *)
Theorem visualization_is_read_only (now : Z) (es : list Event) (w : World) :
  run es (Kernel_new now) = Some w ->
  forallb (fun e => negb (bypasses_kernel e)) es = true ->
  snd (getTaskStateVisualization w) = w /\
  (forall p, p ∈ all_tasks_ (scheduler_ w) ->
             exists c, task_symbols_ (scheduler_ w) !! p = Some c /\
                       symbol_of (task_symbols_ (scheduler_ w)) p = c) /\
  (all_tasks_ (scheduler_ w) = [] ->
   fst (getTaskStateVisualization w)
   = "No tasks registered in the scheduler."%string).
Proof.
  intros Hrun Hes.
  assert (Hc : symbols_cover w).
  { apply (run_symbols_cover es (Kernel_new now) w); try done.
    - apply Kernel_new_registry_sync.
    - intros p Hp. by apply elem_of_nil in Hp. }
  split; [|split].
  - unfold getTaskStateVisualization.
    destruct (all_tasks_ (scheduler_ w)) as [|p l] eqn:Hl; [done|].
    cbv zeta. cbn [snd]. rewrite decide_False; [apply set_task_symbols_same|].
    apply symbols_cover_nonempty; [done|]. by rewrite Hl.
  - intros p Hp. destruct (Hc p Hp) as [c Hpc]. exists c. split; [done|].
    unfold symbol_of. by rewrite Hpc.
  - intros Hl. unfold getTaskStateVisualization. by rewrite Hl.
Qed.

Lemma visualization_is_read_only_witness :
  exists w,
    run [KCreateTask "alpha" 10 PREEMPTIVE 0 0 false;
         KCreateTask "beta" 80 PREEMPTIVE 0 0 false;
         KCreateTask "gamma" 40 PREEMPTIVE 0 0 false;
         KRemoveTask "alpha";
         TaskMethod 2%nat CSuspend] (Kernel_new 0) = Some w /\
    snd (getTaskStateVisualization w) = w /\
    fst (getTaskStateVisualization w)
    = ("Time | B C | Tasks" ++ newline
       ++ "-----|-----|---------" ++ newline
       ++ "now  | . S | B:beta(80), C:gamma(40)")%string.
Proof.
  set (es := _ :: _).
  destruct (run es (Kernel_new 0)) as [w|] eqn:Hrun; [|by vm_compute in Hrun].
  assert (Hes : forallb (fun e => negb (bypasses_kernel e)) es = true)
    by (vm_compute; reflexivity).
  destruct (visualization_is_read_only 0 es w Hrun Hes) as (Hsame & _).
  exists w. split; [reflexivity|]. split; [exact Hsame|].
  vm_compute in Hrun. injection Hrun as <-. vm_compute. reflexivity.
Defined.
